(* ===== verification/_CoqProject ===== *)
-Q . S2P
Prelude.v
GoStd.v
GoFloat.v
BinlogValue.v
DecimalFacts.v
ValueFacts.v
BinlogEvent.v
EventFacts.v
ReplServer.v
ServerFacts.v
ServerOrder.v
ServerWire.v
PGStreamer.v
StreamerFacts.v
StreamerLoop.v
BinlogWriter.v
WriterFacts.v
WriterFaults.v
SchemaCache.v
Session.v
GoStrings.v
SQLText.v
SQLPasses.v
SQLWords.v
SQLLoops.v
SQLTotal.v
SQLDiverge.v
SQLSettles.v
SQLReturns.v
Rewriter.v
RewriterFacts.v
SQLClauses.v
ACL.v
TypeMap.v
Visitor.v
Detector.v
PgDriver.v
Mapper.v
Variables.v
ShowEmul.v
ReplAdmin.v
Backup.v
Pool.v
ReqTrack.v
Metrics.v
HandlerText.v
TextFacts.v
Handler.v
HandlerFacts.v
HandlerRuns.v
Connection.v
System.v
Observability.v
Startup.v
