(* ===== verification/Prelude.v ===== *)
(** * MyProxy: a verification development

    MyProxy is a proxy, written in Go, that lets MySQL clients use a PostgreSQL
    server.  It has three paths:

    - the query path: [pkg/protocol/mysql] accepts MySQL connections,
      [pkg/sqlrewrite] rewrites the statements, [pkg/mapper] translates types
      and errors, [pkg/session] keeps the per-connection state over a
      PostgreSQL connection of [internal/pool], and [pkg/schema] caches what
      the catalogue says about tables;
    - the change-data-capture path: [pkg/replication/pg_streamer.go] receives
      PostgreSQL's logical replication stream, [pkg/replication/server.go]
      turns it into MySQL binlog events for every connected replica, and
      [pkg/replication/binlog_encoder.go] encodes them;
    - the statement log: [pkg/binlog] writes the executed statements to
      rotating log files.

    This library models all three.  On the query path a statement goes
    [Handler.HandleQuery] -> [Rewriter.Rewrite] -> [SQLPasses.PostProcess] ->
    PostgreSQL -> [HandlerText.buildMySQLResult].  Code the repository only
    calls is a class or an argument: the TiDB parser ([SQLParser]), pgx
    ([PgDriver], [PgConn]), pgtype ([NumericText]), pglogrepl ([LogRepl]),
    go-mysql ([LenEnc], [ResultsetBuilder]) and encoding/json.

    ** Files, in dependency order

    - [Prelude]: bytes, machine-width integers with their wrap-around, Go's
      results ([res]: value, error or panic), the state monad [st], byte
      buffers with Go's bounds checks, and their lemmas and tactics.
    - [GoStd], [GoFloat]: the parts of Go's standard library the sources use
      ([fmt.Sscanf], [strconv], [time], [strings], [hash/crc32], floats by bit
      pattern); [GoFloat] proves that parsing a float rounds correctly.
    - [BinlogValue]: the column encoders of [binlog_encoder.go] (lines
      496-1311), one definition per Go function; [DecimalFacts] and
      [ValueFacts] give the readers the binlog format prescribes and prove the
      round trips and the framing of every column type.
    - [BinlogEvent]: the event encoders.  go-mysql's
      [PutLengthEncodedInt] is the class [LenEnc] with its law [LenEncLaws];
      [EventFacts] proves the round trips of events, table maps and rows.
    - [ReplServer]: [server.go], the record [Server] and one definition per
      method; [ServerFacts] proves what a replica reads from the events of a row
      change, [ServerOrder] the transaction structure, GTIDs, UUIDs and the
      hand-built events.  [ServerWire] has the goroutines that write to the
      replicas, with a packet's number and its write as separate steps, and
      proves what reaches a replica under every interleaving.
    - [PGStreamer]: [pg_streamer.go], the record [PGStreamer] and one definition
      per method; pglogrepl's parsers are the class [LogRepl].
      [StreamerFacts] proves that values and an INSERT reach the replica,
      [StreamerLoop] the order of the stream, event loss, checkpoints and
      reconnection.
    - [BinlogWriter]: [pkg/binlog/binlog.go] over a model of the directory and
      of failing file operations; [WriterFacts] proves that the log is a
      journal of the accepted events under every interleaving of its
      goroutines, [WriterFaults] clean-up, reading and the failure cases.
    - [SchemaCache]: [pkg/schema/cache.go], the global cache, its expiry and the
      catalogue queries as functions of the catalogue at a time.
    - [Session]: [pkg/session/session.go] over the class [PgConn] of PostgreSQL
      connections with the laws [PgConnLaws]; its transaction state machine
      refines an abstract one.

    - [GoStrings]: Go's [strings] package and code that may panic or not
      return ([run]: value, panic, or out of fuel), with total and diverging
      search loops.
    - [SQLText], [SQLPasses]: the text passes of
      [pkg/sqlrewrite/pg_generator.go], one definition per pass and per loop
      body.  [SQLWords] gives the type replacement a declarative reading,
      [SQLLoops], [SQLTotal], [SQLDiverge], [SQLSettles] and [SQLReturns] say
      which passes return and which do not, [SQLClauses] what LIMIT and the
      parenthesis scan compute.
    - [Rewriter]: [rewriter.go], [ast_rewriter_v3.go] and [stmt_parser.go] over
      the class [SQLParser]; [RewriterFacts] its placeholders and its errors.
    - [ACL]: [rewrite_acl.go].  [TypeMap]: [type_mapper.go] and the column
      types and tables of [ast_visitor.go]; [Visitor]: its [Enter] and
      [Leave], on any sequence of nodes.  [Detector]:
      [unsupported_detector.go] with the regular expressions of its table.
    - [PgDriver]: the error monad [io] of code that talks to PostgreSQL (value,
      error, panic, or no return) and the class of driver operations.
    - [Mapper]: [pkg/mapper/types.go] and [errors.go]; [Variables]:
      [variables.go]; [ShowEmul]: [show.go] and [show_admin.go]; [ReplAdmin]:
      [pkg/admin/replication.go]; [Backup]: [pkg/admin/backup.go] over a class
      [Host] of the operating system and the tools.
    - [Pool]: [internal/pool/pool.go]; [ReqTrack]: [pkg/reqtrack/tracker.go];
      [Metrics]: [pkg/observability/metrics.go].
    - [HandlerText], [Handler]: [pkg/protocol/mysql/handler.go].  The record
      [Proxy] holds a connection handler with what it shares with the others;
      PostgreSQL connections are pointers into a heap, so the handler, its
      session and the pool share them as in the code.  [TextFacts],
      [HandlerFacts] and [HandlerRuns] hold the theorems, [Connection] the
      goroutine of [cmd/aproxy/main.go] that serves a client, and the
      witnesses that need a driver.  What a command may change is proved once
      for every relation of the classes [Frame] and [CallFrame].
    - [System]: the process with any number of clients.  Its state has all
      connection handlers and the shared parts, its steps are the commands of
      the clients in any order, clients that come and go, and what PostgreSQL
      does to the connections by itself or because of another client.
    - [Observability]: [pkg/observability/logger.go] with its redaction, the log
      lines of the handler that print a statement, and the gauge of active
      connections over a history of [System].
    - [Startup]: [internal/config/config.go] and [main] from the configuration
      file to the process that [System] takes over.

    ** Conventions

    A Go integer is a [Z] in the range of its type; conversions write [wrap] or
    [swrap] out.  Strings and byte slices are lists of bytes.  A nil slice or
    pointer is [None] where the code tests for it.  A stateful function returns
    its result together with the state it leaves, also on an error or a panic.
    Maps are [gmap]s where the order of iteration cannot matter.  The clock, the
    outcome of writes, of calls to PostgreSQL and of channel operations are
    arguments (oracles indexed by attempt), so the theorems hold for every
    sequence of failures.  Goroutines are sequences of atomic steps, one per
    critical section; theorems about them quantify over all interleavings.  In
    [System] a whole command is one step; the handler's parts are its own, and
    the shared ones are guarded by mutexes and touched by single calls, except
    for the SQL parser, which the clients share without a lock: every command
    comes with a parser of its own, whatever the others made of it.  A call
    that does not return leaves its goroutine where it is.  A COM_QUIT is the
    last command of a client: go-mysql closes the connection, so the next
    [HandleCommand] of the loop fails.  The gauge of connections and the count
    of queries are part of the handler; the log lines are left out of it and
    modelled in [Observability].

    ** Fuel and bounds

    Recursions that are not structural take fuel: printing a number uses one
    unit per bit plus one, which bounds its digits; reading rows or packets uses
    the length of the input, and every row or packet consumes a byte.  The
    theorems prove that this fuel suffices.  The loops of the SQL passes search
    a text that they change, and some of them do not end in the code either:
    their fuel is a parameter, more fuel never changes a result, and the
    theorems say for which texts some fuel is enough and for which none is.
    The size bounds in the statements (4 GiB per event, 2^24 per packet, 255 or
    65535 bytes per text column, 2^62 ns of backoff) are those of the length
    fields and integer types of the code; what happens beyond several of them
    is a theorem too.

    ** What the theorems show

    - Replication delivers: an INSERT message ends up at the replica as the same
      row ([StreamerFacts.insert_pipeline]), through per-type round trips,
      table maps and rows events, frames and packets; every client gets every
      change, in order but not always in the order of the packet numbers
      ([ServerWire.client_delivery]); transactions, values, GTIDs and the WAL
      order are kept ([StreamerLoop.stream_faithful],
      [ServerOrder.transaction_groups], [ServerOrder.gtid_sequence]);
      checkpoints survive faults ([StreamerLoop.checkpoint_recovery]), and
      reconnection works as far as PostgreSQL can be reached
      ([StreamerLoop.reconnect_backoff]).
    - The statement log is a journal ([WriterFacts.binlog_journal]) that can be
      read back from any event ([WriterFaults.ReadFrom_journal]).
    - Many clients: no two ever have the same PostgreSQL connection
      ([System.connections_private]), what others do reaches a client only
      through PostgreSQL ([System.clients_do_not_interfere]), and its
      transactions are those that the proxy's rules give for its own statements
      however others are interleaved, MySQL's as long as autocommit is on
      ([System.interleaved_transactions], over the refinements
      [HandlerRuns.client_transactions] and [Session.transactions_refine]).
    - The query path: a query touches nothing but its own connection
      ([HandlerFacts.query_isolated]), is tracked while it runs
      ([HandlerFacts.query_tracked]) and works in the selected database, if that
      has a plain name ([HandlerFacts.database_selected]); a replica's dump
      command blocks until its stream ends
      ([HandlerRuns.binlog_dump_command]); results have types the encoder
      accepts and the fields of their columns
      ([TextFacts.result_rows_formattable], [TextFacts.buildMySQLResult_spec]).
    - Rewriting: it never panics and always yields a text, unless a pass does
      not return ([RewriterFacts.Rewrite_never_fails],
      [SQLSettles.PostProcess_settles], [SQLReturns.PostProcess_returns],
      [SQLSettles.PostProcess_hangs]); types, placeholders, passwords and
      LIMIT are converted as specified ([SQLWords.convertTypes_words],
      [RewriterFacts.placeholders_numbered],
      [RewriterFacts.fallback_prepared], [ACL.password_literal],
      [TypeMap.convertColumnType_range]), names as far as they need no
      quoting or have no double quote ([ACL.identifier_boundary]), and the
      visitor never stops a walk ([Visitor.visitor_walk]).
    - The schema cache is never staler than its time to live, lookups without
      a connection aside ([SchemaCache.auto_increment_staleness]), the pool gives a session its
      own connection ([Pool.dedicated_connections]), and the tracker lists
      exactly the requests in flight ([ReqTrack.tracked_in_flight]).  Backups
      report their size ([Backup.dirSize_spec]) and are restored with the tool
      of their format ([Backup.restore_tool_matches]).
    - Where the code does not do what it means to, a theorem says so: a TRUNCATE
      breaks the transaction structure, NUMERIC is cut to DECIMAL(10,2), a
      dropped event is acknowledged, unchanged TOAST columns become NULL
      without an old tuple, GTID events are encoded empty, a failed COMMIT or
      an oversized log record leaves the program out of step; a parser panic
      or a statement that ends in INSERT INTO ends the process, a closed
      prepared statement makes the next one replace an open one, sessions
      outlive clients that just go away and are counted as active
      ([Observability.active_gauge]), a KILL leaves a session in a transaction
      that is over ([System.killed_transaction]), redaction shows the start of a
      long statement and misses other log lines
      ([Observability.redaction_reveals]), statements over several lines escape
      the detector ([Detector.limit_detected]), a cache that is turned
      off still caches ([Startup.disabled_cache_caches]), pg_restore is given
      no archive, and the replication that [main] starts has no checkpoints
      ([Startup.deployed_replication]).

    ** Not modelled

    The shutdown of [main], which runs beside the goroutines of the clients, and
    [Stop] of the replication server beside its writers; YAML decoding, the
    order in which the parser visits a syntax tree, pgxpool,
    zap and Prometheus (libraries); the HTTP handlers that print the requests in
    flight and the metrics; sockets and the MySQL handshake (go-mysql); the
    programs [cmd/test-canal] and [tools], which connect to running servers and
    print what they see. *)

From Stdlib Require Import ZArith Lia.
From stdpp Require Import base numbers list strings gmap.
Open Scope Z_scope.

(** ** Bytes and fixed-width integers

    A Go [byte], [uintN] or [intN] is a [Z] in the range of its type; every
    conversion writes its wrap-around out.  A Go [string] and a [[]byte] are
    both a list of bytes. *)

Abbreviation bytes := (list Z).

(** [uintN(z)]. *)
Definition wrap (w z : Z) : Z := z mod 2 ^ w.

(** [intN(z)]: two's complement truncation. *)
Definition swrap (w z : Z) : Z := (z + 2 ^ (w - 1)) mod 2 ^ w - 2 ^ (w - 1).

Definition to_byte (z : Z) : Z := wrap 8 z.

Definition is_byte (z : Z) : Prop := 0 <= z < 256.

Definition in_width (w z : Z) : Prop := 0 <= z < 2 ^ w.

Definition in_swidth (w z : Z) : Prop := - 2 ^ (w - 1) <= z < 2 ^ (w - 1).

(** The bytes of an ASCII literal. *)
Fixpoint str (s : string) : bytes :=
  match s with
  | EmptyString => []
  | String a s' => Z.of_N (Ascii.N_of_ascii a) :: str s'
  end.

(** ** Results

    Go's [(T, error)] results, with a third outcome for a run-time panic (an
    index or slice out of range, a nil dereference). *)
Inductive res (A : Type) : Type :=
| Ok (a : A)
| Err (msg : bytes)
| Panic.
Arguments Ok {A}.
Arguments Err {A}.
Arguments Panic {A}.

Definition rbind {A B} (c : res A) (k : A -> res B) : res B :=
  match c with
  | Ok a => k a
  | Err m => Err m
  | Panic => Panic
  end.

Declare Scope go_scope.
Delimit Scope go_scope with go.
Notation "x <~ c ; k" := (rbind c (fun x => k))
  (at level 100, c at next level, right associativity) : go_scope.
Open Scope go_scope.

Lemma rbind_ok {A B} (a : A) (k : A -> res B) : rbind (Ok a) k = k a.
Proof. reflexivity. Qed.

(** Stateful code: the state a call leaves behind is kept on every outcome, an
    error or a panic included. *)
Definition st (S A : Type) : Type := S -> res A * S.

Definition sret {S A} (a : A) : st S A := fun s => (Ok a, s).
Definition serr {S A} (m : bytes) : st S A := fun s => (Err m, s).
Definition spanic {S A} : st S A := fun s => (Panic, s).
Definition slift {S A} (r : res A) : st S A := fun s => (r, s).
Definition sbind {S A B} (c : st S A) (k : A -> st S B) : st S B :=
  fun s => match c s with
           | (Ok a, s') => k a s'
           | (Err m, s') => (Err m, s')
           | (Panic, s') => (Panic, s')
           end.
Definition sget {S A} (f : S -> A) : st S A := fun s => (Ok (f s), s).
Definition smod {S} (f : S -> S) : st S unit := fun s => (Ok tt, f s).
(** [if err := c; err != nil { ... }] with the error handled here. *)
Definition stry {S A} (c : st S A) : st S (res A) :=
  fun s => match c s with
           | (Panic, s') => (Panic, s')
           | (r, s') => (Ok r, s')
           end.

Notation "x <- c ;; k" := (sbind c (fun x => k))
  (at level 100, c at next level, right associativity) : go_scope.
Notation "c ;;; k" := (sbind c (fun _ => k)) (at level 100, right associativity) : go_scope.

(** ** Little- and big-endian integers *)

Fixpoint le_bytes (n : nat) (z : Z) : bytes :=
  match n with
  | O => []
  | S k => to_byte z :: le_bytes k (Z.shiftr z 8)
  end.

Fixpoint le_val (l : bytes) : Z :=
  match l with
  | [] => 0
  | b :: t => b + 256 * le_val t
  end.

Definition be_bytes (n : nat) (z : Z) : bytes := rev (le_bytes n z).

Definition be_val (l : bytes) : Z := le_val (rev l).

(** ** Byte buffers

    [make([]byte, n)], [copy(buf[pos:], src)] (which truncates the source to
    the room left) and the stores [buf[pos] = b] and [PutUintN(buf[pos:], v)]
    (which panic when they do not fit). *)

Definition make_bytes (n : nat) : bytes := replicate n 0.

Definition put_at (pos : nat) (d buf : bytes) : res bytes :=
  if decide (pos + length d <= length buf)%nat
  then Ok (take pos buf ++ d ++ drop (pos + length d) buf)
  else Panic.

Definition copy_at (pos : nat) (src buf : bytes) : res bytes :=
  if decide (pos <= length buf)%nat
  then put_at pos (take (length buf - pos) src) buf
  else Panic.

Definition set_at (pos : nat) (b : Z) (buf : bytes) : res bytes :=
  put_at pos [b] buf.

(** The loop [for i := 0; i < n; i++ { buf[pos+i] = b }]. *)
Fixpoint fill_at (pos n : nat) (b : Z) (buf : bytes) : res bytes :=
  match n with
  | O => Ok buf
  | S k => buf' <~ set_at pos b buf; fill_at (S pos) k b buf'
  end.

(** * Lemmas *)

(** [lia] with division and remainder by constants. *)
Ltac zlia := Z.to_euclidean_division_equations; lia.

(** ** Widths *)

Create HintDb width.

Lemma wrap_range w z : 0 <= w -> in_width w (wrap w z).
Proof. intros; unfold in_width, wrap. apply Z.mod_pos_bound. lia. Qed.

Lemma wrap_id w z : in_width w z -> wrap w z = z.
Proof. intros; unfold wrap. by apply Z.mod_small. Qed.

Lemma wrap_wrap v w z : 0 <= v <= w -> wrap v (wrap w z) = wrap v z.
Proof.
  intros H. unfold wrap. replace (2 ^ w) with (2 ^ v * 2 ^ (w - v)).
  - rewrite Z.rem_mul_r by lia.
    rewrite (Z.mul_comm (2 ^ v) (_ mod _)), Z.mod_add by lia.
    by rewrite Z.mod_mod by lia.
  - rewrite <- Z.pow_add_r by lia. f_equal; lia.
Qed.

Lemma swrap_id w z : 0 < w -> in_swidth w z -> swrap w z = z.
Proof.
  intros Hw H. unfold swrap, in_swidth in *.
  assert (2 ^ w = 2 * 2 ^ (w - 1)) as E.
  { rewrite <- Z.pow_succ_r by lia. f_equal; lia. }
  rewrite Z.mod_small; lia.
Qed.

Lemma swrap_range w z : 0 < w -> in_swidth w (swrap w z).
Proof.
  intros Hw. unfold swrap, in_swidth.
  assert (2 ^ w = 2 * 2 ^ (w - 1)) as E.
  { rewrite <- Z.pow_succ_r by lia. f_equal; lia. }
  pose proof (Z.mod_pos_bound (z + 2 ^ (w - 1)) (2 ^ w)). lia.
Qed.

(** Truncating a signed value keeps its low bits. *)
Lemma wrap_swrap v w z : 0 <= v <= w -> 0 < w -> wrap v (swrap w z) = wrap v z.
Proof.
  intros H Hw. rewrite <- (wrap_wrap v w z), <- (wrap_wrap v w (swrap w z)) by lia.
  f_equal. unfold wrap, swrap.
  rewrite Zminus_mod, Z.mod_mod, <- Zminus_mod by lia.
  f_equal. lia.
Qed.

Lemma swrap_wrap w z : 0 < w -> swrap w (wrap w z) = swrap w z.
Proof.
  intros Hw. unfold swrap, wrap. by rewrite Z.add_mod_idemp_l by lia.
Qed.

Lemma to_byte_is_byte z : is_byte (to_byte z).
Proof. apply (wrap_range 8); lia. Qed.

Lemma to_byte_id z : is_byte z -> to_byte z = z.
Proof. apply (wrap_id 8). Qed.

#[export] Hint Resolve to_byte_is_byte : width.

(** ** Endianness *)

Lemma le_bytes_length n z : length (le_bytes n z) = n.
Proof. revert z; induction n; intros; simpl; auto. Qed.

Lemma be_bytes_length n z : length (be_bytes n z) = n.
Proof. unfold be_bytes. by rewrite length_rev, le_bytes_length. Qed.

Lemma le_bytes_is_byte n z : Forall is_byte (le_bytes n z).
Proof.
  revert z; induction n; intros; simpl; constructor; auto with width.
Qed.

Lemma be_bytes_is_byte n z : Forall is_byte (be_bytes n z).
Proof. unfold be_bytes. apply Forall_rev, le_bytes_is_byte. Qed.

(** Reading back a little-endian store gives the value modulo [2^(8n)]. *)
Lemma le_val_bytes n z : le_val (le_bytes n z) = wrap (8 * Z.of_nat n) z.
Proof.
  revert z; induction n as [|n IH]; intros z.
  - simpl. unfold wrap. by rewrite Z.mod_1_r.
  - cbn [le_bytes le_val]. rewrite IH. unfold to_byte, wrap.
    rewrite Z.shiftr_div_pow2 by lia.
    replace (2 ^ (8 * Z.of_nat (S n))) with (2 ^ 8 * 2 ^ (8 * Z.of_nat n))
      by (rewrite <- Z.pow_add_r by lia; f_equal; lia).
    by rewrite Z.rem_mul_r by lia.
Qed.

Lemma be_val_bytes n z : be_val (be_bytes n z) = wrap (8 * Z.of_nat n) z.
Proof. unfold be_val, be_bytes. by rewrite rev_involutive, le_val_bytes. Qed.

Lemma le_bytes_wrap n w z : 8 * Z.of_nat n <= w -> le_bytes n (wrap w z) = le_bytes n z.
Proof.
  revert w z; induction n as [|n IH]; intros w z H; [done|]. cbn [le_bytes].
  f_equal.
  - unfold to_byte. apply wrap_wrap; lia.
  - rewrite <- (IH (w - 8) (Z.shiftr z 8)) by lia. f_equal.
    unfold wrap. rewrite !Z.shiftr_div_pow2 by lia.
    replace (2 ^ w) with (2 ^ 8 * 2 ^ (w - 8)) by (rewrite <- Z.pow_add_r by lia; f_equal; lia).
    rewrite Z.rem_mul_r by lia.
    rewrite (Z.mul_comm (2 ^ 8) (_ mod _)), Z.div_add by lia.
    rewrite (Z.div_small (z mod 2 ^ 8)); [lia|]. apply Z.mod_pos_bound; lia.
Qed.

Lemma le_bytes_snoc n v :
  le_bytes (S n) v = le_bytes n v ++ [to_byte (Z.shiftr v (8 * Z.of_nat n))].
Proof.
  revert v; induction n as [|n IH]; intros v; [by rewrite Z.shiftr_0_r|].
  change (le_bytes (S (S n)) v) with (to_byte v :: le_bytes (S n) (Z.shiftr v 8)).
  rewrite IH, Z.shiftr_shiftr by lia. cbn [le_bytes app].
  by replace (8 + 8 * Z.of_nat n) with (8 * Z.of_nat (S n)) by lia.
Qed.

(** A list of bytes is the little-endian form of its value. *)
Lemma le_bytes_val l : Forall is_byte l -> le_bytes (length l) (le_val l) = l.
Proof.
  induction 1 as [|b l Hb Hl IH]; [done|]. cbn [length le_bytes le_val].
  unfold is_byte in Hb. f_equal.
  - unfold to_byte, wrap. rewrite Z.mul_comm, Z.mod_add, Z.mod_small; lia.
  - rewrite Z.shiftr_div_pow2 by lia.
    rewrite Z.mul_comm, Z.div_add, (Z.div_small b), Z.add_0_l; [done|lia..].
Qed.

Lemma le_val_range l : Forall is_byte l -> in_width (8 * Z.of_nat (length l)) (le_val l).
Proof.
  intros H. rewrite <- (le_bytes_val l H), le_val_bytes, le_bytes_length.
  apply wrap_range. lia.
Qed.

Lemma le_val_app a b : le_val (a ++ b) = le_val a + 2 ^ (8 * Z.of_nat (length a)) * le_val b.
Proof.
  induction a as [|x a IH]; [simpl; lia|]. cbn [app le_val length]. rewrite IH.
  replace (8 * Z.of_nat (S (length a))) with (8 + 8 * Z.of_nat (length a)) by lia.
  rewrite Z.pow_add_r by lia. change (2 ^ 8) with 256. lia.
Qed.

(** ** Packed fields *)

Lemma lor_shiftl_add a b n : 0 <= n -> 0 <= b < 2 ^ n -> Z.lor (Z.shiftl a n) b = a * 2 ^ n + b.
Proof.
  intros Hn Hb. rewrite <- Z.shiftl_mul_pow2 by lia.
  assert (Z.land (Z.shiftl a n) b = 0) as Hl.
  { apply Z.bits_inj'. intros i Hi. rewrite Z.land_spec, Z.bits_0.
    destruct (Z.ltb_spec i n).
    - by rewrite Z.shiftl_spec_low.
    - rewrite <- (Z.mod_small b (2 ^ n)), Z.mod_pow2_bits_high by lia. by rewrite andb_false_r. }
  by rewrite <- Z.lxor_lor, <- Z.add_nocarry_lxor.
Qed.

Lemma lxor_width w a b : 0 <= w -> in_width w a -> in_width w b -> in_width w (Z.lxor a b).
Proof.
  unfold in_width. intros Hw Ha Hb. rewrite <- (Z.mod_small a (2 ^ w)), <- (Z.mod_small b (2 ^ w)) by lia.
  rewrite <- !Z.land_ones by lia.
  replace (Z.lxor (Z.land a _) _) with (Z.land (Z.lxor a b) (Z.ones w)).
  - rewrite Z.land_ones by lia. apply Z.mod_pos_bound. lia.
  - apply Z.bits_inj'. intros i Hi. rewrite !Z.lxor_spec, !Z.land_spec, !Z.lxor_spec.
    by destruct (Z.testbit a i), (Z.testbit b i), (Z.testbit (Z.ones w) i).
Qed.

Lemma shiftr_width w a n : 0 <= n -> in_width w a -> in_width w (Z.shiftr a n).
Proof.
  unfold in_width. intros Hn Ha. rewrite Z.shiftr_div_pow2 by lia.
  split; [apply Z.div_pos; lia|]. apply Z.div_lt_upper_bound; nia.
Qed.

(** Bytes stored from the most significant, as the sources write them. *)
Lemma be3_bytes v :
  [to_byte (Z.shiftr v 16); to_byte (Z.shiftr v 8); to_byte v] = be_bytes 3 v.
Proof. unfold be_bytes. cbn [le_bytes rev app]. by rewrite Z.shiftr_shiftr by lia. Qed.

Lemma le3_bytes v :
  [to_byte v; to_byte (Z.shiftr v 8); to_byte (Z.shiftr v 16)] = le_bytes 3 v.
Proof. cbn [le_bytes]. by rewrite Z.shiftr_shiftr by lia. Qed.

Lemma be4_bytes v :
  [to_byte (Z.shiftr v 24); to_byte (Z.shiftr v 16); to_byte (Z.shiftr v 8); to_byte v]
  = be_bytes 4 v.
Proof. unfold be_bytes. cbn [le_bytes rev app]. by rewrite !Z.shiftr_shiftr by lia. Qed.

Lemma be5_bytes v :
  [to_byte (Z.shiftr v 32); to_byte (Z.shiftr v 24); to_byte (Z.shiftr v 16);
   to_byte (Z.shiftr v 8); to_byte v] = be_bytes 5 v.
Proof. unfold be_bytes. cbn [le_bytes rev app]. by rewrite !Z.shiftr_shiftr by lia. Qed.

Lemma swrap_swrap v w z : 0 < v <= w -> swrap v (swrap w z) = swrap v z.
Proof.
  intros H. rewrite <- (swrap_wrap v (swrap w z)), wrap_swrap, swrap_wrap by lia. done.
Qed.

(** ** Buffers *)

Lemma put_at_zeros pre d m pos :
  length pre = pos -> (length d <= m)%nat ->
  put_at pos d (pre ++ replicate m 0) = Ok ((pre ++ d) ++ replicate (m - length d) 0).
Proof.
  intros <- Hd. unfold put_at. rewrite length_app, length_replicate.
  rewrite decide_True by lia. rewrite take_app_length, drop_app.
  rewrite (drop_ge pre) by lia. simpl.
  replace (length pre + length d - length pre)%nat with (length d) by lia.
  by rewrite drop_replicate, <- app_assoc.
Qed.

Lemma copy_at_zeros pre d m pos :
  length pre = pos -> (length d <= m)%nat ->
  copy_at pos d (pre ++ replicate m 0) = Ok ((pre ++ d) ++ replicate (m - length d) 0).
Proof.
  intros Hp Hd. unfold copy_at. rewrite length_app, length_replicate.
  rewrite decide_True by lia. rewrite take_ge by lia. by apply put_at_zeros.
Qed.

Lemma set_at_zeros pre b m pos :
  length pre = pos -> (1 <= m)%nat ->
  set_at pos b (pre ++ replicate m 0) = Ok ((pre ++ [b]) ++ replicate (m - 1) 0).
Proof. intros. by apply put_at_zeros. Qed.

Lemma fill_at_zeros n : forall pre b m pos,
  length pre = pos -> (n <= m)%nat ->
  fill_at pos n b (pre ++ replicate m 0) = Ok ((pre ++ replicate n b) ++ replicate (m - n) 0).
Proof.
  induction n as [|n IH]; intros pre b m pos Hp Hn; cbn [fill_at].
  - by rewrite app_nil_r, Nat.sub_0_r.
  - rewrite set_at_zeros by (auto; lia). rewrite rbind_ok, IH.
    + f_equal. f_equal; [by rewrite <- app_assoc|f_equal; lia].
    + rewrite length_app; simpl; lia.
    + lia.
Qed.

Lemma app_no_zeros (l : bytes) m : m = O -> l ++ replicate m 0 = l.
Proof. intros ->. apply app_nil_r. Qed.

Lemma make_bytes_nil n : make_bytes n = [] ++ replicate n 0.
Proof. done. Qed.

(** Steps through a sequence of stores into a zeroed buffer, turning it into a
    concatenation. *)
Ltac solve_len :=
  rewrite ?length_app, ?le_bytes_length, ?be_bytes_length, ?length_replicate,
    ?length_cons, ?length_nil; simpl length; lia.

Ltac fill_step :=
  first
    [ rewrite put_at_zeros by solve_len
    | rewrite copy_at_zeros by solve_len
    | rewrite set_at_zeros by solve_len
    | rewrite fill_at_zeros by solve_len ];
  cbn [rbind].

Ltac fill := rewrite make_bytes_nil; repeat fill_step.
