(* ===== verification/GoStd.v ===== *)
(** * The parts of Go and its standard library the sources use

    [interface{}] values, decimal printing and parsing ([strconv]), scanning
    ([fmt.Sscanf] with [%d]), floats by their bit patterns ([math],
    [strconv.FormatFloat]), civil time ([time]), [hash/crc32] and the byte
    string functions of [strings].  Everything is executable. *)

From Stdlib Require Import ZArith Lia.
From stdpp Require Import base numbers list strings gmap.
From S2P Require Import Prelude.
Open Scope Z_scope.

(** ** Time

    An instant with the UTC offset its civil fields are read in. *)
Record GoTime := mkTime {
  unix_sec : Z;
  nsec : Z;
  zone_offset : Z
}.

#[global] Instance GoTime_eq_dec : EqDecision GoTime.
Proof. solve_decision. Defined.

(** The zero [time.Time]: January 1, year 1, 00:00:00 UTC. *)
Definition zero_time : GoTime := mkTime (-62135596800) 0 0.

(** Printable ASCII text, which [encoding/json] writes and reads back as it is
    (it replaces invalid UTF-8). *)
Definition ascii_text (s : bytes) : Prop := Forall (fun c => 32 <= c < 127) s.

(** ** Values of type [interface{}]

    [VOther text] is a value of any dynamic type the sources do not switch on;
    [text] is what [%v] prints for it. *)
Inductive GoValue :=
| VNil
| VBool (b : bool)
| VInt (z : Z)
| VInt8 (z : Z)
| VInt16 (z : Z)
| VInt32 (z : Z)
| VInt64 (z : Z)
| VUint (z : Z)
| VUint8 (z : Z)
| VUint16 (z : Z)
| VUint32 (z : Z)
| VUint64 (z : Z)
| VFloat32 (bits : Z)
| VFloat64 (bits : Z)
| VString (s : bytes)
| VBytes (b : bytes)
| VTime (t : GoTime)
| VOther (text : bytes).

(** ** Decimal digits *)

Definition digit (c : Z) : bool := (48 <=? c) && (c <=? 57).

Fixpoint dec_fuel (fuel : nat) (n : Z) (acc : bytes) : bytes :=
  match fuel with
  | O => acc
  | S k =>
      let acc' := (48 + n mod 10) :: acc in
      if n / 10 =? 0 then acc' else dec_fuel k (n / 10) acc'
  end.

(** [%d] of a natural number: at most one digit per bit, plus one. *)
Definition dec_nat (n : Z) : bytes := dec_fuel (S (Z.to_nat (Z.log2 n))) n [].

(** [%d]. *)
Definition dec_Z (z : Z) : bytes := if z <? 0 then 45 :: dec_nat (- z) else dec_nat z.

(** [%0wd] of a natural number. *)
Definition pad_left (w : nat) (s : bytes) : bytes := replicate (w - length s) 48 ++ s.
Definition dec_pad (w : nat) (n : Z) : bytes :=
  if n <? 0 then 45 :: pad_left (w - 1) (dec_nat (- n)) else pad_left w (dec_nat n).

Fixpoint digits_val (acc : Z) (s : bytes) : Z :=
  match s with
  | [] => acc
  | c :: t => digits_val (10 * acc + (c - 48)) t
  end.

(** The value [v] of [v, _ := strconv.ParseUint(s, 10, 32)]: 0 on a syntax
    error, the largest [uint32] on a range error. *)
Definition ParseUint32 (s : bytes) : Z :=
  match s with
  | [] => 0
  | _ => if forallb digit s then Z.min (digits_val 0 s) (2 ^ 32 - 1) else 0
  end.

(** ** [strings] *)

Fixpoint has_prefix (p s : bytes) : bool :=
  match p, s with
  | [], _ => true
  | x :: p', y :: s' => (x =? y) && has_prefix p' s'
  | _ :: _, [] => false
  end.

(** [strings.IndexByte]. *)
Fixpoint index_byte (c : Z) (s : bytes) : option nat :=
  match s with
  | [] => None
  | x :: t => if x =? c then Some O else S <$> index_byte c t
  end.

(** [strings.Index]: the position of the first occurrence. *)
Fixpoint index (p s : bytes) : option nat :=
  if has_prefix p s then Some O
  else match s with
       | [] => None
       | _ :: t => S <$> index p t
       end.

(** [strings.TrimLeft(s, cutset)] for a one-byte cutset. *)
Fixpoint trim_left_byte (c : Z) (s : bytes) : bytes :=
  match s with
  | x :: t => if x =? c then trim_left_byte c t else s
  | [] => []
  end.

Definition bytes_eqb (a b : bytes) : bool := bool_decide (a = b).

(** [strings.ToLower] and [strings.ToUpper] of ASCII text. *)
Definition lower_byte (c : Z) : Z := if (65 <=? c) && (c <=? 90) then c + 32 else c.
Definition upper_byte (c : Z) : Z := if (97 <=? c) && (c <=? 122) then c - 32 else c.
Definition ToLower (s : bytes) : bytes := map lower_byte s.
Definition ToUpper (s : bytes) : bytes := map upper_byte s.

(** [strings.Contains]. *)
Definition Contains (s p : bytes) : bool := match index p s with Some _ => true | None => false end.

(** [a ++ sep ++ b ++ ...]: [strings.Join]. *)
Fixpoint join (sep : bytes) (l : list bytes) : bytes :=
  match l with
  | [] => []
  | [x] => x
  | x :: t => x ++ sep ++ join sep t
  end.

(** ** [fmt.Sscanf]

    Formats made of [%d] verbs, literal bytes and single spaces.  White space
    is the ASCII white space; a newline stops the scan, as it does in
    [Sscanf].  The result lists the integers scanned before the first
    mismatch: the variables after them keep their old values. *)
Inductive scan_item := SInt | SLit (c : Z) | SSpace.

Definition is_space (c : Z) : bool :=
  (c =? 32) || (c =? 9) || (c =? 11) || (c =? 12) || (c =? 13).

Fixpoint skip_space (s : bytes) : bytes :=
  match s with
  | c :: t => if is_space c then skip_space t else s
  | [] => []
  end.

Fixpoint span_digits (s : bytes) : bytes * bytes :=
  match s with
  | c :: t => if digit c then let (d, r) := span_digits t in (c :: d, r) else ([], s)
  | [] => ([], [])
  end.

(** One [%d] into a signed variable of [w] bits. *)
Definition scan_int (w : Z) (s : bytes) : option (Z * bytes) :=
  let s := skip_space s in
  let '(neg, s) :=
    match s with
    | c :: t => if c =? 45 then (true, t) else if c =? 43 then (false, t) else (false, s)
    | [] => (false, s)
    end in
  let (d, r) := span_digits s in
  match d with
  | [] => None
  | _ =>
      let v := digits_val 0 d in
      let v := if neg : bool then - v else v in
      if (- 2 ^ (w - 1) <=? v) && (v <? 2 ^ (w - 1)) then Some (v, r) else None
  end.

Fixpoint Sscanf (w : Z) (fmt : list scan_item) (s : bytes) : list Z :=
  match fmt with
  | [] => []
  | SInt :: fmt' =>
      match scan_int w s with
      | Some (v, r) => v :: Sscanf w fmt' r
      | None => []
      end
  | SLit c :: fmt' =>
      match s with
      | x :: r => if x =? c then Sscanf w fmt' r else []
      | [] => []
      end
  | SSpace :: fmt' =>
      match s with
      | x :: _ => if is_space x then Sscanf w fmt' (skip_space s) else []
      | [] => Sscanf w fmt' []
      end
  end.

(** The [i]-th scanned variable, 0 when the scan stopped before it. *)
Definition scanned (l : list Z) (i : nat) : Z := nth i l 0.

(** ** [time]: civil dates *)

Definition days_from_civil (y m d : Z) : Z :=
  let y' := if m <=? 2 then y - 1 else y in
  let era := y' / 400 in
  let yoe := y' mod 400 in
  let doy := (153 * (if m >? 2 then m - 3 else m + 9) + 2) / 5 + d - 1 in
  era * 146097 + (yoe * 365 + yoe / 4 - yoe / 100 + doy) - 719468.

(** Years are counted from March 1: whole cycles of 400, 100, 4 and 1 years
    are split off the day count in turn. *)
Definition civil_from_days (n : Z) : Z * Z * Z :=
  let z := n + 719468 in
  let era := z / 146097 in
  let doe := z mod 146097 in
  let c := Z.min (doe / 36524) 3 in
  let r := doe - 36524 * c in
  let q := r / 1461 in
  let r' := r - 1461 * q in
  let y1 := Z.min (r' / 365) 3 in
  let doy := r' - 365 * y1 in
  let mp := (5 * doy + 2) / 153 in
  let d := doy - (153 * mp + 2) / 5 + 1 in
  let m := if mp <? 10 then mp + 3 else mp - 9 in
  let y := 400 * era + 100 * c + 4 * q + y1 in
  (if m <=? 2 then y + 1 else y, m, d).

Definition local_sec (t : GoTime) : Z := unix_sec t + zone_offset t.
Definition t_date (t : GoTime) : Z * Z * Z := civil_from_days (local_sec t / 86400).
Definition t_Year (t : GoTime) : Z := (t_date t).1.1.
Definition t_Month (t : GoTime) : Z := (t_date t).1.2.
Definition t_Day (t : GoTime) : Z := (t_date t).2.
Definition t_Hour (t : GoTime) : Z := (local_sec t mod 86400) / 3600.
Definition t_Minute (t : GoTime) : Z := (local_sec t mod 3600) / 60.
Definition t_Second (t : GoTime) : Z := local_sec t mod 60.

Definition is_leap (y : Z) : bool :=
  (y mod 4 =? 0) && (negb (y mod 100 =? 0) || (y mod 400 =? 0)).

Definition days_in (m y : Z) : Z :=
  if m =? 2 then (if is_leap y then 29 else 28)
  else if (m =? 4) || (m =? 6) || (m =? 9) || (m =? 11) then 30 else 31.

(** [time.Date(y, m, d, hh, mi, ss, ns, time.UTC)] for fields in range. *)
Definition mk_date (y m d hh mi ss ns : Z) : GoTime :=
  mkTime (days_from_civil y m d * 86400 + hh * 3600 + mi * 60 + ss) ns 0.

(** [t.Format("2006-01-02")], ["15:04:05"] and their combinations. *)
Definition fmt_date (t : GoTime) : bytes :=
  dec_pad 4 (t_Year t) ++ [45] ++ dec_pad 2 (t_Month t) ++ [45] ++ dec_pad 2 (t_Day t).
Definition fmt_clock (t : GoTime) : bytes :=
  dec_pad 2 (t_Hour t) ++ [58] ++ dec_pad 2 (t_Minute t) ++ [58] ++ dec_pad 2 (t_Second t).
Definition fmt_datetime (t : GoTime) : bytes := fmt_date t ++ [32] ++ fmt_clock t.
(** [t.Format("15:04:05.000000")]: the fraction is truncated. *)
Definition fmt_clock_micro (t : GoTime) : bytes :=
  fmt_clock t ++ [46] ++ dec_pad 6 (nsec t / 1000).

(** [n] digits, exactly. *)
Definition take_num (n : nat) (s : bytes) : option (Z * bytes) :=
  let d := take n s in
  if (length d =? n)%nat && forallb digit d then Some (digits_val 0 d, drop n s) else None.

Definition take_lit (c : Z) (s : bytes) : option bytes :=
  match s with
  | x :: t => if x =? c then Some t else None
  | [] => None
  end.

(** A two-digit field, or one digit when [fixed] is false. *)
Definition getnum (fixed : bool) (s : bytes) : option (Z * bytes) :=
  match take_num 2 s with
  | Some r => Some r
  | None => if fixed then None else take_num 1 s
  end.

Fixpoint cut_space (s : bytes) : bytes :=
  match s with
  | c :: t => if c =? 32 then cut_space t else s
  | [] => []
  end.

(** The optional fraction accepted after the seconds field. *)
Definition parse_frac (s : bytes) : Z * bytes :=
  match s with
  | c :: t =>
      let (d, r) := span_digits t in
      if ((c =? 46) || (c =? 44)) && negb (bytes_eqb d []) then
        let d9 := take 9 d in
        (digits_val 0 d9 * 10 ^ (9 - Z.of_nat (length d9)), r)
      else (0, s)
  | [] => (0, s)
  end.

(** [time.Parse("2006-01-02 15:04:05", s)]; [None] is an error. *)
Definition parse_datetime (s : bytes) : option GoTime :=
  '(y, s) ← take_num 4 s; s ← take_lit 45 s;
  '(mo, s) ← getnum true s; s ← take_lit 45 s;
  '(d, s) ← getnum true s;
  s ← (match s with
       | c :: _ => if c =? 32 then Some (cut_space s) else None
       | [] => Some []
       end);
  '(hh, s) ← getnum false s; s ← take_lit 58 s;
  '(mi, s) ← getnum true s; s ← take_lit 58 s;
  '(ss, s) ← getnum true s;
  let (ns, rest) := parse_frac s in
  if bytes_eqb rest [] && (1 <=? mo) && (mo <=? 12) && (hh <? 24) && (mi <? 60) && (ss <? 60)
     && (1 <=? d) && (d <=? days_in mo y)
  then Some (mk_date y mo d hh mi ss ns) else None.

(** ** Floats by bit pattern *)

Inductive fval := FFin (neg : bool) (m e : Z) | FInf (neg : bool) | FNaN (neg : bool) (payload : Z).

(** [mb] mantissa bits, [eb] exponent bits; a finite value is [m * 2^e]. *)
Definition f_decode (mb eb bits : Z) : fval :=
  let neg := Z.testbit bits (mb + eb) in
  let e := Z.land (Z.shiftr bits mb) (2 ^ eb - 1) in
  let f := Z.land bits (2 ^ mb - 1) in
  let bias := 2 ^ (eb - 1) - 1 in
  if e =? 2 ^ eb - 1 then (if f =? 0 then FInf neg else FNaN neg f)
  else if e =? 0 then FFin neg f (1 - bias - mb)
  else FFin neg (f + 2 ^ mb) (e - bias - mb).

(** [n / 2^k] rounded to nearest, ties to even. *)
Definition rne_div (n d : Z) : Z :=
  let q := n / d in
  let r := n mod d in
  match 2 * r ?= d with
  | Lt => q
  | Gt => q + 1
  | Eq => if Z.even q then q else q + 1
  end.

Definition f_encode (mb eb : Z) (v : fval) : Z :=
  let bias := 2 ^ (eb - 1) - 1 in
  let sgn (neg : bool) := if neg then 2 ^ (mb + eb) else 0 in
  match v with
  | FInf neg => sgn neg + (2 ^ eb - 1) * 2 ^ mb
  | FNaN neg p => sgn neg + (2 ^ eb - 1) * 2 ^ mb + Z.lor p (2 ^ (mb - 1))
  | FFin neg m e =>
      if m =? 0 then sgn neg else
      let E := Z.max (Z.log2 m + e - mb) (1 - bias - mb) in
      let q := if E <=? e then m * 2 ^ (e - E) else rne_div m (2 ^ (E - e)) in
      let '(q, E) := if q =? 2 ^ (mb + 1) then (2 ^ mb, E + 1) else (q, E) in
      if q <? 2 ^ mb then sgn neg + q
      else let field := E + bias + mb in
           if 2 ^ eb - 1 <=? field then sgn neg + (2 ^ eb - 1) * 2 ^ mb
           else sgn neg + field * 2 ^ mb + (q - 2 ^ mb)
  end.

Definition float32_of_64 (b : Z) : Z :=
  f_encode 23 8 (match f_decode 52 11 b with
                 | FNaN n p => FNaN n (Z.shiftr p 29) | v => v end).
Definition float64_of_32 (b : Z) : Z :=
  f_encode 52 11 (match f_decode 23 8 b with
                  | FNaN n p => FNaN n (Z.shiftl p 29) | v => v end).

(** [strconv.FormatFloat(f, 'f', prec, 64)]: the exact binary value rounded to
    [prec] decimals, ties to even. *)
Definition FormatFloat_f (bits : Z) (prec : nat) : bytes :=
  let sign (neg : bool) : bytes := if neg then [45] else [] in
  match f_decode 52 11 bits with
  | FNaN _ _ => str "NaN"
  | FInf neg => (if neg then [45] else [43]) ++ str "Inf"
  | FFin neg m e =>
      let p := 10 ^ Z.of_nat prec in
      let n := if 0 <=? e then m * 2 ^ e * p else rne_div (m * p) (2 ^ (- e)) in
      sign neg ++ dec_nat (n / p) ++
        (match prec with O => [] | _ => 46 :: pad_left prec (dec_nat (n mod p)) end)
  end.

(** ** [fmt.Sprintf("%v", x)]

    Floats print in their shortest form and a [time.Time] through its
    [String] method; both are the argument [fmt_v]. *)
Definition sprint_v (fmt_v : GoValue -> bytes) (v : GoValue) : bytes :=
  match v with
  | VNil => str "<nil>"
  | VBool b => if b then str "true" else str "false"
  | VInt z | VInt8 z | VInt16 z | VInt32 z | VInt64 z
  | VUint z | VUint8 z | VUint16 z | VUint32 z | VUint64 z => dec_Z z
  | VString s => s
  | VBytes b => [91] ++ join [32] (map dec_Z b) ++ [93]
  | VOther text => text
  | VFloat32 _ | VFloat64 _ | VTime _ => fmt_v v
  end.

(** ** [crc32.ChecksumIEEE] *)

Fixpoint crc_bits (n : nat) (c : Z) : Z :=
  match n with
  | O => c
  | S k => crc_bits k (if Z.testbit c 0 then Z.lxor (Z.shiftr c 1) 3988292384 else Z.shiftr c 1)
  end.

Definition ChecksumIEEE (data : bytes) : Z :=
  Z.lxor (fold_left (fun c b => crc_bits 8 (Z.lxor c (to_byte b))) data 4294967295) 4294967295.

(** ** Reference values *)

Example crc_check : ChecksumIEEE (str "123456789") = 3421780262.
Proof. vm_compute. reflexivity. Qed.

Example date_check :
  t_date (mk_date 2024 2 29 23 59 58 0) = (2024, 2, 29) /\
  unix_sec (mk_date 1 1 1 0 0 0 0) = unix_sec zero_time.
Proof. vm_compute. auto. Qed.

Example parse_check :
  parse_datetime (str "2024-02-30 10:00:00") = None /\
  parse_datetime (str "2024-02-29 10:00:00.25") = Some (mk_date 2024 2 29 10 0 0 250000000).
Proof. vm_compute. auto. Qed.

(** 0.1 and 2.5, -1e-3 and the largest finite double, rounded. *)
Example float_check :
  FormatFloat_f 4591870180066957722 3 = str "0.100" /\
  FormatFloat_f 4612811918334230528 0 = str "2" /\
  FormatFloat_f 13790218724738006483 2 = str "-0.00" /\
  float32_of_64 4591870180066957722 = 1036831949 /\
  float64_of_32 1036831949 = 4591870180174331904 /\
  float32_of_64 9218868437227405311 = 2139095040.
Proof. vm_compute. repeat split. Qed.

Example scan_check :
  Sscanf 64 [SInt; SLit 58; SInt; SLit 58; SInt] (str "-01:30:59.5") = [-1; 30; 59] /\
  Sscanf 64 [SInt; SLit 45; SInt; SSpace; SInt] (str "2024-x") = [2024].
Proof. vm_compute. auto. Qed.

(** * Lemmas *)

(** ** Digits *)

Create HintDb digits.

Lemma digits_val_app acc a b : digits_val acc (a ++ b) = digits_val (digits_val acc a) b.
Proof. revert acc; induction a; intros; simpl; auto. Qed.

Lemma digits_val_acc acc s :
  digits_val acc s = acc * 10 ^ Z.of_nat (length s) + digits_val 0 s.
Proof.
  revert acc; induction s as [|c s IH]; intros acc; cbn [digits_val length].
  - rewrite Z.pow_0_r. lia.
  - rewrite IH, (IH (10 * 0 + _)), Nat2Z.inj_succ, Z.pow_succ_r by lia. ring.
Qed.

Lemma digit_range c : digit c = true <-> 48 <= c <= 57.
Proof. unfold digit. rewrite andb_true_iff, !Z.leb_le. lia. Qed.

Lemma digits_val_range s :
  forallb digit s = true -> 0 <= digits_val 0 s < 10 ^ Z.of_nat (length s).
Proof.
  induction s as [|c s IH]; cbn [forallb length]; [simpl; lia|].
  rewrite andb_true_iff, digit_range. intros [Hc Hs]. cbn [digits_val].
  rewrite digits_val_acc, Nat2Z.inj_succ, Z.pow_succ_r by lia.
  specialize (IH Hs). nia.
Qed.

Lemma digits_val_zeros n s : digits_val 0 (replicate n 48 ++ s) = digits_val 0 s.
Proof. rewrite digits_val_app. f_equal. induction n; simpl; auto. Qed.

Lemma forallb_zeros n : forallb digit (replicate n 48) = true.
Proof. by induction n. Qed.

Lemma dec_fuel_val fuel : forall n acc,
  (0 < fuel)%nat -> 0 <= n < 2 ^ Z.of_nat fuel ->
  digits_val 0 (dec_fuel fuel n acc) = digits_val n acc.
Proof.
  induction fuel as [|k IH]; intros n acc Hf Hn; [lia|]. cbn [dec_fuel].
  rewrite Nat2Z.inj_succ, Z.pow_succ_r in Hn by lia.
  destruct (Z.eqb_spec (n / 10) 0) as [E|E].
  - cbn [digits_val]. f_equal. zlia.
  - rewrite IH.
    + cbn [digits_val]. f_equal. zlia.
    + destruct k; [change (2 ^ Z.of_nat 0) with 1 in Hn; zlia|lia].
    + zlia.
Qed.

Lemma dec_fuel_digits fuel : forall n acc,
  0 <= n -> forallb digit acc = true -> forallb digit (dec_fuel fuel n acc) = true.
Proof.
  induction fuel as [|k IH]; intros n acc Hn Ha; cbn [dec_fuel]; [done|].
  assert (forallb digit ((48 + n mod 10) :: acc) = true) as H.
  { cbn [forallb]. rewrite Ha, andb_true_r. apply digit_range. zlia. }
  destruct (_ =? 0); [done|]. apply IH; [zlia|done].
Qed.

Lemma dec_nat_val n : 0 <= n -> digits_val 0 (dec_nat n) = n.
Proof.
  intros Hn. unfold dec_nat. rewrite dec_fuel_val; [done|lia|].
  rewrite Nat2Z.inj_succ, Z2Nat.id by apply Z.log2_nonneg.
  destruct (Z.eq_dec n 0) as [->|H]; [simpl; lia|].
  pose proof (Z.log2_spec n ltac:(lia)). lia.
Qed.

Lemma dec_nat_digits n : 0 <= n -> forallb digit (dec_nat n) = true.
Proof. intros. by apply dec_fuel_digits. Qed.

Lemma dec_fuel_nonempty fuel n acc : (0 < fuel)%nat -> dec_fuel fuel n acc <> [].
Proof.
  revert n acc; induction fuel as [|k IH]; intros n acc H; [lia|]. cbn [dec_fuel].
  destruct (_ =? 0); [done|]. destruct k; [done|]. apply IH. lia.
Qed.

Lemma pad_left_digits w s :
  forallb digit s = true -> forallb digit (pad_left w s) = true.
Proof. intros. unfold pad_left. by rewrite forallb_app, forallb_zeros. Qed.

#[export] Hint Resolve dec_nat_digits pad_left_digits forallb_zeros : digits.

Lemma dec_pad_spec w n :
  0 <= n ->
  forallb digit (dec_pad w n) = true /\ digits_val 0 (dec_pad w n) = n /\ dec_pad w n <> [].
Proof.
  intros Hn. unfold dec_pad. rewrite (proj2 (Z.ltb_ge n 0)) by lia.
  split_and!; auto with digits.
  - unfold pad_left. by rewrite digits_val_zeros, dec_nat_val.
  - unfold pad_left. intros [_ E]%app_nil. by apply dec_fuel_nonempty in E; [|lia].
Qed.

(** ** Scanning *)

(** The text does not continue with a digit. *)
Definition no_digit (s : bytes) : Prop :=
  match s with c :: _ => digit c = false | [] => True end.

Lemma span_digits_app d r :
  forallb digit d = true -> no_digit r -> span_digits (d ++ r) = (d, r).
Proof.
  intros Hd Hr. induction d as [|c d IH]; simpl in *.
  - destruct r; simpl in *; [done|]. by rewrite Hr.
  - apply andb_true_iff in Hd as [Hc Hd]. by rewrite Hc, IH.
Qed.

Lemma digit_not_sign c : digit c = true -> is_space c = false /\ (c =? 45) = false /\ (c =? 43) = false.
Proof. rewrite digit_range. unfold is_space. intros. repeat split; lia. Qed.

Lemma scan_int_digits w d r :
  d <> [] -> forallb digit d = true -> no_digit r -> digits_val 0 d < 2 ^ (w - 1) ->
  scan_int w (d ++ r) = Some (digits_val 0 d, r).
Proof.
  intros Hne Hd Hr Hw. destruct d as [|c d]; [done|].
  pose proof (digits_val_range _ Hd) as Hv.
  pose proof Hd as Hd'. simpl in Hd. apply andb_true_iff in Hd as [Hc Hd].
  destruct (digit_not_sign c Hc) as (Hs & H1 & H2).
  unfold scan_int. cbn [skip_space app]. rewrite Hs, H1, H2.
  change (c :: d ++ r) with ((c :: d) ++ r). rewrite span_digits_app by done.
  cbv zeta. rewrite (proj2 (Z.leb_le _ _)), (proj2 (Z.ltb_lt _ _)) by lia. done.
Qed.

Lemma scan_int_dec_pad p n r :
  0 <= n < 2 ^ 63 -> no_digit r -> scan_int 64 (dec_pad p n ++ r) = Some (n, r).
Proof.
  intros Hn Hr. destruct (dec_pad_spec p n) as (Hd & Hv & Hne); [lia|].
  rewrite scan_int_digits; rewrite ?Hv; auto. lia.
Qed.

(** ** Civil time *)

Lemma civil_from_days_spec n :
  let '(y, m, d) := civil_from_days n in
  1 <= m <= 12 /\ 1 <= d <= 31 /\ days_from_civil y m d = n.
Proof.
  unfold civil_from_days.
  set (z := n + 719468). set (era := z / 146097). set (doe := z mod 146097).
  set (c := Z.min (doe / 36524) 3). set (r := doe - 36524 * c).
  set (q := r / 1461). set (r' := r - 1461 * q).
  set (y1 := Z.min (r' / 365) 3). set (doy := r' - 365 * y1).
  assert (0 <= doe < 146097 /\ z = 146097 * era + doe) as [Hd Hz] by (subst doe era; zlia).
  assert (0 <= c <= 3 /\ 0 <= r <= 36524) as [Hc Hr] by (subst r c; zlia).
  assert (0 <= q <= 24 /\ 0 <= r' <= 1460) as [Hq Hr'] by (subst r' q; zlia).
  assert (0 <= y1 <= 3 /\ 0 <= doy <= 365) as [Hy Hdoy] by (subst doy y1; zlia).
  set (mp := (5 * doy + 2) / 153).
  assert (0 <= mp <= 11 /\ 1 <= doy - (153 * mp + 2) / 5 + 1 <= 31) as [Hm Hday]
    by (subst mp; zlia).
  set (y := 400 * era + 100 * c + 4 * q + y1).
  assert (era * 146097 + (y mod 400 * 365 + y mod 400 / 4 - y mod 400 / 100 + doy) = z) as Hdays.
  { replace (y mod 400) with (100 * c + 4 * q + y1) by (subst y; zlia).
    replace ((100 * c + 4 * q + y1) / 4) with (25 * c + q) by zlia.
    replace ((100 * c + 4 * q + y1) / 100) with c by zlia.
    subst doy r' r. lia. }
  assert (y / 400 = era) as He by (subst y; zlia).
  clearbody y1 doy mp y. unfold days_from_civil. subst z.
  destruct (Z.ltb_spec mp 10).
  - rewrite (proj2 (Z.leb_gt (mp + 3) 2)), (proj2 (Z.gtb_lt (mp + 3) 2)) by lia.
    replace (mp + 3 - 3) with mp by lia. lia.
  - rewrite (proj2 (Z.leb_le (mp - 9) 2)) by lia.
    replace (mp - 9 >? 2) with false by (symmetry; rewrite Z.gtb_ltb; apply Z.ltb_ge; lia).
    replace (y + 1 - 1) with y by lia. replace (mp - 9 + 9) with mp by lia. lia.
Qed.

Lemma t_ranges t :
  1 <= t_Month t <= 12 /\ 1 <= t_Day t <= 31 /\ 0 <= t_Hour t < 24 /\
  0 <= t_Minute t < 60 /\ 0 <= t_Second t < 60.
Proof.
  unfold t_Month, t_Day, t_Hour, t_Minute, t_Second, t_date.
  pose proof (civil_from_days_spec (local_sec t / 86400)) as H.
  destruct (civil_from_days _) as [[y m] d]. simpl. zlia.
Qed.

Lemma dec_fuel_length k : forall fuel n acc,
  (0 < k)%nat -> 0 <= n < 10 ^ Z.of_nat k -> (length (dec_fuel fuel n acc) <= k + length acc)%nat.
Proof.
  induction k as [|k IH]; intros fuel n acc Hk Hn; [lia|].
  destruct fuel as [|fuel]; cbn [dec_fuel]; [lia|].
  destruct (Z.eqb_spec (n / 10) 0) as [E|E]; [cbn; lia|].
  rewrite Nat2Z.inj_succ, Z.pow_succ_r in Hn by lia.
  destruct k as [|k]; [change (10 ^ Z.of_nat 0) with 1 in Hn; zlia|].
  specialize (IH fuel (n / 10) ((48 + n mod 10) :: acc)). cbn [length] in IH.
  enough (0 <= n / 10 < 10 ^ Z.of_nat (S k)) by (specialize (IH ltac:(lia) ltac:(lia)); lia).
  split; [apply Z.div_pos; lia|]. apply Z.div_lt_upper_bound; lia.
Qed.

(** A padded number has exactly the padded width while it fits. *)
Lemma dec_pad_length w n :
  (0 < w)%nat -> 0 <= n < 10 ^ Z.of_nat w -> length (dec_pad w n) = w.
Proof.
  intros Hw Hn. unfold dec_pad, pad_left. rewrite (proj2 (Z.ltb_ge _ _)) by lia.
  rewrite length_app, length_replicate.
  pose proof (dec_fuel_length w (S (Z.to_nat (Z.log2 n))) n [] Hw Hn) as H. unfold dec_nat.
  cbn [length] in H. lia.
Qed.

(** ** Checksums *)

Lemma crc_bits_width n : forall c, in_width 32 c -> in_width 32 (crc_bits n c).
Proof.
  induction n as [|n IH]; intros c Hc; [done|]. cbn [crc_bits]. apply IH.
  destruct (Z.testbit c 0); [apply lxor_width; [lia| |unfold in_width; lia]|]; apply shiftr_width; (lia || done).
Qed.

Lemma ChecksumIEEE_range data : in_width 32 (ChecksumIEEE data).
Proof.
  unfold ChecksumIEEE. apply lxor_width; [lia| |unfold in_width; lia].
  assert (in_width 32 4294967295) as Hc by (unfold in_width; lia). revert Hc.
  generalize 4294967295. induction data as [|b data IH]; intros c Hc; [done|].
  cbn [fold_left]. apply IH, crc_bits_width, lxor_width; [lia|done|].
  pose proof (to_byte_is_byte b). unfold is_byte, in_width in *. lia.
Qed.
