(* ===== verification/GoFloat.v ===== *)
(** * Parsing floating-point text

    [fmt.Sscanf(s, "%f", &v)] into a [float32] or [float64]: the token
    [fmt] reads and its correctly rounded value ([strconv.ParseFloat]), as a
    bit pattern.  Decimal notation only: PostgreSQL prints neither hexadecimal
    floats nor digit separators. *)

From Stdlib Require Import ZArith Lia.
From stdpp Require Import base numbers list strings gmap.
From S2P Require Import Prelude GoStd.
Open Scope Z_scope.

(** ** Rounding a rational

    [num / den] rounded to nearest, ties to even, in the format with [mb]
    mantissa and [eb] exponent bits; [None] when it overflows. *)
Definition f_bias (eb : Z) : Z := 2 ^ (eb - 1) - 1.

(** The largest [e] with [2^e <= num / den]. *)
Definition log2_ratio (num den : Z) : Z :=
  let k := Z.log2 num - Z.log2 den in
  if (if 0 <=? k then den * 2 ^ k <=? num else den <=? num * 2 ^ (- k)) then k else k - 1.

(** [num / den / 2^E], rounded. *)
Definition scaled (num den E : Z) : Z :=
  if 0 <=? E then rne_div num (den * 2 ^ E) else rne_div (num * 2 ^ (- E)) den.

Definition f_round (mb eb : Z) (neg : bool) (num den : Z) : option Z :=
  let sgn := if neg then 2 ^ (mb + eb) else 0 in
  if num =? 0 then Some sgn else
  let E := Z.max (log2_ratio num den - mb) (1 - f_bias eb - mb) in
  let q := scaled num den E in
  let '(q, E) := if q =? 2 ^ (mb + 1) then (2 ^ mb, E + 1) else (q, E) in
  if q <? 2 ^ mb then Some (sgn + q)
  else let field := E + f_bias eb + mb in
       if 2 ^ eb - 1 <=? field then None
       else Some (sgn + field * 2 ^ mb + (q - 2 ^ mb)).

(** ** The token *)

(** Skips one character of the set. *)
Definition accept (set : list Z) (s : bytes) : option bytes :=
  match s with
  | c :: r => if bool_decide (c ∈ set) then Some r else None
  | [] => None
  end.

Definition accept_word (w : list (list Z)) (s : bytes) : option bytes :=
  foldl (fun r set => s ← r; accept set s) (Some s) w.

Definition is_nan (s : bytes) : bool :=
  bool_decide (is_Some (accept_word [str "nN"; str "aA"; str "nN"] s)).

Definition is_inf (s : bytes) : bool :=
  bool_decide (is_Some (accept_word [str "iI"; str "nN"; str "fF"] s)).

(** An optional exponent; [None] is a syntax error. *)
Definition parse_exp (s : bytes) : option Z :=
  match accept (str "eE") s with
  | None => Some 0
  | Some r =>
      let '(eneg, r) := match r with
                        | c :: t => if c =? 45 then (true, t) else if c =? 43 then (false, t) else (false, r)
                        | [] => (false, r)
                        end in
      let (d, _) := span_digits r in
      if bytes_eqb d [] then None
      else Some (if eneg : bool then - digits_val 0 d else digits_val 0 d)
  end.

(** Digits before and after the point, and exponent of a decimal number. *)
Definition parse_decimal (s : bytes) : option (bytes * bytes * Z) :=
  let (ip, s) := span_digits s in
  let '(fp, s) := match s with c :: r => if c =? 46 then span_digits r else ([], s) | [] => ([], s) end in
  if bytes_eqb (ip ++ fp) [] then None
  else e ← parse_exp s; Some (ip, fp, e).

(** The bits [Sscanf] stores, 0 when it fails: no number, or out of range. *)
Definition Sscanf_f (mb eb : Z) (s : bytes) : Z :=
  let s := skip_space s in
  (* NaN: the bits of math.NaN, as a float32 when mb is 23 *)
  if is_nan s then f_encode mb eb (FNaN false (if mb =? 52 then 1 else 0))
  else
    let '(neg, s) := match s with
                     | c :: t => if c =? 45 then (true, t) else if c =? 43 then (false, t) else (false, s)
                     | [] => (false, s)
                     end in
    if is_inf s then f_encode mb eb (FInf neg)
    else match parse_decimal s with
         | None => 0
         | Some (ip, fp, e) =>
             let e := e - Z.of_nat (length fp) in
             let n := digits_val 0 (ip ++ fp) in
             default 0 (if 0 <=? e then f_round mb eb neg (n * 10 ^ e) 1 else f_round mb eb neg n (10 ^ (- e)))
         end.

Definition Sscanf_float32 : bytes -> Z := Sscanf_f 23 8.
Definition Sscanf_float64 : bytes -> Z := Sscanf_f 52 11.

Example float_parse_check :
  Sscanf_float64 (str "0.1") = 4591870180066957722 /\
  Sscanf_float64 (str "-1e-3") = 13785626545772145148 /\
  Sscanf_float32 (str "0.1") = 1036831949 /\
  Sscanf_float64 (str "1.7976931348623157e308") = 9218868437227405311 /\
  Sscanf_float64 (str "1e400") = 0 /\
  Sscanf_float64 (str "-Infinity") = 18442240474082181120 /\
  Sscanf_float64 (str "5e-324") = 1.
Proof. vm_compute. repeat split. Qed.

(** ** Correct rounding *)

Definition ratio_ge (num den e : Z) : bool :=
  if 0 <=? e then den * 2 ^ e <=? num else den <=? num * 2 ^ (- e).

Lemma ratio_ge_scaled num den e K :
  0 <= K -> 0 <= e + K -> ratio_ge num den e = true <-> den * 2 ^ (e + K) <= num * 2 ^ K.
Proof.
  intros HK HeK. unfold ratio_ge. destruct (Z.leb_spec 0 e); rewrite Z.leb_le.
  - rewrite Z.pow_add_r by lia. pose proof (Z.pow_pos_nonneg 2 K). nia.
  - replace (2 ^ K) with (2 ^ (- e) * 2 ^ (e + K)) by (rewrite <- Z.pow_add_r by lia; f_equal; lia).
    pose proof (Z.pow_pos_nonneg 2 (e + K)). nia.
Qed.

Lemma ratio_ge_le num den e e' :
  0 < den -> e' <= e -> ratio_ge num den e = true -> ratio_ge num den e' = true.
Proof.
  intros Hd He. rewrite (ratio_ge_scaled num den e (Z.abs e + Z.abs e')), (ratio_ge_scaled num den e' (Z.abs e + Z.abs e')) by lia.
  intros H. etrans; [|exact H]. apply Z.mul_le_mono_nonneg_l; [lia|]. apply Z.pow_le_mono_r; lia.
Qed.

Lemma log2_ratio_bounds num den :
  0 < num -> 0 < den ->
  ratio_ge num den (log2_ratio num den) = true /\ ratio_ge num den (log2_ratio num den + 1) = false.
Proof.
  intros Hn Hd. pose proof (Z.log2_spec num Hn) as [Hn1 Hn2]. pose proof (Z.log2_spec den Hd) as [Hd1 Hd2].
  pose proof (Z.log2_nonneg num). pose proof (Z.log2_nonneg den).
  set (k := Z.log2 num - Z.log2 den).
  assert (ratio_ge num den (k + 1) = false) as Hhi.
  { apply not_true_iff_false. rewrite (ratio_ge_scaled num den (k + 1) (Z.log2 den)) by lia.
    replace (k + 1 + Z.log2 den) with (Z.succ (Z.log2 num)) by lia. nia. }
  assert (ratio_ge num den (k - 1) = true) as Hlo.
  { rewrite (ratio_ge_scaled num den (k - 1) (Z.succ (Z.log2 den))) by lia.
    replace (k - 1 + Z.succ (Z.log2 den)) with (Z.log2 num) by lia. nia. }
  unfold log2_ratio. fold k. change (if 0 <=? k then _ else _) with (ratio_ge num den k).
  destruct (ratio_ge num den k) eqn:E; [done|]. by replace (k - 1 + 1) with k by lia.
Qed.

Lemma log2_ratio_unique num den e :
  0 < num -> 0 < den -> ratio_ge num den e = true -> ratio_ge num den (e + 1) = false -> log2_ratio num den = e.
Proof.
  intros Hn Hd H1 H2. destruct (log2_ratio_bounds num den Hn Hd) as [H3 H4].
  destruct (Z.lt_trichotomy (log2_ratio num den) e) as [H|[H|H]]; [|done|].
  - rewrite (ratio_ge_le num den e (log2_ratio num den + 1)) in H4 by (done || lia). done.
  - rewrite (ratio_ge_le num den (log2_ratio num den) (e + 1)) in H2 by (done || lia). done.
Qed.

Lemma rne_div_nearest A B m : 0 < B -> 2 * Z.abs (A - m * B) < B -> rne_div A B = m.
Proof.
  intros HB H. unfold rne_div. destruct (Z.le_gt_cases (m * B) A) as [Hle|Hgt].
  - assert (A / B = m /\ A mod B = A - m * B) as [-> ->].
    { assert (A = B * m + (A - m * B)) as E by lia.
      split; symmetry; [eapply Z.div_unique_pos|eapply Z.mod_unique_pos]; eauto; lia. }
    by rewrite (proj2 (Z.compare_lt_iff _ _)) by lia.
  - assert (A / B = m - 1 /\ A mod B = A - (m - 1) * B) as [-> ->].
    { assert (A = B * (m - 1) + (A - (m - 1) * B)) as E by lia.
      split; symmetry; [eapply Z.div_unique_pos|eapply Z.mod_unique_pos]; eauto; lia. }
    rewrite (proj2 (Z.compare_gt_iff _ _)) by lia. lia.
Qed.

(** A rational less than half a unit in the last place from the normal float
    [m * 2^E] rounds to it. *)
Lemma f_round_nearest mb eb neg num den m E :
  0 < mb -> 1 < eb -> 0 < num -> 0 < den -> 2 ^ mb <= m < 2 ^ (mb + 1) ->
  1 - f_bias eb - mb <= E -> E + f_bias eb + mb < 2 ^ eb - 1 ->
  let A := num * 2 ^ Z.max 0 (- E) in let B := den * 2 ^ Z.max 0 E in
  2 * Z.abs (A - m * B) < B -> m * B <= A \/ 2 ^ mb < m ->
  f_round mb eb neg num den = Some (f_encode mb eb (FFin neg m E)).
Proof.
  intros Hmb Heb Hn Hd Hm HE1 HE2 A B Hnear Hlow.
  assert (0 < B) as HB by (subst B; apply Z.mul_pos_pos; [lia|apply Z.pow_pos_nonneg; lia]).
  assert (2 ^ (mb + 1) = 2 * 2 ^ mb) as Hp by (rewrite Z.pow_add_r by lia; lia).
  assert (2 ^ mb * B <= A < 2 ^ (mb + 1) * B) as HA by nia.
  assert (forall e, 0 <= e -> ratio_ge num den (e + E) = true <-> 2 ^ e * B <= A) as Hge.
  { intros e He. rewrite (ratio_ge_scaled num den (e + E) (Z.max 0 (- E))) by lia.
    subst A B. replace (e + E + Z.max 0 (- E)) with (e + Z.max 0 E) by lia.
    rewrite Z.pow_add_r by lia. split; intros; nia. }
  assert (log2_ratio num den = mb + E) as Hl.
  { apply log2_ratio_unique; [done..|apply (proj2 (Hge mb ltac:(lia))); lia|].
    apply not_true_iff_false. replace (mb + E + 1) with (mb + 1 + E) by lia. rewrite Hge by lia. lia. }
  unfold f_round. rewrite (proj2 (Z.eqb_neq num 0)), Hl by lia.
  replace (Z.max (mb + E - mb) (1 - f_bias eb - mb)) with E by lia.
  assert (scaled num den E = m) as ->.
  { unfold scaled. destruct (Z.leb_spec 0 E).
    - rewrite <- (rne_div_nearest A B m) by done. subst A B. rewrite Z.max_l, Z.max_r, Z.pow_0_r by lia. f_equal. lia.
    - rewrite <- (rne_div_nearest A B m) by done. subst A B. rewrite Z.max_r, Z.max_l, Z.pow_0_r by lia. f_equal. lia. }
  rewrite (proj2 (Z.eqb_neq m (2 ^ (mb + 1)))), (proj2 (Z.ltb_ge m (2 ^ mb))), (proj2 (Z.leb_gt _ _)) by lia.
  unfold f_encode. fold (f_bias eb). pose proof (Z.pow_pos_nonneg 2 mb).
  rewrite (proj2 (Z.eqb_neq m 0)) by lia.
  assert (Z.log2 m = mb) as -> by (apply Z.log2_unique; lia).
  replace (Z.max (mb + E - mb) (1 - f_bias eb - mb)) with E by lia.
  rewrite (proj2 (Z.leb_le E E)), Z.sub_diag, Z.pow_0_r, Z.mul_1_r by lia.
  rewrite (proj2 (Z.eqb_neq m (2 ^ (mb + 1)))), (proj2 (Z.ltb_ge m (2 ^ mb))), (proj2 (Z.leb_gt _ _)) by lia. done.
Qed.
