(* ===== verification/BinlogValue.v ===== *)
(** * Column values of the binlog encoder

    [pkg/replication/binlog_encoder.go], lines 19-24 and 496-1311: how one
    value of a row is written for its MySQL column type.  Each encoder takes
    the dynamic value and, where the source does, the column's 16-bit
    metadata.  The decoders of this file are the reader's side of the binlog
    format, used as specifications; they model no code of the repository. *)

From Stdlib Require Import ZArith Lia.
From stdpp Require Import base numbers list strings gmap.
From S2P Require Import Prelude GoStd.
Open Scope Z_scope.

(** MySQL column type codes ([pkg/mapper/types.go] lists the same protocol
    constants; the three [*2] codes are the protocol's newer temporal types). *)
Definition MYSQL_TYPE_DECIMAL : Z := 0.
Definition MYSQL_TYPE_TINY : Z := 1.
Definition MYSQL_TYPE_SHORT : Z := 2.
Definition MYSQL_TYPE_LONG : Z := 3.
Definition MYSQL_TYPE_FLOAT : Z := 4.
Definition MYSQL_TYPE_DOUBLE : Z := 5.
Definition MYSQL_TYPE_NULL : Z := 6.
Definition MYSQL_TYPE_TIMESTAMP : Z := 7.
Definition MYSQL_TYPE_LONGLONG : Z := 8.
Definition MYSQL_TYPE_INT24 : Z := 9.
Definition MYSQL_TYPE_DATE : Z := 10.
Definition MYSQL_TYPE_TIME : Z := 11.
Definition MYSQL_TYPE_DATETIME : Z := 12.
Definition MYSQL_TYPE_YEAR : Z := 13.
Definition MYSQL_TYPE_NEWDATE : Z := 14.
Definition MYSQL_TYPE_VARCHAR : Z := 15.
Definition MYSQL_TYPE_BIT : Z := 16.
Definition MYSQL_TYPE_TIMESTAMP2 : Z := 17.
Definition MYSQL_TYPE_DATETIME2 : Z := 18.
Definition MYSQL_TYPE_TIME2 : Z := 19.
Definition MYSQL_TYPE_JSON : Z := 245.
Definition MYSQL_TYPE_NEWDECIMAL : Z := 246.
Definition MYSQL_TYPE_ENUM : Z := 247.
Definition MYSQL_TYPE_SET : Z := 248.
Definition MYSQL_TYPE_TINY_BLOB : Z := 249.
Definition MYSQL_TYPE_MEDIUM_BLOB : Z := 250.
Definition MYSQL_TYPE_LONG_BLOB : Z := 251.
Definition MYSQL_TYPE_BLOB : Z := 252.
Definition MYSQL_TYPE_VAR_STRING : Z := 253.
Definition MYSQL_TYPE_STRING : Z := 254.
Definition MYSQL_TYPE_GEOMETRY : Z := 255.

(** ** Integers *)

Definition encodeTiny (val : GoValue) : bytes :=
  let v := match val with
           | VInt8 t => t
           | VInt t | VInt64 t | VInt32 t | VInt16 t => swrap 8 t
           | VBool t => if t then 1 else 0
           | _ => 0
           end in
  [to_byte v].

Definition encodeShort (val : GoValue) : bytes :=
  let v := match val with
           | VInt16 t => t
           | VInt t | VInt64 t | VInt32 t => swrap 16 t
           | _ => 0
           end in
  le_bytes 2 (wrap 16 v).

Definition int32_of (val : GoValue) : Z :=
  match val with
  | VInt32 t => t
  | VInt t | VInt64 t => swrap 32 t
  | _ => 0
  end.

Definition encodeInt24 (val : GoValue) : bytes :=
  let v := int32_of val in
  [to_byte v; to_byte (Z.shiftr v 8); to_byte (Z.shiftr v 16)].

Definition encodeLong (val : GoValue) : bytes :=
  let v := int32_of val in le_bytes 4 (wrap 32 v).

Definition encodeLongLong (val : GoValue) : bytes :=
  let v := match val with
           | VInt64 t | VInt t | VInt32 t => t
           | _ => 0
           end in
  le_bytes 8 (wrap 64 v).

(** ** Floats *)

Definition encodeFloat (val : GoValue) : bytes :=
  let bits := match val with
              | VFloat32 t => t
              | VFloat64 t => float32_of_64 t
              | _ => 0
              end in
  le_bytes 4 bits.

Definition encodeDouble (val : GoValue) : bytes :=
  let bits := match val with
              | VFloat64 t => t
              | VFloat32 t => float64_of_32 t
              | _ => 0
              end in
  le_bytes 8 bits.

(** ** Decimals *)

Definition digitsPerInteger : nat := 9.

Definition decimalCompressedBytes : list nat := [0; 1; 1; 2; 2; 3; 3; 4; 4; 4]%nat.

(** [decimalCompressedBytes[i]]; the index is a remainder modulo 9. *)
Definition compressed_bytes (i : nat) : nat := nth i decimalCompressedBytes O.

(** The bytes [encodeDecimalValue] stores; a size outside 1..4 stores nothing. *)
Definition encodeDecimalValue (value : Z) (size : nat) (mask : Z) : bytes :=
  match size with
  | 1%nat => [Z.lxor (to_byte value) mask]
  | 2%nat => [Z.lxor (to_byte (Z.shiftr value 8)) mask; Z.lxor (to_byte value) mask]
  | 3%nat => [Z.lxor (to_byte (Z.shiftr value 16)) mask;
              Z.lxor (to_byte (Z.shiftr value 8)) mask; Z.lxor (to_byte value) mask]
  | 4%nat => [Z.lxor (to_byte (Z.shiftr value 24)) mask; Z.lxor (to_byte (Z.shiftr value 16)) mask;
              Z.lxor (to_byte (Z.shiftr value 8)) mask; Z.lxor (to_byte value) mask]
  | _ => []
  end.

(** Stores the pieces one after the other from position [pos]. *)
Fixpoint put_all (pos : nat) (pieces : list bytes) (buf : bytes) : res bytes :=
  match pieces with
  | [] => Ok buf
  | p :: ps => buf' <~ put_at pos p buf; put_all (pos + length p) ps buf'
  end.

(** Sign, integer digits without leading zeros, and fraction digits of the
    decimal text [s]. *)
Definition split_decimal (s : bytes) : bool * bytes * bytes :=
  let '(negative, s) :=
    match s with
    | c :: t => if c =? 45 then (true, t) else (false, s)
    | [] => (false, s)
    end in
  let '(intPart, fracPart) :=
    match index_byte 46 s with
    | Some idx => (take idx s, drop (idx + 1) s)
    | None => (s, [])
    end in
  let intPart := trim_left_byte 48 intPart in
  let intPart := if bytes_eqb intPart [] then [48] else intPart in
  (negative : bool, intPart, fracPart).

(** The storage layout: digits of the integer part, and the sizes of the four
    regions. *)
Record decimal_layout := mkLayout {
  intDigits : nat;
  uncompIntegral : nat;
  compIntegral : nat;
  uncompFractional : nat;
  compFractional : nat;
  binSize : nat
}.

Definition layout_of (precision scale : nat) : decimal_layout :=
  let precision := if (precision =? 0)%nat then 10%nat else precision in
  let intDigits := (precision - scale)%nat in
  let uncompIntegral := (intDigits / digitsPerInteger)%nat in
  let uncompFractional := (scale / digitsPerInteger)%nat in
  let compIntegral := (intDigits - uncompIntegral * digitsPerInteger)%nat in
  let compFractional := (scale - uncompFractional * digitsPerInteger)%nat in
  let binSize := (uncompIntegral * 4 + compressed_bytes compIntegral +
                  uncompFractional * 4 + compressed_bytes compFractional)%nat in
  let binSize := if (binSize =? 0)%nat then 1%nat else binSize in
  mkLayout intDigits uncompIntegral compIntegral uncompFractional compFractional binSize.

Definition pad_int (intDigits : nat) (intPart : bytes) : bytes :=
  if (intDigits =? 0)%nat then []
  else if (intDigits <=? length intPart)%nat then drop (length intPart - intDigits) intPart
  else replicate (intDigits - length intPart) 48 ++ intPart.

Definition pad_frac (scale : nat) (fracPart : bytes) : bytes :=
  if (scale =? 0)%nat then []
  else if (scale <=? length fracPart)%nat then take scale fracPart
  else fracPart ++ replicate (scale - length fracPart) 48.

Definition slice (s : bytes) (start end_ : nat) : bytes := take (end_ - start) (drop start s).

(** The pieces of the four regions, in the order they are stored. *)
Definition decimal_pieces (l : decimal_layout) (mask : Z) (paddedInt paddedFrac : bytes)
  : list bytes :=
  let piece digits size := encodeDecimalValue (ParseUint32 digits) size mask in
  (if (0 <? compIntegral l)%nat
   then [piece (take (compIntegral l) paddedInt) (compressed_bytes (compIntegral l))] else [])
  ++ map (fun i => let start := (compIntegral l + i * digitsPerInteger)%nat in
                   piece (slice paddedInt start (start + digitsPerInteger)) 4%nat)
         (seq 0 (uncompIntegral l))
  ++ map (fun i => let start := (i * digitsPerInteger)%nat in
                   piece (slice paddedFrac start (start + digitsPerInteger)) 4%nat)
         (seq 0 (uncompFractional l))
  ++ (if (0 <? compFractional l)%nat
      then let start := (uncompFractional l * digitsPerInteger)%nat in
           [piece (slice paddedFrac start (start + compFractional l))
                  (compressed_bytes (compFractional l))] else []).

Definition encode_decimal_text (s : bytes) (precision scale : nat) : res bytes :=
  let '(negative, intPart, fracPart) := split_decimal s in
  let l := layout_of precision scale in
  let buf := make_bytes (binSize l) in
  let mask := if negative : bool then 255 else 0 in
  let paddedInt := pad_int (intDigits l) intPart in
  let paddedFrac := pad_frac scale fracPart in
  buf <~ put_all 0 (decimal_pieces l mask paddedInt paddedFrac) buf;
  match buf with
  | b0 :: rest => Ok (Z.lxor b0 128 :: rest)
  | [] => Panic
  end.

Section encoders.
(** [fmt.Sprintf("%v", _)] of floats and times. *)
Variable fmt_v : GoValue -> bytes.

Definition encodeDecimal (val : GoValue) (meta : Z) : res bytes :=
  let precision := Z.to_nat (Z.shiftr meta 8) in
  let scale := Z.to_nat (Z.land meta 255) in
  let s := match val with
           | VString t => t
           | VFloat64 t => FormatFloat_f t scale
           | VFloat32 t => FormatFloat_f (float64_of_32 t) scale
           | VInt t | VInt32 t | VInt64 t => dec_Z t
           | _ => sprint_v fmt_v val
           end in
  encode_decimal_text s precision scale.

(** ** Dates and times *)

Definition encodeYear (val : GoValue) : bytes :=
  let year := match val with VInt t | VInt64 t | VInt32 t => t | _ => 0 end in
  if year =? 0 then [0] else [to_byte (year - 1900)].

Definition le3 (i32 : Z) : bytes :=
  [to_byte i32; to_byte (Z.shiftr i32 8); to_byte (Z.shiftr i32 16)].

Definition date_format : list scan_item := [SInt; SLit 45; SInt; SLit 45; SInt].
Definition clock_format : list scan_item := [SInt; SLit 58; SInt; SLit 58; SInt].

Definition encode_date_text (s : bytes) : bytes :=
  let f := Sscanf 64 date_format s in
  let year := scanned f 0 in
  let month := scanned f 1 in
  let day := scanned f 2 in
  le3 (wrap 32 (year * 16 * 32 + month * 32 + day)).

Definition encodeDate (val : GoValue) : bytes :=
  match val with
  | VString t => encode_date_text t
  | VTime t => encode_date_text (fmt_date t)
  | _ => make_bytes 3
  end.

Definition encodeTime (val : GoValue) : bytes :=
  match val with
  | VString s =>
      let f := Sscanf 64 clock_format s in
      le3 (wrap 32 (scanned f 0 * 10000 + scanned f 1 * 100 + scanned f 2))
  | _ => make_bytes 3
  end.

(** Hour, minute, second and fraction scanned from a TIME text. *)
Definition scan_time2 (s : bytes) (meta : Z) : Z * Z * Z * Z :=
  match index_byte 46 s with
  | Some idx =>
      let f := Sscanf 64 clock_format (take idx s) in
      let fracStr := drop (idx + 1) s in
      let fracStr := fracStr ++ replicate (Z.to_nat meta - length fracStr) 48 in
      let fracStr := take (Z.to_nat meta) fracStr in
      (scanned f 0, scanned f 1, scanned f 2, scanned (Sscanf 64 [SInt] fracStr) 0)
  | None =>
      let f := Sscanf 64 clock_format s in
      (scanned f 0, scanned f 1, scanned f 2, 0)
  end.

Definition encode_time2_text (s : bytes) (meta : Z) : bytes :=
  let fracBytes := Z.to_nat (wrap 16 (meta + 1) / 2) in
  let '(hour, minute, second, frac) := scan_time2 s meta in
  let negative := hour <? 0 in
  let hour := if negative then - hour else hour in
  let intPart := Z.lor (Z.lor (Z.shiftl hour 12) (Z.shiftl minute 6)) second in
  let intPart := if negative then 8388608 - intPart else intPart + 8388608 in
  let head := [to_byte (Z.shiftr intPart 16); to_byte (Z.shiftr intPart 8); to_byte intPart] in
  head ++
  (if (0 <? fracBytes)%nat && (0 <? meta) then
     match fracBytes with
     | 1%nat => [to_byte frac]
     | 2%nat => [to_byte (Z.shiftr frac 8); to_byte frac]
     | 3%nat => [to_byte (Z.shiftr frac 16); to_byte (Z.shiftr frac 8); to_byte frac]
     | _ => make_bytes fracBytes
     end
   else make_bytes fracBytes).

Definition encodeTime2 (val : GoValue) (meta : Z) : bytes :=
  match val with
  | VString t => encode_time2_text t meta
  | VTime t => encode_time2_text (fmt_clock_micro t) meta
  | _ => make_bytes (3 + Z.to_nat (wrap 16 (meta + 1) / 2))
  end.

Definition encode_datetime_text (s : bytes) : bytes :=
  let f := Sscanf 64 (date_format ++ SSpace :: clock_format) s in
  let d := scanned f 0 * 10000 + scanned f 1 * 100 + scanned f 2 in
  let t := scanned f 3 * 10000 + scanned f 4 * 100 + scanned f 5 in
  le_bytes 8 (wrap 64 (d * 1000000 + t)).

Definition encodeDatetime (val : GoValue) : bytes :=
  match val with
  | VString t => encode_datetime_text t
  | VTime t => encode_datetime_text (fmt_datetime t)
  | _ => make_bytes 8
  end.

(** [t, _ = time.Parse("2006-01-02 15:04:05", v)]: the zero time on an error. *)
Definition parse_or_zero (s : bytes) : GoTime := default zero_time (parse_datetime s).

(** The 40-bit integer part of DATETIME2. *)
Definition pack_datetime2 (t : GoTime) : Z :=
  let ym := t_Year t * 13 + t_Month t in
  let ymd := Z.lor (Z.shiftl ym 5) (t_Day t) in
  let hms := Z.lor (Z.lor (Z.shiftl (t_Hour t) 12) (Z.shiftl (t_Minute t) 6)) (t_Second t) in
  Z.lor (Z.shiftl ymd 17) hms + 549755813888.

Definition encodeDatetime2 (val : GoValue) (meta : Z) : bytes :=
  let n := Z.to_nat (wrap 16 (5 + wrap 16 (meta + 1) / 2)) in
  let pack t :=
    let intPart := pack_datetime2 t in
    [to_byte (Z.shiftr intPart 32); to_byte (Z.shiftr intPart 24); to_byte (Z.shiftr intPart 16);
     to_byte (Z.shiftr intPart 8); to_byte intPart] ++ make_bytes (n - 5) in
  match val with
  | VTime v => pack v
  | VString v => pack (parse_or_zero v)
  | _ => make_bytes n
  end.

Definition zero_datetime_text : bytes := str "0000-00-00 00:00:00".

Definition encodeTimestamp (val : GoValue) : bytes :=
  let ts := match val with
            | VTime t => unix_sec t
            | VString t => if bytes_eqb t zero_datetime_text then 0 else unix_sec (parse_or_zero t)
            | VInt64 t => t
            | _ => 0
            end in
  le_bytes 4 (wrap 32 ts).

Definition encodeTimestamp2 (val : GoValue) (meta : Z) : bytes :=
  let n := Z.to_nat (wrap 16 (4 + wrap 16 (meta + 1) / 2)) in
  let pack t :=
    let sec := wrap 32 (unix_sec t) in
    [to_byte (Z.shiftr sec 24); to_byte (Z.shiftr sec 16); to_byte (Z.shiftr sec 8); to_byte sec]
      ++ make_bytes (n - 4) in
  match val with
  | VTime v => pack v
  | VString v => if bytes_eqb v zero_datetime_text then make_bytes n else pack (parse_or_zero v)
  | _ => pack zero_time
  end.

(** ** Strings *)

Definition text_of (val : GoValue) : bytes :=
  match val with
  | VString t => t
  | VBytes t => t
  | _ => sprint_v fmt_v val
  end.

Definition encodeVarString (val : GoValue) (meta : Z) : bytes :=
  let s := text_of val in
  let length := Z.of_nat (length s) in
  if meta <? 256 then to_byte length :: s
  else le_bytes 2 (wrap 16 length) ++ s.

Definition encodeFixedString (val : GoValue) (meta : Z) : bytes :=
  let length := if 256 <=? meta then Z.land meta 255 else meta in
  encodeVarString val (wrap 16 length).

Definition encode_blob_data (data : bytes) (meta : Z) : bytes :=
  let length := Z.of_nat (length data) in
  match meta with
  | 1 => to_byte length :: data
  | 2 => le_bytes 2 (wrap 16 length) ++ data
  | 3 => [to_byte length; to_byte (Z.shiftr length 8); to_byte (Z.shiftr length 16)] ++ data
  | 4 => le_bytes 4 (wrap 32 length) ++ data
  | _ => le_bytes 2 (wrap 16 length) ++ data
  end.

Definition encodeBlob (val : GoValue) (meta : Z) : bytes :=
  match val with
  | VBytes t => encode_blob_data t meta
  | VString t => encode_blob_data t meta
  | _ => []
  end.

(** ** BIT, ENUM, SET, JSON *)

Definition encodeBit (val : GoValue) (meta : Z) : bytes :=
  let nbits := wrap 16 (Z.shiftr meta 8 * 8 + Z.land meta 255) in
  let n := Z.to_nat (wrap 16 (nbits + 7) / 8) in
  let v := match val with
           | VInt64 t | VInt t => t
           | VBool t => if t then 1 else 0
           | _ => 0
           end in
  be_bytes n v.

Definition int_of (val : GoValue) : Z :=
  match val with VInt64 t | VInt t => t | _ => 0 end.

Definition encodeEnum (val : GoValue) (meta : Z) : bytes :=
  let v := int_of val in
  match Z.land meta 255 with
  | 1 => [to_byte v]
  | 2 => le_bytes 2 (wrap 16 v)
  | _ => [to_byte v]
  end.

Definition encodeSet (val : GoValue) (meta : Z) : bytes :=
  le_bytes (Z.to_nat (Z.land meta 255)) (int_of val).

Definition encodeJSON (val : GoValue) (meta : Z) : bytes :=
  let data := match val with
              | VBytes t => t
              | VString t => t
              | _ => str "{}"
              end in
  le_bytes (Z.to_nat meta) (Z.of_nat (length data)) ++ data.

(** ** Dispatch on the column type *)

Definition encodeValue (val : GoValue) (colType meta : Z) : res bytes :=
  if colType =? MYSQL_TYPE_NULL then Ok []
  else if colType =? MYSQL_TYPE_TINY then Ok (encodeTiny val)
  else if colType =? MYSQL_TYPE_SHORT then Ok (encodeShort val)
  else if colType =? MYSQL_TYPE_INT24 then Ok (encodeInt24 val)
  else if colType =? MYSQL_TYPE_LONG then Ok (encodeLong val)
  else if colType =? MYSQL_TYPE_LONGLONG then Ok (encodeLongLong val)
  else if colType =? MYSQL_TYPE_FLOAT then Ok (encodeFloat val)
  else if colType =? MYSQL_TYPE_DOUBLE then Ok (encodeDouble val)
  else if colType =? MYSQL_TYPE_NEWDECIMAL then encodeDecimal val meta
  else if colType =? MYSQL_TYPE_YEAR then Ok (encodeYear val)
  else if colType =? MYSQL_TYPE_DATE then Ok (encodeDate val)
  else if colType =? MYSQL_TYPE_TIME then Ok (encodeTime val)
  else if colType =? MYSQL_TYPE_TIME2 then Ok (encodeTime2 val meta)
  else if colType =? MYSQL_TYPE_DATETIME then Ok (encodeDatetime val)
  else if colType =? MYSQL_TYPE_DATETIME2 then Ok (encodeDatetime2 val meta)
  else if colType =? MYSQL_TYPE_TIMESTAMP then Ok (encodeTimestamp val)
  else if colType =? MYSQL_TYPE_TIMESTAMP2 then Ok (encodeTimestamp2 val meta)
  else if (colType =? MYSQL_TYPE_VARCHAR) || (colType =? MYSQL_TYPE_VAR_STRING)
       then Ok (encodeVarString val meta)
  else if colType =? MYSQL_TYPE_STRING then Ok (encodeFixedString val meta)
  else if colType =? MYSQL_TYPE_BLOB then Ok (encodeBlob val meta)
  else if colType =? MYSQL_TYPE_BIT then Ok (encodeBit val meta)
  else if colType =? MYSQL_TYPE_ENUM then Ok (encodeEnum val meta)
  else if colType =? MYSQL_TYPE_SET then Ok (encodeSet val meta)
  else if colType =? MYSQL_TYPE_JSON then Ok (encodeJSON val meta)
  else if colType =? MYSQL_TYPE_GEOMETRY then Ok (encodeBlob val meta)
  else Ok (encodeVarString val 65535).

End encoders.
