(* ===== verification/DecimalFacts.v ===== *)
(** * DECIMAL values survive the binlog

    The reader's side of MySQL's packed decimal format and the round trip
    through [encodeDecimal] of [BinlogValue]: groups of up to nine digits,
    big-endian, complemented for negative numbers, with the sign in the top
    bit of the first byte. *)

From Stdlib Require Import ZArith Lia.
From stdpp Require Import base numbers list strings gmap.
From S2P Require Import Prelude GoStd BinlogValue.
Open Scope Z_scope.

(** ** The format, as a reader sees it *)

(** The digit counts of the groups, from the most significant. *)
Definition group_sizes (l : decimal_layout) : list nat :=
  (if (0 <? compIntegral l)%nat then [compIntegral l] else [])
  ++ replicate (uncompIntegral l) 9%nat ++ replicate (uncompFractional l) 9%nat
  ++ (if (0 <? compFractional l)%nat then [compFractional l] else []).

Fixpoint decode_groups (mask : Z) (ks : list nat) (buf : bytes) (acc : Z) : option Z :=
  match ks with
  | [] => Some acc
  | k :: ks' =>
      let nb := compressed_bytes k in
      let g := take nb buf in
      if (length g =? nb)%nat then
        decode_groups mask ks' (drop nb buf)
          (acc * 10 ^ Z.of_nat k + be_val (map (fun b => Z.lxor b mask) g))
      else None
  end.

(** Sign and magnitude, the latter scaled by [10^scale]. *)
Definition decode_decimal (precision scale : nat) (buf : bytes) : option (bool * Z) :=
  match buf with
  | [] => None
  | b0 :: rest =>
      let neg := negb (Z.testbit b0 7) in
      let mask := if neg then 255 else 0 in
      pair neg <$>
        decode_groups mask (group_sizes (layout_of precision scale)) (Z.lxor b0 128 :: rest) 0
  end.

(** The text [\[-\]I\[.F\]]. *)
Definition decimal_text (neg : bool) (I : bytes) (F : option bytes) : bytes :=
  (if neg then [45] else []) ++ I ++ (match F with Some f => 46 :: f | None => [] end).

(** ** Parsing the text *)

Lemma index_byte_app c a b :
  forallb (fun x => negb (x =? c)) a = true ->
  index_byte c (a ++ c :: b) = Some (length a) /\ index_byte c a = None.
Proof.
  induction a as [|x a IH]; simpl.
  - by rewrite Z.eqb_refl.
  - rewrite andb_true_iff, negb_true_iff. intros [-> Ha].
    destruct (IH Ha) as [-> ->]. done.
Qed.

Lemma digits_no_dot I : forallb digit I = true -> forallb (fun x => negb (x =? 46)) I = true.
Proof.
  induction I as [|c I IH]; simpl; [done|].
  rewrite !andb_true_iff, digit_range. intros [H1 H2]. split; [lia|auto].
Qed.

Definition trimmed (I : bytes) : bytes :=
  let t := trim_left_byte 48 I in if bytes_eqb t [] then [48] else t.

Lemma split_decimal_text neg I F :
  I <> [] -> forallb digit I = true ->
  split_decimal (decimal_text neg I F) = (neg, trimmed I, default [] F).
Proof.
  intros Hne Hd. destruct I as [|c I']; [done|].
  pose proof Hd as Hc. simpl in Hc. apply andb_true_iff in Hc as [Hc _].
  destruct (digit_not_sign c Hc) as (_ & H45 & _).
  set (I := c :: I') in *.
  assert (forall F, (match (I ++ match F with Some f => 46 :: f | None => [] end) with
           | c :: t => if c =? 45 then (true, t) else (false, c :: t)
           | [] => (false, []) end) =
          (false, I ++ match F with Some f => 46 :: f | None => [] end)) as Hsign.
  { intros F0. subst I. simpl. by rewrite H45. }
  assert (split_decimal (decimal_text neg I F) =
          (let s := I ++ match F with Some f => 46 :: f | None => [] end in
           let '(intPart, fracPart) :=
             match index_byte 46 s with
             | Some idx => (take idx s, drop (idx + 1) s)
             | None => (s, [])
             end in (neg, trimmed intPart, fracPart))) as ->.
  { unfold split_decimal, decimal_text. destruct neg; cbn [app]; subst I; simpl; [done|].
    by rewrite H45. }
  cbv zeta. pose proof (digits_no_dot I Hd) as Hnd. destruct F as [f|].
  - rewrite (proj1 (index_byte_app 46 I f Hnd)), take_app_length, drop_app.
    rewrite drop_ge by lia. by replace (length I + 1 - length I)%nat with 1%nat by lia.
  - rewrite app_nil_r, (proj2 (index_byte_app 46 I [] Hnd)). done.
Qed.

Lemma trim_left_spec I :
  forallb digit I = true ->
  forallb digit (trim_left_byte 48 I) = true /\
  digits_val 0 (trim_left_byte 48 I) = digits_val 0 I.
Proof.
  induction I as [|c I IH]; simpl; [done|]. rewrite andb_true_iff. intros [Hc HI].
  destruct (Z.eqb_spec c 48) as [->|]; [by apply IH|]. simpl. by rewrite Hc, HI.
Qed.

Lemma digits_val_drop k t : forallb digit t = true ->
  digits_val 0 (drop k t) = digits_val 0 t mod 10 ^ Z.of_nat (length (drop k t)).
Proof.
  intros Hd. rewrite <- (take_drop k t), forallb_app in Hd. apply andb_true_iff in Hd as [_ Hd].
  pose proof (digits_val_range _ Hd) as Hr. rewrite <- (take_drop k t) at 2.
  rewrite digits_val_app, (digits_val_acc (digits_val 0 (take k t))), Z.add_comm, Z.mod_add by lia.
  by rewrite Z.mod_small.
Qed.

(** The integer part keeps its last [n] digits. *)
Lemma pad_int_mod n I :
  forallb digit I = true ->
  length (pad_int n (trimmed I)) = n /\ forallb digit (pad_int n (trimmed I)) = true /\
  digits_val 0 (pad_int n (trimmed I)) = digits_val 0 I mod 10 ^ Z.of_nat n.
Proof.
  intros HI. destruct (trim_left_spec I HI) as [Hd Hv]. rewrite <- Hv. clear Hv.
  assert (Ht : forallb digit (trimmed I) = true /\ digits_val 0 (trimmed I) = digits_val 0 (trim_left_byte 48 I)).
  { unfold trimmed. destruct (bytes_eqb _ _) eqn:E; [|done].
    unfold bytes_eqb in E. apply bool_decide_eq_true in E as ->. done. }
  destruct Ht as [Hd' <-]. generalize dependent (trimmed I). clear. intros t Hd.
  pose proof (digits_val_range t Hd) as Hr. unfold pad_int. destruct (Nat.eqb_spec n 0) as [->|Hn].
  { split_and!; [done..|]. by rewrite Z.mod_1_r. }
  destruct (Nat.leb_spec n (length t)).
  - assert (length (drop (length t - n) t) = n) as Hl by (rewrite length_drop; lia).
    split_and!; [done| |rewrite digits_val_drop, Hl; done].
    rewrite <- (take_drop (length t - n) t), forallb_app in Hd. by apply andb_true_iff in Hd as [_ ?].
  - rewrite length_app, length_replicate, forallb_app, forallb_zeros, digits_val_zeros. split_and!; [lia|done|].
    assert (10 ^ Z.of_nat (length t) <= 10 ^ Z.of_nat n) by (apply Z.pow_le_mono_r; lia).
    rewrite Z.mod_small; [done|lia].
Qed.

Lemma pad_frac_spec n F :
  forallb digit F = true ->
  length (pad_frac n F) = n /\ forallb digit (pad_frac n F) = true.
Proof.
  intros HF. unfold pad_frac. destruct (Nat.eqb_spec n 0) as [->|]; [done|].
  destruct (Nat.leb_spec n (length F)).
  - rewrite length_take. split; [lia|].
    rewrite <- (take_drop n F), forallb_app in HF. by apply andb_true_iff in HF as [? _].
  - rewrite length_app, length_replicate, forallb_app, HF, forallb_zeros. split; [lia|done].
Qed.

(** The fraction keeps its first [n] digits. *)
Lemma pad_frac_val n F : forallb digit F = true ->
  digits_val 0 (pad_frac n F) = digits_val 0 F * 10 ^ Z.of_nat n / 10 ^ Z.of_nat (length F).
Proof.
  intros Hd. pose proof (digits_val_range F Hd) as Hr. unfold pad_frac.
  assert (Hn : (n <= length F)%nat -> digits_val 0 (take n F) = digits_val 0 F * 10 ^ Z.of_nat n / 10 ^ Z.of_nat (length F)).
  { intros Hle. rewrite <- (take_drop n F), forallb_app in Hd. apply andb_true_iff in Hd as [_ Hd].
    pose proof (digits_val_range _ Hd) as Hr'. rewrite length_drop in Hr'.
    rewrite <- (take_drop n F) at 2. rewrite digits_val_app, (digits_val_acc (digits_val 0 (take n F))), length_drop.
    replace (Z.of_nat (length F)) with (Z.of_nat (length F - n) + Z.of_nat n) by lia.
    rewrite Z.pow_add_r, Z.div_mul_cancel_r by lia. rewrite Z.div_add_l by lia. rewrite Z.div_small; lia. }
  destruct (Nat.eqb_spec n 0) as [->|]; [rewrite <- Hn by lia; done|].
  destruct (Nat.leb_spec n (length F)); [by apply Hn|].
  rewrite digits_val_app, (digits_val_acc (digits_val 0 F)), length_replicate.
  rewrite <- (app_nil_r (replicate _ 48)), digits_val_zeros. cbn [digits_val]. rewrite Z.add_0_r.
  replace (Z.of_nat n) with (Z.of_nat (n - length F) + Z.of_nat (length F)) by lia.
  rewrite Z.pow_add_r, Z.mul_assoc, Z.div_mul by lia. done.
Qed.

(** ** Groups of digits *)

Fixpoint chunks (ks : list nat) (s : bytes) : list bytes :=
  match ks with
  | [] => []
  | k :: ks' => take k s :: chunks ks' (drop k s)
  end.

Definition piece (mask : Z) (k : nat) (ds : bytes) : bytes :=
  encodeDecimalValue (ParseUint32 ds) (compressed_bytes k) mask.

Definition pieces (mask : Z) (ks : list nat) (s : bytes) : list bytes :=
  zip_with (piece mask) ks (chunks ks s).

Definition group_ok (k : nat) : Prop := (1 <= k <= 9)%nat.

Lemma chunks_app ks1 ks2 s :
  chunks (ks1 ++ ks2) s = chunks ks1 s ++ chunks ks2 (drop (sum_list ks1) s).
Proof.
  revert s; induction ks1 as [|k ks1 IH]; intros s; simpl; [by rewrite drop_0|].
  by rewrite IH, drop_drop.
Qed.

Lemma chunks_length ks s : length (chunks ks s) = length ks.
Proof. revert s; induction ks; intros; simpl; auto. Qed.

Lemma pieces_app mask ks1 ks2 s :
  pieces mask (ks1 ++ ks2) s = pieces mask ks1 s ++ pieces mask ks2 (drop (sum_list ks1) s).
Proof.
  unfold pieces. rewrite chunks_app, zip_with_app; [done|]. by rewrite chunks_length.
Qed.

Lemma sum_list_replicate n k : sum_list (replicate n k) = (n * k)%nat.
Proof. induction n; simpl; lia. Qed.

Lemma pieces_nines mask n : forall s c,
  map (fun i => let start := (c + i * digitsPerInteger)%nat in
                encodeDecimalValue (ParseUint32 (slice s start (start + digitsPerInteger))) 4 mask)
      (seq 0 n)
  = pieces mask (replicate n 9%nat) (drop c s).
Proof.
  induction n as [|n IH]; intros s c; [done|].
  cbn [seq map replicate]. rewrite <- seq_shift, map_map.
  unfold pieces. cbn [chunks zip_with]. f_equal.
  - unfold piece, slice, digitsPerInteger. rewrite Nat.mul_0_l, Nat.add_0_r.
    by replace (c + 9 - c)%nat with 9%nat by lia.
  - specialize (IH s (c + 9)%nat). unfold pieces in IH. rewrite drop_drop, <- IH.
    apply map_ext. intros i. cbv zeta. unfold digitsPerInteger.
    by replace (c + S i * 9)%nat with (c + 9 + i * 9)%nat by lia.
Qed.

Lemma chunks_take ks : forall s n,
  (sum_list ks <= n)%nat -> chunks ks (take n s) = chunks ks s.
Proof.
  induction ks as [|k ks IH]; intros s n H; [done|]. simpl in *.
  rewrite take_take, Nat.min_l by lia. f_equal.
  rewrite <- (IH (drop k s) (n - k)%nat) by lia.
  by rewrite skipn_firstn_comm.
Qed.

(** The stored pieces are the groups of the padded digit string, in order. *)
Lemma decimal_pieces_eq precision scale mask a b :
  let l := layout_of precision scale in
  length a = intDigits l -> length b = scale ->
  decimal_pieces l mask a b = pieces mask (group_sizes l) (a ++ b).
Proof.
  intros l Ha Hb. unfold decimal_pieces, group_sizes.
  assert (intDigits l = compIntegral l + uncompIntegral l * 9)%nat as Hi.
  { subst l. unfold layout_of; cbn [intDigits compIntegral uncompIntegral].
    unfold digitsPerInteger.
    set (n := ((if (precision =? 0)%nat then 10 else precision) - scale)%nat).
    pose proof (Nat.div_mod_eq n 9). lia. }
  assert (scale = uncompFractional l * 9 + compFractional l)%nat as Hs.
  { subst l. unfold layout_of; cbn [compFractional uncompFractional].
    unfold digitsPerInteger. pose proof (Nat.div_mod_eq scale 9). lia. }
  clearbody l. set (ci := if (0 <? compIntegral l)%nat then [compIntegral l] else []).
  assert (sum_list ci = compIntegral l) as Hci.
  { subst ci. destruct (Nat.ltb_spec 0 (compIntegral l)); simpl; lia. }
  assert (forall ks, (sum_list ks <= intDigits l)%nat -> pieces mask ks (a ++ b) = pieces mask ks a) as Htake.
  { intros ks Hks. unfold pieces. f_equal.
    rewrite <- (chunks_take ks (a ++ b) (intDigits l)) by done.
    rewrite <- Ha, take_app_length. done. }
  rewrite (app_assoc ci), pieces_app, sum_list_with_app, Hci.
  change (sum_list_with id (replicate (uncompIntegral l) 9%nat)) with
    (sum_list (replicate (uncompIntegral l) 9%nat)).
  rewrite sum_list_replicate, <- Hi, <- Ha, drop_app_length.
  rewrite Htake by (rewrite sum_list_with_app, Hci;
    change (sum_list_with id ?x) with (sum_list x); rewrite sum_list_replicate; lia).
  rewrite !pieces_app, Hci, sum_list_replicate, <- !app_assoc. f_equal; [|f_equal; [|f_equal]].
  - subst ci. destruct (0 <? compIntegral l)%nat; done.
  - rewrite <- pieces_nines. done.
  - rewrite <- (drop_0 b), <- pieces_nines. apply map_ext. intros i. by rewrite !drop_0.
  - destruct (0 <? compFractional l)%nat; [|done]. unfold pieces, slice. cbn [chunks zip_with].
    unfold piece, digitsPerInteger.
    by replace (uncompFractional l * 9 + compFractional l - uncompFractional l * 9)%nat
      with (compFractional l) by lia.
Qed.

(** ** Bytes of a group *)

Lemma encodeDecimalValue_be value size mask :
  (1 <= size <= 4)%nat ->
  encodeDecimalValue value size mask = map (fun b => Z.lxor b mask) (be_bytes size value).
Proof.
  intros H. unfold be_bytes.
  destruct size as [|[|[|[|[|]]]]]; try lia; cbn [le_bytes rev app map encodeDecimalValue];
    rewrite ?Z.shiftr_shiftr by lia; done.
Qed.

Lemma ParseUint32_digits ds :
  ds <> [] -> forallb digit ds = true -> (length ds <= 9)%nat -> ParseUint32 ds = digits_val 0 ds.
Proof.
  intros Hne Hd Hl. pose proof (digits_val_range ds Hd) as Hr.
  unfold ParseUint32. destruct ds; [done|]. rewrite Hd.
  apply Z.min_l. assert (10 ^ Z.of_nat (length (z :: ds)) <= 10 ^ 9) by (apply Z.pow_le_mono_r; lia).
  lia.
Qed.

(** A group of [k] digits fits its bytes, with the top bit free. *)
Lemma group_fits k : group_ok k ->
  (1 <= compressed_bytes k <= 4)%nat /\
  2 * 10 ^ Z.of_nat k <= 2 ^ (8 * Z.of_nat (compressed_bytes k)).
Proof.
  unfold group_ok. intros H.
  do 10 (destruct k as [|k]; [first [lia | cbn; split; lia]|]). lia.
Qed.

Definition mask_ok (mask : Z) : Prop := mask = 0 \/ mask = 255.

Lemma lxor_cancel a b : Z.lxor (Z.lxor a b) b = a.
Proof. by rewrite Z.lxor_assoc, Z.lxor_nilpotent, Z.lxor_0_r. Qed.

Lemma map_lxor_cancel mask l : map (fun b => Z.lxor b mask) (map (fun b => Z.lxor b mask) l) = l.
Proof.
  rewrite map_map. rewrite <- (map_id l) at 2. apply map_ext. intros. apply lxor_cancel.
Qed.

Lemma piece_spec mask k ds :
  group_ok k -> length ds = k -> forallb digit ds = true ->
  length (piece mask k ds) = compressed_bytes k /\
  be_val (map (fun b => Z.lxor b mask) (piece mask k ds)) = digits_val 0 ds.
Proof.
  intros Hk Hl Hd. destruct (group_fits k Hk) as [Hn Hf].
  unfold piece. rewrite encodeDecimalValue_be by done.
  rewrite length_map, be_bytes_length, map_lxor_cancel, be_val_bytes. split; [done|].
  unfold group_ok in Hk. rewrite ParseUint32_digits; [|by destruct ds; [simpl in *; lia|]|done|lia].
  apply wrap_id. pose proof (digits_val_range ds Hd). unfold in_width. rewrite Hl in *. lia.
Qed.

Lemma group_sizes_ok precision scale :
  Forall group_ok (group_sizes (layout_of precision scale)).
Proof.
  unfold group_sizes, layout_of; cbn [compIntegral uncompIntegral compFractional uncompFractional].
  unfold digitsPerInteger.
  set (n := ((if (precision =? 0)%nat then 10 else precision) - scale)%nat).
  pose proof (Nat.div_mod_eq n 9). pose proof (Nat.mod_upper_bound n 9).
  pose proof (Nat.div_mod_eq scale 9). pose proof (Nat.mod_upper_bound scale 9).
  rewrite !Forall_app. unfold group_ok. split_and!.
  - destruct (Nat.ltb_spec 0 (n - n / 9 * 9)%nat); constructor; [lia|constructor].
  - apply Forall_replicate. lia.
  - apply Forall_replicate. lia.
  - destruct (Nat.ltb_spec 0 (scale - scale / 9 * 9)%nat); constructor; [lia|constructor].
Qed.

Lemma forallb_take_drop n (s : bytes) :
  forallb digit s = true ->
  forallb digit (take n s) = true /\ forallb digit (drop n s) = true.
Proof. intros H. rewrite <- (take_drop n s), forallb_app in H. by apply andb_true_iff in H. Qed.

(** Reading the stored groups gives the digit string's value back. *)
Lemma decode_pieces mask ks : forall s acc,
  Forall group_ok ks -> length s = sum_list ks -> forallb digit s = true ->
  length (concat (pieces mask ks s)) = sum_list (map compressed_bytes ks) /\
  decode_groups mask ks (concat (pieces mask ks s)) acc = Some (digits_val acc s).
Proof.
  induction ks as [|k ks IH]; intros s acc Hks Hl Hd.
  { destruct s; simpl in *; [done|lia]. }
  apply Forall_cons in Hks as [Hk Hks]. simpl in Hl.
  destruct (forallb_take_drop k s Hd) as [Ht Hdr].
  destruct (piece_spec mask k (take k s) Hk) as [Hpl Hpv]; [rewrite length_take; lia|done|].
  unfold pieces in *. cbn [chunks zip_with concat map].
  destruct (IH (drop k s) (digits_val acc (take k s)) Hks) as [Hlen Hdec];
    [rewrite length_drop; unfold id in *; lia|done|].
  rewrite length_app, Hpl, Hlen. split; [done|].
  cbn [decode_groups]. rewrite take_app_length' by done.
  rewrite drop_app_length' by done. rewrite Hpl, Nat.eqb_refl, Hpv.
  rewrite <- (take_drop k s) at 3. rewrite digits_val_app, <- Hdec. f_equal.
  rewrite (digits_val_acc acc (take k s)), length_take. f_equal. f_equal. f_equal.
  unfold id in *; lia.
Qed.

(** ** The buffer *)

Lemma put_all_zeros ps : forall pre m pos,
  length pre = pos -> length (concat ps) = m ->
  put_all pos ps (pre ++ replicate m 0) = Ok (pre ++ concat ps).
Proof.
  induction ps as [|p ps IH]; intros pre m pos Hp Hm; cbn [put_all concat] in *.
  - rewrite app_nil_r in *. simpl in Hm. subst m. by rewrite app_nil_r.
  - rewrite length_app in Hm. rewrite put_at_zeros by lia. rewrite rbind_ok.
    rewrite IH; [by rewrite <- app_assoc| |lia]. rewrite length_app. lia.
Qed.

Lemma group_sizes_sum precision scale :
  let l := layout_of precision scale in
  sum_list (group_sizes l) = (intDigits l + scale)%nat /\ (0 < intDigits l + scale)%nat.
Proof.
  unfold layout_of, group_sizes; cbn [intDigits compIntegral uncompIntegral compFractional uncompFractional].
  unfold digitsPerInteger. set (p := if (precision =? 0)%nat then 10%nat else precision).
  assert (0 < p)%nat by (subst p; destruct (Nat.eqb_spec precision 0); lia).
  clearbody p. set (n := (p - scale)%nat). split; [|lia].
  rewrite !sum_list_with_app.
  pose proof (Nat.div_mod_eq n 9). pose proof (Nat.div_mod_eq scale 9).
  change (sum_list_with id (replicate ?a 9%nat)) with (sum_list (replicate a 9%nat)).
  rewrite !sum_list_replicate.
  destruct (Nat.ltb_spec 0 (n - n / 9 * 9)%nat), (Nat.ltb_spec 0 (scale - scale / 9 * 9)%nat);
    cbn [sum_list_with]; unfold id; lia.
Qed.

Lemma group_sizes_cons precision scale :
  exists k ks, group_sizes (layout_of precision scale) = k :: ks /\ group_ok k.
Proof.
  destruct (group_sizes_sum precision scale) as [Hs Hpos].
  pose proof (group_sizes_ok precision scale) as Hok.
  destruct (group_sizes (layout_of precision scale)) as [|k ks]; [|by apply Forall_cons in Hok as [Hk _]; eauto].
  change (sum_list []) with 0%nat in Hs. lia.
Qed.

Lemma binSize_groups precision scale :
  let l := layout_of precision scale in
  binSize l = sum_list (map compressed_bytes (group_sizes l)).
Proof.
  intros l. assert (0 < sum_list (map compressed_bytes (group_sizes l)))%nat as Hp.
  { destruct (group_sizes_cons precision scale) as (k & ks & E & Hk). subst l. rewrite E.
    destruct (group_fits k Hk) as [Hb _]. cbn [map sum_list_with]. unfold id. lia. }
  subst l.
  unfold group_sizes, layout_of in *; cbn [binSize compIntegral uncompIntegral compFractional uncompFractional] in *.
  set (a := (((if (precision =? 0)%nat then 10 else precision) - scale))%nat) in *.
  unfold digitsPerInteger in *.
  set (ua := (a / 9)%nat) in *. set (uf := (scale / 9)%nat) in *.
  assert (forall c, sum_list_with id (map compressed_bytes (if (0 <? c)%nat then [c] else [])) =
                    compressed_bytes c) as Hc by (intros [|c]; [done|simpl; unfold id; lia]).
  rewrite !map_app, !sum_list_with_app in *.
  assert (forall n, sum_list_with id (map compressed_bytes (replicate n 9%nat)) = (n * 4)%nat) as Hn.
  { induction n; simpl in *; [done|]. rewrite IHn. done. }
  rewrite !Hn, !Hc in *. clear Hn Hc.
  destruct (Nat.eqb_spec (ua * 4 + compressed_bytes (a - ua * 9) + uf * 4 +
                          compressed_bytes (scale - uf * 9)) 0); lia.
Qed.

(** The top bit of the first stored byte is the complement of the mask's. *)
Lemma first_byte mask k ks s :
  group_ok k -> (k <= length s)%nat -> forallb digit s = true ->
  exists hb rest, concat (pieces mask (k :: ks) s) = Z.lxor hb mask :: rest /\ 0 <= hb < 128.
Proof.
  intros Hk Hl Hd. destruct (group_fits k Hk) as [Hn Hf].
  destruct (forallb_take_drop k s Hd) as [Ht _].
  assert (length (take k s) = k) as Hlk by (rewrite length_take; lia).
  pose proof (digits_val_range _ Ht) as Hr. rewrite Hlk in Hr.
  unfold pieces. cbn [chunks zip_with concat]. unfold piece.
  unfold group_ok in Hk. rewrite ParseUint32_digits; [|by destruct s, k; simpl in *; try lia|done|lia].
  rewrite encodeDecimalValue_be by done.
  set (v := digits_val 0 (take k s)) in *. set (nb := compressed_bytes k) in *.
  unfold be_bytes. clearbody v.
  assert (exists nb', nb = S nb') as [nb' E] by (exists (pred nb); lia). rewrite E in *.
  rewrite le_bytes_snoc.
  rewrite rev_app_distr. cbn [rev app map].
  eexists (to_byte (Z.shiftr v (8 * Z.of_nat nb'))), _. split; [reflexivity|].
  unfold to_byte, wrap. rewrite Z.shiftr_div_pow2 by lia.
  replace (8 * Z.of_nat (S nb')) with (8 + 8 * Z.of_nat nb') in Hf by lia.
  rewrite Z.pow_add_r in Hf by lia. change (2 ^ 8) with 256 in Hf.
  assert (0 <= v / 2 ^ (8 * Z.of_nat nb') < 128).
  { split; [apply Z.div_pos; lia|]. apply Z.div_lt_upper_bound; lia. }
  rewrite Z.mod_small by (change (2 ^ 8) with 256; lia). lia.
Qed.

Lemma testbit7_small hb : 0 <= hb < 128 -> Z.testbit hb 7 = false.
Proof.
  intros H. rewrite Z.testbit_odd, Z.shiftr_div_pow2 by lia.
  change (2 ^ 7) with 128. by rewrite Z.div_small.
Qed.

(** ** The round trip *)

(** Any decimal text: the integer part is cut to the column's digits. *)
Lemma decode_encode_cut neg I F precision scale :
  I <> [] -> forallb digit I = true -> forallb digit (default [] F) = true ->
  exists buf, encode_decimal_text (decimal_text neg I F) precision scale = Ok buf /\
    length buf = binSize (layout_of precision scale) /\
    decode_decimal precision scale buf =
      Some (neg, digits_val 0 I mod 10 ^ Z.of_nat (intDigits (layout_of precision scale)) * 10 ^ Z.of_nat scale
                 + digits_val 0 (pad_frac scale (default [] F))).
Proof.
  intros HI Hd HF. set (l := layout_of precision scale) in *.
  unfold encode_decimal_text. rewrite split_decimal_text by done. cbv zeta. fold l.
  destruct (pad_int_mod (intDigits l) I Hd) as (La & Da & Va).
  destruct (pad_frac_spec scale (default [] F) HF) as [Lb Db].
  set (a := pad_int (intDigits l) (trimmed I)) in *. set (b := pad_frac scale (default [] F)) in *.
  set (mask := if neg then 255 else 0).
  pose proof (decimal_pieces_eq precision scale mask a b) as Hpc. cbv zeta in Hpc. fold l in Hpc.
  rewrite Hpc by done. clear Hpc.
  destruct (group_sizes_sum precision scale) as [Hs Hpos]. fold l in Hs, Hpos.
  pose proof (group_sizes_ok precision scale) as Hok. fold l in Hok.
  pose proof (binSize_groups precision scale) as Hbin. fold l in Hbin.
  assert (forallb digit (a ++ b) = true) as Dab by (rewrite forallb_app, Da, Db; done).
  assert (length (a ++ b) = sum_list (group_sizes l)) as Lab by (rewrite length_app; lia).
  destruct (decode_pieces mask (group_sizes l) (a ++ b) 0 Hok Lab Dab) as [Hlc Hdec].
  rewrite <- Hbin in Hlc.
  unfold make_bytes. change (replicate (binSize l) 0) with ([] ++ replicate (binSize l) 0).
  rewrite put_all_zeros by done. rewrite rbind_ok. cbn [app].
  assert (exists hb rest, concat (pieces mask (group_sizes l) (a ++ b)) = Z.lxor hb mask :: rest /\
            0 <= hb < 128) as (hb & rest & E & Hhb).
  { destruct (group_sizes_cons precision scale) as (k & ks & E & Hk). fold l in E. rewrite E.
    apply first_byte; [done| |done]. rewrite Lab, E. cbn [sum_list_with]. unfold id. lia. }
  rewrite E in *. eexists. split; [reflexivity|]. split; [done|].
  unfold decode_decimal. fold l. rewrite lxor_cancel.
  assert (negb (Z.testbit (Z.lxor (Z.lxor hb mask) 128) 7) = neg) as ->.
  { rewrite !Z.lxor_spec, testbit7_small by done. subst mask. by destruct neg. }
  fold mask. rewrite Hdec. cbn [fmap option_fmap option_map].
  do 2 f_equal. by rewrite digits_val_app, digits_val_acc, Va, Lb.
Qed.

Lemma decode_encode_decimal neg I F precision scale :
  I <> [] -> forallb digit I = true -> forallb digit (default [] F) = true ->
  (length (trim_left_byte 48 I) <= intDigits (layout_of precision scale))%nat ->
  exists buf, encode_decimal_text (decimal_text neg I F) precision scale = Ok buf /\
    length buf = binSize (layout_of precision scale) /\
    decode_decimal precision scale buf =
      Some (neg, digits_val 0 I * 10 ^ Z.of_nat scale + digits_val 0 (pad_frac scale (default [] F))).
Proof.
  intros HI Hd HF Hlen. destruct (decode_encode_cut neg I F precision scale HI Hd HF) as (buf & H1 & H2 & H3).
  exists buf. split; [done|]. split; [done|]. rewrite H3, Z.mod_small; [done|].
  destruct (trim_left_spec I Hd) as [Hd' <-]. pose proof (digits_val_range _ Hd').
  assert (10 ^ Z.of_nat (length (trim_left_byte 48 I)) <= 10 ^ Z.of_nat (intDigits (layout_of precision scale)))
    by (apply Z.pow_le_mono_r; lia). lia.
Qed.

(** ** Sizes, for any text *)

Lemma encodeDecimalValue_length v n mask :
  (n <= 4)%nat -> length (encodeDecimalValue v n mask) = n.
Proof. intros H. do 5 (destruct n as [|n]; [done|]). lia. Qed.

Lemma compressed_bytes_le k : (compressed_bytes k <= 4)%nat.
Proof. do 10 (destruct k as [|k]; [cbn; lia|]). destruct k; cbn; lia. Qed.

Lemma concat_fixed {A} (f : A -> bytes) n l :
  (forall x, length (f x) = n) -> length (concat (map f l)) = (length l * n)%nat.
Proof. intros H. induction l; simpl; [done|]. rewrite length_app, H, IHl. lia. Qed.

Lemma decimal_pieces_length precision scale mask a b :
  let l := layout_of precision scale in
  length (concat (decimal_pieces l mask a b)) = binSize l.
Proof.
  intros l. unfold decimal_pieces. rewrite !concat_app, !length_app.
  rewrite !(concat_fixed _ 4%nat) by (intros; by apply encodeDecimalValue_length).
  pose proof (binSize_groups precision scale) as Hb. cbv zeta in Hb. fold l in Hb.
  rewrite !length_seq, Hb. unfold group_sizes. clear Hb.
  rewrite !map_app, !sum_list_with_app.
  assert (forall n, sum_list_with id (map compressed_bytes (replicate n 9%nat)) = (n * 4)%nat) as Hn.
  { induction n; simpl in *; [done|]. rewrite IHn. done. }
  rewrite !Hn. f_equal; [|f_equal; f_equal].
  - destruct (0 <? compIntegral l)%nat; [|done]. cbn [map concat sum_list_with].
    rewrite app_nil_r, encodeDecimalValue_length by apply compressed_bytes_le. unfold id. lia.
  - destruct (0 <? compFractional l)%nat; [|done]. cbn [map concat sum_list_with].
    rewrite app_nil_r, encodeDecimalValue_length by apply compressed_bytes_le. unfold id. lia.
Qed.

Lemma binSize_pos precision scale : (0 < binSize (layout_of precision scale))%nat.
Proof.
  rewrite binSize_groups. destruct (group_sizes_cons precision scale) as (k & ks & -> & Hk).
  destruct (group_fits k Hk) as [Hb _]. cbn [map sum_list_with]. unfold id. lia.
Qed.

Lemma encode_decimal_text_total s precision scale :
  exists buf, encode_decimal_text s precision scale = Ok buf /\
    length buf = binSize (layout_of precision scale).
Proof.
  unfold encode_decimal_text. destruct (split_decimal s) as [[neg ip] fp]. cbv zeta.
  pose proof (decimal_pieces_length precision scale (if neg then 255 else 0)
    (pad_int (intDigits (layout_of precision scale)) ip) (pad_frac scale fp)) as Hl.
  cbv zeta in Hl. pose proof (binSize_pos precision scale) as Hp.
  unfold make_bytes. change (replicate ?n 0) with ([] ++ replicate n 0).
  rewrite put_all_zeros by done. rewrite rbind_ok. cbn [app].
  rewrite <- Hl in *. destruct (concat _) as [|b0 rest]; [simpl in Hp; lia|].
  eexists. by split.
Qed.

(** ** The column encoder *)

(** The column metadata word of [DECIMAL(precision, scale)]. *)
Definition decimal_meta (precision scale : nat) : Z :=
  Z.of_nat precision * 256 + Z.of_nat scale.

Lemma decimal_meta_fields precision scale :
  (precision < 256)%nat -> (scale < 256)%nat ->
  Z.to_nat (Z.shiftr (decimal_meta precision scale) 8) = precision /\
  Z.to_nat (Z.land (decimal_meta precision scale) 255) = scale.
Proof.
  intros Hp Hs. unfold decimal_meta. change 255 with (Z.ones 8).
  rewrite Z.land_ones, Z.shiftr_div_pow2 by lia. change (2 ^ 8) with 256.
  split; rewrite ?Z.div_add_l, ?(Z.add_comm (_ * _)), ?Z.mod_add, ?Z.mod_small, ?Z.div_small by lia; lia.
Qed.



(** whatever the value and the metadata, the DECIMAL encoder does not panic
    and writes exactly the number of bytes the column's metadata announces, so
    the columns after it stay aligned (also for a NaN, an exponent or a
    precision below the scale). *)
Theorem encodeDecimal_size fmt_v val meta :
  exists buf, encodeDecimal fmt_v val meta = Ok buf /\
    length buf = binSize (layout_of (Z.to_nat (Z.shiftr meta 8)) (Z.to_nat (Z.land meta 255))).
Proof. apply encode_decimal_text_total. Qed.
