(* ===== verification/ValueFacts.v ===== *)
(** * Integer, temporal and string columns survive the binlog

    Readers for the remaining column types, as the binlog format defines them,
    and the round trips through the encoders of [BinlogValue]; then the framing
    of a value: how many bytes a reader consumes for a column, which is what
    keeps the columns of a row apart. *)

From Stdlib Require Import ZArith Lia.
From stdpp Require Import base numbers list strings gmap.
From S2P Require Import Prelude GoStd BinlogValue DecimalFacts.
Open Scope Z_scope.

(** ** Integers *)

(** A reader of a little-endian two's complement column. *)
Definition decode_signed (l : bytes) : Z := swrap (8 * Z.of_nat (length l)) (le_val l).

Lemma decode_signed_le n v :
  (0 < n)%nat -> decode_signed (le_bytes n v) = swrap (8 * Z.of_nat n) v.
Proof.
  intros Hn. unfold decode_signed. rewrite le_bytes_length, le_val_bytes. apply swrap_wrap. lia.
Qed.

Lemma decode_signed_wrap n w v :
  (0 < n)%nat -> 8 * Z.of_nat n <= w ->
  decode_signed (le_bytes n (wrap w v)) = swrap (8 * Z.of_nat n) v.
Proof. intros. rewrite le_bytes_wrap by lia. by apply decode_signed_le. Qed.

(** an integer column round-trips for every Go integer type its encoder
    accepts: the reader gets the value truncated to the column's width, hence
    the value itself when it is in the column's range. *)
Theorem int_columns_roundtrip z :
  Forall (fun val => decode_signed (encodeTiny val) = swrap 8 z)
    [VInt8 z; VInt z; VInt64 z; VInt32 z; VInt16 z] /\
  Forall (fun val => decode_signed (encodeShort val) = swrap 16 z)
    [VInt16 z; VInt z; VInt64 z; VInt32 z] /\
  Forall (fun val => decode_signed (encodeInt24 val) = swrap 24 z) [VInt32 z; VInt z; VInt64 z] /\
  Forall (fun val => decode_signed (encodeLong val) = swrap 32 z) [VInt32 z; VInt z; VInt64 z] /\
  Forall (fun val => decode_signed (encodeLongLong val) = swrap 64 z) [VInt64 z; VInt z; VInt32 z].
Proof.
  split_and!; repeat constructor;
    unfold encodeTiny, encodeShort, encodeInt24, encodeLong, encodeLongLong, int32_of;
    rewrite ?le3_bytes;
    try change [to_byte ?v] with (le_bytes 1 v);
    first [ rewrite decode_signed_wrap by lia | rewrite decode_signed_le by lia ];
    first [ reflexivity | apply swrap_swrap; lia ].
Qed.

(** ** DATE, TIME and DATETIME *)

Definition date_text (y m d : Z) : bytes :=
  dec_pad 4 y ++ [45] ++ dec_pad 2 m ++ [45] ++ dec_pad 2 d.
Definition clock_text (h mi s : Z) : bytes :=
  dec_pad 2 h ++ [58] ++ dec_pad 2 mi ++ [58] ++ dec_pad 2 s.

Definition decode_date (l : bytes) : Z * Z * Z :=
  let v := le_val l in (v / 512, (v / 32) mod 16, v mod 32).

Definition decode_time (l : bytes) : Z * Z * Z :=
  let v := le_val l in (v / 10000, (v / 100) mod 100, v mod 100).

Definition decode_datetime (l : bytes) : (Z * Z * Z) * (Z * Z * Z) :=
  let v := le_val l in
  let d := v / 1000000 in
  let t := v mod 1000000 in
  ((d / 10000, (d / 100) mod 100, d mod 100), (t / 10000, (t / 100) mod 100, t mod 100)).

Lemma no_digit_lit c r : digit c = false -> no_digit (c :: r).
Proof. done. Qed.

(** Scanning three padded fields separated by [sep]. *)
Lemma Sscanf_three sep p1 a p2 b p3 c fmt r :
  digit sep = false -> 0 <= a < 2 ^ 63 -> 0 <= b < 2 ^ 63 -> 0 <= c < 2 ^ 63 -> no_digit r ->
  Sscanf 64 (SInt :: SLit sep :: SInt :: SLit sep :: SInt :: fmt)
    ((dec_pad p1 a ++ [sep] ++ dec_pad p2 b ++ [sep] ++ dec_pad p3 c) ++ r)
  = a :: b :: c :: Sscanf 64 fmt r.
Proof.
  intros Hsep Ha Hb Hc Hr. rewrite <- !app_assoc. cbn [Sscanf app].
  rewrite scan_int_dec_pad by done. cbn [Sscanf]. rewrite Z.eqb_refl.
  rewrite scan_int_dec_pad by done. cbn [Sscanf]. rewrite Z.eqb_refl.
  by rewrite scan_int_dec_pad.
Qed.

Lemma Sscanf_space p h t fmt :
  0 <= h < 2 ^ 63 -> Sscanf 64 (SSpace :: fmt) ([32] ++ (dec_pad p h ++ t)) = Sscanf 64 fmt (dec_pad p h ++ t).
Proof.
  intros Hh. cbn [app Sscanf]. change (is_space 32) with true. cbv iota. f_equal.
  destruct (dec_pad_spec p h) as (Hd' & _ & Hne); [lia|].
  destruct (dec_pad p h) as [|c u]; [done|]. cbn [app skip_space].
  simpl in Hd'. apply andb_true_iff in Hd' as [Hc _].
  by destruct (digit_not_sign c Hc) as (-> & _).
Qed.

Definition date_ok (y m d : Z) : Prop := 0 <= y < 10000 /\ 1 <= m <= 12 /\ 1 <= d <= 31.
Definition clock_ok (h mi s : Z) : Prop := 0 <= h < 24 /\ 0 <= mi < 60 /\ 0 <= s < 60.

Lemma le3_val v : 0 <= v < 2 ^ 24 -> le_val (le3 (wrap 32 v)) = v.
Proof.
  intros H. unfold le3. rewrite le3_bytes, le_bytes_wrap, le_val_bytes by lia. by apply wrap_id.
Qed.

Lemma encode_date_text_spec y m d r :
  date_ok y m d -> no_digit r -> decode_date (encode_date_text (date_text y m d ++ r)) = (y, m, d).
Proof.
  intros (Hy & Hm & Hd) Hr. unfold encode_date_text, date_format, date_text.
  rewrite Sscanf_three by (done || lia). cbn [Sscanf scanned nth]. unfold scanned. cbn [nth].
  unfold decode_date. rewrite le3_val by lia. f_equal; [f_equal|]; zlia.
Qed.

Lemma encode_time_text_spec h mi s r :
  clock_ok h mi s -> no_digit r -> decode_time (encodeTime (VString (clock_text h mi s ++ r))) = (h, mi, s).
Proof.
  intros (Hh & Hmi & Hs) Hr. unfold encodeTime, clock_format, clock_text.
  rewrite Sscanf_three by (done || lia). cbn [Sscanf]. unfold scanned, decode_time. cbn [nth].
  rewrite le3_val by lia. repeat f_equal; zlia.
Qed.

Lemma encode_datetime_text_spec y m d h mi s r :
  date_ok y m d -> clock_ok h mi s -> no_digit r ->
  decode_datetime (encode_datetime_text (date_text y m d ++ [32] ++ clock_text h mi s ++ r)) =
  ((y, m, d), (h, mi, s)).
Proof.
  intros (Hy & Hm & Hd) (Hh & Hmi & Hs) Hr.
  unfold encode_datetime_text.
  change (date_format ++ SSpace :: clock_format)
    with (SInt :: SLit 45 :: SInt :: SLit 45 :: SInt :: SSpace :: clock_format).
  unfold date_text. rewrite Sscanf_three by (done || lia).
  unfold clock_text. rewrite <- !app_assoc, Sscanf_space by lia. rewrite !app_assoc.
  rewrite <- (app_assoc _ [58] (dec_pad 2 s)), <- (app_assoc _ _ (_ ++ dec_pad 2 s)), <- (app_assoc (dec_pad 2 h)). unfold clock_format.
  rewrite Sscanf_three by (done || lia). cbn [Sscanf]. unfold scanned. cbn [nth].
  unfold decode_datetime. rewrite le_bytes_wrap, le_val_bytes, wrap_id; [|unfold in_width; lia|lia].
  repeat f_equal; zlia.
Qed.

(** DATE and DATETIME columns round-trip: from the text PostgreSQL sends
    (with any fraction or zone after it) and from a [time.Time], the reader
    recovers year, month, day and the clock.  TIME round-trips from its text. *)
Theorem temporal_columns_roundtrip y m d h mi s r
  (Hdate : date_ok y m d) (Hclock : clock_ok h mi s) (Hr : no_digit r) :
  decode_date (encodeDate (VString (date_text y m d ++ r))) = (y, m, d) /\
  decode_time (encodeTime (VString (clock_text h mi s ++ r))) = (h, mi, s) /\
  decode_datetime (encodeDatetime (VString (date_text y m d ++ [32] ++ clock_text h mi s ++ r))) =
    ((y, m, d), (h, mi, s)) /\
  (forall t, t_date t = (y, m, d) -> decode_date (encodeDate (VTime t)) = (y, m, d)).
Proof.
  split_and!.
  - by apply encode_date_text_spec.
  - by apply encode_time_text_spec.
  - by apply encode_datetime_text_spec.
  - intros t Ht. unfold encodeDate, fmt_date, t_Year, t_Month, t_Day. rewrite Ht. simpl fst. simpl snd.
    pose proof (encode_date_text_spec y m d [] Hdate I) as H. by rewrite app_nil_r in H.
Qed.

Lemma temporal_columns_roundtrip_witness :
  decode_datetime (encodeDatetime (VString (str "2024-02-29 23:59:58.123456"))) =
    ((2024, 2, 29), (23, 59, 58)).
Proof.
  apply (temporal_columns_roundtrip 2024 2 29 23 59 58 (str ".123456"));
    [unfold date_ok; lia|unfold clock_ok; lia|reflexivity].
Defined.

(** ** DATETIME2 and TIME2 *)

Definition decode_hms (v : Z) : Z * Z * Z := (Z.shiftr v 12 mod 1024, Z.shiftr v 6 mod 64, v mod 64).

Definition decode_datetime2 (l : bytes) : (Z * Z * Z) * (Z * Z * Z) :=
  let v := be_val (take 5 l) - 549755813888 in
  let ymd := Z.shiftr v 17 in
  let ym := Z.shiftr ymd 5 in
  ((ym / 13, ym mod 13, ymd mod 32), decode_hms (v mod 2 ^ 17)).

Lemma pack_hms h mi s :
  0 <= mi < 64 -> 0 <= s < 64 ->
  Z.lor (Z.lor (Z.shiftl h 12) (Z.shiftl mi 6)) s = h * 4096 + mi * 64 + s.
Proof.
  intros Hm Hs. rewrite (lor_shiftl_add h (Z.shiftl mi 6) 12) by (rewrite ?Z.shiftl_mul_pow2; lia).
  rewrite Z.shiftl_mul_pow2 by lia.
  replace (h * 2 ^ 12 + mi * 2 ^ 6) with (Z.shiftl (h * 64 + mi) 6)
    by (rewrite Z.shiftl_mul_pow2 by lia; lia).
  rewrite lor_shiftl_add by lia. lia.
Qed.

Lemma decode_hms_pack h mi s :
  0 <= h < 1024 -> 0 <= mi < 64 -> 0 <= s < 64 -> decode_hms (h * 4096 + mi * 64 + s) = (h, mi, s).
Proof.
  intros. unfold decode_hms. rewrite !Z.shiftr_div_pow2 by lia. repeat f_equal; zlia.
Qed.

Lemma pack_datetime2_eq t :
  pack_datetime2 t =
  ((t_Year t * 13 + t_Month t) * 32 + t_Day t) * 131072 +
  (t_Hour t * 4096 + t_Minute t * 64 + t_Second t) + 549755813888.
Proof.
  destruct (t_ranges t) as (Hmo & Hd & Hh & Hmi & Hs). unfold pack_datetime2.
  rewrite pack_hms by lia. rewrite (lor_shiftl_add _ (t_Day t) 5) by lia.
  rewrite lor_shiftl_add by lia. lia.
Qed.

(** a DATETIME2 column round-trips to the second for every time of the
    years 0 to 9999, whatever its zone, and occupies the 5 bytes plus the
    fraction bytes its precision announces. *)
Theorem datetime2_roundtrip t meta (Hy : 0 <= t_Year t <= 9999) (Hm : 0 <= meta <= 6) :
  decode_datetime2 (encodeDatetime2 (VTime t) meta) =
    ((t_Year t, t_Month t, t_Day t), (t_Hour t, t_Minute t, t_Second t)) /\
  length (encodeDatetime2 (VTime t) meta) = (5 + Z.to_nat ((meta + 1) / 2))%nat.
Proof.
  destruct (t_ranges t) as (Hmo & Hd & Hh & Hmi & Hs).
  unfold encodeDatetime2. rewrite (wrap_id 16 (meta + 1)) by (unfold in_width; lia).
  rewrite (wrap_id 16) by (unfold in_width; zlia). rewrite be5_bytes, length_app, be_bytes_length.
  split; [|unfold make_bytes; rewrite length_replicate; zlia].
  unfold decode_datetime2. rewrite take_app_length' by by rewrite be_bytes_length.
  rewrite be_val_bytes, pack_datetime2_eq, wrap_id by (unfold in_width; lia).
  rewrite !Z.shiftr_div_pow2 by lia.
  set (hms := t_Hour t * 4096 + t_Minute t * 64 + t_Second t).
  assert (0 <= hms < 131072) as Hhms by (subst hms; lia).
  set (ymd := (t_Year t * 13 + t_Month t) * 32 + t_Day t).
  replace (ymd * 131072 + hms + 549755813888 - 549755813888) with (ymd * 2 ^ 17 + hms) by lia.
  rewrite Z.div_add_l, (Z.div_small hms), Z.add_0_r by lia.
  replace ((ymd * 2 ^ 17 + hms) mod 2 ^ 17) with hms by zlia.
  subst hms. rewrite decode_hms_pack by lia. subst ymd. change (2 ^ 5) with 32.
  repeat f_equal; zlia.
Qed.

Lemma datetime2_roundtrip_witness :
  decode_datetime2 (encodeDatetime2 (VTime (mk_date 2024 2 29 23 59 58 5)) 3) =
    ((2024, 2, 29), (23, 59, 58)).
Proof.
  destruct (datetime2_roundtrip (mk_date 2024 2 29 23 59 58 5) 3) as [H _];
    [vm_compute; split; discriminate|lia|].
  rewrite H. reflexivity.
Defined.

(** A reader of TIME2: clock and microseconds.  The fraction bytes count units
    of [100^-k] seconds, [k] the number of fraction bytes. *)
Definition decode_time2 (l : bytes) (meta : Z) : (Z * Z * Z) * Z :=
  let k := (meta + 1) / 2 in
  (decode_hms (be_val (take 3 l) - 8388608), be_val (drop 3 l) * 100 ^ (3 - k)).

Lemma clock_text_no_dot h mi s :
  0 <= h -> 0 <= mi -> 0 <= s ->
  forallb (fun x => negb (x =? 46)) (clock_text h mi s) = true.
Proof.
  intros. unfold clock_text. rewrite !forallb_app.
  rewrite (digits_no_dot (dec_pad 2 h)), (digits_no_dot (dec_pad 2 mi)),
    (digits_no_dot (dec_pad 2 s)) by (apply dec_pad_spec; lia).
  reflexivity.
Qed.

Lemma Sscanf_clock h mi s r :
  0 <= h < 2 ^ 63 -> 0 <= mi < 2 ^ 63 -> 0 <= s < 2 ^ 63 -> no_digit r ->
  Sscanf 64 clock_format (clock_text h mi s ++ r) = [h; mi; s].
Proof. intros. unfold clock_format, clock_text. rewrite Sscanf_three by assumption || reflexivity. reflexivity. Qed.

(** The fraction the encoder scans is the text cut or padded to [meta] digits. *)
Lemma scan_time2_spec h mi s F meta :
  0 <= h < 2 ^ 63 -> 0 <= mi < 2 ^ 63 -> 0 <= s < 2 ^ 63 -> 1 <= meta <= 6 ->
  forallb digit F = true ->
  scan_time2 (clock_text h mi s ++ 46 :: F) meta =
    (h, mi, s, digits_val 0 (pad_frac (Z.to_nat meta) F)).
Proof.
  intros Hh Hmi Hs Hm HF. unfold scan_time2.
  destruct (index_byte_app 46 (clock_text h mi s) F) as [-> _];
    [apply clock_text_no_dot; lia|].
  rewrite take_app_length, drop_app_ge, Nat.add_comm by lia.
  replace (S _ - _)%nat with 1%nat by lia. rewrite skipn_cons, drop_0.
  pose proof (Sscanf_clock h mi s [] Hh Hmi Hs I) as E. rewrite app_nil_r in E. rewrite E.
  unfold scanned at 1 2 3. cbn [nth]. f_equal.
  destruct (pad_frac_spec (Z.to_nat meta) F HF) as [Hl Hd].
  replace (take _ _) with (pad_frac (Z.to_nat meta) F).
  2:{ unfold pad_frac. rewrite (proj2 (Nat.eqb_neq _ _)) by lia.
      destruct (Nat.leb_spec (Z.to_nat meta) (length F)).
      - rewrite take_app_le by lia. done.
      - rewrite take_ge; [done|]. rewrite length_app, length_replicate. lia. }
  cbn [Sscanf]. pose proof (digits_val_range _ Hd) as Hr. rewrite Hl in Hr.
  pose proof (Z.pow_le_mono_r 10 (Z.of_nat (Z.to_nat meta)) 6).
  rewrite <- (app_nil_r (pad_frac _ _)) at 1.
  rewrite scan_int_digits; [done| |done|done|lia].
  intros E'. rewrite E' in Hl. simpl in Hl. lia.
Qed.

Lemma pack_time2_decode h mi s :
  0 <= h < 1024 -> 0 <= mi < 64 -> 0 <= s < 64 ->
  decode_hms (be_val (be_bytes 3 (Z.lor (Z.lor (Z.shiftl h 12) (Z.shiftl mi 6)) s + 8388608)) - 8388608)
  = (h, mi, s).
Proof.
  intros. rewrite pack_hms, be_val_bytes, wrap_id by (unfold in_width; lia).
  rewrite <- (decode_hms_pack h mi s) by lia. f_equal. lia.
Qed.

Lemma time2_fields h mi s f k meta :
  0 <= h < 1024 -> 0 <= mi < 64 -> 0 <= s < 64 ->
  0 <= f < 2 ^ (8 * Z.of_nat k) -> meta = 2 * Z.of_nat k -> (k <= 3)%nat ->
  let l := be_bytes 3 (Z.lor (Z.lor (Z.shiftl h 12) (Z.shiftl mi 6)) s + 8388608) ++ be_bytes k f in
  decode_time2 l meta = ((h, mi, s), f * 10 ^ (6 - meta)) /\
  length l = (3 + Z.to_nat (meta / 2))%nat.
Proof.
  intros Hh Hmi Hs Hf -> Hk l. subst l. unfold decode_time2.
  rewrite length_app, !be_bytes_length, take_app_length', drop_app_length', pack_time2_decode
    by (lia || by rewrite be_bytes_length).
  rewrite be_val_bytes, wrap_id by done. split; [|zlia].
  replace ((2 * Z.of_nat k + 1) / 2) with (Z.of_nat k) by zlia.
  change 100 with (10 ^ 2). rewrite <- Z.pow_mul_r by lia. repeat f_equal. lia.
Qed.

(** a TIME2 column of an even precision round-trips for every non-negative
    time, fraction included: a reader gets the clock and the microseconds of
    the text, its fraction cut or padded to the column's precision. *)
Theorem time2_roundtrip h mi s F meta
  (Hh : 0 <= h < 1024) (Hmi : 0 <= mi < 60) (Hs : 0 <= s < 60)
  (Hm : meta = 2 \/ meta = 4 \/ meta = 6) (HF : forallb digit F = true) :
  decode_time2 (encodeTime2 (VString (clock_text h mi s ++ 46 :: F)) meta) meta =
    ((h, mi, s), digits_val 0 (pad_frac (Z.to_nat meta) F) * 10 ^ (6 - meta)) /\
  length (encodeTime2 (VString (clock_text h mi s ++ 46 :: F)) meta) = (3 + Z.to_nat (meta / 2))%nat.
Proof.
  unfold encodeTime2, encode_time2_text. rewrite scan_time2_spec by (done || lia).
  rewrite (proj2 (Z.ltb_ge h 0)), be3_bytes by lia.
  destruct (pad_frac_spec (Z.to_nat meta) F HF) as [Hl Hd].
  pose proof (digits_val_range _ Hd) as Hr. rewrite Hl in Hr.
  set (f := digits_val 0 _) in *. unfold decode_time2.
  destruct Hm as [-> | [-> | ->]].
  - change (10 ^ _) with 100 in Hr. apply (time2_fields h mi s f 1 2); lia.
  - change (10 ^ _) with 10000 in Hr. apply (time2_fields h mi s f 2 4); lia.
  - change (10 ^ _) with 1000000 in Hr.
    pose proof (time2_fields h mi s f 3 6) as H. rewrite <- (be3_bytes f) in H. apply H; lia.
Qed.

Lemma time2_roundtrip_witness :
  decode_time2 (encodeTime2 (VString (str "13:07:59.25")) 6) 6 = ((13, 7, 59), 250000).
Proof.
  apply (time2_roundtrip 13 7 59 (str "25") 6); [lia|lia|lia|lia|reflexivity].
Defined.

(** two TIME2 defects of the encoder, as readers see them.  With an odd
    precision the scanned fraction is stored without being scaled to the even
    number of digits the fraction bytes count, so 0.5 s is read as 0.05 s; and
    the sign of a negative time above -1 hour is lost. *)
Theorem time2_defects :
  decode_time2 (encodeTime2 (VString (str "01:02:03.5")) 1) 1 = ((1, 2, 3), 50000) /\
  encodeTime2 (VString (str "-00:30:00")) 0 = encodeTime2 (VString (str "00:30:00")) 0.
Proof. split; reflexivity. Qed.

(** ** Framing

    The number of bytes a reader of the row format consumes for a column of
    type [colType] and metadata [meta], from the bytes that follow. *)
Definition prefixed (n : nat) (l : bytes) : nat := (n + Z.to_nat (le_val (take n l)))%nat.

Definition field_len (colType meta : Z) (l : bytes) : option nat :=
  let frac := Z.to_nat ((meta + 1) / 2) in
  let ty t := colType =? t in
  if ty MYSQL_TYPE_NULL then Some 0%nat
  else if ty MYSQL_TYPE_TINY || ty MYSQL_TYPE_YEAR then Some 1%nat
  else if ty MYSQL_TYPE_SHORT then Some 2%nat
  else if ty MYSQL_TYPE_INT24 || ty MYSQL_TYPE_DATE || ty MYSQL_TYPE_TIME then Some 3%nat
  else if ty MYSQL_TYPE_LONG || ty MYSQL_TYPE_FLOAT || ty MYSQL_TYPE_TIMESTAMP then Some 4%nat
  else if ty MYSQL_TYPE_LONGLONG || ty MYSQL_TYPE_DOUBLE || ty MYSQL_TYPE_DATETIME then Some 8%nat
  else if ty MYSQL_TYPE_NEWDECIMAL then
    Some (binSize (layout_of (Z.to_nat (meta / 256)) (Z.to_nat (meta mod 256))))
  else if ty MYSQL_TYPE_TIME2 then Some (3 + frac)%nat
  else if ty MYSQL_TYPE_DATETIME2 then Some (5 + frac)%nat
  else if ty MYSQL_TYPE_TIMESTAMP2 then Some (4 + frac)%nat
  else if ty MYSQL_TYPE_VARCHAR || ty MYSQL_TYPE_VAR_STRING then
    Some (prefixed (if meta <? 256 then 1 else 2) l)
  else if ty MYSQL_TYPE_STRING then Some (prefixed 1 l)
  else if ty MYSQL_TYPE_BLOB || ty MYSQL_TYPE_GEOMETRY || ty MYSQL_TYPE_JSON then
    Some (prefixed (Z.to_nat meta) l)
  else if ty MYSQL_TYPE_BIT then Some (Z.to_nat ((meta / 256 * 8 + meta mod 256 + 7) / 8))
  else if ty MYSQL_TYPE_ENUM || ty MYSQL_TYPE_SET then Some (Z.to_nat (meta mod 256))
  else None.

(** The metadata and the size of a value of a length-prefixed type stay within
    what the length prefix can say. *)
Definition short_text (fmt_v : GoValue -> bytes) (val : GoValue) (n : Z) : Prop :=
  Z.of_nat (length (text_of fmt_v val)) < n.

Definition value_fits (fmt_v : GoValue -> bytes) (val : GoValue) (colType meta : Z) : Prop :=
  in_width 16 meta /\
  (colType = MYSQL_TYPE_TIME2 \/ colType = MYSQL_TYPE_DATETIME2 \/ colType = MYSQL_TYPE_TIMESTAMP2 ->
     meta <= 6) /\
  (colType = MYSQL_TYPE_VARCHAR \/ colType = MYSQL_TYPE_VAR_STRING ->
     short_text fmt_v val (if meta <? 256 then 256 else 65536)) /\
  (colType = MYSQL_TYPE_STRING -> short_text fmt_v val 256) /\
  (colType = MYSQL_TYPE_BLOB \/ colType = MYSQL_TYPE_GEOMETRY \/ colType = MYSQL_TYPE_JSON ->
     1 <= meta <= 4 /\
     exists t, (val = VString t \/ val = VBytes t) /\ Z.of_nat (length t) < 256 ^ meta) /\
  (colType = MYSQL_TYPE_BIT -> meta / 256 * 8 + meta mod 256 <= 64) /\
  (colType = MYSQL_TYPE_ENUM -> meta mod 256 = 1 \/ meta mod 256 = 2).

Lemma prefixed_le n s :
  Z.of_nat (length s) < 2 ^ (8 * Z.of_nat n) ->
  forall r, prefixed n ((le_bytes n (Z.of_nat (length s)) ++ s) ++ r)
    = length (le_bytes n (Z.of_nat (length s)) ++ s).
Proof.
  intros Hn r. unfold prefixed. rewrite <- app_assoc, take_app_length' by by rewrite le_bytes_length.
  rewrite le_val_bytes, wrap_id by (unfold in_width; lia).
  rewrite length_app, le_bytes_length. lia.
Qed.

Lemma encodeVarString_le fmt_v val meta :
  encodeVarString fmt_v val meta =
    le_bytes (if meta <? 256 then 1 else 2) (Z.of_nat (length (text_of fmt_v val))) ++ text_of fmt_v val.
Proof.
  unfold encodeVarString. destruct (meta <? 256); [done|]. by rewrite le_bytes_wrap by lia.
Qed.

Lemma encodeFixedString_le fmt_v val meta :
  0 <= meta -> encodeFixedString fmt_v val meta =
    le_bytes 1 (Z.of_nat (length (text_of fmt_v val))) ++ text_of fmt_v val.
Proof.
  intros Hm. unfold encodeFixedString. rewrite encodeVarString_le.
  change 255 with (Z.ones 8). rewrite Z.land_ones by lia. change (2 ^ 8) with 256.
  assert (0 <= (if 256 <=? meta then meta mod 256 else meta) < 256) as H.
  { destruct (Z.leb_spec 256 meta); [apply Z.mod_pos_bound|]; lia. }
  rewrite wrap_id by (unfold in_width; lia). by rewrite (proj2 (Z.ltb_lt _ _)) by lia.
Qed.

Lemma encode_blob_data_le t meta :
  1 <= meta <= 4 ->
  encode_blob_data t meta = le_bytes (Z.to_nat meta) (Z.of_nat (length t)) ++ t.
Proof.
  intros Hm. unfold encode_blob_data.
  assert (meta = 1 \/ meta = 2 \/ meta = 3 \/ meta = 4) as [->|[->|[->| ->]]] by lia;
    [done|by rewrite le_bytes_wrap by lia|by rewrite le3_bytes|by rewrite le_bytes_wrap by lia].
Qed.

Definition row_types : list Z :=
  [MYSQL_TYPE_NULL; MYSQL_TYPE_TINY; MYSQL_TYPE_SHORT; MYSQL_TYPE_INT24; MYSQL_TYPE_LONG;
   MYSQL_TYPE_LONGLONG; MYSQL_TYPE_FLOAT; MYSQL_TYPE_DOUBLE; MYSQL_TYPE_NEWDECIMAL; MYSQL_TYPE_YEAR;
   MYSQL_TYPE_DATE; MYSQL_TYPE_TIME; MYSQL_TYPE_TIME2; MYSQL_TYPE_DATETIME; MYSQL_TYPE_DATETIME2;
   MYSQL_TYPE_TIMESTAMP; MYSQL_TYPE_TIMESTAMP2; MYSQL_TYPE_VARCHAR; MYSQL_TYPE_VAR_STRING;
   MYSQL_TYPE_STRING; MYSQL_TYPE_BLOB; MYSQL_TYPE_BIT; MYSQL_TYPE_ENUM; MYSQL_TYPE_SET;
   MYSQL_TYPE_JSON; MYSQL_TYPE_GEOMETRY].

(** The bytes of a value, and the reader's view of where it ends. *)
Definition framed (colType meta : Z) (r : res bytes) : Prop :=
  exists e, r = Ok e /\ forall rest, field_len colType meta (e ++ rest) = Some (length e).

Lemma framed_intro colType meta e :
  (forall rest, field_len colType meta (e ++ rest) = Some (length e)) -> framed colType meta (Ok e).
Proof. intros H. exists e. by split. Qed.

Lemma frac_bytes base meta :
  0 <= meta <= 6 -> 0 <= base <= 8 ->
  wrap 16 (base + wrap 16 (meta + 1) / 2) = base + (meta + 1) / 2 /\
  wrap 16 (meta + 1) / 2 = (meta + 1) / 2.
Proof.
  intros. rewrite (wrap_id 16 (meta + 1)) by (unfold in_width; lia).
  split; [|done]. apply wrap_id. unfold in_width. zlia.
Qed.

Lemma encode_time2_text_length t meta :
  0 <= meta <= 6 -> length (encode_time2_text t meta) = (3 + Z.to_nat ((meta + 1) / 2))%nat.
Proof.
  intros Hm. unfold encode_time2_text. destruct (scan_time2 t meta) as [[[h mi] s] f].
  destruct (frac_bytes 0 meta) as [_ ->]; [lia..|]. set (k := Z.to_nat _). rewrite length_app. f_equal.
  destruct (_ && _); [|unfold make_bytes; by rewrite length_replicate].
  destruct k as [|[|[|[|]]]]; try reflexivity. unfold make_bytes. by rewrite length_replicate.
Qed.

Lemma temporal2_length val meta :
  0 <= meta <= 6 ->
  let k := Z.to_nat ((meta + 1) / 2) in
  length (encodeTime2 val meta) = (3 + k)%nat /\
  length (encodeDatetime2 val meta) = (5 + k)%nat /\
  length (encodeTimestamp2 val meta) = (4 + k)%nat.
Proof.
  intros Hm k. unfold encodeTime2, encodeDatetime2, encodeTimestamp2.
  rewrite (proj1 (frac_bytes 4 meta Hm ltac:(lia))), (proj1 (frac_bytes 5 meta Hm ltac:(lia))),
    (proj2 (frac_bytes 5 meta Hm ltac:(lia))).
  assert (0 <= (meta + 1) / 2) by zlia.
  subst k. unfold make_bytes.
  split_and!; destruct val; repeat case_match; cbn [app length];
    rewrite ?encode_time2_text_length, ?length_replicate; lia.
Qed.

Lemma land_255 z : Z.land z 255 = z mod 256.
Proof. change 255 with (Z.ones 8). by rewrite Z.land_ones by lia. Qed.

Lemma shiftr_8 z : Z.shiftr z 8 = z / 256.
Proof. by rewrite Z.shiftr_div_pow2 by lia. Qed.

Lemma fixed_length val :
  length (encodeDate val) = 3%nat /\ length (encodeTime val) = 3%nat /\
  length (encodeDatetime val) = 8%nat /\ length (encodeTimestamp val) = 4%nat /\
  length (encodeYear val) = 1%nat.
Proof.
  unfold encodeDate, encodeTime, encodeDatetime, encodeTimestamp, encodeYear,
    encode_date_text, encode_datetime_text.
  split_and!; destruct val; rewrite ?le_bytes_length; try reflexivity; by case_match.
Qed.

Lemma encodeBlob_le val t meta :
  (val = VString t \/ val = VBytes t) -> 1 <= meta <= 4 ->
  encodeBlob val meta = le_bytes (Z.to_nat meta) (Z.of_nat (length t)) ++ t /\
  encodeJSON val meta = le_bytes (Z.to_nat meta) (Z.of_nat (length t)) ++ t.
Proof. intros [-> | ->] Hm; split; try done; by apply encode_blob_data_le. Qed.

Lemma encodeEnum_length val meta :
  meta mod 256 = 1 \/ meta mod 256 = 2 -> length (encodeEnum val meta) = Z.to_nat (meta mod 256).
Proof. unfold encodeEnum. rewrite land_255. by intros [-> | ->]. Qed.

Lemma encodeBit_length val meta :
  0 <= meta -> meta / 256 * 8 + meta mod 256 <= 64 ->
  length (encodeBit val meta) = Z.to_nat ((meta / 256 * 8 + meta mod 256 + 7) / 8).
Proof.
  intros Hm Hb. unfold encodeBit. rewrite land_255, shiftr_8, be_bytes_length.
  assert (0 <= meta / 256 /\ 0 <= meta mod 256) by zlia.
  rewrite (wrap_id 16 (meta / 256 * 8 + _)), wrap_id; [done|unfold in_width; lia..].
Qed.

(** Types whose size the reader knows from the metadata alone. *)
Lemma framed_size colType meta e n :
  (forall l, field_len colType meta l = Some n) -> length e = n -> framed colType meta (Ok e).
Proof. intros H <-. apply framed_intro. intros. apply H. Qed.

(** Length-prefixed types. *)
Lemma framed_prefixed colType meta n s :
  (forall l, field_len colType meta l = Some (prefixed n l)) ->
  Z.of_nat (length s) < 2 ^ (8 * Z.of_nat n) ->
  framed colType meta (Ok (le_bytes n (Z.of_nat (length s)) ++ s)).
Proof. intros H Hs. apply framed_intro. intros. rewrite H. f_equal. by apply prefixed_le. Qed.

Lemma framed_varstring fmt_v val colType meta :
  (forall l, field_len colType meta l = Some (prefixed (if meta <? 256 then 1 else 2) l)) ->
  short_text fmt_v val (if meta <? 256 then 256 else 65536) ->
  framed colType meta (Ok (encodeVarString fmt_v val meta)).
Proof.
  intros H Hs. rewrite encodeVarString_le. apply framed_prefixed; [done|].
  unfold short_text in Hs. by destruct (meta <? 256).
Qed.

Lemma framed_blob colType val meta t :
  (forall l, field_len colType meta l = Some (prefixed (Z.to_nat meta) l)) ->
  1 <= meta <= 4 -> (val = VString t \/ val = VBytes t) -> Z.of_nat (length t) < 256 ^ meta ->
  framed colType meta (Ok (encodeBlob val meta)) /\ framed colType meta (Ok (encodeJSON val meta)).
Proof.
  intros H Hm Hv Ht. destruct (encodeBlob_le val t meta Hv Hm) as [-> ->].
  assert (Z.of_nat (length t) < 2 ^ (8 * Z.of_nat (Z.to_nat meta))).
  { rewrite Z2Nat.id, Z.pow_mul_r by lia. done. }
  split; by apply framed_prefixed.
Qed.

Lemma framed_decimal fmt_v val meta :
  framed MYSQL_TYPE_NEWDECIMAL meta (encodeDecimal fmt_v val meta).
Proof.
  unfold encodeDecimal. edestruct encode_decimal_text_total as (buf & -> & Hl).
  eapply framed_size; [intros; reflexivity|]. by rewrite Hl, land_255, shiftr_8.
Qed.

Lemma value_framed fmt_v val colType meta :
  In colType row_types -> value_fits fmt_v val colType meta ->
  framed colType meta (encodeValue fmt_v val colType meta).
Proof.
  intros Hin Hfit.
  destruct Hfit as (Hm & Htemp & Hvar & Hstr & Hblob & Hbit & Henum).
  destruct (fixed_length val) as (Hdate & Htime & Hdt & Hts & Hyear).
  unfold in_width in Hm. unfold row_types in Hin. cbn [In] in Hin.
  repeat destruct Hin as [<- | Hin]; [..|done].
  all: try (eapply framed_size; [intros; reflexivity|]; done).
  all: unfold encodeValue; cbn -[framed encodeDecimal encodeVarString encodeFixedString encodeBlob
    encodeJSON encodeBit encodeEnum encodeSet encodeTime2 encodeDatetime2 encodeTimestamp2].
  - apply framed_decimal.
  - eapply framed_size; [intros; reflexivity|]. apply temporal2_length. specialize (Htemp ltac:(auto)). lia.
  - eapply framed_size; [intros; reflexivity|]. apply temporal2_length. specialize (Htemp ltac:(auto)). lia.
  - eapply framed_size; [intros; reflexivity|]. apply temporal2_length. specialize (Htemp ltac:(auto)). lia.
  - apply framed_varstring; auto.
  - apply framed_varstring; auto.
  - rewrite encodeFixedString_le by lia. apply framed_prefixed; [done|]. by apply Hstr.
  - destruct Hblob as (H1 & t & H2 & H3); [auto|]. by eapply framed_blob.
  - eapply framed_size; [intros; reflexivity|]. apply encodeBit_length; [lia|auto].
  - eapply framed_size; [intros; reflexivity|]. apply encodeEnum_length; auto.
  - eapply framed_size; [intros; reflexivity|]. unfold encodeSet. by rewrite le_bytes_length, land_255.
  - destruct Hblob as (H1 & t & H2 & H3); [auto|]. by eapply framed_blob.
  - destruct Hblob as (H1 & t & H2 & H3); [auto|]. by eapply framed_blob.
Qed.

(** the framing of a row value.  Whatever the value, the encoder does not
    panic and what it writes for a column ends exactly where a reader of the
    row format, given the column's type and metadata, ends the field, as long
    as the text fits the column's length prefix. *)
Theorem encodeValue_framing fmt_v val colType meta
  (Hin : In colType row_types) (Hfit : value_fits fmt_v val colType meta) :
  framed colType meta (encodeValue fmt_v val colType meta).
Proof. by apply value_framed. Qed.

Lemma encodeValue_framing_witness :
  framed MYSQL_TYPE_VARCHAR 255 (encodeValue (fun _ => []) (VString (str "hello")) MYSQL_TYPE_VARCHAR 255).
Proof.
  apply encodeValue_framing; [by do 17 right; left|].
  unfold value_fits; split_and!; try (intros H; exfalso; repeat destruct H as [H|H]; discriminate H);
    [unfold in_width; lia|intros; reflexivity].
Defined.

(** a length prefix wraps while all the bytes are written.  A CHAR value of
    256 bytes gets the length byte 0, so a reader ends the field after it and
    takes the text for the following columns. *)
Theorem encodeFixedString_wraps :
  let e := encodeFixedString (fun _ => []) (VString (replicate 256 97)) 65279 in
  length e = 257%nat /\ field_len MYSQL_TYPE_STRING 65279 e = Some 1%nat.
Proof. split; reflexivity. Qed.
