(* ===== verification/BinlogEvent.v ===== *)
(** * Binlog events

    [pkg/replication/binlog_encoder.go], lines 26-495: the events the
    replication server sends, encoded as a header, a payload and a CRC-32.

    The event structures are go-mysql's; the fields the encoder reads are kept
    under their names.  A [ColumnCount] is a [nat]: every event of this
    repository sets it from the length of a slice.  go-mysql's
    [PutLengthEncodedInt] is not part of the sources: it is the operation of
    the class [LenEnc], whose law says that a MySQL reader gets the number
    back. *)

From Stdlib Require Import ZArith Lia.
From stdpp Require Import base numbers list strings gmap.
From S2P Require Import Prelude GoStd BinlogValue.
Open Scope Z_scope.

(** ** Length-encoded integers *)

(** The MySQL protocol's reader of a length-encoded integer. *)
Definition read_lenenc (l : bytes) : option (Z * bytes) :=
  let fixed n r := if (n <=? length r)%nat then Some (le_val (take n r), drop n r) else None in
  match l with
  | [] => None
  | b :: r =>
      if b <? 251 then Some (b, r)
      else if b =? 252 then fixed 2%nat r
      else if b =? 253 then fixed 3%nat r
      else if b =? 254 then fixed 8%nat r
      else None
  end.

(** go-mysql's [mysql.PutLengthEncodedInt]. *)
Class LenEnc := PutLengthEncodedInt : Z -> bytes.

Class LenEncLaws (L : LenEnc) : Prop :=
  read_put_lenenc n r : in_width 64 n -> read_lenenc (PutLengthEncodedInt n ++ r) = Some (n, r).

(** ** Events *)

Record QueryEvent := mkQueryEvent {
  SlaveProxyID : Z;
  ExecutionTime : Z;
  ErrorCode : Z;
  StatusVars : bytes;
  qe_Schema : bytes;
  Query : bytes
}.

Record XIDEvent := mkXIDEvent { XID : Z }.

Record TableMapEvent := mkTableMapEvent {
  tm_TableID : Z;
  tm_Flags : Z;
  tm_Schema : bytes;
  tm_Table : bytes;
  tm_ColumnCount : nat;
  ColumnType : bytes;
  ColumnMeta : list Z;
  NullBitmap : bytes;
  ColumnName : list bytes
}.

Record RowsEvent := mkRowsEvent {
  re_Version : Z;
  re_Table : option TableMapEvent;
  re_TableID : Z;
  re_Flags : Z;
  re_ColumnCount : nat;
  ColumnBitmap1 : bytes;
  ColumnBitmap2 : bytes;
  Rows : list (list GoValue)
}.

Record GTIDEvent := mkGTIDEvent {
  CommitFlag : Z;
  SID : bytes;
  GNO : Z;
  LastCommitted : Z;
  SequenceNumber : Z
}.

(** The dynamic types of [event.Event]; [EvOther] stands for the event types
    the encoder has no case for, besides [GTIDEvent]. *)
Inductive Event :=
| EvQuery (e : QueryEvent)
| EvXID (e : XIDEvent)
| EvTableMap (e : TableMapEvent)
| EvRows (e : RowsEvent)
| EvGTID (e : GTIDEvent)
| EvOther.

Record EventHeader := mkHeader {
  Timestamp : Z;
  EventType : Z;
  ServerID : Z;
  LogPos : Z;
  h_Flags : Z
}.

Record BinlogEvent := mkBinlogEvent {
  RawData : option bytes;
  Header : EventHeader;
  ev_Event : Event
}.

(** ** The encoder *)

Record BinlogEncoder := mkEncoder { tableIDSize : nat }.

Definition NewBinlogEncoder : BinlogEncoder := mkEncoder 6.

Section encoder.
Context `{LenEnc}.
Variable fmt_v : GoValue -> bytes.
Variable enc : BinlogEncoder.

Definition encodeQueryEvent (e : QueryEvent) : res bytes :=
  let schemaLen := length (qe_Schema e) in
  let statusVarsLen := length (StatusVars e) in
  let queryLen := length (Query e) in
  let payloadSize := (4 + 4 + 1 + 2 + 2 + statusVarsLen + schemaLen + 1 + queryLen)%nat in
  let payload := make_bytes payloadSize in
  payload <~ put_at 0 (le_bytes 4 (SlaveProxyID e)) payload;
  payload <~ put_at 4 (le_bytes 4 (ExecutionTime e)) payload;
  payload <~ set_at 8 (to_byte (Z.of_nat schemaLen)) payload;
  payload <~ put_at 9 (le_bytes 2 (ErrorCode e)) payload;
  payload <~ put_at 11 (le_bytes 2 (wrap 16 (Z.of_nat statusVarsLen))) payload;
  let pos := 13%nat in
  payload <~ (if (0 <? statusVarsLen)%nat then copy_at pos (StatusVars e) payload else Ok payload);
  let pos := (if (0 <? statusVarsLen)%nat then pos + statusVarsLen else pos)%nat in
  payload <~ copy_at pos (qe_Schema e) payload;
  let pos := (pos + schemaLen)%nat in
  payload <~ set_at pos 0 payload;
  let pos := (pos + 1)%nat in
  copy_at pos (Query e) payload.

Definition encodeXIDEvent (e : XIDEvent) : res bytes := put_at 0 (le_bytes 8 (XID e)) (make_bytes 8).

Definition TABLE_MAP_OPT_META_COLUMN_NAME : Z := 4.

Definition encodeOptionalMeta (e : TableMapEvent) : bytes :=
  if (0 <? length (ColumnName e))%nat then
    let namesData := concat (map (fun name => to_byte (Z.of_nat (length name)) :: name) (ColumnName e)) in
    [TABLE_MAP_OPT_META_COLUMN_NAME] ++ PutLengthEncodedInt (Z.of_nat (length namesData)) ++ namesData
  else [].

(** The metadata bytes of one column (the [switch] of [encodeColumnMeta]). *)
Definition column_meta_bytes (t meta : Z) : bytes :=
  let ty c := t =? c in
  if ty MYSQL_TYPE_STRING || ty MYSQL_TYPE_NEWDECIMAL then [to_byte (Z.shiftr meta 8); to_byte meta]
  else if ty MYSQL_TYPE_VAR_STRING || ty MYSQL_TYPE_VARCHAR || ty MYSQL_TYPE_BIT
       then [to_byte meta; to_byte (Z.shiftr meta 8)]
  else if ty MYSQL_TYPE_BLOB || ty MYSQL_TYPE_DOUBLE || ty MYSQL_TYPE_FLOAT || ty MYSQL_TYPE_GEOMETRY
          || ty MYSQL_TYPE_JSON then [to_byte meta]
  else if ty MYSQL_TYPE_TIME2 || ty MYSQL_TYPE_DATETIME2 || ty MYSQL_TYPE_TIMESTAMP2
       then [to_byte meta]
  else [].

Definition encodeColumnMeta (columnTypes : bytes) (columnMeta : list Z) : bytes :=
  concat (imap (fun i t => column_meta_bytes t (nth i columnMeta 0)) columnTypes).

(** The table id field, of 6 or 4 bytes, at position 0. *)
Definition put_table_id (id : Z) (payload : bytes) : res bytes :=
  if (tableIDSize enc =? 6)%nat then
    payload <~ put_at 0 (le_bytes 4 (wrap 32 id)) payload;
    put_at 4 (le_bytes 2 (wrap 16 (Z.shiftr id 32))) payload
  else put_at 0 (le_bytes 4 (wrap 32 id)) payload.

Definition encodeTableMapEvent (e : TableMapEvent) : res bytes :=
  let schemaLen := length (tm_Schema e) in
  let tableLen := length (tm_Table e) in
  let columnCount := tm_ColumnCount e in
  let metadata := encodeColumnMeta (ColumnType e) (ColumnMeta e) in
  let metadataLen := length metadata in
  let nullBitmapSize := ((columnCount + 7) / 8)%nat in
  let columnCountEncoded := PutLengthEncodedInt (Z.of_nat columnCount) in
  let metadataLenEncoded := PutLengthEncodedInt (Z.of_nat metadataLen) in
  let payloadSize :=
    (tableIDSize enc + 2 + 1 + schemaLen + 1 + 1 + tableLen + 1 + length columnCountEncoded
     + columnCount + length metadataLenEncoded + metadataLen + nullBitmapSize)%nat in
  let payload := make_bytes payloadSize in
  payload <~ put_table_id (tm_TableID e) payload;
  let pos := tableIDSize enc in
  payload <~ put_at pos (le_bytes 2 (tm_Flags e)) payload;
  let pos := (pos + 2)%nat in
  payload <~ set_at pos (to_byte (Z.of_nat schemaLen)) payload;
  let pos := (pos + 1)%nat in
  payload <~ copy_at pos (tm_Schema e) payload;
  let pos := (pos + schemaLen)%nat in
  payload <~ set_at pos 0 payload;
  let pos := (pos + 1)%nat in
  payload <~ set_at pos (to_byte (Z.of_nat tableLen)) payload;
  let pos := (pos + 1)%nat in
  payload <~ copy_at pos (tm_Table e) payload;
  let pos := (pos + tableLen)%nat in
  payload <~ set_at pos 0 payload;
  let pos := (pos + 1)%nat in
  payload <~ copy_at pos columnCountEncoded payload;
  let pos := (pos + length columnCountEncoded)%nat in
  payload <~ copy_at pos (ColumnType e) payload;
  let pos := (pos + columnCount)%nat in
  payload <~ copy_at pos metadataLenEncoded payload;
  let pos := (pos + length metadataLenEncoded)%nat in
  payload <~ copy_at pos metadata payload;
  let pos := (pos + metadataLen)%nat in
  if (0 <? length (NullBitmap e))%nat then copy_at pos (NullBitmap e) payload
  else fill_at pos nullBitmapSize 255 payload.

(** [nullBitmap[i/8] |= 1 << uint(i%8)]. *)
Definition set_null_bit (nullBitmap : bytes) (i : nat) : res bytes :=
  match nullBitmap !! (i / 8)%nat with
  | Some b => Ok (<[(i / 8)%nat := Z.lor b (Z.shiftl 1 (Z.of_nat (i mod 8)))]> nullBitmap)
  | None => Panic
  end.

(** The loop over the values of a row from index [i] on. *)
Fixpoint encode_row (table : TableMapEvent) (i : nat) (row : list GoValue) (nullBitmap rowValues : bytes)
  : res (bytes * bytes) :=
  match row with
  | [] => Ok (nullBitmap, rowValues)
  | VNil :: row' =>
      nullBitmap <~ set_null_bit nullBitmap i;
      encode_row table (S i) row' nullBitmap rowValues
  | val :: row' =>
      encoded <~ encodeValue fmt_v val (nth i (ColumnType table) 0) (nth i (ColumnMeta table) 0);
      encode_row table (S i) row' nullBitmap (rowValues ++ encoded)
  end.

Fixpoint encode_rows (table : TableMapEvent) (nullBitmapSize : nat) (rows : list (list GoValue))
  (data : bytes) : res bytes :=
  match rows with
  | [] => Ok data
  | row :: rows' =>
      r <~ encode_row table 0 row (make_bytes nullBitmapSize) [];
      encode_rows table nullBitmapSize rows' (data ++ fst r ++ snd r)
  end.

Definition encodeRowData (e : RowsEvent) : res bytes :=
  match re_Table e with
  | None => Ok []
  | Some table => encode_rows table ((re_ColumnCount e + 7) / 8) (Rows e) []
  end.

Definition encodeRowsEvent (e : RowsEvent) : res bytes :=
  let columnCount := re_ColumnCount e in
  let bitmapSize := ((columnCount + 7) / 8)%nat in
  let columnCountEncoded := PutLengthEncodedInt (Z.of_nat columnCount) in
  rowData <~ encodeRowData e;
  let needBitmap2 := (1 <=? re_Version e) && (0 <? length (ColumnBitmap2 e))%nat in
  let payloadSize :=
    (tableIDSize enc + 2 + 2 + length columnCountEncoded + bitmapSize
     + (if needBitmap2 then bitmapSize else 0) + length rowData)%nat in
  let payload := make_bytes payloadSize in
  payload <~ put_table_id (re_TableID e) payload;
  let pos := tableIDSize enc in
  payload <~ put_at pos (le_bytes 2 (re_Flags e)) payload;
  let pos := (pos + 2)%nat in
  payload <~ put_at pos (le_bytes 2 2) payload;
  let pos := (pos + 2)%nat in
  payload <~ copy_at pos columnCountEncoded payload;
  let pos := (pos + length columnCountEncoded)%nat in
  payload <~ (if (0 <? length (ColumnBitmap1 e))%nat then copy_at pos (ColumnBitmap1 e) payload
              else fill_at pos bitmapSize 255 payload);
  let pos := (pos + bitmapSize)%nat in
  payload <~ (if needBitmap2 then copy_at pos (ColumnBitmap2 e) payload else Ok payload);
  let pos := (if needBitmap2 then pos + bitmapSize else pos)%nat in
  copy_at pos rowData payload.

(** The payload of an event (the [switch] of [EncodeEvent]). *)
Definition encode_payload (ev : Event) : res bytes :=
  match ev with
  | EvQuery e => encodeQueryEvent e
  | EvXID e => encodeXIDEvent e
  | EvTableMap e => encodeTableMapEvent e
  | EvRows e => encodeRowsEvent e
  | EvGTID _ | EvOther => Ok (make_bytes 4)
  end.

Definition EncodeEvent (event : BinlogEvent) : res bytes :=
  match RawData event with
  | Some raw => Ok raw
  | None =>
      payload <~ encode_payload (ev_Event event);
      let eventSize := wrap 32 (Z.of_nat (19 + length payload + 4)) in
      let data := make_bytes (Z.to_nat eventSize) in
      data <~ put_at 0 (le_bytes 4 (Timestamp (Header event))) data;
      data <~ set_at 4 (to_byte (EventType (Header event))) data;
      data <~ put_at 5 (le_bytes 4 (ServerID (Header event))) data;
      data <~ put_at 9 (le_bytes 4 eventSize) data;
      data <~ put_at 13 (le_bytes 4 (LogPos (Header event))) data;
      data <~ put_at 17 (le_bytes 2 (h_Flags (Header event))) data;
      data <~ copy_at 19 payload data;
      let checksum := ChecksumIEEE (take (19 + length payload) data) in
      put_at (19 + length payload) (le_bytes 4 checksum) data
  end.

End encoder.
