(* ===== verification/EventFacts.v ===== *)
(** * Binlog events: what a replica reads

    Readers of the event format, as specifications, and the proofs that they
    recover what the encoder of [BinlogEvent] was given: the header with its
    size and checksum, queries, table maps with their column metadata, and
    rows with their null bitmaps. *)

From Stdlib Require Import ZArith Lia.
From stdpp Require Import base numbers list strings gmap.
From S2P Require Import Prelude GoStd BinlogValue DecimalFacts ValueFacts BinlogEvent.
Open Scope Z_scope.

(** ** Readers *)

Definition reader (A : Type) := bytes -> option (A * bytes).

Definition rd_take (n : nat) : reader bytes :=
  fun l => if (n <=? length l)%nat then Some (take n l, drop n l) else None.
Definition rd_le (n : nat) : reader Z :=
  fun l => '(b, r) ← rd_take n l; Some (le_val b, r).
(** A string with a one-byte length before it and a NUL after it. *)
Definition rd_cstr : reader bytes :=
  fun l => '(n, r) ← rd_le 1 l; '(s, r) ← rd_take (Z.to_nat n) r; '(_, r) ← rd_take 1 r; Some (s, r).

Lemma rd_take_app n s r : length s = n -> rd_take n (s ++ r) = Some (s, r).
Proof.
  intros <-. unfold rd_take. rewrite (proj2 (Nat.leb_le _ _)) by (rewrite length_app; lia).
  by rewrite take_app_length, drop_app_length.
Qed.

Lemma rd_take_0 l : rd_take 0 l = Some ([], l).
Proof. done. Qed.

Lemma rd_le_app n z r : in_width (8 * Z.of_nat n) z -> rd_le n (le_bytes n z ++ r) = Some (z, r).
Proof.
  intros Hz. unfold rd_le. rewrite rd_take_app by apply le_bytes_length.
  cbn. by rewrite le_val_bytes, wrap_id.
Qed.

Lemma rd_cstr_app s r :
  (length s < 256)%nat ->
  rd_cstr (to_byte (Z.of_nat (length s)) :: s ++ 0 :: r) = Some (s, r).
Proof.
  intros Hs. unfold rd_cstr.
  change (to_byte (Z.of_nat (length s)) :: s ++ 0 :: r)
    with (le_bytes 1 (Z.of_nat (length s)) ++ (s ++ ([0] ++ r))).
  rewrite rd_le_app by (unfold in_width; simpl; lia). cbn -[app].
  rewrite rd_take_app by lia. cbn -[app]. rewrite rd_take_app by done. done.
Qed.

(** ** The event frame *)

Record frame := mkFrame {
  f_timestamp : Z; f_type : Z; f_server : Z; f_size : Z; f_pos : Z; f_flags : Z;
  f_payload : bytes; f_checksum : Z
}.

(** Header, payload and checksum of one event that fills [l]. *)
Definition read_frame (l : bytes) : option frame :=
  '(ts, r) ← rd_le 4 l; '(ty, r) ← rd_le 1 r; '(sid, r) ← rd_le 4 r;
  '(sz, r) ← rd_le 4 r; '(pos, r) ← rd_le 4 r; '(fl, r) ← rd_le 2 r;
  '(payload, r) ← rd_take (Z.to_nat (sz - 23)) r; '(crc, r) ← rd_le 4 r;
  match r with [] => Some (mkFrame ts ty sid sz pos fl payload crc) | _ => None end.

Definition header_ok (h : EventHeader) : Prop :=
  in_width 32 (Timestamp h) /\ in_width 8 (EventType h) /\ in_width 32 (ServerID h) /\
  in_width 32 (LogPos h) /\ in_width 16 (h_Flags h).

Definition header_bytes (h : EventHeader) (size : Z) : bytes :=
  le_bytes 4 (Timestamp h) ++ le_bytes 1 (EventType h) ++ le_bytes 4 (ServerID h) ++
  le_bytes 4 size ++ le_bytes 4 (LogPos h) ++ le_bytes 2 (h_Flags h).

Lemma header_bytes_length h size : length (header_bytes h size) = 19%nat.
Proof. unfold header_bytes. by rewrite !length_app, !le_bytes_length. Qed.

Section frame.
Context `{LenEnc}.
Variable fmt_v : GoValue -> bytes.
Variable enc : BinlogEncoder.

Lemma EncodeEvent_layout h ev payload :
  encode_payload fmt_v enc ev = Ok payload -> Z.of_nat (length payload) + 23 < 2 ^ 32 ->
  let body := header_bytes h (Z.of_nat (length payload) + 23) ++ payload in
  EncodeEvent fmt_v enc (mkBinlogEvent None h ev) = Ok (body ++ le_bytes 4 (ChecksumIEEE body)).
Proof.
  intros Hp Hlen body. unfold EncodeEvent. cbn [RawData ev_Event Header]. rewrite Hp, rbind_ok.
  replace (wrap 32 _) with (Z.of_nat (length payload) + 23) by (rewrite wrap_id; unfold in_width; lia).
  replace (Z.to_nat _) with (23 + length payload)%nat by lia.
  change [to_byte (EventType h)] with (le_bytes 1 (EventType h)).
  fill. rewrite app_no_zeros by solve_len. rewrite take_app_length' by solve_len.
  subst body. unfold header_bytes. rewrite <- !app_assoc. done.
Qed.

Lemma event_reads h ev payload :
  header_ok h -> encode_payload fmt_v enc ev = Ok payload ->
  Z.of_nat (length payload) + 23 < 2 ^ 32 ->
  exists data, EncodeEvent fmt_v enc (mkBinlogEvent None h ev) = Ok data /\
    read_frame data =
      Some (mkFrame (Timestamp h) (EventType h) (ServerID h) (Z.of_nat (length data)) (LogPos h)
              (h_Flags h) payload (ChecksumIEEE (take (length data - 4) data))).
Proof.
  intros Hh Hp Hlen.
  eexists; split; [by apply EncodeEvent_layout|].
  set (body := header_bytes h _ ++ payload).
  assert (length body = 19 + length payload)%nat as Hb
    by (subst body; by rewrite length_app, header_bytes_length).
  rewrite length_app, le_bytes_length, Nat.add_sub, take_app_length, Hb.
  set (c := ChecksumIEEE body). assert (in_width 32 c) as Hc.
  { apply ChecksumIEEE_range. }
  subst body. destruct Hh as (H1 & H2 & H3 & H4 & H5). unfold read_frame, header_bytes.
  rewrite <- !app_assoc. rewrite rd_le_app by done. cbn -[rd_le rd_take app le_bytes].
  do 5 (rewrite rd_le_app by (done || unfold in_width; lia); cbn -[rd_le rd_take app le_bytes]).
  rewrite rd_take_app by lia. cbn -[rd_le app le_bytes].
  rewrite <- (app_nil_r (le_bytes 4 c)), rd_le_app by done. cbn. do 2 f_equal. lia.
Qed.

(** an encoded event is what a replica expects on the wire.  For any event
    whose payload the encoder produces (and below 4 GiB), a reader gets every
    header field back, the size field is the event's whole length, the payload
    is delivered unchanged and the checksum is the CRC-32 of all bytes before
    it. *)
Theorem EncodeEvent_frame h ev payload
  (Hh : header_ok h) (Hp : encode_payload fmt_v enc ev = Ok payload)
  (Hlen : Z.of_nat (length payload) + 23 < 2 ^ 32) :
  exists data, EncodeEvent fmt_v enc (mkBinlogEvent None h ev) = Ok data /\
    read_frame data =
      Some (mkFrame (Timestamp h) (EventType h) (ServerID h) (Z.of_nat (length data)) (LogPos h)
              (h_Flags h) payload (ChecksumIEEE (take (length data - 4) data))).
Proof. by apply event_reads. Qed.
End frame.

(** ** Queries *)

Definition read_query (l : bytes) : option QueryEvent :=
  '(pid, r) ← rd_le 4 l; '(time, r) ← rd_le 4 r; '(slen, r) ← rd_le 1 r; '(err, r) ← rd_le 2 r;
  '(vlen, r) ← rd_le 2 r; '(vars, r) ← rd_take (Z.to_nat vlen) r;
  '(schema, r) ← rd_take (Z.to_nat slen) r; '(_, query) ← rd_take 1 r;
  Some (mkQueryEvent pid time err vars schema query).

Definition query_ok (e : QueryEvent) : Prop :=
  in_width 32 (SlaveProxyID e) /\ in_width 32 (ExecutionTime e) /\ in_width 16 (ErrorCode e) /\
  (length (qe_Schema e) < 256)%nat /\ Z.of_nat (length (StatusVars e)) < 65536.

Lemma encodeQueryEvent_layout e :
  encodeQueryEvent e =
  Ok (le_bytes 4 (SlaveProxyID e) ++ le_bytes 4 (ExecutionTime e) ++
      le_bytes 1 (Z.of_nat (length (qe_Schema e))) ++ le_bytes 2 (ErrorCode e) ++
      le_bytes 2 (Z.of_nat (length (StatusVars e))) ++ StatusVars e ++ qe_Schema e ++ [0] ++ Query e).
Proof.
  unfold encodeQueryEvent. fill. destruct (Nat.ltb_spec 0 (length (StatusVars e))).
  - cbn [rbind]. repeat fill_step. rewrite app_no_zeros by solve_len.
    by rewrite le_bytes_wrap, <- !app_assoc by lia.
  - assert (StatusVars e = []) as -> by (destruct (StatusVars e); simpl in *; [done|lia]).
    cbn [rbind]. repeat fill_step. rewrite app_no_zeros by solve_len.
    by rewrite le_bytes_wrap, <- !app_assoc by lia.
Qed.

Ltac read_step := first
  [ rewrite rd_le_app by first [done | unfold in_width; simpl; lia]
  | rewrite rd_take_app by first [done | lia]
  | rewrite rd_cstr_app by first [done | lia]
  | rewrite read_put_lenenc by first [done | unfold in_width; simpl; lia] ];
  cbn [mbind option_bind].

Lemma query_event_reads e :
  query_ok e ->
  exists payload, encodeQueryEvent e = Ok payload /\ read_query payload = Some e.
Proof.
  intros Hok.
  destruct Hok as (H1 & H2 & H3 & H4 & H5). eexists; split; [apply encodeQueryEvent_layout|].
  unfold read_query. repeat read_step. by destruct e.
Qed.

(** a query event round-trips: the replica gets the schema, the status
    variables and the statement text back, byte for byte. *)
Theorem encodeQueryEvent_roundtrip e (Hok : query_ok e) :
  exists payload, encodeQueryEvent e = Ok payload /\ read_query payload = Some e.
Proof. by apply query_event_reads. Qed.

Lemma encodeQueryEvent_roundtrip_witness :
  exists payload, encodeQueryEvent (mkQueryEvent 1 0 0 [] (str "test") (str "BEGIN")) = Ok payload /\
    read_query payload = Some (mkQueryEvent 1 0 0 [] (str "test") (str "BEGIN")).
Proof.
  apply encodeQueryEvent_roundtrip. unfold query_ok, in_width. simpl. lia.
Defined.

(** ** Table maps *)

(** Column metadata as a reader takes it, per column type. *)
Definition meta_size (t : Z) : nat := length (column_meta_bytes t 0).

Definition big_endian_meta (t : Z) : bool := (t =? MYSQL_TYPE_STRING) || (t =? MYSQL_TYPE_NEWDECIMAL).

Fixpoint read_metas (types : bytes) (l : bytes) : option (list Z * bytes) :=
  match types with
  | [] => Some ([], l)
  | t :: types' =>
      '(b, r) ← rd_take (meta_size t) l;
      '(ms, r) ← read_metas types' r;
      Some ((if big_endian_meta t then be_val b else le_val b) :: ms, r)
  end.

Definition meta_ok (t m : Z) : Prop := in_width (8 * Z.of_nat (meta_size t)) m.

Lemma column_meta_bytes_spec t m :
  meta_ok t m ->
  length (column_meta_bytes t m) = meta_size t /\
  (if big_endian_meta t then be_val (column_meta_bytes t m) else le_val (column_meta_bytes t m)) = m.
Proof.
  unfold meta_ok, meta_size, column_meta_bytes, big_endian_meta.
  destruct ((t =? MYSQL_TYPE_STRING) || (t =? MYSQL_TYPE_NEWDECIMAL)).
  { intros Hm. split; [done|]. change [_; _] with (be_bytes 2 m). rewrite be_val_bytes. by apply wrap_id. }
  destruct (_ || _ || _).
  { intros Hm. split; [done|]. change [_; _] with (le_bytes 2 m). rewrite le_val_bytes. by apply wrap_id. }
  destruct (_ || _ || _ || _ || _).
  { intros Hm. split; [done|]. change [_] with (le_bytes 1 m). rewrite le_val_bytes. by apply wrap_id. }
  destruct (_ || _ || _).
  { intros Hm. split; [done|]. change [_] with (le_bytes 1 m). rewrite le_val_bytes. by apply wrap_id. }
  unfold in_width. simpl. intros Hm. split; [done|lia].
Qed.

Lemma encodeColumnMeta_cons t ts m ms :
  encodeColumnMeta (t :: ts) (m :: ms) = column_meta_bytes t m ++ encodeColumnMeta ts ms.
Proof. unfold encodeColumnMeta. cbn [imap nth concat]. done. Qed.

Lemma read_metas_app ts ms r :
  Forall2 meta_ok ts ms -> read_metas ts (encodeColumnMeta ts ms ++ r) = Some (ms, r).
Proof.
  intros Hok. revert r. induction Hok as [|t m ts ms Hm Hms IH]; intros r; [done|].
  rewrite encodeColumnMeta_cons, <- app_assoc. cbn [read_metas].
  destruct (column_meta_bytes_spec t m Hm) as [Hl Hv]. rewrite rd_take_app by done.
  cbn. rewrite IH. cbn. by rewrite Hv.
Qed.

Definition read_table_map (l : bytes) : option TableMapEvent :=
  '(id, r) ← rd_le 6 l; '(fl, r) ← rd_le 2 r; '(schema, r) ← rd_cstr r; '(table, r) ← rd_cstr r;
  '(n, r) ← read_lenenc r; '(types, r) ← rd_take (Z.to_nat n) r;
  '(mlen, r) ← read_lenenc r; '(mb, r) ← rd_take (Z.to_nat mlen) r;
  '(metas, _) ← read_metas types mb;
  '(nb, _) ← rd_take ((Z.to_nat n + 7) / 8) r;
  Some (mkTableMapEvent id fl schema table (Z.to_nat n) types metas nb []).

(** The shape of the table maps the server builds: types and metadata for every
    column, names below 256 bytes, a null bitmap of the right size or none. *)
Definition table_map_ok (e : TableMapEvent) : Prop :=
  in_width 48 (tm_TableID e) /\ in_width 16 (tm_Flags e) /\
  (length (tm_Schema e) < 256)%nat /\ (length (tm_Table e) < 256)%nat /\
  length (ColumnType e) = tm_ColumnCount e /\ Z.of_nat (tm_ColumnCount e) < 2 ^ 32 /\
  Forall2 meta_ok (ColumnType e) (ColumnMeta e) /\
  (NullBitmap e = [] \/ length (NullBitmap e) = ((tm_ColumnCount e + 7) / 8)%nat).

(** All columns nullable when the event has no bitmap. *)
Definition effective_bitmap (bitmap : bytes) (size : nat) : bytes :=
  match bitmap with [] => replicate size 255 | _ => bitmap end.

Lemma encodeColumnMeta_length ts ms :
  Forall2 meta_ok ts ms -> (length (encodeColumnMeta ts ms) <= 2 * length ts)%nat.
Proof.
  induction 1 as [|t m ts ms Hm Hms IH]; [done|]. rewrite encodeColumnMeta_cons, length_app.
  enough (length (column_meta_bytes t m) <= 2)%nat by (simpl; lia).
  unfold column_meta_bytes. repeat case_match; simpl; lia.
Qed.

Lemma le_bytes_6 z : le_bytes 4 z ++ le_bytes 2 (Z.shiftr z 32) = le_bytes 6 z.
Proof. cbn [le_bytes app]. by rewrite !Z.shiftr_shiftr by lia. Qed.

Section payloads.
Context `{LenEnc, !LenEncLaws _}.
Variable fmt_v : GoValue -> bytes.

Lemma put_table_id_zeros id m :
  (6 <= m)%nat ->
  put_table_id NewBinlogEncoder id (make_bytes m) = Ok (([] ++ le_bytes 6 id) ++ replicate (m - 6) 0).
Proof.
  intros Hm. unfold put_table_id. cbn [tableIDSize NewBinlogEncoder Nat.eqb].
  fill. rewrite !le_bytes_wrap, <- !app_assoc by lia. rewrite (app_assoc (le_bytes 4 id)), le_bytes_6.
  rewrite !le_bytes_length. do 4 f_equal. lia.
Qed.

Lemma encodeTableMapEvent_layout e :
  table_map_ok e ->
  let metadata := encodeColumnMeta (ColumnType e) (ColumnMeta e) in
  encodeTableMapEvent NewBinlogEncoder e =
  Ok (le_bytes 6 (tm_TableID e) ++ le_bytes 2 (tm_Flags e) ++
      (to_byte (Z.of_nat (length (tm_Schema e))) :: tm_Schema e ++ 0 ::
       (to_byte (Z.of_nat (length (tm_Table e))) :: tm_Table e ++ 0 ::
        PutLengthEncodedInt (Z.of_nat (tm_ColumnCount e)) ++ ColumnType e ++
        PutLengthEncodedInt (Z.of_nat (length metadata)) ++ metadata ++
        effective_bitmap (NullBitmap e) ((tm_ColumnCount e + 7) / 8)))).
Proof.
  intros (_ & _ & _ & _ & Hty & _ & _ & Hnb) metadata. unfold encodeTableMapEvent.
  fold metadata. rewrite put_table_id_zeros by lia. cbn [rbind tableIDSize NewBinlogEncoder].
  set (nbs := ((tm_ColumnCount e + 7) / 8)%nat) in *. rewrite <- Hty in *.
  repeat fill_step.
  destruct (NullBitmap e) as [|b nb].
  - cbn [length Nat.ltb Nat.leb effective_bitmap]. repeat fill_step. rewrite app_no_zeros by solve_len.
    by rewrite <- !app_assoc.
  - destruct Hnb as [|E]; [done|]. cbn [length] in E. cbn [effective_bitmap].
    change (0 <? length (b :: nb))%nat with true. cbv iota. repeat fill_step.
    rewrite app_no_zeros by solve_len. by rewrite <- !app_assoc.
Qed.

Lemma table_map_reads e :
  table_map_ok e ->
  exists payload, encodeTableMapEvent NewBinlogEncoder e = Ok payload /\
    read_table_map payload =
      Some (mkTableMapEvent (tm_TableID e) (tm_Flags e) (tm_Schema e) (tm_Table e) (tm_ColumnCount e)
              (ColumnType e) (ColumnMeta e)
              (effective_bitmap (NullBitmap e) ((tm_ColumnCount e + 7) / 8)) []).
Proof.
  intros Hok.
  eexists; split; [by apply encodeTableMapEvent_layout|].
  destruct Hok as (H1 & H2 & H3 & H4 & H5 & H6 & H7 & H8).
  pose proof (encodeColumnMeta_length _ _ H7) as Hml. rewrite H5 in Hml.
  unfold read_table_map. do 8 read_step.
  pose proof (read_metas_app _ _ [] H7) as Hm. rewrite app_nil_r in Hm. rewrite Hm.
  cbn [mbind option_bind]. rewrite Nat2Z.id.
  assert (length (effective_bitmap (NullBitmap e) ((tm_ColumnCount e + 7) / 8)) =
          ((tm_ColumnCount e + 7) / 8)%nat) as Hl.
  { unfold effective_bitmap. revert H8. destruct (NullBitmap e); [intros; apply length_replicate|by intros [?|?]]. }
  pose proof (rd_take_app _ _ [] Hl) as Ht. rewrite app_nil_r in Ht. by rewrite Ht.
Qed.

(** a table map round-trips: the replica gets the table id, both names, the
    column types and each column's metadata back, and the nullability bitmap
    (all columns nullable when the event carries none). *)
Theorem encodeTableMapEvent_roundtrip e (Hok : table_map_ok e) :
  exists payload, encodeTableMapEvent NewBinlogEncoder e = Ok payload /\
    read_table_map payload =
      Some (mkTableMapEvent (tm_TableID e) (tm_Flags e) (tm_Schema e) (tm_Table e) (tm_ColumnCount e)
              (ColumnType e) (ColumnMeta e)
              (effective_bitmap (NullBitmap e) ((tm_ColumnCount e + 7) / 8)) []).
Proof. by apply table_map_reads. Qed.
End payloads.

(** The length-encoded integers of the MySQL protocol, for the witnesses. *)
Definition lenenc_mysql : LenEnc := fun n =>
  if n <=? 250 then [n]
  else if n <? 65536 then 252 :: le_bytes 2 n
  else if n <? 16777216 then 253 :: le_bytes 3 n
  else 254 :: le_bytes 8 n.

Lemma lenenc_mysql_laws : LenEncLaws lenenc_mysql.
Proof.
  intros n r Hn. unfold in_width in Hn. unfold PutLengthEncodedInt, lenenc_mysql.
  assert (forall k, in_width (8 * Z.of_nat k) n ->
    (k <=? length (le_bytes k n ++ r))%nat = true /\
    le_val (take k (le_bytes k n ++ r)) = n /\ drop k (le_bytes k n ++ r) = r) as K.
  { intros k Hk. rewrite length_app, le_bytes_length, Nat.leb_le.
    rewrite take_app_length', drop_app_length', le_val_bytes, wrap_id by by rewrite ?le_bytes_length.
    split_and!; [lia|done..]. }
  unfold read_lenenc.
  destruct (Z.leb_spec n 250); [cbn [app]; by rewrite (proj2 (Z.ltb_lt _ _)) by lia|].
  destruct (Z.ltb_spec n 65536); [|destruct (Z.ltb_spec n 16777216)]; cbn [app];
    match goal with |- context [le_bytes ?k n] =>
      destruct (K k) as (K1 & K2 & K3); [unfold in_width; simpl; lia|] end;
    simpl Z.ltb; simpl Z.eqb; cbv iota; by rewrite K1, K2, K3.
Qed.

Lemma encodeTableMapEvent_roundtrip_witness :
  let e := mkTableMapEvent 108 1 (str "test") (str "users") 3
             [MYSQL_TYPE_LONG; MYSQL_TYPE_VARCHAR; MYSQL_TYPE_NEWDECIMAL] [0; 1020; 2562] [] [] in
  exists payload, encodeTableMapEvent (H := lenenc_mysql) NewBinlogEncoder e = Ok payload /\
    read_table_map payload =
      Some (mkTableMapEvent 108 1 (str "test") (str "users") 3
             [MYSQL_TYPE_LONG; MYSQL_TYPE_VARCHAR; MYSQL_TYPE_NEWDECIMAL] [0; 1020; 2562] [255] []).
Proof.
  intros e. apply (@encodeTableMapEvent_roundtrip lenenc_mysql lenenc_mysql_laws e).
  unfold table_map_ok, in_width. simpl. split_and!; try lia; [|by left].
  repeat constructor; cbv -[Z.le Z.lt]; lia.
Defined.

(** ** Rows *)

Definition is_nil (val : GoValue) : bool := match val with VNil => true | _ => false end.

(** Bit [i] of a row's null bitmap. *)
Definition null_at (bm : bytes) (i : nat) : bool :=
  match bm !! (i / 8)%nat with
  | Some b => Z.testbit b (Z.of_nat (i mod 8))
  | None => false
  end.

(** The fields of one row, a NULL as [None], given the table map's column types
    and metadata. *)
Fixpoint read_fields (cols : list (Z * Z)) (bm : bytes) (i : nat) (l : bytes)
  : option (list (option bytes) * bytes) :=
  match cols with
  | [] => Some ([], l)
  | (t, m) :: cols' =>
      if null_at bm i then '(fs, r) ← read_fields cols' bm (S i) l; Some (None :: fs, r)
      else n ← field_len t m l; '(f, r) ← rd_take n l;
           '(fs, r) ← read_fields cols' bm (S i) r; Some (Some f :: fs, r)
  end.

Definition read_row (cols : list (Z * Z)) (l : bytes) : option (list (option bytes) * bytes) :=
  '(bm, r) ← rd_take ((length cols + 7) / 8) l; read_fields cols bm 0 r.

(** Rows up to the end of the data; every row of a table with columns takes at
    least a byte, so [length l] is enough fuel. *)
Fixpoint read_rows (fuel : nat) (cols : list (Z * Z)) (l : bytes) : option (list (list (option bytes))) :=
  match l, fuel with
  | [], _ => Some []
  | _, O => None
  | _, S k => '(row, r) ← read_row cols l; rows ← read_rows k cols r; Some (row :: rows)
  end.

Lemma set_null_bit_spec nb i :
  (i / 8 < length nb)%nat ->
  exists nb', set_null_bit nb i = Ok nb' /\ length nb' = length nb /\
    forall j, null_at nb' j = null_at nb j || (j =? i)%nat.
Proof.
  intros Hi. unfold set_null_bit. destruct (nb !! (i / 8)%nat) as [b|] eqn:Eb.
  2:{ apply lookup_ge_None in Eb. lia. }
  eexists. split; [done|]. rewrite length_insert. split; [done|]. intros j. unfold null_at.
  destruct (Nat.eq_dec (j / 8)%nat (i / 8)%nat) as [Ej|Ej].
  - rewrite Ej, list_lookup_insert_eq, Eb by done. rewrite Z.lor_spec, Z.shiftl_spec by lia. f_equal.
    pose proof (Nat.div_mod_eq j 8). pose proof (Nat.div_mod_eq i 8).
    destruct (Nat.eqb_spec j i) as [->|Hne]; [by rewrite Z.sub_diag|].
    destruct (Z.ltb_spec (Z.of_nat (j mod 8) - Z.of_nat (i mod 8)) 0).
    + by rewrite Z.testbit_neg_r.
    + apply Z.bits_above_log2; [lia|]. change (Z.log2 1) with 0. lia.
  - rewrite list_lookup_insert_ne by done.
    destruct (Nat.eqb_spec j i) as [->|]; [done|]. by rewrite orb_false_r.
Qed.

Section rows.
Variable fmt_v : GoValue -> bytes.

(** The field a replica should read for a value. *)
Definition field_of (c : Z * Z) (val : GoValue) : option bytes :=
  match val with
  | VNil => None
  | _ => match encodeValue fmt_v val c.1 c.2 with Ok e => Some e | _ => None end
  end.

Lemma field_of_value c val e :
  val <> VNil -> encodeValue fmt_v val c.1 c.2 = Ok e -> field_of c val = Some e.
Proof. intros Hne He. unfold field_of. destruct val; [done|..]; by rewrite He. Qed.

Definition value_ok (c : Z * Z) (val : GoValue) : Prop :=
  val <> VNil -> framed c.1 c.2 (encodeValue fmt_v val c.1 c.2).

Definition columns (table : TableMapEvent) : list (Z * Z) := zip (ColumnType table) (ColumnMeta table).

Definition table_cols_ok (table : TableMapEvent) : Prop :=
  length (ColumnType table) = length (ColumnMeta table).

Lemma encode_row_nil table i row nb vals :
  encode_row fmt_v table i (VNil :: row) nb vals =
    (nb' <~ set_null_bit nb i; encode_row fmt_v table (S i) row nb' vals).
Proof. done. Qed.

Lemma encode_row_value table i val row nb vals :
  val <> VNil ->
  encode_row fmt_v table i (val :: row) nb vals =
    (e <~ encodeValue fmt_v val (nth i (ColumnType table) 0) (nth i (ColumnMeta table) 0);
     encode_row fmt_v table (S i) row nb (vals ++ e)).
Proof. by destruct val. Qed.

Definition fields_bytes (fs : list (option bytes)) : bytes := concat (map (default []) fs).

Lemma columns_nth table i c :
  table_cols_ok table -> columns table !! i = Some c ->
  nth i (ColumnType table) 0 = c.1 /\ nth i (ColumnMeta table) 0 = c.2.
Proof.
  unfold columns. intros Hl H. apply lookup_zip_with_Some in H as (t & m & -> & Ht & Hm).
  split; by apply nth_lookup_Some.
Qed.

(** What the loop over a row computes: the bitmap marks exactly the nil values
    and the values are the fields, in order. *)
Lemma encode_row_spec table row : forall i nb vals,
  table_cols_ok table ->
  Forall2 value_ok (drop i (columns table)) row -> (i + length row <= 8 * length nb)%nat ->
  exists nb', encode_row fmt_v table i row nb vals =
      Ok (nb', vals ++ fields_bytes (zip_with field_of (drop i (columns table)) row)) /\
    length nb' = length nb /\
    (forall j, (j < i)%nat -> null_at nb' j = null_at nb j) /\
    (forall j, (i <= j)%nat -> null_at nb' j = null_at nb j || default false (is_nil <$> row !! (j - i)%nat)).
Proof.
  induction row as [|val row IH]; intros i nb vals Hl Hok Hn.
  - exists nb. apply Forall2_nil_inv_r in Hok. rewrite Hok. cbn. rewrite app_nil_r.
    split_and!; [done..|]. intros. by rewrite orb_false_r.
  - destruct (columns table !! i) as [c|] eqn:Ec.
    2:{ apply lookup_ge_None in Ec. rewrite drop_ge in Hok by lia. inversion Hok. }
    rewrite (drop_S _ c i Ec) in Hok |- *. inversion_clear Hok as [|? ? ? ? Hv Hrest].
    destruct (columns_nth table i c Hl Ec) as [Et Em]. cbn [zip_with]. cbn [length] in Hn.
    destruct (is_nil val) eqn:Hnil.
    + destruct val; try discriminate. rewrite encode_row_nil.
      destruct (set_null_bit_spec nb i) as (nb1 & -> & Hl1 & Hb1); [apply Nat.Div0.div_lt_upper_bound; lia|].
      cbn [rbind]. destruct (IH (S i) nb1 vals Hl Hrest) as (nb2 & -> & Hl2 & Hlo & Hhi); [lia|].
      exists nb2. split_and!; [done|lia| |].
      * intros j Hj. rewrite Hlo, Hb1 by lia. rewrite (proj2 (Nat.eqb_neq j i)), orb_false_r by lia. done.
      * intros j Hj. destruct (Nat.eq_dec j i) as [->|].
        -- rewrite Hlo, Hb1, Nat.eqb_refl, Nat.sub_diag by lia. done.
        -- rewrite Hhi, Hb1, (proj2 (Nat.eqb_neq j i)), orb_false_r by lia.
           replace (j - i)%nat with (S (j - S i)) by lia. done.
    + assert (val <> VNil) as Hne by by intros ->. rewrite encode_row_value, Et, Em by done.
      destruct (Hv Hne) as (e & He & _). rewrite He. cbn [rbind].
      destruct (IH (S i) nb (vals ++ e) Hl Hrest) as (nb2 & -> & Hl2 & Hlo & Hhi); [lia|].
      exists nb2. split_and!; [|done| |].
      * do 2 f_equal. rewrite <- app_assoc. unfold fields_bytes. cbn [map concat]. by rewrite (field_of_value c val e).
      * intros j Hj. apply Hlo. lia.
      * intros j Hj. destruct (Nat.eq_dec j i) as [->|].
        -- rewrite Hlo, Nat.sub_diag by lia. cbn. by rewrite Hnil, orb_false_r.
        -- rewrite Hhi by lia. replace (j - i)%nat with (S (j - S i)) by lia. done.
Qed.

Lemma read_fields_spec cols : forall row bm i rest,
  Forall2 value_ok cols row ->
  (forall j, (j < length row)%nat -> null_at bm (i + j) = default false (is_nil <$> row !! j)) ->
  read_fields cols bm i (fields_bytes (zip_with field_of cols row) ++ rest) =
    Some (zip_with field_of cols row, rest).
Proof.
  induction cols as [|[t m] cols IH]; intros row bm i rest Hok Hbm.
  - by apply Forall2_nil_inv_l in Hok as ->.
  - destruct row as [|val row']; [inversion Hok|]. apply Forall2_cons in Hok as [Hv Hrest].
    cbn [zip_with read_fields]. pose proof (Hbm 0%nat ltac:(simpl; lia)) as H0. rewrite Nat.add_0_r in H0. cbn in H0. rewrite H0.
    assert (forall j, (j < length row')%nat ->
      null_at bm (S i + j) = default false (is_nil <$> row' !! j)) as Hbm'.
    { intros j Hj. specialize (Hbm (S j) ltac:(simpl; lia)). by rewrite Nat.add_succ_r in Hbm. }
    destruct (is_nil val) eqn:Hnil.
    + destruct val; try discriminate. unfold fields_bytes. cbn [field_of map concat default app].
      fold (fields_bytes (zip_with field_of cols row')). by rewrite IH.
    + assert (val <> VNil) as Hne by by intros ->. destruct (Hv Hne) as (e & He & Hf). cbn [fst snd] in *.
      assert (field_of (t, m) val = Some e) as -> by by apply field_of_value.
      unfold fields_bytes. cbn [map concat default]. rewrite <- app_assoc, Hf. cbn [mbind option_bind].
      rewrite rd_take_app by done. cbn [mbind option_bind].
      fold (fields_bytes (zip_with field_of cols row')). by rewrite IH.
Qed.

Lemma null_at_zeros n j : null_at (make_bytes n) j = false.
Proof.
  unfold null_at, make_bytes. destruct (replicate n 0 !! _) as [b|] eqn:E; [|done].
  apply lookup_replicate in E as [-> _]. apply Z.testbit_0_l.
Qed.

(** One encoded row: null bitmap and values, as [read_row] takes them. *)
Lemma encode_row_read table row :
  table_cols_ok table -> Forall2 value_ok (columns table) row ->
  exists r, encode_row fmt_v table 0 row (make_bytes ((length row + 7) / 8)) [] = Ok r /\
    length r.1 = ((length row + 7) / 8)%nat /\
    forall rest, read_row (columns table) ((r.1 ++ r.2) ++ rest) =
      Some (zip_with field_of (columns table) row, rest).
Proof.
  intros Hl Hok. pose proof (Forall2_length _ _ _ Hok) as Hlen.
  destruct (encode_row_spec table row 0 (make_bytes ((length row + 7) / 8)) [] Hl) as
    (nb & -> & Hnb & _ & Hbits).
  { by rewrite drop_0. }
  { unfold make_bytes. rewrite length_replicate. pose proof (Nat.div_mod_eq (length row + 7) 8).
    pose proof (Nat.mod_upper_bound (length row + 7) 8). lia. }
  unfold make_bytes in Hnb. rewrite length_replicate in Hnb. rewrite drop_0.
  eexists. split; [done|]. split; [done|]. intros rest. unfold read_row. cbn [fst snd app].
  rewrite Hlen, <- app_assoc, rd_take_app by done. cbn [mbind option_bind].
  apply read_fields_spec; [done|]. intros j Hj. rewrite Hbits, null_at_zeros, Nat.sub_0_r by lia. done.
Qed.

Lemma encode_rows_read table rows : forall data,
  table_cols_ok table -> columns table <> [] ->
  Forall (Forall2 value_ok (columns table)) rows ->
  exists out, encode_rows fmt_v table ((length (columns table) + 7) / 8) rows data = Ok (data ++ out) /\
    (length rows <= length out)%nat /\
    forall fuel, (length rows <= fuel)%nat ->
      read_rows fuel (columns table) out = Some (map (zip_with field_of (columns table)) rows).
Proof.
  induction rows as [|row rows IH]; intros data Hl Hne Hok.
  - exists []. cbn. rewrite app_nil_r. split_and!; [done..|]. by intros [|].
  - inversion_clear Hok as [|? ? Hrow Hrows]. cbn [encode_rows].
    pose proof (Forall2_length _ _ _ Hrow) as Hlen.
    destruct (encode_row_read table row Hl Hrow) as ([nb vals] & Hr & Hnb & Hread).
    rewrite Hlen, Hr. cbn [rbind fst snd] in *. rewrite <- Hlen.
    destruct (IH (data ++ nb ++ vals) Hl Hne Hrows) as (out & -> & Ho & Hrd).
    exists ((nb ++ vals) ++ out). rewrite <- app_assoc. split; [done|].
    assert (1 <= length nb)%nat.
    { rewrite Hnb. apply Nat.div_le_lower_bound; [lia|]. destruct (columns table); [done|simpl in *; lia]. }
    split; [rewrite !length_app; simpl; lia|].
    intros [|fuel] Hf; [simpl in Hf; lia|]. cbn [read_rows].
    destruct ((nb ++ vals) ++ out) eqn:E.
    { apply (f_equal length) in E. rewrite !length_app in E. simpl in E. lia. }
    rewrite <- E, Hread. cbn [mbind option_bind]. rewrite Hrd by (simpl in Hf; lia). done.
Qed.
End rows.

(** A rows event, given the table map it refers to and whether it is an UPDATE
    (which has a second column bitmap). *)
Definition read_rows_event (update : bool) (cols : list (Z * Z)) (l : bytes)
  : option (Z * Z * Z * bytes * list (list (option bytes))) :=
  '(id, r) ← rd_le 6 l; '(fl, r) ← rd_le 2 r; '(extra, r) ← rd_le 2 r;
  '(_, r) ← rd_take (Z.to_nat (extra - 2)) r; '(n, r) ← read_lenenc r;
  '(b1, r) ← rd_take ((Z.to_nat n + 7) / 8) r;
  '(b2, r) ← rd_take (if update then (Z.to_nat n + 7) / 8 else 0)%nat r;
  rows ← read_rows (length r) cols r;
  Some (id, fl, n, b1 ++ b2, rows).

Definition bitmap_ok (bitmap : bytes) (n : nat) : Prop :=
  bitmap = [] \/ length bitmap = ((n + 7) / 8)%nat.

(** The rows events the server builds: as many columns as the table map has,
    at least one, and every value within its column's framing. *)
Definition rows_event_ok (fmt_v : GoValue -> bytes) (e : RowsEvent) (table : TableMapEvent) : Prop :=
  re_Table e = Some table /\ in_width 48 (re_TableID e) /\ in_width 16 (re_Flags e) /\
  (0 < re_ColumnCount e)%nat /\ Z.of_nat (re_ColumnCount e) < 2 ^ 32 /\
  length (ColumnType table) = re_ColumnCount e /\ length (ColumnMeta table) = re_ColumnCount e /\
  bitmap_ok (ColumnBitmap1 e) (re_ColumnCount e) /\ bitmap_ok (ColumnBitmap2 e) (re_ColumnCount e) /\
  1 <= re_Version e /\
  Forall (Forall2 (value_ok fmt_v) (columns table)) (Rows e).

Definition is_update (e : RowsEvent) : bool := (0 <? length (ColumnBitmap2 e))%nat.

Lemma is_update_length e :
  bitmap_ok (ColumnBitmap2 e) (re_ColumnCount e) ->
  length (ColumnBitmap2 e) = (if is_update e then (re_ColumnCount e + 7) / 8 else 0)%nat.
Proof.
  unfold is_update, bitmap_ok. destruct (ColumnBitmap2 e); [done|]. by intros [?|?].
Qed.

Section rows_event.
Context `{LenEnc, !LenEncLaws _}.
Variable fmt_v : GoValue -> bytes.

Lemma bitmap_step bm n pre m pos :
  bitmap_ok bm n -> length pre = pos -> ((n + 7) / 8 <= m)%nat ->
  (if (0 <? length bm)%nat then copy_at pos bm (pre ++ replicate m 0)
   else fill_at pos ((n + 7) / 8) 255 (pre ++ replicate m 0)) =
  Ok ((pre ++ effective_bitmap bm ((n + 7) / 8)) ++ replicate (m - (n + 7) / 8) 0).
Proof.
  intros Hb Hp Hm. destruct bm as [|b bm].
  - cbn [length Nat.ltb Nat.leb effective_bitmap]. by apply fill_at_zeros.
  - destruct Hb as [|Hb]; [done|]. change (0 <? length (b :: bm))%nat with true. cbv iota.
    rewrite copy_at_zeros by (done || lia). by rewrite Hb.
Qed.

Lemma effective_bitmap_length bm n : bitmap_ok bm n -> length (effective_bitmap bm ((n + 7) / 8)) = ((n + 7) / 8)%nat.
Proof. intros [-> | Hb]; [apply length_replicate|]. destruct bm; [apply length_replicate|done]. Qed.

Lemma bitmap2_step bm n pre m pos :
  bitmap_ok bm n -> length pre = pos ->
  ((if (0 <? length bm)%nat then (n + 7) / 8 else 0) <= m)%nat ->
  (if (0 <? length bm)%nat then copy_at pos bm (pre ++ replicate m 0) else Ok (pre ++ replicate m 0)) =
  Ok ((pre ++ bm) ++ replicate (m - length bm) 0) /\
  length bm = (if (0 <? length bm)%nat then (n + 7) / 8 else 0)%nat.
Proof.
  intros Hb Hp Hm. destruct bm as [|b bm]; [by rewrite app_nil_r, Nat.sub_0_r|].
  destruct Hb as [|Hb]; [done|]. change (0 <? length (b :: bm))%nat with true in *. cbv iota in *.
  split; [|done]. by rewrite copy_at_zeros by (done || lia).
Qed.

Lemma encodeRowsEvent_layout e table rowData :
  rows_event_ok fmt_v e table -> encodeRowData fmt_v e = Ok rowData ->
  encodeRowsEvent fmt_v NewBinlogEncoder e =
  Ok (le_bytes 6 (re_TableID e) ++ le_bytes 2 (re_Flags e) ++ le_bytes 2 2 ++
      PutLengthEncodedInt (Z.of_nat (re_ColumnCount e)) ++
      effective_bitmap (ColumnBitmap1 e) ((re_ColumnCount e + 7) / 8) ++ ColumnBitmap2 e ++ rowData).
Proof.
  intros (_ & _ & _ & _ & _ & _ & _ & Hb1 & Hb2 & Hv & _) Hrows. unfold encodeRowsEvent.
  rewrite Hrows. cbn [rbind]. rewrite (proj2 (Z.leb_le 1 (re_Version e))) by lia. cbn [andb].
  rewrite put_table_id_zeros by (cbn [tableIDSize NewBinlogEncoder]; lia).
  cbn [rbind tableIDSize NewBinlogEncoder].
  do 3 fill_step. rewrite bitmap_step by (done || solve_len). cbn [rbind].
  pose proof (effective_bitmap_length _ _ Hb1) as Hl1.
  edestruct (bitmap2_step (ColumnBitmap2 e) (re_ColumnCount e)) as [-> Hl2];
    [done|rewrite length_app, Hl1; solve_len|solve_len|].
  cbn [rbind].
  destruct (0 <? length (ColumnBitmap2 e))%nat;
    (rewrite copy_at_zeros by (rewrite ?length_app, ?Hl1; solve_len));
    (rewrite app_no_zeros by solve_len); by rewrite <- !app_assoc.
Qed.

Lemma rows_event_reads e table :
  rows_event_ok fmt_v e table ->
  exists payload b12, encodeRowsEvent fmt_v NewBinlogEncoder e = Ok payload /\
    read_rows_event (is_update e) (columns table) payload =
      Some (re_TableID e, re_Flags e, Z.of_nat (re_ColumnCount e), b12,
            map (zip_with (field_of fmt_v) (columns table)) (Rows e)).
Proof.
  intros Hok.
  pose proof Hok as (Ht & H1 & H2 & H3 & H4 & H5 & H6 & Hb1 & Hb2 & Hv & Hrows).
  assert (length (columns table) = re_ColumnCount e) as Hc
    by (unfold columns; rewrite length_zip_with; lia).
  destruct (encode_rows_read fmt_v table (Rows e) []) as (out & Ho & Hlen & Hread);
    [unfold table_cols_ok; lia|intros E; rewrite E in Hc; simpl in Hc; lia|done|].
  cbn [app] in Ho. rewrite Hc in Ho.
  assert (encodeRowData fmt_v e = Ok out) as Hd by (unfold encodeRowData; by rewrite Ht).
  eexists _, _; split; [by eapply encodeRowsEvent_layout|].
  unfold read_rows_event. do 3 read_step.
  change (Z.to_nat (2 - 2)) with 0%nat. rewrite rd_take_0. cbn [mbind option_bind].
  read_step. rewrite Nat2Z.id.
  rewrite rd_take_app by by apply effective_bitmap_length. cbn [mbind option_bind].
  rewrite rd_take_app by by apply is_update_length.
  cbn [mbind option_bind]. rewrite Hread by done. reflexivity.
Qed.

(** C2: a rows event round-trips.  For every rows event of the shape the
    server builds, the encoder returns without a panic a payload from which the
    replica, knowing the table map, reads the table id, the flags and every
    row: a NULL exactly where the value is nil, and elsewhere the bytes its
    column encoder wrote. *)
Theorem encodeRowsEvent_roundtrip e table (Hok : rows_event_ok fmt_v e table) :
  exists payload b12, encodeRowsEvent fmt_v NewBinlogEncoder e = Ok payload /\
    read_rows_event (is_update e) (columns table) payload =
      Some (re_TableID e, re_Flags e, Z.of_nat (re_ColumnCount e), b12,
            map (zip_with (field_of fmt_v) (columns table)) (Rows e)).
Proof. by apply rows_event_reads. Qed.
End rows_event.

Lemma encodeRowsEvent_roundtrip_witness :
  let table := mkTableMapEvent 108 1 (str "test") (str "users") 2
                 [MYSQL_TYPE_LONG; MYSQL_TYPE_VARCHAR] [0; 255] [] [] in
  let e := mkRowsEvent 2 (Some table) 108 1 2 [255] [] [[VInt32 7; VNil]; [VInt32 8; VString (str "bob")]] in
  exists payload b12, encodeRowsEvent (H := lenenc_mysql) (fun _ => []) NewBinlogEncoder e = Ok payload /\
    read_rows_event false [(MYSQL_TYPE_LONG, 0); (MYSQL_TYPE_VARCHAR, 255)] payload =
      Some (108, 1, 2, b12, [[Some [7; 0; 0; 0]; None]; [Some [8; 0; 0; 0]; Some (3 :: str "bob")]]).
Proof.
  intros table e.
  apply (@encodeRowsEvent_roundtrip lenenc_mysql lenenc_mysql_laws (fun _ => []) e table).
  unfold rows_event_ok, in_width, bitmap_ok. simpl. split_and!; first [lia|done|by right|by left|idtac].
  repeat constructor; intros _; (eexists; split; [reflexivity|reflexivity]).
Defined.

Lemma EncodeEvent_frame_witness :
  exists data,
    EncodeEvent (H := lenenc_mysql) (fun _ => []) NewBinlogEncoder
      (mkBinlogEvent None (mkHeader 1700000000 16 1 500 0) (EvXID (mkXIDEvent 42))) = Ok data /\
    f_payload <$> read_frame data = Some [42; 0; 0; 0; 0; 0; 0; 0].
Proof.
  destruct (@EncodeEvent_frame lenenc_mysql (fun _ => []) NewBinlogEncoder
    (mkHeader 1700000000 16 1 500 0) (EvXID (mkXIDEvent 42)) [42; 0; 0; 0; 0; 0; 0; 0])
    as (data & H1 & H2).
  - unfold header_ok, in_width. simpl. lia.
  - reflexivity.
  - simpl. lia.
  - exists data. split; [exact H1|]. by rewrite H2.
Defined.

(** a GTID event loses its GTID.  [EncodeEvent] has no case for the
    [GTIDEvent]s the server creates, so they fall into its default branch: the
    commit flag, the source id and the transaction number are replaced by four
    zero bytes, where the format has 25 bytes or more. *)
Theorem EncodeEvent_drops_gtid `{LenEnc} fmt_v enc h g :
  let body := header_bytes h 27 ++ [0; 0; 0; 0] in
  EncodeEvent fmt_v enc (mkBinlogEvent None h (EvGTID g)) = Ok (body ++ le_bytes 4 (ChecksumIEEE body)).
Proof. by apply (EncodeEvent_layout fmt_v enc h (EvGTID g) (make_bytes 4)). Qed.
