(* ===== verification/ReplServer.v ===== *)
(** * The replication server

    [pkg/replication/server.go]: turns the change events the PostgreSQL
    streamer delivers into binlog events and sends them, as MySQL packets, to
    every connected replica.

    A client's connection is the list of packets written to it; [write_fails]
    says which writes fail.  The clock is an argument of the steps that read
    it.  The definitions of this file are the calls as one goroutine makes them;
    how the goroutines interleave (the number of a packet is taken under the
    client's mutex, the write is not) is the subject of [ServerWire].  Logging
    and metrics are left out, and with them the fields only they read
    ([StartTime]). *)

From Stdlib Require Import ZArith Lia.
From stdpp Require Import base numbers list strings gmap.
From S2P Require Import Prelude GoStd BinlogValue BinlogEvent.
Open Scope Z_scope.

(** ** Data *)

Record ServerConfig := mkServerConfig {
  sc_Enabled : bool;
  sc_ServerID : Z;
  PGHost : bytes;
  PGPort : Z;
  PGDatabase : bytes;
  PGUser : bytes;
  PGPassword : bytes;
  PGSlotName : bytes;
  PGPublicationName : bytes;
  BinlogFilename : bytes;
  BinlogPosition : Z;
  BackpressureTimeout : Z;
  CheckpointFile : bytes;
  CheckpointInterval : Z;
  ReconnectEnabled : bool;
  ReconnectMaxRetries : Z;
  ReconnectInitialWait : Z;
  ReconnectMaxWait : Z
}.

Definition second : Z := 1000000000.

Definition DefaultServerConfig : ServerConfig :=
  mkServerConfig false 1 (str "localhost") 5432 (str "postgres") (str "postgres") []
    (str "aproxy_cdc") (str "aproxy_pub") (str "mysql-bin.000001") 4 (30 * 60 * second) (str "./data/cdc_checkpoint.json") (10 * second) true 0 second (30 * second).

Inductive ChangeType :=
| ChangeTypeInsert | ChangeTypeUpdate | ChangeTypeDelete | ChangeTypeBegin | ChangeTypeCommit
| ChangeTypeDDL | ChangeTypeTruncate.

Definition changeTypeToString (ct : ChangeType) : bytes :=
  match ct with
  | ChangeTypeInsert => str "INSERT"
  | ChangeTypeUpdate => str "UPDATE"
  | ChangeTypeDelete => str "DELETE"
  | ChangeTypeBegin => str "BEGIN"
  | ChangeTypeCommit => str "COMMIT"
  | ChangeTypeDDL => str "DDL"
  | ChangeTypeTruncate => str "TRUNCATE"
  end.

Record Column := mkCol { col_Name : bytes; col_Type : Z; Nullable : bool; Unsigned : bool }.

(** A nil slice of values is [None]. *)
Record ChangeEvent := mkChange {
  ce_Type : ChangeType;
  ce_Timestamp : Z;
  ce_Database : bytes;
  ce_Schema : bytes;
  ce_Table : bytes;
  ce_TableID : Z;
  ce_Columns : list Column;
  OldValues : option (list GoValue);
  NewValues : option (list GoValue);
  LSN : Z
}.

Record DumpClient := mkClient {
  cl_ID : Z;
  cl_ServerID : Z;
  cl_Position : bytes * Z;
  EventsSent : Z;
  seqNum : Z;
  sent : list bytes;
  attempts : nat
}.

(** [eventChan] holds the queued events, [ctx_done] says that the server's
    context is cancelled. *)
Record Server := mkServer {
  srv_config : ServerConfig;
  pos_Name : bytes;
  pos_Pos : Z;
  serverID : Z;
  serverUUID : bytes;
  gtidEnabled : bool;
  transactionID : Z;
  clients : gmap Z DumpClient;
  nextClientID : Z;
  eventChan : list ChangeEvent;
  ctx_done : bool;
  running : bool
}.

(** [NewServer]; [uuid] is what [generateUUID] returned. *)
Definition NewServer (config : option ServerConfig) (uuid : bytes) : option Server :=
  let config := default DefaultServerConfig config in
  if negb (sc_Enabled config) then None
  else Some (mkServer config (BinlogFilename config) (BinlogPosition config) (sc_ServerID config) uuid true 0 ∅ 0
               [] false false).

(** The state the operations change: the transaction id, the position, the
    clients and the client counter. *)
Definition upd (t p : Z) (m : gmap Z DumpClient) (n : Z) (s : Server) : Server :=
  mkServer (srv_config s) (pos_Name s) p (serverID s) (serverUUID s) (gtidEnabled s) t m n
    (eventChan s) (ctx_done s) (running s).
Definition set_transactionID (t : Z) (s : Server) : Server := upd t (pos_Pos s) (clients s) (nextClientID s) s.
Definition set_clients (m : gmap Z DumpClient) (s : Server) : Server :=
  upd (transactionID s) (pos_Pos s) m (nextClientID s) s.
Definition set_Pos (p : Z) (s : Server) : Server := upd (transactionID s) p (clients s) (nextClientID s) s.
Definition set_nextClientID (n : Z) (s : Server) : Server :=
  upd (transactionID s) (pos_Pos s) (clients s) n s.
Definition set_lifecycle (ch : list ChangeEvent) (done run : bool) (s : Server) : Server :=
  mkServer (srv_config s) (pos_Name s) (pos_Pos s) (serverID s) (serverUUID s) (gtidEnabled s)
    (transactionID s) (clients s) (nextClientID s) ch done run.

(** Event type codes. *)
Definition QUERY_EVENT : Z := 2.
Definition FORMAT_DESCRIPTION_EVENT : Z := 15.
Definition XID_EVENT : Z := 16.
Definition TABLE_MAP_EVENT : Z := 19.
Definition HEARTBEAT_EVENT : Z := 27.
Definition WRITE_ROWS_EVENTv2 : Z := 30.
Definition UPDATE_ROWS_EVENTv2 : Z := 31.
Definition DELETE_ROWS_EVENTv2 : Z := 32.
Definition GTID_EVENT : Z := 33.
Definition RowsEventStmtEndFlag : Z := 1.

(** ** UUIDs *)

Definition hex_digit (c : Z) : option Z :=
  if (48 <=? c) && (c <=? 57) then Some (c - 48)
  else if (97 <=? c) && (c <=? 102) then Some (c - 87)
  else if (65 <=? c) && (c <=? 70) then Some (c - 55)
  else None.

(** [fmt.Sscanf(s, "%02x", &b)] of a two-character string into a zero byte. *)
Definition scan_hex2 (s : bytes) : Z :=
  match s with
  | [a; b] =>
      match hex_digit a, hex_digit b with
      | Some x, Some y => 16 * x + y
      | Some x, None => x
      | None, _ => if is_space a then default 0 (hex_digit b) else 0
      end
  | _ => 0
  end.

(** The loop [for i := 0; i < 16 && i*2+1 < len(cleaned); i++]. *)
Definition uuidStringToBytes (uuid : bytes) : bytes :=
  let cleaned := filter (fun c => c <> 45) uuid in
  map (fun i => if (i * 2 + 1 <? length cleaned)%nat then scan_hex2 (slice cleaned (i * 2) (i * 2 + 2)) else 0)
    (seq 0 16).

(** [%0wx] of a natural number. *)
Definition hex_char (d : Z) : Z := if d <? 10 then 48 + d else 87 + d.
Fixpoint hex_fuel (fuel : nat) (n : Z) (acc : bytes) : bytes :=
  match fuel with
  | O => acc
  | S k => let acc' := hex_char (n mod 16) :: acc in if n / 16 =? 0 then acc' else hex_fuel k (n / 16) acc'
  end.
Definition hex_pad (w : nat) (n : Z) : bytes := pad_left w (hex_fuel (S (Z.to_nat (Z.log2 n))) n []).

(** [t1] to [t5] are the five readings of the clock, in nanoseconds. *)
Definition generateUUID (t1 t2 t3 t4 t5 : Z) : bytes :=
  hex_pad 8 (Z.land t1 4294967295) ++ [45] ++
  hex_pad 4 (Z.land (Z.shiftr t2 32) 65535) ++ [45] ++
  hex_pad 4 (Z.lor 16384 (Z.land (Z.shiftr t3 48) 4095)) ++ [45] ++
  hex_pad 4 (Z.lor 32768 (Z.land (Z.shiftr t4 60) 16383)) ++ [45] ++
  hex_pad 12 (Z.land t5 281474976710655).

(** ** Building events; [now] is the clock in nanoseconds *)

Section events.
Variable now : Z.

Definition header (s : Server) (ty : Z) : EventHeader :=
  mkHeader (wrap 32 (now / second)) ty (serverID s) (pos_Pos s) 0.

Definition createQueryEvent (s : Server) (query : bytes) : BinlogEvent :=
  mkBinlogEvent None (header s QUERY_EVENT) (EvQuery (mkQueryEvent 0 0 0 [] [] query)).

Definition createXIDEvent (s : Server) : BinlogEvent :=
  mkBinlogEvent None (header s XID_EVENT) (EvXID (mkXIDEvent (wrap 64 now))).

Definition createGTIDEvent (s : Server) : BinlogEvent :=
  let sid := uuidStringToBytes (serverUUID s) in
  mkBinlogEvent None (header s GTID_EVENT)
    (EvGTID (mkGTIDEvent 1 sid (swrap 64 (transactionID s)) (swrap 64 (wrap 64 (transactionID s - 1)))
               (swrap 64 (transactionID s)))).

Definition getColumnMeta (colType : Z) : Z :=
  let ty c := colType =? c in
  if ty MYSQL_TYPE_VARCHAR || ty MYSQL_TYPE_VAR_STRING then 65535
  else if ty MYSQL_TYPE_STRING then 255
  else if ty MYSQL_TYPE_BLOB then 2
  else if ty MYSQL_TYPE_JSON then 4
  else if ty MYSQL_TYPE_NEWDECIMAL then Z.lor (Z.shiftl 10 8) 2
  else if ty MYSQL_TYPE_DATETIME2 || ty MYSQL_TYPE_TIMESTAMP2 || ty MYSQL_TYPE_TIME2 then 0
  else if ty MYSQL_TYPE_FLOAT then 4
  else if ty MYSQL_TYPE_DOUBLE then 8
  else 0.

(** The nullable bits, one per column from index [i] on. *)
Fixpoint nullable_bits (i : nat) (cols : list Column) (bitmap : bytes) : res bytes :=
  match cols with
  | [] => Ok bitmap
  | c :: cols' =>
      bitmap <~ (if Nullable c then set_null_bit bitmap i else Ok bitmap);
      nullable_bits (S i) cols' bitmap
  end.

Definition createTableMapEvent (s : Server) (event : ChangeEvent) : res BinlogEvent :=
  let columnCount := length (ce_Columns event) in
  let columnTypes := map col_Type (ce_Columns event) in
  let columnMeta := map (fun c => getColumnMeta (col_Type c)) (ce_Columns event) in
  let columnNames := map col_Name (ce_Columns event) in
  nullBitmap <~ nullable_bits 0 (ce_Columns event) (make_bytes ((columnCount + 7) / 8));
  Ok (mkBinlogEvent None (header s TABLE_MAP_EVENT)
        (EvTableMap (mkTableMapEvent (ce_TableID event) 0 (ce_Schema event) (ce_Table event) columnCount
                       columnTypes columnMeta nullBitmap columnNames))).

Definition createRowsEvent (s : Server) (event : ChangeEvent) : BinlogEvent :=
  let eventType :=
    match ce_Type event with
    | ChangeTypeInsert => WRITE_ROWS_EVENTv2
    | ChangeTypeUpdate => UPDATE_ROWS_EVENTv2
    | ChangeTypeDelete => DELETE_ROWS_EVENTv2
    | _ => 0
    end in
  let needBitmap2 := match ce_Type event with ChangeTypeUpdate => true | _ => false end in
  let newVals := default [] (NewValues event) in
  let oldVals := default newVals (OldValues event) in
  let rows :=
    match ce_Type event with
    | ChangeTypeUpdate => [oldVals; newVals]
    | ChangeTypeInsert => [newVals]
    | _ => [oldVals]
    end in
  let columnCount := length (ce_Columns event) in
  let columnBitmap := replicate ((columnCount + 7) / 8) 255 in
  let columnTypes := map col_Type (ce_Columns event) in
  let columnMeta := map (fun c => getColumnMeta (col_Type c)) (ce_Columns event) in
  let tableMap := mkTableMapEvent (ce_TableID event) 0 (ce_Schema event) (ce_Table event) columnCount
                    columnTypes columnMeta [] [] in
  mkBinlogEvent None (header s eventType)
    (EvRows (mkRowsEvent 2 (Some tableMap) (ce_TableID event) RowsEventStmtEndFlag columnCount columnBitmap
               (if needBitmap2 : bool then columnBitmap else []) rows)).

(** [fmt.Sprintf("TRUNCATE TABLE `%s`.`%s`", schema, table)]. *)
Definition truncate_query (schema table : bytes) : bytes :=
  str "TRUNCATE TABLE `" ++ schema ++ str "`.`" ++ table ++ str "`".

Definition bump (s : Server) : Server := set_transactionID (wrap 64 (transactionID s + 1)) s.

Definition gtid_events (s : Server) : list BinlogEvent :=
  if gtidEnabled s then [createGTIDEvent s] else [].

Definition convertToMySQLEvents (event : ChangeEvent) (s : Server) : res (list BinlogEvent) * Server :=
  match ce_Type event with
  | ChangeTypeBegin =>
      let s := bump s in (Ok (gtid_events s ++ [createQueryEvent s (str "BEGIN")]), s)
  | ChangeTypeCommit => (Ok [createXIDEvent s], s)
  | ChangeTypeInsert | ChangeTypeUpdate | ChangeTypeDelete =>
      ((tableMapEvt <~ createTableMapEvent s event; Ok [tableMapEvt; createRowsEvent s event]), s)
  | ChangeTypeDDL =>
      let s := bump s in (Ok (gtid_events s ++ [createQueryEvent s (str "-- DDL event")]), s)
  | ChangeTypeTruncate =>
      let s := bump s in
      (Ok (gtid_events s ++ [createQueryEvent s (truncate_query (ce_Schema event) (ce_Table event))]), s)
  end.
End events.

(** ** Sending *)

Section sending.
Context `{LenEnc}.
Variable fmt_v : GoValue -> bytes.
Variable write_fails : Z -> nat -> bool.

Definition encodeBinlogEvent (event : BinlogEvent) : res bytes := EncodeEvent fmt_v NewBinlogEncoder event.

(** The packet. *)
Definition packet_of (seq : Z) (data : bytes) : bytes :=
  let length := wrap 32 (Z.of_nat (length data) + 1) in
  [to_byte length; to_byte (Z.shiftr length 8); to_byte (Z.shiftr length 16); seq; 0] ++ data.

(** The two halves of [sendBinlogPacketToClient]: the number is taken under
    [client.mu], ... *)
Definition take_number (c : DumpClient) : Z * DumpClient :=
  let seq := seqNum c in
  (seq, mkClient (cl_ID c) (cl_ServerID c) (cl_Position c) (EventsSent c) (wrap 8 (seq + 1)) (sent c) (attempts c)).

(** ... and the packet is built and written to the connection after the mutex
    was released. *)
Definition write_packet (seq : Z) (data : bytes) (c : DumpClient) : res unit * DumpClient :=
  let packet := packet_of seq data in
  if write_fails (cl_ID c) (attempts c)
  then (Err (str "write failed"),
        mkClient (cl_ID c) (cl_ServerID c) (cl_Position c) (EventsSent c) (seqNum c) (sent c) (S (attempts c)))
  else (Ok tt,
        mkClient (cl_ID c) (cl_ServerID c) (cl_Position c) (EventsSent c) (seqNum c) (sent c ++ [packet])
          (S (attempts c))).

Definition sendBinlogPacketToClient (data : bytes) (c : DumpClient) : res unit * DumpClient :=
  let (seq, c) := take_number c in write_packet seq data c.

Definition sendBinlogEvent (event : BinlogEvent) (c : DumpClient) : res unit * DumpClient :=
  match encodeBinlogEvent event with
  | Ok data => sendBinlogPacketToClient data c
  | Err m => (Err (str "failed to encode event: " ++ m), c)
  | Panic => (Panic, c)
  end.

(** [atomic.AddUint64(&client.EventsSent, 1)]. *)
Definition count_sent (c : DumpClient) : DumpClient :=
  mkClient (cl_ID c) (cl_ServerID c) (cl_Position c) (wrap 64 (EventsSent c + 1)) (seqNum c) (sent c) (attempts c).

(** The inner loop of the broadcast: an error is logged and the next event is
    sent all the same. *)
Fixpoint send_all (events : list BinlogEvent) (c : DumpClient) : res unit * DumpClient :=
  match events with
  | [] => (Ok tt, c)
  | evt :: events' =>
      match sendBinlogEvent evt c with
      | (Panic, c') => (Panic, c')
      | (Err _, c') => send_all events' c'
      | (Ok _, c') => send_all events' (count_sent c')
      end
  end.

Definition is_panic {A} (r : res A) : bool := match r with Panic => true | _ => false end.

(** The order in which the clients of the map are served does not matter: each
    has its own connection.  The position is advanced after the broadcast. *)
Definition advance (n : nat) (s : Server) : Server :=
  set_Pos (wrap 32 (pos_Pos s + wrap 32 (Z.of_nat n * 100))) s.

Definition processChangeEvent (now : Z) (event : ChangeEvent) (s : Server) : res unit * Server :=
  match convertToMySQLEvents now event s with
  | (Ok evs, s1) =>
      let results := send_all evs <$> clients s1 in
      let s2 := set_clients (snd <$> results) s1 in
      if decide (map_Forall (fun _ r => is_panic (fst r) = false) results)
      then (Ok tt, advance (length evs) s2)
      else (Panic, s2)
  | (Err m, s1) => (Err m, s1)
  | (Panic, s1) => (Panic, s1)
  end.

Definition postHeaderLengths : bytes :=
  [0; 13; 0; 8; 0; 0; 0; 0; 0; 0; 0; 0; 0; 0; 0; 0; 8; 0; 0; 8; 0; 0; 0; 10; 10; 10; 0; 0; 0; 0;
   10; 10; 10; 0; 0; 0; 0; 0; 0; 0].

Definition format_description_event (now : Z) (s : Server) : res bytes :=
  let serverVersion := str "8.0.11-aproxy" in
  versionBytes <~ copy_at 0 serverVersion (make_bytes 50);
  let ts := wrap 32 (now / second) in
  let payload := [4; 0] ++ versionBytes
    ++ [to_byte ts; to_byte (Z.shiftr ts 8); to_byte (Z.shiftr ts 16); to_byte (Z.shiftr ts 24)]
    ++ [19] ++ postHeaderLengths ++ [1] in
  let eventSize := wrap 32 (Z.of_nat (19 + length payload + 4)) in
  let nextPos := wrap 32 (4 + eventSize) in
  let event := make_bytes (Z.to_nat eventSize) in
  event <~ put_at 0 (le_bytes 4 ts) event;
  event <~ set_at 4 (to_byte FORMAT_DESCRIPTION_EVENT) event;
  event <~ put_at 5 (le_bytes 4 (serverID s)) event;
  event <~ put_at 9 (le_bytes 4 eventSize) event;
  event <~ put_at 13 (le_bytes 4 nextPos) event;
  event <~ put_at 17 (le_bytes 2 0) event;
  copy_at 19 payload event.

Definition sendFormatDescriptionEvent (now : Z) (s : Server) (c : DumpClient) : res unit * DumpClient :=
  match format_description_event now s with
  | Ok event => sendBinlogPacketToClient event c
  | Err m => (Err m, c)
  | Panic => (Panic, c)
  end.

Definition heartbeat_event (now : Z) (s : Server) : res bytes :=
  let eventSize := 23 in
  let data := make_bytes 23 in
  data <~ put_at 0 (le_bytes 4 (wrap 32 (now / second))) data;
  data <~ set_at 4 (to_byte HEARTBEAT_EVENT) data;
  data <~ put_at 5 (le_bytes 4 (serverID s)) data;
  data <~ put_at 9 (le_bytes 4 eventSize) data;
  data <~ put_at 13 (le_bytes 4 (pos_Pos s)) data;
  put_at 17 (le_bytes 2 0) data.

Definition sendHeartbeat (now : Z) (s : Server) (c : DumpClient) : res unit * DumpClient :=
  match heartbeat_event now s with
  | Ok data => sendBinlogPacketToClient data c
  | Err m => (Err m, c)
  | Panic => (Panic, c)
  end.

(** ** Clients *)

Definition removeDumpClient (clientID : Z) (s : Server) : Server :=
  set_clients (delete clientID (clients s)) s.

(** The client is with the server, under a new id, before anything is sent. *)
Definition register_client (slave : Z) (pos : bytes * Z) (s : Server) : DumpClient * Server :=
  let clientID := wrap 32 (nextClientID s + 1) in
  let client := mkClient clientID slave pos 0 1 [] 0 in
  let s := set_nextClientID clientID s in
  (client, set_clients (<[clientID := client]> (clients s)) s).

(** How far a call of [HandleBinlogDump] got: it has returned, or it waits for
    the end of the stream ([<-client.done]) of the client it registered. *)
Inductive dumping := DumpReturned (r : res unit) | DumpBlocked (clientID : Z).

Definition HandleBinlogDump (now : Z) (slave : Z) (pos : bytes * Z) (s : option Server) : dumping * option Server :=
  match s with
  | None => (DumpReturned (Err (str "replication server not initialized")), None)
  | Some s =>
      let (client, s) := register_client slave pos s in
      match sendFormatDescriptionEvent now s client with
      | (Ok _, c') => (DumpBlocked (cl_ID client), Some (set_clients (<[cl_ID client := c']> (clients s)) s))
      | (Err m, c') =>
          (DumpReturned (Err (str "failed to send format description: " ++ m)), Some (removeDumpClient (cl_ID client) s))
      | (Panic, c') => (DumpReturned Panic, Some s)
      end
  end.

(** The end of [streamToClient] (the context is cancelled, or a heartbeat could
    not be sent): the client is removed, then [done] is closed, and the call
    of [HandleBinlogDump] that waits for it returns nil. *)
Definition stream_ends (clientID : Z) (s : Server) : dumping * Server :=
  (DumpReturned (Ok tt), removeDumpClient clientID s).

(** [Start]; [streamer] is what [NewPGStreamer] returned. *)
Definition Start (streamer : res unit) (s : option Server) : res unit * option Server :=
  match s with
  | None => (Ok tt, None)
  | Some s =>
      if negb (sc_Enabled (srv_config s)) then (Ok tt, Some s)
      else if running s then (Err (str "server already running"), Some s)
      else match streamer with
           | Ok _ => (Ok tt, Some (set_lifecycle (eventChan s) (ctx_done s) true s))
           | Err m => (Err (str "failed to create PG streamer: " ++ m), Some s)
           | Panic => (Panic, Some s)
           end
  end.

(** One iteration of [eventProcessor]; [None] is its return.  When the context
    is cancelled and an event is queued, [select] may take either case:
    [take_done] is its choice. *)
Definition eventProcessor (now : Z) (take_done : bool) (s : Server) : option (res unit * Server) :=
  match eventChan s with
  | [] => if ctx_done s then None else Some (Ok tt, s)
  | event :: queue =>
      if ctx_done s && take_done then None
      else Some (processChangeEvent now event (set_lifecycle queue (ctx_done s) (running s) s))
  end.

(** Stopping the server; the streamer it owns is stopped by [st_Stop] of
    PGStreamer, whose state is separate. *)
Definition Stop (s : option Server) : option Server :=
  match s with
  | None => None
  | Some s => if running s then Some (set_clients ∅ (set_lifecycle (eventChan s) true false s)) else Some s
  end.

Definition srv_GetPosition (s : Server) : bytes * Z := (pos_Name s, pos_Pos s).
Definition GetClientCount (s : Server) : nat := size (clients s).
End sending.
