(* ===== verification/ServerFacts.v ===== *)
(** * What a replica gets from the replication server

    Theorems about the events of [pkg/replication/server.go]: a row change
    becomes a table map and rows a replica can decode, and the layout of the
    other events. *)

From Stdlib Require Import ZArith Lia.
From stdpp Require Import base numbers list strings gmap.
From S2P Require Import Prelude GoStd BinlogValue ValueFacts BinlogEvent EventFacts ReplServer.
Open Scope Z_scope.

(** ** Row changes *)

(** A replica's reading of the two events of a row change: the column layout of
    the rows is the one of the table map it has just decoded. *)
Definition replica_dml (d1 d2 : bytes) : option (TableMapEvent * Z * list (list (option bytes))) :=
  f1 ← read_frame d1;
  tm ← read_table_map (f_payload f1);
  f2 ← read_frame d2;
  '(id, _, _, _, rows) ← read_rows_event (f_type f2 =? UPDATE_ROWS_EVENTv2) (columns tm) (f_payload f2);
  if id =? tm_TableID tm then Some (tm, f_type f2, rows) else None.

Definition event_columns (event : ChangeEvent) : list (Z * Z) :=
  map (fun c => (col_Type c, getColumnMeta (col_Type c))) (ce_Columns event).

(** A row the column layout can hold: a value per column, each NULL or within
    its column type's limits. *)
Definition row_fits (fmt_v : GoValue -> bytes) (event : ChangeEvent) (row : list GoValue) : Prop :=
  Forall2 (fun c val => val = VNil \/ (In c.1 row_types /\ value_fits fmt_v val c.1 c.2))
    (event_columns event) row.

(** The rows a change of each kind carries: the before image of an UPDATE or
    DELETE falls back to the new values when PostgreSQL sent none. *)
Definition change_rows (event : ChangeEvent) : list (list GoValue) :=
  let newVals := default [] (NewValues event) in
  let oldVals := default newVals (OldValues event) in
  match ce_Type event with
  | ChangeTypeInsert => [newVals]
  | ChangeTypeUpdate => [oldVals; newVals]
  | _ => [oldVals]
  end.

Definition rows_code (event : ChangeEvent) : Z :=
  match ce_Type event with
  | ChangeTypeInsert => WRITE_ROWS_EVENTv2
  | ChangeTypeUpdate => UPDATE_ROWS_EVENTv2
  | _ => DELETE_ROWS_EVENTv2
  end.

Definition is_dml (t : ChangeType) : bool :=
  match t with ChangeTypeInsert | ChangeTypeUpdate | ChangeTypeDelete => true | _ => false end.

Definition change_ok (fmt_v : GoValue -> bytes) (event : ChangeEvent) : Prop :=
  is_dml (ce_Type event) = true /\ in_width 48 (ce_TableID event) /\
  (length (ce_Schema event) < 256)%nat /\ (length (ce_Table event) < 256)%nat /\
  (0 < length (ce_Columns event))%nat /\ Z.of_nat (length (ce_Columns event)) < 2 ^ 32 /\
  Forall (row_fits fmt_v event) (change_rows event).

Definition server_ok (s : Server) : Prop := in_width 32 (serverID s) /\ in_width 32 (pos_Pos s).

Lemma getColumnMeta_ok t : meta_ok t (getColumnMeta t).
Proof.
  unfold getColumnMeta.
  repeat match goal with
  | |- context [?a =? ?b] => destruct (Z.eqb_spec a b) as [->|]; cbn [orb]; cbv iota
  end; try (cbv -[Z.le Z.lt]; lia).
  unfold meta_ok, in_width. lia.
Qed.

Lemma nullable_bits_spec cols : forall i bm,
  (i + length cols <= 8 * length bm)%nat ->
  exists bm', nullable_bits i cols bm = Ok bm' /\ length bm' = length bm /\
    forall j, null_at bm' j = null_at bm j ||
      ((i <=? j)%nat && default false (Nullable <$> cols !! (j - i)%nat)).
Proof.
  induction cols as [|c cols IH]; intros i bm Hl.
  { exists bm. split_and!; [done..|]. intros j. cbn. by rewrite andb_false_r, orb_false_r. }
  cbn [nullable_bits length] in *.
  assert (exists bm1, (if Nullable c then set_null_bit bm i else Ok bm) = Ok bm1 /\ length bm1 = length bm /\
    forall j, null_at bm1 j = null_at bm j || ((j =? i)%nat && Nullable c)) as (bm1 & -> & Hb & Hn1).
  { destruct (Nullable c).
    - destruct (set_null_bit_spec bm i) as (bm1 & H1 & H2 & H3); [apply Nat.Div0.div_lt_upper_bound; lia|].
      exists bm1. split_and!; [done..|]. intros j. by rewrite H3, andb_true_r.
    - exists bm. split_and!; [done..|]. intros j. by rewrite andb_false_r, orb_false_r. }
  cbn [rbind]. destruct (IH (S i) bm1) as (bm2 & -> & Hb2 & Hn2); [lia|].
  exists bm2. split_and!; [done|lia|]. intros j. rewrite Hn2, Hn1, <- orb_assoc. f_equal.
  destruct (Nat.eqb_spec j i) as [->|].
  - by rewrite Nat.leb_refl, Nat.sub_diag, (proj2 (Nat.leb_gt (S i) i)), orb_false_r by lia.
  - destruct (Nat.leb_spec i j); [|by rewrite (proj2 (Nat.leb_gt (S i) j)) by lia].
    rewrite (proj2 (Nat.leb_le (S i) j)) by lia. by replace (j - i)%nat with (S (j - S i)) by lia.
Qed.

Lemma bitmap_bound n : (n <= 8 * ((n + 7) / 8))%nat.
Proof.
  pose proof (Nat.div_mod_eq (n + 7) 8). pose proof (Nat.mod_upper_bound (n + 7) 8). lia.
Qed.

Lemma zip_columns event :
  zip (map col_Type (ce_Columns event)) (map (fun c => getColumnMeta (col_Type c)) (ce_Columns event))
  = event_columns event.
Proof. unfold event_columns. induction (ce_Columns event) as [|c l IH]; [done|]. cbn. by f_equal. Qed.

Lemma metas_ok event :
  Forall2 meta_ok (map col_Type (ce_Columns event))
    (map (fun c => getColumnMeta (col_Type c)) (ce_Columns event)).
Proof. induction (ce_Columns event); constructor; [apply getColumnMeta_ok|done]. Qed.

Lemma row_fits_ok fmt_v event row : row_fits fmt_v event row -> Forall2 (value_ok fmt_v) (event_columns event) row.
Proof.
  intros H. eapply Forall2_impl; [exact H|]. intros c val [->|[Hin Hfit]] Hne; [done|]. by apply value_framed.
Qed.

Section delivery.
Context `{LenEnc, !LenEncLaws _}.
Variable fmt_v : GoValue -> bytes.
Variable now : Z.

(** The events stay below the 4 GiB the size field can say. *)
Definition events_small (events : list BinlogEvent) : Prop :=
  Forall (fun ev => forall p, encode_payload fmt_v NewBinlogEncoder (ev_Event ev) = Ok p ->
    Z.of_nat (length p) + 23 < 2 ^ 32) events.

Lemma header_fits s ty : server_ok s -> in_width 8 ty -> header_ok (header now s ty).
Proof.
  intros [Hi Hp] Ht. unfold header_ok. cbn [Timestamp EventType ServerID LogPos h_Flags header]. split_and!; [apply (wrap_range 32); lia|done..|]. unfold in_width. lia.
Qed.

Lemma createTableMapEvent_ok s event :
  change_ok fmt_v event ->
  exists nb, createTableMapEvent now s event =
      Ok (mkBinlogEvent None (header now s TABLE_MAP_EVENT)
        (EvTableMap (mkTableMapEvent (ce_TableID event) 0 (ce_Schema event) (ce_Table event)
           (length (ce_Columns event)) (map col_Type (ce_Columns event))
           (map (fun c => getColumnMeta (col_Type c)) (ce_Columns event)) nb
           (map col_Name (ce_Columns event))))) /\
    length nb = ((length (ce_Columns event) + 7) / 8)%nat /\ nb <> [] /\
    forall j, null_at nb j = default false (Nullable <$> ce_Columns event !! j).
Proof.
  intros (_ & _ & _ & _ & Hpos & _). unfold createTableMapEvent.
  destruct (nullable_bits_spec (ce_Columns event) 0 (make_bytes ((length (ce_Columns event) + 7) / 8)))
    as (nb & -> & Hl & Hn).
  { unfold make_bytes. rewrite length_replicate. apply bitmap_bound. }
  unfold make_bytes in Hl. rewrite length_replicate in Hl.
  exists nb. split_and!; [done..| |].
  - intros ->. pose proof (bitmap_bound (length (ce_Columns event))). cbn [length] in Hl. lia.
  - intros j. by rewrite Hn, null_at_zeros, Nat.sub_0_r.
Qed.

Lemma effective_bitmap_id nb n : nb <> [] -> effective_bitmap nb n = nb.
Proof. by destruct nb. Qed.

Lemma rows_event_fits s event :
  change_ok fmt_v event ->
  exists re table, ev_Event (createRowsEvent now s event) = EvRows re /\
    RawData (createRowsEvent now s event) = None /\
    Header (createRowsEvent now s event) = header now s (rows_code event) /\
    rows_event_ok fmt_v re table /\ columns table = event_columns event /\
    re_TableID re = ce_TableID event /\ Rows re = change_rows event /\
    is_update re = (rows_code event =? UPDATE_ROWS_EVENTv2).
Proof.
  intros (Hd & Hid & _ & _ & Hpos & Hw & Hrows).
  set (table := mkTableMapEvent (ce_TableID event) 0 (ce_Schema event) (ce_Table event)
    (length (ce_Columns event)) (map col_Type (ce_Columns event))
    (map (fun c => getColumnMeta (col_Type c)) (ce_Columns event)) [] []).
  eexists _, table. split_and!; [reflexivity|reflexivity| | |apply zip_columns|reflexivity| |].
  - unfold createRowsEvent, rows_code. by destruct (ce_Type event).
  - unfold rows_event_ok, bitmap_ok. cbn. rewrite !length_map, !length_replicate.
    split_and!; try done; try lia.
    + destruct (ce_Type event); try (by left); right; by rewrite length_replicate.
    + unfold columns. cbn. rewrite zip_columns. unfold change_rows in Hrows.
      destruct (ce_Type event); try discriminate;
        (eapply Forall_impl; [exact Hrows|]; intros; by apply row_fits_ok).
  - unfold change_rows. cbn. by destruct (ce_Type event).
  - unfold is_update, rows_code. cbn [ColumnBitmap2].
    pose proof (bitmap_bound (length (ce_Columns event))) as Hb.
    destruct (ce_Type event); try discriminate; try reflexivity.
    rewrite length_replicate, Z.eqb_refl. apply Nat.ltb_lt. lia.
Qed.

Lemma event_delivered e payload :
  RawData e = None -> header_ok (Header e) ->
  encode_payload fmt_v NewBinlogEncoder (ev_Event e) = Ok payload ->
  Z.of_nat (length payload) + 23 < 2 ^ 32 ->
  exists d f, encodeBinlogEvent fmt_v e = Ok d /\ read_frame d = Some f /\ f_payload f = payload /\
    f_type f = EventType (Header e).
Proof.
  destruct e as [raw h ev]. cbn. intros -> Hh Hp Hl.
  destruct (event_reads fmt_v NewBinlogEncoder h ev payload Hh Hp Hl) as (d & H1 & H2).
  eexists _, _. split_and!; [exact H1|exact H2|done..].
Qed.

Lemma row_change_reads event s :
  server_ok s -> change_ok fmt_v event ->
  (forall evs s', convertToMySQLEvents now event s = (Ok evs, s') -> events_small evs) ->
  exists e1 e2 d1 d2 nb,
    convertToMySQLEvents now event s = (Ok [e1; e2], s) /\
    encodeBinlogEvent fmt_v e1 = Ok d1 /\ encodeBinlogEvent fmt_v e2 = Ok d2 /\
    replica_dml d1 d2 =
      Some (mkTableMapEvent (ce_TableID event) 0 (ce_Schema event) (ce_Table event)
              (length (ce_Columns event)) (map col_Type (ce_Columns event))
              (map (fun c => getColumnMeta (col_Type c)) (ce_Columns event)) nb [],
            rows_code event,
            map (zip_with (field_of fmt_v) (event_columns event)) (change_rows event)) /\
    forall j, null_at nb j = default false (Nullable <$> ce_Columns event !! j).
Proof.
  intros Hs Hok Hsmall.
  destruct (createTableMapEvent_ok s event Hok) as (nb & Htm & Hl & Hne & Hn).
  destruct (rows_event_fits s event Hok) as (re & table & Er & Raw & Hh & Hre & Hc & Hid & Hrows & Hu).
  pose proof Hok as (Hd & Hw & Hsc & Htb & Hpos & Hcnt & _).
  assert (convertToMySQLEvents now event s =
    (Ok [mkBinlogEvent None (header now s TABLE_MAP_EVENT)
        (EvTableMap (mkTableMapEvent (ce_TableID event) 0 (ce_Schema event) (ce_Table event)
           (length (ce_Columns event)) (map col_Type (ce_Columns event))
           (map (fun c => getColumnMeta (col_Type c)) (ce_Columns event)) nb
           (map col_Name (ce_Columns event)))); createRowsEvent now s event], s)) as Hconv.
  { unfold convertToMySQLEvents. rewrite Htm. by destruct (ce_Type event). }
  pose proof (Hsmall _ _ Hconv) as Hsm. apply Forall_cons in Hsm as [Hs1 Hsm]. apply Forall_cons in Hsm as [Hs2 _].
  match type of Htm with _ = Ok (mkBinlogEvent _ _ (EvTableMap ?e)) => set (tm := e) in * end.
  destruct (table_map_reads tm) as (p1 & Hp1 & Hr1).
  { unfold table_map_ok. cbn. rewrite length_map. split_and!; try done; [apply metas_ok|by right]. }
  cbn in Hr1. rewrite effective_bitmap_id in Hr1 by done.
  destruct (rows_event_reads fmt_v re table Hre) as (p2 & b & Hp2 & Hr2).
  rewrite Hid, Hc, Hrows, Hu in Hr2.
  destruct (event_delivered (mkBinlogEvent None (header now s TABLE_MAP_EVENT) (EvTableMap tm)) p1)
    as (d1 & f1 & He1 & Hf1 & Hp1' & Ht1); [done|by apply header_fits|done|by apply Hs1|].
  destruct (event_delivered (createRowsEvent now s event) p2) as (d2 & f2 & He2 & Hf2 & Hp2' & Ht2);
    [done|rewrite Hh; apply header_fits; [done|]|by rewrite Er|by apply Hs2; rewrite Er|].
  { unfold rows_code. destruct (ce_Type event); cbv; split; congruence. }
  rewrite Hh in Ht2. cbn in Ht2.
  eexists _, _, d1, d2, nb. split_and!; [exact Hconv|done..| |done].
  unfold replica_dml. rewrite Hf1. cbn [mbind option_bind]. rewrite Hp1', Hr1. cbn [mbind option_bind].
  rewrite Hf2. cbn [mbind option_bind]. rewrite Hp2', Ht2. unfold columns. cbn [ColumnType ColumnMeta].
  rewrite zip_columns, Hr2. cbn [mbind option_bind tm_TableID]. by rewrite Z.eqb_refl.
Qed.

(** C29: an INSERT, UPDATE or DELETE reaches the replica.  The server turns the
    change into a table map and a rows event, both encode without a panic, and
    a replica that decodes the rows with the layout of the table map it has
    just read gets the table's names, the column types and nullability, and
    every row: NULL where the value is nil, the column encoder's bytes
    elsewhere; an UPDATE as before and after image, the before image falling
    back to the new values when PostgreSQL sent none. *)
Theorem row_change_delivered event s
  (Hs : server_ok s) (Hok : change_ok fmt_v event)
  (Hsmall : forall evs s', convertToMySQLEvents now event s = (Ok evs, s') -> events_small evs) :
  exists e1 e2 d1 d2 nb,
    convertToMySQLEvents now event s = (Ok [e1; e2], s) /\
    encodeBinlogEvent fmt_v e1 = Ok d1 /\ encodeBinlogEvent fmt_v e2 = Ok d2 /\
    replica_dml d1 d2 =
      Some (mkTableMapEvent (ce_TableID event) 0 (ce_Schema event) (ce_Table event)
              (length (ce_Columns event)) (map col_Type (ce_Columns event))
              (map (fun c => getColumnMeta (col_Type c)) (ce_Columns event)) nb [],
            rows_code event,
            map (zip_with (field_of fmt_v) (event_columns event)) (change_rows event)) /\
    forall j, null_at nb j = default false (Nullable <$> ce_Columns event !! j).
Proof. by apply row_change_reads. Qed.
End delivery.

Definition demo_event : ChangeEvent :=
  mkChange ChangeTypeUpdate 0 [] (str "public") (str "users") 42
    [mkCol (str "id") MYSQL_TYPE_LONG false false; mkCol (str "name") MYSQL_TYPE_VAR_STRING true false]
    None (Some [VInt32 7; VString (str "bob")]) 0.

Definition demo_server : Server :=
  mkServer DefaultServerConfig (str "mysql-bin.000001") 4 1 (str "00010203-0405-0607-0809-0a0b0c0d0e0f") true 0
    ∅ 0 [] false true.

Lemma demo_event_ok : change_ok (fun _ => []) demo_event.
Proof.
  unfold change_ok, in_width. cbn [demo_event ce_Type ce_TableID ce_Schema ce_Table ce_Columns length is_dml str].
  split_and!; try done; try lia.
  assert (row_fits (fun _ => []) demo_event [VInt32 7; VString (str "bob")]).
  { apply Forall2_cons; split; [|apply Forall2_cons; split; [|apply Forall2_nil; done]].
    all: right; split; [cbn; tauto|]; unfold value_fits; split_and!.
    all: try (intros Hty; repeat destruct Hty as [Hty|Hty]; try discriminate Hty; unfold short_text; simpl; lia).
    all: unfold in_width; cbv; split; congruence. }
  apply Forall_cons; split; [done|]. apply Forall_cons; split; [done|]. apply Forall_nil; done.
Qed.

Lemma demo_event_small evs s' :
  convertToMySQLEvents 0 demo_event demo_server = (Ok evs, s') ->
  events_small (H := lenenc_mysql) (fun _ => []) evs.
Proof.
  intros E. apply (f_equal fst) in E. cbn [fst] in E.
  apply (f_equal (fun r => match r with Ok l => l | _ => [] end)) in E. subst evs.
  assert (forallb (fun ev => match encode_payload (H := lenenc_mysql) (fun _ => []) NewBinlogEncoder (ev_Event ev) with
     | Ok p => Z.of_nat (length p) + 23 <? 2 ^ 32 | _ => true end)
     (match (convertToMySQLEvents 0 demo_event demo_server).1 with Ok l => l | _ => [] end) = true) as Hb
    by (vm_compute; reflexivity).
  rewrite forallb_forall in Hb. apply Forall_forall. intros ev Hin p Hp.
  specialize (Hb ev (proj1 (list_elem_of_In _ _) Hin)). cbn beta in Hb. rewrite Hp in Hb. by apply Z.ltb_lt.
Qed.

Lemma row_change_delivered_witness :
  exists d1 d2 nb,
    replica_dml d1 d2 =
      Some (mkTableMapEvent 42 0 (str "public") (str "users") 2 [MYSQL_TYPE_LONG; MYSQL_TYPE_VAR_STRING]
              [0; 65535] nb [], UPDATE_ROWS_EVENTv2,
            [[Some [7; 0; 0; 0]; Some ([3; 0] ++ str "bob")]; [Some [7; 0; 0; 0]; Some ([3; 0] ++ str "bob")]]) /\
    null_at nb 0 = false /\ null_at nb 1 = true.
Proof.
  destruct (@row_change_delivered lenenc_mysql lenenc_mysql_laws (fun _ => []) 0 demo_event demo_server)
    as (e1 & e2 & d1 & d2 & nb & _ & _ & _ & Hr & Hn).
  - unfold server_ok, in_width. simpl. lia.
  - apply demo_event_ok.
  - apply demo_event_small.
  - exists d1, d2, nb. split; [exact Hr|]. by rewrite !Hn.
Defined.

(** The frame of an event without payload or checksum bytes of its own. *)
Lemma heartbeat_event_layout now s :
  heartbeat_event now s =
  Ok (le_bytes 4 (now / second) ++ [HEARTBEAT_EVENT] ++ le_bytes 4 (serverID s) ++ le_bytes 4 23 ++
      le_bytes 4 (pos_Pos s) ++ [0; 0] ++ [0; 0; 0; 0]).
Proof.
  unfold heartbeat_event. fill. rewrite le_bytes_wrap, <- !app_assoc by lia. done.
Qed.
