(* ===== verification/ServerOrder.v ===== *)
(** * Order, identity and framing of the replicated transactions

    Theorems about [pkg/replication/server.go]: the GTIDs the server assigns,
    the transaction structure of the event stream, the server UUID, and the
    hand-built format description and heartbeat events. *)

From Stdlib Require Import ZArith Lia.
From stdpp Require Import base numbers list strings gmap.
From S2P Require Import Prelude GoStd BinlogValue ValueFacts BinlogEvent EventFacts ReplServer ServerFacts.
Open Scope Z_scope.

(** ** The event stream of a sequence of changes *)

Lemma createTableMapEvent_total now s event :
  exists tm, createTableMapEvent now s event = Ok (mkBinlogEvent None (header now s TABLE_MAP_EVENT) (EvTableMap tm)).
Proof.
  unfold createTableMapEvent.
  destruct (nullable_bits_spec (ce_Columns event) 0 (make_bytes ((length (ce_Columns event) + 7) / 8)))
    as (nb & -> & _).
  { unfold make_bytes. rewrite length_replicate. apply bitmap_bound. }
  by eexists.
Qed.

(** The events of a sequence of changes, each processed at its own time. *)
Fixpoint events_of (changes : list (Z * ChangeEvent)) (s : Server) : list BinlogEvent :=
  match changes with
  | [] => []
  | (now, event) :: changes' =>
      let '(r, s') := convertToMySQLEvents now event s in
      match r with Ok evs => evs | _ => [] end ++ events_of changes' s'
  end.

(** The replica's view of transactions: a GTID opens a group, which is a single
    statement or BEGIN, row changes and an XID. *)
Inductive txn_state := Idle | HasGtid | InTxn | HasMap.

Definition replica_step (st : txn_state) (e : BinlogEvent) : option txn_state :=
  match st, ev_Event e with
  | Idle, EvGTID _ => Some HasGtid
  | HasGtid, EvQuery q => if bytes_eqb (Query q) (str "BEGIN") then Some InTxn else Some Idle
  | InTxn, EvTableMap _ => Some HasMap
  | HasMap, EvRows _ => Some InTxn
  | InTxn, EvXID _ => Some Idle
  | _, _ => None
  end.

Fixpoint replica_accepts (st : txn_state) (evs : list BinlogEvent) : option txn_state :=
  match evs with
  | [] => Some st
  | e :: evs' => st' ← replica_step st e; replica_accepts st' evs'
  end.

(** PostgreSQL's side: BEGIN, row changes and truncations, COMMIT.  The state
    says whether a transaction is open. *)
Fixpoint pg_wellformed (opened : bool) (changes : list (Z * ChangeEvent)) : bool :=
  match changes with
  | [] => true
  | (_, event) :: changes' =>
      match ce_Type event, opened with
      | ChangeTypeBegin, false => pg_wellformed true changes'
      | ChangeTypeCommit, true => pg_wellformed false changes'
      | (ChangeTypeInsert | ChangeTypeUpdate | ChangeTypeDelete | ChangeTypeTruncate), true =>
          pg_wellformed true changes'
      | _, _ => false
      end
  end.

Definition is_truncate (t : ChangeType) : bool := match t with ChangeTypeTruncate => true | _ => false end.

Lemma replica_accepts_app st evs evs' :
  replica_accepts st (evs ++ evs') = st' ← replica_accepts st evs; replica_accepts st' evs'.
Proof.
  revert st. induction evs as [|e evs IH]; intros st; [done|]. cbn [app replica_accepts].
  destruct (replica_step st e) as [st'|]; [apply IH|done].
Qed.

Definition txn_of (opened : bool) : txn_state := if opened then InTxn else Idle.

(** C30: the transaction structure of the stream.  For any well-formed stream of
    PostgreSQL changes, the events sent form groups a replica accepts (GTID,
    BEGIN, a table map before each rows event, XID) exactly when no TRUNCATE
    occurs: since PostgreSQL truncates inside a transaction, the GTID the
    server emits for a TRUNCATE lands in the middle of a group. *)
Theorem transaction_groups changes s (Hg : gtidEnabled s = true) (Hwf : pg_wellformed false changes = true) :
  is_Some (replica_accepts Idle (events_of changes s)) <->
  forallb (fun ch => negb (is_truncate (ce_Type ch.2))) changes = true.
Proof.
  change Idle with (txn_of false). revert Hwf Hg. generalize false as opened. revert s.
  induction changes as [|[now ev] changes IH]; intros s opened Hwf Hg; [split; [done|by eexists]|].
  cbn [pg_wellformed events_of forallb snd] in *. unfold convertToMySQLEvents, gtid_events, bump.
  cbn [gtidEnabled set_transactionID upd]. rewrite ?Hg.
  destruct (createTableMapEvent_total now s ev) as (tm & Htm).
  destruct (ce_Type ev), opened; try discriminate Hwf;
    rewrite ?Htm, replica_accepts_app; cbn -[replica_accepts events_of pg_wellformed createRowsEvent];
    cbn [replica_accepts replica_step createRowsEvent ev_Event mbind option_bind txn_of app].
  all: try (first [by apply (IH s true)|by apply (IH s false)]).
  - by apply (IH (bump s) true).
  - split; [by intros []|done].
Qed.

Definition txn_changes (types : list ChangeType) : list (Z * ChangeEvent) :=
  map (fun t => (0, mkChange t 0 [] (str "public") (str "users") 42 [] None None 0)) types.

Lemma transaction_groups_witness :
  is_Some (replica_accepts Idle (events_of
    (txn_changes [ChangeTypeBegin; ChangeTypeInsert; ChangeTypeUpdate; ChangeTypeCommit]) demo_server)) /\
  ~ is_Some (replica_accepts Idle (events_of
    (txn_changes [ChangeTypeBegin; ChangeTypeTruncate; ChangeTypeCommit]) demo_server)).
Proof.
  split; [|intros Hsome].
  - by apply transaction_groups.
  - by apply transaction_groups in Hsome.
Defined.

(** ** GTIDs *)

Definition gtids (evs : list BinlogEvent) : list GTIDEvent :=
  omap (fun e => match ev_Event e with EvGTID g => Some g | _ => None end) evs.

Definition opens_txn (t : ChangeType) : bool :=
  match t with ChangeTypeBegin | ChangeTypeDDL | ChangeTypeTruncate => true | _ => false end.

Fixpoint txn_count (changes : list (Z * ChangeEvent)) : Z :=
  match changes with
  | [] => 0
  | (_, event) :: changes' => (if opens_txn (ce_Type event) then 1 else 0) + txn_count changes'
  end.

Lemma txn_count_bound changes : 0 <= txn_count changes <= Z.of_nat (length changes).
Proof.
  induction changes as [|[now ev] changes IH]; [simpl; lia|]. cbn [txn_count length].
  destruct (opens_txn _); lia.
Qed.

(** GTIDs are assigned in order and without gaps.  Over any sequence of
    changes the server numbers the transactions, DDL statements and truncations
    consecutively from the last transaction id, each GTID carries the server's
    UUID, is its own sequence number and depends on the one before. *)
Theorem gtid_sequence changes s
  (Hg : gtidEnabled s = true) (H0 : 0 <= transactionID s)
  (Hroom : transactionID s + Z.of_nat (length changes) < 2 ^ 63) :
  gtids (events_of changes s) =
  map (fun n => mkGTIDEvent 1 (uuidStringToBytes (serverUUID s)) n (n - 1) n)
    (seqZ (transactionID s + 1) (txn_count changes)).
Proof.
  revert s Hg H0 Hroom. induction changes as [|[now ev] changes IH]; intros s Hg H0 Hroom; [done|].
  cbn [events_of txn_count length] in *. pose proof (txn_count_bound changes) as Hb.
  assert (transactionID (bump s) = transactionID s + 1) as Ht
    by (unfold bump; cbn; apply wrap_id; unfold in_width; lia).
  destruct (createTableMapEvent_total now s ev) as (tm & Htm).
  assert (createGTIDEvent now (bump s) = mkBinlogEvent None (header now (bump s) GTID_EVENT)
    (EvGTID (mkGTIDEvent 1 (uuidStringToBytes (serverUUID s)) (transactionID s + 1) (transactionID s + 1 - 1)
       (transactionID s + 1)))) as Hc.
  { unfold createGTIDEvent. rewrite Ht. rewrite (wrap_id 64) by (unfold in_width; lia).
    by rewrite !swrap_id by (unfold in_swidth; lia). }
  unfold convertToMySQLEvents, gtid_events. rewrite Htm. change (gtidEnabled (bump s)) with (gtidEnabled s). rewrite Hg, Hc.
  destruct (ce_Type ev); cbn [opens_txn rbind]; unfold gtids; rewrite omap_app; fold gtids.
  all: try (cbn -[events_of txn_count seqZ]; fold (gtids (events_of changes s)); rewrite IH by (done || lia);
            by rewrite ?Z.add_0_l).
  all: cbn -[events_of txn_count seqZ bump]; fold (gtids (events_of changes (bump s))); rewrite IH by (done || rewrite ?Ht; lia);
    rewrite (seqZ_cons (transactionID s + 1)) by lia; cbn [map]; do 2 f_equal; rewrite Ht; f_equal; lia.
Qed.

Lemma gtid_sequence_witness :
  map GNO (gtids (events_of (txn_changes [ChangeTypeBegin; ChangeTypeInsert; ChangeTypeCommit;
    ChangeTypeBegin; ChangeTypeCommit]) demo_server)) = [1; 2].
Proof.
  rewrite gtid_sequence; [reflexivity|reflexivity|simpl; lia|simpl; lia].
Defined.

(** ** UUIDs *)

(** Exactly [w] hexadecimal digits. *)
Fixpoint hex_width (w : nat) (n : Z) : bytes :=
  match w with
  | O => []
  | S k => hex_width k (n / 16) ++ [hex_char (n mod 16)]
  end.

Lemma hex_width_length w : forall n, length (hex_width w n) = w.
Proof. induction w as [|w IH]; intros n; [done|]. cbn. rewrite length_app, IH. simpl. lia. Qed.

Lemma hex_width_0 w : hex_width w 0 = replicate w 48.
Proof. induction w as [|w IH]; [done|]. cbn [hex_width]. rewrite Z.div_0_l by lia. by rewrite IH, <- replicate_cons_app. Qed.

Lemma hex_fuel_spec w : forall fuel n acc,
  0 <= n < 16 ^ Z.of_nat (S w) -> n < 2 ^ Z.of_nat fuel -> (0 < fuel)%nat ->
  exists k ds, hex_fuel fuel n acc = ds ++ acc /\ replicate k 48 ++ ds = hex_width (S w) n.
Proof.
  induction w as [|w IH]; intros [|fuel] n acc Hn Hf Hpos; try lia; cbn [hex_fuel].
  - rewrite (proj2 (Z.eqb_eq (n / 16) 0)) by (apply Z.div_small; lia). by exists O, [hex_char (n mod 16)].
  - destruct (Z.eqb_spec (n / 16) 0) as [E|E].
    + exists (S w), [hex_char (n mod 16)]. split; [done|].
      change (hex_width (S (S w)) n) with (hex_width (S w) (n / 16) ++ [hex_char (n mod 16)]).
      by rewrite E, hex_width_0.
    + replace (Z.of_nat (S (S w))) with (1 + Z.of_nat (S w)) in Hn by lia. rewrite Z.pow_add_r in Hn by lia.
      replace (Z.of_nat (S fuel)) with (1 + Z.of_nat fuel) in Hf by lia. rewrite Z.pow_add_r in Hf by lia.
      assert (0 <= n / 16) by (apply Z.div_pos; lia).
      destruct (IH fuel (n / 16) (hex_char (n mod 16) :: acc)) as (k & ds & -> & Hk).
      * split; [lia|]. apply Z.div_lt_upper_bound; lia.
      * pose proof (Z.mul_div_le n 16). lia.
      * destruct fuel; [|lia]. simpl in Hf. pose proof (Z.mul_div_le n 16). lia.
      * exists k, (ds ++ [hex_char (n mod 16)]). split; [by rewrite <- app_assoc|]. by rewrite app_assoc, Hk.
Qed.

Lemma hex_pad_width w n : 0 <= n < 16 ^ Z.of_nat (S w) -> hex_pad (S w) n = hex_width (S w) n.
Proof.
  intros Hn. unfold hex_pad, pad_left.
  destruct (hex_fuel_spec w (S (Z.to_nat (Z.log2 n))) n []) as (k & ds & -> & Hk); [done| |lia|].
  { destruct (Z.eq_dec n 0) as [->|]; [simpl; lia|]. pose proof (Z.log2_spec n ltac:(lia)). pose proof (Z.log2_nonneg n).
    replace (Z.of_nat (S (Z.to_nat (Z.log2 n)))) with (Z.succ (Z.log2 n)) by lia. lia. }
  rewrite app_nil_r. pose proof (f_equal length Hk) as Hl.
  rewrite hex_width_length, length_app, length_replicate in Hl.
  by replace (S w - length ds)%nat with k by lia.
Qed.

Lemma hex_digit_char d : 0 <= d < 16 -> hex_digit (hex_char d) = Some d.
Proof.
  intros Hd. unfold hex_char, hex_digit.
  repeat match goal with |- context [?a <? ?b] => destruct (Z.ltb_spec a b) end;
  repeat match goal with |- context [?a <=? ?b] => destruct (Z.leb_spec a b) end; cbn [andb]; try lia; f_equal; lia.
Qed.

Lemma hex_char_dash d : 0 <= d < 16 -> hex_char d <> 45.
Proof. unfold hex_char. destruct (d <? 10) eqn:E; lia. Qed.

Lemma hex_width_dashless w : forall n, Forall (fun c => c <> 45) (hex_width w n).
Proof.
  induction w as [|w IH]; intros n; [constructor|]. cbn. apply Forall_app. split; [apply IH|].
  repeat constructor. apply hex_char_dash, Z.mod_pos_bound. lia.
Qed.

(** Pairs of digits are the bytes, most significant first. *)
Lemma hex_width_bytes k : forall n, hex_width (2 * k) n = concat (map (hex_width 2) (be_bytes k n)).
Proof.
  induction k as [|k IH]; intros n; [done|]. replace (2 * S k)%nat with (S (S (2 * k))) by lia.
  cbn [hex_width]. rewrite <- app_assoc. unfold be_bytes. cbn [le_bytes rev]. fold (be_bytes k (Z.shiftr n 8)).
  rewrite map_app, concat_app, <- IH. rewrite Z.div_div by lia. rewrite Z.shiftr_div_pow2 by lia. f_equal.
  cbn [map concat hex_width app]. unfold to_byte, wrap.
  replace ((n mod 2 ^ 8) / 16 mod 16) with (n / 16 mod 16) by zlia.
  replace (n mod 2 ^ 8 mod 16) with (n mod 16) by zlia. done.
Qed.

Lemma scan_hex2_width b : is_byte b -> scan_hex2 (hex_width 2 b) = b.
Proof.
  intros Hb. unfold is_byte in Hb. cbn [hex_width app scan_hex2].
  rewrite !hex_digit_char by (apply Z.mod_pos_bound; lia). zlia.
Qed.

Lemma slice_pairs bs : forall i b, bs !! i = Some b ->
  slice (concat (map (hex_width 2) bs)) (i * 2) (i * 2 + 2) = hex_width 2 b.
Proof.
  unfold slice. induction bs as [|b0 bs IH]; intros i b Hi; [done|].
  destruct i as [|i]; cbn in Hi.
  - injection Hi as ->. done.
  - rewrite <- (IH i b Hi). cbn [map concat].
    replace (S i * 2)%nat with (length (hex_width 2 b0) + i * 2)%nat by (rewrite hex_width_length; lia).
    rewrite drop_app_add. f_equal.
Qed.

Lemma pairs_length bs : length (concat (map (hex_width 2) bs)) = (2 * length bs)%nat.
Proof.
  induction bs as [|b bs IH]; [done|]. cbn [map concat]. rewrite length_app, hex_width_length, IH. simpl. lia.
Qed.

Lemma uuidStringToBytes_spec s bs :
  filter (fun c => c <> 45) s = concat (map (hex_width 2) bs) -> length bs = 16%nat -> Forall is_byte bs ->
  uuidStringToBytes s = bs.
Proof.
  intros Hs Hl Hb. unfold uuidStringToBytes. rewrite Hs, pairs_length, Hl.
  apply list_eq. intros i. rewrite list_lookup_fmap.
  destruct (decide (i < 16)%nat) as [Hi|Hi].
  - rewrite lookup_seq_lt by lia. cbn [fmap option_fmap option_map]. rewrite Nat.add_0_l.
    rewrite (proj2 (Nat.ltb_lt (i * 2 + 1) (2 * 16))) by lia.
    destruct (bs !! i) as [b|] eqn:E; [|apply lookup_ge_None in E; lia].
    rewrite (slice_pairs bs i b E), scan_hex2_width; [done|]. by eapply Forall_lookup_1.
  - rewrite lookup_seq_ge by lia. symmetry. apply lookup_ge_None. lia.
Qed.

Lemma filter_dashless (l : bytes) : Forall (fun c => c <> 45) l -> filter (fun c => c <> 45) l = l.
Proof.
  induction 1 as [|c l Hc Hl IH]; [done|]. rewrite filter_cons_True by done. by rewrite IH.
Qed.

Lemma land_mask z k : 0 <= k -> in_width k (Z.land z (Z.ones k)) /\ Z.land z (Z.ones k) = wrap k z.
Proof. intros Hk. rewrite Z.land_ones by lia. split; [|done]. apply wrap_range. lia. Qed.

Lemma hex_pad_bytes k n :
  (0 < k)%nat -> in_width (8 * Z.of_nat k) n ->
  hex_pad (2 * k) n = concat (map (hex_width 2) (be_bytes k n)) /\
  filter (fun c => c <> 45) (hex_pad (2 * k) n) = hex_pad (2 * k) n /\ length (hex_pad (2 * k) n) = (2 * k)%nat.
Proof.
  intros Hk Hn. rewrite <- hex_width_bytes. destruct (2 * k)%nat as [|w] eqn:E; [lia|].
  assert (hex_pad (S w) n = hex_width (S w) n) as ->.
  { apply hex_pad_width. unfold in_width in Hn. replace (16 ^ Z.of_nat (S w)) with (2 ^ (8 * Z.of_nat k)); [done|].
    change 16 with (2 ^ 4). rewrite <- Z.pow_mul_r by lia. f_equal. lia. }
  split_and!; [done|apply filter_dashless, hex_width_dashless|apply hex_width_length].
Qed.

(** the server UUID survives the trip through its text.  Whatever the five
    clock readings, the generated text has 36 characters, [uuidStringToBytes]
    recovers from it exactly the 16 bytes that were printed, and they carry the
    version and variant bits of a version-4 UUID. *)
Theorem uuid_roundtrip t1 t2 t3 t4 t5 :
  let bs := be_bytes 4 (wrap 32 t1) ++ be_bytes 2 (wrap 16 (Z.shiftr t2 32)) ++
            be_bytes 2 (16384 + wrap 12 (Z.shiftr t3 48)) ++ be_bytes 2 (32768 + wrap 14 (Z.shiftr t4 60)) ++
            be_bytes 6 (wrap 48 t5) in
  length (generateUUID t1 t2 t3 t4 t5) = 36%nat /\
  uuidStringToBytes (generateUUID t1 t2 t3 t4 t5) = bs /\
  Z.shiftr (nth 6 bs 0) 4 = 4 /\ Z.shiftr (nth 8 bs 0) 6 = 2.
Proof.
  intros bs. unfold generateUUID.
  change 4294967295 with (Z.ones 32). change 65535 with (Z.ones 16). change 4095 with (Z.ones 12).
  change 16383 with (Z.ones 14). change 281474976710655 with (Z.ones 48).
  destruct (land_mask t1 32) as [H1 ->]; [lia|]. destruct (land_mask (Z.shiftr t2 32) 16) as [H2 ->]; [lia|].
  destruct (land_mask (Z.shiftr t3 48) 12) as [H3 ->]; [lia|].
  destruct (land_mask (Z.shiftr t4 60) 14) as [H4 ->]; [lia|]. destruct (land_mask t5 48) as [H5 ->]; [lia|].
  pose proof (wrap_range 32 t1 ltac:(lia)) as W1. pose proof (wrap_range 16 (Z.shiftr t2 32) ltac:(lia)) as W2.
  pose proof (wrap_range 12 (Z.shiftr t3 48) ltac:(lia)) as W3.
  pose proof (wrap_range 14 (Z.shiftr t4 60) ltac:(lia)) as W4. pose proof (wrap_range 48 t5 ltac:(lia)) as W5.
  change 16384 with (Z.shiftl 4 12) at 1 2. change 32768 with (Z.shiftl 2 14) at 1 2.
  rewrite !lor_shiftl_add by (unfold in_width in *; lia).
  change (4 * 2 ^ 12) with 16384. change (2 * 2 ^ 14) with 32768.
  unfold in_width in W3, W4.
  destruct (hex_pad_bytes 4 (wrap 32 t1)) as (E1 & F1 & L1); [lia|done|].
  destruct (hex_pad_bytes 2 (wrap 16 (Z.shiftr t2 32))) as (E2 & F2 & L2); [lia|done|].
  destruct (hex_pad_bytes 2 (16384 + wrap 12 (Z.shiftr t3 48))) as (E3 & F3 & L3); [lia|unfold in_width; simpl; lia|].
  destruct (hex_pad_bytes 2 (32768 + wrap 14 (Z.shiftr t4 60))) as (E4 & F4 & L4); [lia|unfold in_width; simpl; lia|].
  destruct (hex_pad_bytes 6 (wrap 48 t5)) as (E5 & F5 & L5); [lia|done|].
  cbn [Nat.mul Nat.add] in *. split_and!.
  - rewrite !length_app, L1, L2, L3, L4, L5. done.
  - apply uuidStringToBytes_spec.
    + rewrite !filter_app, F1, F2, F3, F4, F5, E1, E2, E3, E4, E5.
      unfold bs. rewrite !map_app, !concat_app. done.
    + done.
    + unfold bs. rewrite !Forall_app. split_and!; apply be_bytes_is_byte.
  - unfold bs. cbn [be_bytes le_bytes rev app nth]. unfold to_byte, wrap in *.
    rewrite !Z.shiftr_div_pow2 in * by lia. zlia.
  - unfold bs. cbn [be_bytes le_bytes rev app nth]. unfold to_byte, wrap in *.
    rewrite !Z.shiftr_div_pow2 in * by lia. zlia.
Qed.

(** ** The hand-built events *)

Definition fde_payload (now : Z) : bytes :=
  [4; 0] ++ (str "8.0.11-aproxy" ++ make_bytes 37) ++ le_bytes 4 (now / second) ++ [19] ++ postHeaderLengths ++ [1].

Lemma format_description_layout now s :
  format_description_event now s =
  Ok (le_bytes 4 (now / second) ++ [FORMAT_DESCRIPTION_EVENT] ++ le_bytes 4 (serverID s) ++ le_bytes 4 121 ++
      le_bytes 4 125 ++ [0; 0] ++ fde_payload now ++ [0; 0; 0; 0]).
Proof.
  assert (forall ts, [to_byte ts; to_byte (Z.shiftr ts 8); to_byte (Z.shiftr ts 16); to_byte (Z.shiftr ts 24)]
    = le_bytes 4 ts) as Hle by (intros; cbn [le_bytes]; by rewrite !Z.shiftr_shiftr by lia).
  unfold format_description_event. rewrite make_bytes_nil, copy_at_zeros by (simpl; lia). cbn [rbind].
  cbv zeta. rewrite Hle, le_bytes_wrap by lia.
  change (replicate _ 0) with (make_bytes 37). cbn [app].
  change (4 :: 0 :: ?x) with ([4; 0] ++ x).
  match goal with |- context [copy_at 19 ?p _] => change p with (fde_payload now) end.
  assert (length (fde_payload now) = 98%nat) as Hl by reflexivity.
  rewrite Hl. change (wrap 32 (Z.of_nat (19 + 98 + 4))) with 121. change (wrap 32 (4 + 121)) with 125.
  change (Z.to_nat 121) with 121%nat. fill. rewrite <- !app_assoc. reflexivity.
Qed.

Lemma read_frame_layout ts ty sid pos payload crc :
  in_width 32 ts -> in_width 8 ty -> in_width 32 sid -> in_width 32 pos -> in_width 32 crc ->
  let size := Z.of_nat (length payload) + 23 in
  in_width 32 size ->
  read_frame (le_bytes 4 ts ++ [ty] ++ le_bytes 4 sid ++ le_bytes 4 size ++ le_bytes 4 pos ++ [0; 0] ++ payload
              ++ le_bytes 4 crc) = Some (mkFrame ts ty sid size pos 0 payload crc).
Proof.
  intros H1 H2 H3 H4 H5 size H6. unfold read_frame.
  assert ([ty] = le_bytes 1 ty) as -> by (cbn [le_bytes]; by rewrite to_byte_id).
  change [0; 0] with (le_bytes 2 0).
  rewrite rd_le_app by done. cbn -[rd_le rd_take app le_bytes].
  do 5 (rewrite rd_le_app by (done || unfold in_width; lia); cbn -[rd_le rd_take app le_bytes]).
  rewrite rd_take_app by (subst size; lia). cbn -[rd_le app le_bytes].
  rewrite <- (app_nil_r (le_bytes 4 crc)), rd_le_app by done. reflexivity.
Qed.

(** the format description and heartbeat events.  Both are framed as a
    replica expects: type, server id, and a size field that is the event's
    length; the format description announces binlog version 4, 19-byte headers
    and CRC-32 checksums, and the heartbeat carries the current position.  Yet
    their own checksum field is always zero, which is not their CRC-32. *)
Theorem control_events_framed now s (Hs : server_ok s) (Hnow : in_width 32 (now / second)) :
  exists fde hb,
    format_description_event now s = Ok fde /\ heartbeat_event now s = Ok hb /\
    read_frame fde = Some (mkFrame (now / second) FORMAT_DESCRIPTION_EVENT (serverID s)
      (Z.of_nat (length fde)) 125 0 (fde_payload now) 0) /\
    read_frame hb = Some (mkFrame (now / second) HEARTBEAT_EVENT (serverID s)
      (Z.of_nat (length hb)) (pos_Pos s) 0 [] 0) /\
    (take 2 (fde_payload now), nth 56 (fde_payload now) 0, last (fde_payload now)) = ([4; 0], 19, Some 1).
Proof.
  destruct Hs as [Hi Hp]. eexists _, _.
  split; [apply format_description_layout|]. split; [apply heartbeat_event_layout|].
  split_and!; [| |reflexivity].
  - assert (length (fde_payload now) = 98%nat) as Hl by reflexivity.
    change [0; 0; 0; 0] with (le_bytes 4 0). change 121 with (Z.of_nat 98 + 23). rewrite <- Hl.
    rewrite read_frame_layout by (done || rewrite ?Hl; unfold in_width, FORMAT_DESCRIPTION_EVENT; simpl; lia).
    reflexivity.
  - change [0; 0; 0; 0] with ([] ++ le_bytes 4 0). change 23 with (Z.of_nat (length (@nil Z)) + 23).
    rewrite read_frame_layout by (done || unfold in_width, HEARTBEAT_EVENT; simpl; lia). reflexivity.
Qed.

Lemma control_events_framed_witness :
  exists fde hb,
    format_description_event 0 demo_server = Ok fde /\ heartbeat_event 0 demo_server = Ok hb /\
    f_checksum <$> read_frame fde = Some 0 /\ ChecksumIEEE (take 117 fde) <> 0 /\
    f_checksum <$> read_frame hb = Some 0 /\ ChecksumIEEE (take 19 hb) <> 0.
Proof.
  destruct (control_events_framed 0 demo_server) as (fde & hb & Hf & Hh & Rf & Rh & _);
    [unfold server_ok, in_width; simpl; lia|cbv; split; [congruence|reflexivity]|].
  exists fde, hb. rewrite Rf, Rh.
  pose proof Hf as Ef. pose proof Hh as Eh. vm_compute in Ef, Eh. injection Ef as <-. injection Eh as <-.
  split_and!; [exact Hf|exact Hh|reflexivity|vm_compute; discriminate|reflexivity|vm_compute; discriminate].
Defined.
