(* ===== verification/ServerWire.v ===== *)
(** * Replicas and the goroutines that write to them

    [pkg/replication/server.go]: two goroutines write to the connection of a
    replica.  The event processor broadcasts the events of a change to every
    client; it holds [s.mu] and a read lock of [clientsMu] while it does.  The
    goroutine of the COM_BINLOG_DUMP command registers the client, sends the
    format description event, and then (as [streamToClient]) a heartbeat at
    every tick.  A packet's number is taken under [client.mu], the packet is
    written outside it, so the steps of the two interleave in between.

    A state has the server and what each goroutine still has to send; a move is
    a step of one goroutine between two points where another may run.  A write
    that never returns, and [Stop], are not among the moves. *)

From Stdlib Require Import ZArith Lia.
From stdpp Require Import base numbers list strings gmap.
From S2P Require Import Prelude GoStd BinlogValue ValueFacts BinlogEvent EventFacts ReplServer ServerFacts.
Open Scope Z_scope.

(** A packet whose number was taken: its client, the number and the event. *)
Definition pending := (Z * (Z * bytes))%type.

(** The processor at work on a change: the events it has not yet numbered, in
    the order of the loops, a packet it has not yet written, and the number of
    events. *)
Record job := mkJob { j_todo : list (Z * bytes); j_pending : option pending; j_events : nat }.

(** The goroutine of a dump: the events it is about to send, a packet it has
    not yet written, and whether a write failed. *)
Record stream := mkStream { s_todo : list bytes; s_pending : option (Z * bytes); s_failed : bool }.

Record Wire := mkWire { w_server : Server; w_job : option job; w_streams : gmap Z stream }.

Inductive writer := Processor | Dumper (clientID : Z).

(** [Process]: the event processor takes a change, with the order in which it
    will range over the clients.  [Connect]: a dump registers its client.
    [Beat]: a heartbeat is due.  [Number] and [Write]: the two halves of
    [sendBinlogPacketToClient].  [Finish]: the broadcast is over.  [Leave]:
    [streamToClient] returns. *)
Inductive move :=
| Process (now : Z) (event : ChangeEvent) (order : list Z)
| Connect (now slave : Z) (pos : bytes * Z)
| Beat (now clientID : Z)
| Number (w : writer)
| Write (w : writer)
| Finish
| Leave (clientID : Z).

Section wire.
Context `{LenEnc}.
Variable fmt_v : GoValue -> bytes.
Variable write_fails : Z -> nat -> bool.

(** What is sent of the events of a change: those that can be encoded. *)
Fixpoint encodable (evs : list BinlogEvent) : list bytes :=
  match evs with
  | [] => []
  | e :: evs' =>
      match encodeBinlogEvent fmt_v e with
      | Ok d => d :: encodable evs'
      | Err _ => encodable evs'
      | Panic => []
      end
  end.

Definition encodes (evs : list BinlogEvent) : bool :=
  forallb (fun e => negb (is_panic (encodeBinlogEvent fmt_v e))) evs.

(** [None]: the move is not possible in this state (a lock is held, or the
    goroutine is at another point), or it ends the process by a panic. *)
Definition wstep (m : move) (w : Wire) : option Wire :=
  let s := w_server w in
  match m with
  | Process now event order =>
      match w_job w, convertToMySQLEvents now event s with
      | None, (Ok evs, s1) =>
          if bool_decide (NoDup order /\ list_to_set order = dom (clients s1)) && encodes evs
          then Some (mkWire s1 (Some (mkJob (order ≫= fun id => pair id <$> encodable evs) None (length evs))) (w_streams w))
          else None
      | _, _ => None
      end
  | Finish =>
      match w_job w with
      | Some (mkJob [] None n) => Some (mkWire (advance n s) None (w_streams w))
      | _ => None
      end
  | Connect now slave pos =>
      match w_job w with
      | None =>
          let (c, s1) := register_client slave pos s in
          match format_description_event now s1 with
          | Ok event => Some (mkWire s1 None (<[cl_ID c := mkStream [event] None false]> (w_streams w)))
          | _ => None
          end
      | Some _ => None
      end
  | Beat now id =>
      match w_streams w !! id, heartbeat_event now s with
      | Some (mkStream [] None false), Ok event =>
          Some (mkWire s (w_job w) (<[id := mkStream [event] None false]> (w_streams w)))
      | _, _ => None
      end
  | Leave id =>
      match w_job w, w_streams w !! id with
      | None, Some (mkStream [] None _) => Some (mkWire (snd (stream_ends id s)) None (delete id (w_streams w)))
      | _, _ => None
      end
  | Number Processor =>
      match w_job w with
      | Some (mkJob ((id, event) :: rest) None n) =>
          c ← clients s !! id;
          let (seq, c) := take_number c in
          Some (mkWire (set_clients (<[id := c]> (clients s)) s) (Some (mkJob rest (Some (id, (seq, event))) n)) (w_streams w))
      | _ => None
      end
  | Number (Dumper id) =>
      match w_streams w !! id with
      | Some (mkStream (event :: rest) None false) =>
          c ← clients s !! id;
          let (seq, c) := take_number c in
          Some (mkWire (set_clients (<[id := c]> (clients s)) s) (w_job w)
                  (<[id := mkStream rest (Some (seq, event)) false]> (w_streams w)))
      | _ => None
      end
  | Write Processor =>
      match w_job w with
      | Some (mkJob rest (Some (id, (seq, event))) n) =>
          c ← clients s !! id;
          let c := match write_packet write_fails seq event c with (Ok _, c) => count_sent c | (_, c) => c end in
          Some (mkWire (set_clients (<[id := c]> (clients s)) s) (Some (mkJob rest None n)) (w_streams w))
      | _ => None
      end
  | Write (Dumper id) =>
      match w_streams w !! id with
      | Some (mkStream rest (Some (seq, event)) false) =>
          c ← clients s !! id;
          let (r, c) := write_packet write_fails seq event c in
          let st := match r with Ok _ => mkStream rest None false | _ => mkStream [] None true end in
          Some (mkWire (set_clients (<[id := c]> (clients s)) s) (w_job w) (<[id := st]> (w_streams w)))
      | _ => None
      end
  end.

Fixpoint wrun (ms : list move) (w : Wire) : option Wire :=
  match ms with
  | [] => Some w
  | m :: ms => wstep m w ≫= wrun ms
  end.

(** * Properties *)

#[local] Arguments packet_of : simpl never.
#[local] Arguments format_description_event : simpl never.

(** A replica's reading of the bytes of its connection: sequence number and
    event of each packet.  A packet is at least five bytes long, so [length l]
    is enough fuel. *)
Fixpoint read_packets (fuel : nat) (l : bytes) : option (list (Z * bytes)) :=
  match l, fuel with
  | [], _ => Some []
  | _, O => None
  | _, S fuel' =>
      '(n, r) ← rd_le 3 l; '(sq, r) ← rd_le 1 r; '(body, r) ← rd_take (Z.to_nat n) r;
      match body with
      | 0 :: data => rest ← read_packets fuel' r; Some ((sq, data) :: rest)
      | _ => None
      end
  end.

Definition packet_small (data : bytes) : Prop := Z.of_nat (length data) + 1 < 2 ^ 24.

Lemma packet_layout sq data :
  packet_of sq data = le_bytes 3 (Z.of_nat (length data) + 1) ++ [sq] ++ 0 :: data.
Proof.
  unfold packet_of. change [?a; ?b; ?c; sq; 0] with ([a; b; c] ++ [sq; 0]).
  rewrite le3_bytes, le_bytes_wrap, <- app_assoc by lia. done.
Qed.

Lemma read_packets_concat log : forall fuel,
  Forall (fun p => is_byte p.1 /\ packet_small p.2) log -> (length log <= fuel)%nat ->
  read_packets fuel (concat (map (fun p => packet_of p.1 p.2) log)) = Some log.
Proof.
  induction log as [|[sq d] log IH]; intros fuel Hok Hf; [by destruct fuel|].
  apply Forall_cons in Hok as [[Hb Hs] Hok]. cbn [fst snd] in Hb, Hs. destruct fuel as [|fuel]; [simpl in Hf; lia|].
  cbn [map concat fst snd]. rewrite packet_layout, <- !app_assoc. unfold packet_small in Hs.
  cbn [read_packets]. destruct (le_bytes 3 _ ++ _) eqn:E; [by apply app_eq_nil in E as [? ?]|]. rewrite <- E.
  rewrite rd_le_app by (unfold in_width; simpl; lia). cbn [mbind option_bind].
  assert ([sq] = le_bytes 1 sq) as -> by (cbn [le_bytes]; by rewrite to_byte_id).
  rewrite rd_le_app by exact Hb. cbn [mbind option_bind].
  rewrite rd_take_app by (cbn [length]; lia). cbn [mbind option_bind].
  rewrite IH by (done || simpl in Hf; lia). done.
Qed.

Lemma packets_length (log : list (Z * bytes)) :
  (length log <= length (concat (map (fun p => packet_of p.1 p.2) log)))%nat.
Proof.
  induction log as [|p log IH]; [done|]. cbn [map concat length]. rewrite length_app.
  assert (1 <= length (packet_of p.1 p.2))%nat by (rewrite packet_layout, !length_app, le_bytes_length; lia). lia.
Qed.

(** ** What a client has to be sent *)

(** The events of the changes that are processed, and the heartbeats of client
    [id]. *)
Definition change_feed (w : Wire) (m : move) : list bytes :=
  match m with
  | Process now event _ =>
      match convertToMySQLEvents now event (w_server w) with (Ok evs, _) => encodable evs | _ => [] end
  | _ => []
  end.
Definition beat_feed (id : Z) (w : Wire) (m : move) : list bytes :=
  match m with
  | Beat now id' => if id' =? id then match heartbeat_event now (w_server w) with Ok e => [e] | _ => [] end else []
  | _ => []
  end.
Fixpoint feeds (feed : Wire -> move -> list bytes) (ms : list move) (w : Wire) : list bytes :=
  match ms with
  | [] => []
  | m :: ms => feed w m ++ match wstep m w with Some w' => feeds feed ms w' | None => [] end
  end.

(** Events with the writer they belong to ([true]: the event processor). *)
Definition part {A} (b : bool) (l : list (bool * A)) : list A := snd <$> filter (fun p => p.1 = b) l.

(** The numbers the events get, in the order in which they are numbered. *)
Definition numbered (evs : list (bool * bytes)) : list (bool * (Z * bytes)) :=
  imap (fun i p => (p.1, (wrap 8 (1 + Z.of_nat i), p.2))) evs.

(** What the two writers still have for client [id]. *)
Definition job_todo (id : Z) (j : option job) : list bytes :=
  match j with Some j => snd <$> filter (fun p => p.1 = id) (j_todo j) | None => [] end.
Definition job_pending (id : Z) (j : option job) : list (Z * bytes) :=
  match j with
  | Some (mkJob _ (Some (id', p)) _) => if id' =? id then [p] else []
  | _ => []
  end.
Definition stream_pending (st : stream) : list (Z * bytes) :=
  match s_pending st with Some p => [p] | None => [] end.

Lemma part_app {A} b (l k : list (bool * A)) : part b (l ++ k) = part b l ++ part b k.
Proof. unfold part. by rewrite filter_app, fmap_app. Qed.
Lemma part_one {A} b b' (x : A) : part b [(b', x)] = if eqb b' b then [x] else [].
Proof. by destruct b, b'. Qed.
Lemma numbered_snoc l p : numbered (l ++ [p]) = numbered l ++ [(p.1, (wrap 8 (1 + Z.of_nat (length l)), p.2))].
Proof. unfold numbered. rewrite imap_app. cbn. by rewrite Nat.add_0_r. Qed.
Lemma next_number n : wrap 8 (wrap 8 (1 + Z.of_nat n) + 1) = wrap 8 (1 + Z.of_nat (n + 1)).
Proof. unfold wrap. rewrite Z.add_mod_idemp_l by lia. f_equal. lia. Qed.

(** Both parts together are the whole. *)
Lemma parts_perm {A} (l : list (bool * A)) : l.*2 ≡ₚ part true l ++ part false l.
Proof.
  induction l as [|[[] x] l IH]; [done| |]; unfold part in *; rewrite fmap_cons, IH.
  - by rewrite filter_cons_True, filter_cons_False by done.
  - rewrite filter_cons_False, filter_cons_True by done. cbn [fmap list_fmap snd]. by rewrite Permutation_middle.
Qed.

(** The part of the broadcast that is for one client. *)
Lemma broadcast_none (id : Z) (ds : list bytes) order : id ∉ order ->
  filter (fun p => p.1 = id) (order ≫= fun i => pair i <$> ds) = [].
Proof.
  intros Hn. apply elem_of_nil_inv. intros p [<- Hp]%list_elem_of_filter.
  apply list_elem_of_bind in Hp as (i & Hp & Hi). apply list_elem_of_fmap in Hp as (d & -> & _). by cbn in Hn.
Qed.
Lemma broadcast_part (id : Z) (ds : list bytes) order : NoDup order -> id ∈ order ->
  snd <$> filter (fun p => p.1 = id) (order ≫= fun i => pair i <$> ds) = ds.
Proof.
  induction 1 as [|i order Hi Hnd IH]; [by intros ?%elem_of_nil|]. cbn. rewrite filter_app, fmap_app.
  intros [->|Hin]%elem_of_cons.
  - rewrite broadcast_none, app_nil_r by done. clear IH. induction ds as [|d ds IHd]; [done|].
    rewrite fmap_cons, filter_cons_True by done. cbn [fmap list_fmap snd]. f_equal. exact IHd.
  - rewrite IH by done. assert (i <> id) by (by intros ->).
    assert (filter (fun p => p.1 = id) (pair i <$> ds) = []) as ->; [|done].
    clear IH. induction ds as [|d ds IHd]; [done|]. rewrite fmap_cons. by rewrite filter_cons_False.
Qed.

Lemma convert_keeps_clients now ev s r s1 :
  convertToMySQLEvents now ev s = (r, s1) -> clients s1 = clients s /\ nextClientID s1 = nextClientID s.
Proof. unfold convertToMySQLEvents. destruct (ce_Type ev); intros [= _ <-]; done. Qed.

(** ** The invariant of a client *)

(** The client was given the events [E] of the processor and [B] of its own
    goroutine.  [nums] are the events in the order of their numbers, [outs]
    those on the wire. *)
Definition delivered (id : Z) (E B : list bytes) (w : Wire) : Prop :=
  exists c st nums outs,
    clients (w_server w) !! id = Some c /\ cl_ID c = id /\ w_streams w !! id = Some st /\ s_failed st = false
    /\ part true nums ++ job_todo id (w_job w) = E /\ part false nums ++ s_todo st = B
    /\ seqNum c = wrap 8 (1 + Z.of_nat (length nums))
    /\ sent c = (fun p => packet_of p.1 p.2) <$> outs.*2
    /\ part true outs ++ job_pending id (w_job w) = part true (numbered nums)
    /\ part false outs ++ stream_pending st = part false (numbered nums).

(** What may change without the client noticing. *)
Lemma delivered_same id E B w w' :
  clients (w_server w') !! id = clients (w_server w) !! id -> w_streams w' !! id = w_streams w !! id ->
  job_todo id (w_job w') = job_todo id (w_job w) -> job_pending id (w_job w') = job_pending id (w_job w) ->
  delivered id E B w -> delivered id E B w'.
Proof. intros Hc Hs Ht Hp. unfold delivered. by rewrite Hc, Hs, Ht, Hp. Qed.

(** A client whose writes succeed gets its packet on the wire. *)
Lemma write_packet_ok seq d c : write_fails (cl_ID c) (attempts c) = false ->
  write_packet write_fails seq d c =
  (Ok tt, mkClient (cl_ID c) (cl_ServerID c) (cl_Position c) (EventsSent c) (seqNum c)
            (sent c ++ [packet_of seq d]) (S (attempts c))).
Proof. intros Hw. unfold write_packet. by rewrite Hw. Qed.

Lemma sent_snoc (outs : list (bool * (Z * bytes))) b seq d :
  ((fun p => packet_of p.1 p.2) <$> outs.*2) ++ [packet_of seq d]
  = (fun p => packet_of p.1 p.2) <$> (outs ++ [(b, (seq, d))]).*2.
Proof. by rewrite !fmap_app. Qed.

Section one_client.
Context (id : Z) (Hw : forall i, write_fails id i = false) (E B : list bytes) (w : Wire).
Hypothesis Hd : delivered id E B w.

Lemma number_processor w' : wstep (Number Processor) w = Some w' -> delivered id E B w'.
Proof.
  cbn. destruct (w_job w) as [[[|[id' d] rest] [p|] n]|] eqn:Ej; try done.
  destruct (decide (id' = id)) as [->|Hne].
  - destruct Hd as (c & st & nums & outs & Hc & Hid & Hs & Hf & HE & HB & Hn & Hsent & Ho1 & Ho2). rewrite Hc. cbn.
    intros [= <-]. eexists _, st, (nums ++ [(true, d)]), outs. cbn. rewrite lookup_insert_eq.
    rewrite numbered_snoc, !part_app, !part_one. cbn [eqb fst snd]. rewrite app_nil_r.
    split_and!; try done.
    + rewrite <- HE, Ej. unfold job_todo. cbn [j_todo]. rewrite filter_cons_True by done. cbn. by rewrite <- app_assoc.
    + cbn. rewrite Hn, length_app. apply next_number.
    + rewrite Ej in Ho1. cbn in Ho1. rewrite app_nil_r in Ho1. rewrite Ho1, Z.eqb_refl, Hn. done.
    + by rewrite app_nil_r.
  - destruct (clients (w_server w) !! id') as [c'|]; [|done]. cbn. intros [= <-].
    eapply delivered_same; [..|exact Hd]; cbn; [by apply lookup_insert_ne|done| |].
    + rewrite Ej. unfold job_todo. cbn [j_todo]. by rewrite filter_cons_False.
    + rewrite Ej. cbn. by destruct (Z.eqb_spec id' id).
Qed.

Lemma write_processor w' : wstep (Write Processor) w = Some w' -> delivered id E B w'.
Proof.
  cbn. destruct (w_job w) as [[rest [[id' [seq d]]|] n]|] eqn:Ej; try done.
  destruct (decide (id' = id)) as [->|Hne].
  - destruct Hd as (c & st & nums & outs & Hc & Hid & Hs & Hf & HE & HB & Hn & Hsent & Ho1 & Ho2). rewrite Hc. cbn.
    rewrite write_packet_ok by (by rewrite Hid). intros [= <-].
    eexists _, st, nums, (outs ++ [(true, (seq, d))]). cbn. rewrite lookup_insert_eq, !part_app, !part_one. cbn [eqb].
    split_and!; try done.
    + by rewrite <- HE, Ej.
    + cbn. by rewrite Hsent, (sent_snoc outs true).
    + rewrite <- Ho1, Ej. cbn. by rewrite Z.eqb_refl, app_nil_r.
    + by rewrite app_nil_r.
  - destruct (clients (w_server w) !! id') as [c'|]; [|done]. cbn. intros [= <-].
    eapply delivered_same; [..|exact Hd]; cbn; [by apply lookup_insert_ne|done|by rewrite Ej|].
    rewrite Ej. cbn. by destruct (Z.eqb_spec id' id).
Qed.

Lemma number_dumper id' w' : wstep (Number (Dumper id')) w = Some w' -> delivered id E B w'.
Proof.
  cbn. destruct (w_streams w !! id') as [[[|d rest] [p|] []]|] eqn:Ej; try done.
  destruct (decide (id' = id)) as [->|Hne].
  - destruct Hd as (c & st & nums & outs & Hc & Hid & Hs & Hf & HE & HB & Hn & Hsent & Ho1 & Ho2). rewrite Hc. cbn.
    rewrite Hs in Ej. injection Ej as ->. intros [= <-].
    eexists _, _, (nums ++ [(false, d)]), outs. cbn. rewrite !lookup_insert_eq.
    rewrite numbered_snoc, !part_app, !part_one. cbn [eqb fst snd]. rewrite app_nil_r.
    split_and!; try done.
    + rewrite <- HB. cbn. by rewrite <- app_assoc.
    + cbn. rewrite Hn, length_app. apply next_number.
    + by rewrite app_nil_r.
    + cbn in Ho2. rewrite app_nil_r in Ho2. by rewrite Ho2, Hn.
  - destruct (clients (w_server w) !! id') as [c'|]; [|done]. cbn. intros [= <-].
    eapply delivered_same; [..|exact Hd]; cbn; [by apply lookup_insert_ne|by apply lookup_insert_ne|done|done].
Qed.

Lemma write_dumper id' w' : wstep (Write (Dumper id')) w = Some w' -> delivered id E B w'.
Proof.
  cbn. destruct (w_streams w !! id') as [[rest [[seq d]|] []]|] eqn:Ej; try done.
  destruct (decide (id' = id)) as [->|Hne].
  - destruct Hd as (c & st & nums & outs & Hc & Hid & Hs & Hf & HE & HB & Hn & Hsent & Ho1 & Ho2). rewrite Hc. cbn.
    rewrite Hs in Ej. injection Ej as ->. rewrite write_packet_ok by (by rewrite Hid). intros [= <-].
    eexists _, _, nums, (outs ++ [(false, (seq, d))]). cbn. rewrite !lookup_insert_eq, !part_app, !part_one. cbn [eqb].
    split_and!; try done.
    + cbn. by rewrite Hsent, (sent_snoc outs false).
    + by rewrite app_nil_r.
    + rewrite <- Ho2. cbn. by rewrite app_nil_r.
  - destruct (clients (w_server w) !! id') as [c'|]; [|done]. cbn.
    destruct (write_packet write_fails seq d c') as [r c2]. intros [= <-].
    eapply delivered_same; [..|exact Hd]; cbn; [by apply lookup_insert_ne|by apply lookup_insert_ne|done|done].
Qed.

Lemma process_delivers now event order w' : wstep (Process now event order) w = Some w' ->
  delivered id (E ++ change_feed w (Process now event order)) B w'.
Proof.
  cbn. destruct (w_job w) as [j|] eqn:Ej; [done|].
  destruct (convertToMySQLEvents now event (w_server w)) as [[evs|m|] s1] eqn:Ec; try done.
  apply convert_keeps_clients in Ec as [Ec _].
  destruct (bool_decide_reflect (NoDup order /\ list_to_set order = dom (clients s1))) as [[Hnd Hdom]|]; [|done].
  cbn [andb]. destruct (encodes evs); [|done]. intros [= <-].
  destruct Hd as (c & st & nums & outs & Hc & Hid & Hs & Hf & HE & HB & Hn & Hsent & Ho1 & Ho2).
  exists c, st, nums, outs. cbn. rewrite Ec. split_and!; try done.
  - rewrite Ej in HE. cbn in HE. rewrite app_nil_r in HE. rewrite HE. f_equal. apply broadcast_part; [done|].
    apply (elem_of_list_to_set (C := gset Z)). rewrite Hdom, Ec. apply elem_of_dom. by eexists.
  - by rewrite Ej in Ho1.
Qed.

Lemma beat_delivers now id' w' : wstep (Beat now id') w = Some w' ->
  delivered id E (B ++ beat_feed id w (Beat now id')) w'.
Proof.
  cbn. destruct (w_streams w !! id') as [[[|] [p|] []]|] eqn:Ej; try done.
  destruct (heartbeat_event now (w_server w)) as [d|m|] eqn:Eh; try done. intros [= <-].
  destruct (Z.eqb_spec id' id) as [->|Hne].
  - destruct Hd as (c & st & nums & outs & Hc & Hid & Hs & Hf & HE & HB & Hn & Hsent & Ho1 & Ho2).
    rewrite Hs in Ej. injection Ej as ->. eexists c, _, nums, outs. cbn. rewrite lookup_insert_eq.
    split_and!; try done. cbn in HB. rewrite app_nil_r in HB. by rewrite HB.
  - rewrite app_nil_r. eapply delivered_same; [..|exact Hd]; cbn; [done|by apply lookup_insert_ne|done|done].
Qed.
End one_client.

(** Ids are given out in order. *)
Lemma wstep_next m w w' : wstep m w = Some w' -> 0 <= nextClientID (w_server w) -> nextClientID (w_server w) + 1 < 2 ^ 32 ->
  nextClientID (w_server w) <= nextClientID (w_server w') <= nextClientID (w_server w) + 1.
Proof.
  intros Hs H0 H1.
  destruct m as [now ev order|now slave pos|now id|[|id]|[|id]| |id]; cbn in Hs; repeat case_match; simplify_option_eq;
    try (cbn; lia).
  all: try (match goal with E : convertToMySQLEvents _ _ _ = _ |- _ => apply convert_keeps_clients in E as [_ E] end; cbn; lia).
  - cbn. rewrite wrap_id by (unfold in_width; lia). lia.
  - destruct (write_packet _ _ _ _). injection Hs as <-. cbn. lia.
Qed.

Lemma wstep_delivered id m w w' E B : (forall i, write_fails id i = false) -> m <> Leave id ->
  0 <= id <= nextClientID (w_server w) -> nextClientID (w_server w) + 1 < 2 ^ 32 ->
  wstep m w = Some w' -> delivered id E B w ->
  delivered id (E ++ change_feed w m) (B ++ beat_feed id w m) w'.
Proof.
  intros Hw Hl Hn Hn' Hs Hd.
  destruct m as [now ev order|now slave pos|now id'|[|id']|[|id']| |id'];
    try change (change_feed w _) with (@nil bytes); try change (beat_feed id w _) with (@nil bytes);
    rewrite ?app_nil_r.
  - by eapply process_delivers.
  - cbn in Hs. destruct (w_job w) eqn:Ej; [done|]. destruct (format_description_event now _) as [d|?|]; try done.
    injection Hs as <-. assert (wrap 32 (nextClientID (w_server w) + 1) <> id)
      by (rewrite wrap_id by (unfold in_width; lia); lia).
    eapply delivered_same; [..|exact Hd]; cbn; [by apply lookup_insert_ne|by apply lookup_insert_ne|by rewrite Ej..].
  - by eapply beat_delivers.
  - by eapply number_processor.
  - by eapply number_dumper.
  - by eapply write_processor.
  - by eapply write_dumper.
  - cbn in Hs. destruct (w_job w) as [[[|] [p|] n]|] eqn:Ej; try done. injection Hs as <-.
    eapply delivered_same; [..|exact Hd]; cbn; [done|done|by rewrite Ej..].
  - cbn in Hs. destruct (w_job w) eqn:Ej; [done|]. destruct (w_streams w !! id') as [[[|] [p|] f]|]; try done.
    injection Hs as <-. assert (id' <> id) by congruence.
    eapply delivered_same; [..|exact Hd]; cbn; [by apply lookup_delete_ne|by apply lookup_delete_ne|by rewrite Ej..].
Qed.

Lemma wrun_delivered id ms : (forall i, write_fails id i = false) -> Forall (fun m => m <> Leave id) ms ->
  forall w w' E B, 0 <= id <= nextClientID (w_server w) -> nextClientID (w_server w) + Z.of_nat (length ms) < 2 ^ 32 ->
  wrun ms w = Some w' -> delivered id E B w ->
  delivered id (E ++ feeds change_feed ms w) (B ++ feeds (beat_feed id) ms w) w'.
Proof.
  intros Hw. induction 1 as [|m ms Hm _ IH]; intros w w' E B Hn Hroom.
  { cbn. intros [= <-]. by rewrite !app_nil_r. }
  cbn [wrun feeds length] in *. destruct (wstep m w) as [w1|] eqn:Es; [|done]. cbn. intros Hrun Hd.
  rewrite !(app_assoc _ (_ w m)). pose proof (wstep_next m w w1 Es ltac:(lia) ltac:(lia)).
  apply (IH w1 w'); [lia|lia|done|]. apply (wstep_delivered id m w); [done|done|lia|lia|done|done].
Qed.

(** The numbers on the wire are bytes. *)
Lemma part_elem {A} b (x : A) l : x ∈ part b l <-> (b, x) ∈ l.
Proof.
  unfold part. rewrite list_elem_of_fmap. split.
  - intros ([b' y] & -> & Hy). apply list_elem_of_filter in Hy as [Hb Hy]. cbn in Hb. by subst b'.
  - intros Hx. exists (b, x). split; [done|]. by apply list_elem_of_filter.
Qed.
Lemma numbered_byte p nums : p ∈ (numbered nums).*2 -> is_byte p.1.
Proof.
  intros ([b q] & -> & Hq)%list_elem_of_fmap. unfold numbered in Hq. apply list_elem_of_lookup_1 in Hq as [i Hi].
  rewrite list_lookup_imap in Hi. destruct (nums !! i); [|done]. injection Hi as _ <-. apply (wrap_range 8). lia.
Qed.
Lemma wire_reads outs nums p1 p2 :
  part true outs ++ p1 = part true (numbered nums) -> part false outs ++ p2 = part false (numbered nums) ->
  Forall (fun p => packet_small p.2) outs.*2 ->
  let wire := concat ((fun p => packet_of p.1 p.2) <$> outs.*2) in read_packets (length wire) wire = Some outs.*2.
Proof.
  intros H1 H2 Hsmall wire. apply read_packets_concat; [|apply packets_length]. apply Forall_forall. intros p Hp.
  split; [|by apply (proj1 (Forall_forall _ _) Hsmall)]. apply (numbered_byte p nums).
  apply list_elem_of_fmap in Hp as ([b q] & -> & Hq). apply part_elem in Hq. apply list_elem_of_fmap. exists (b, q).
  split; [done|]. apply part_elem. destruct b; [rewrite <- H1|rewrite <- H2]; apply elem_of_app; by left.
Qed.

(** A replica has just connected: its client is registered, nothing was sent
    yet, and the format description event [fde] is due. *)
Definition just_connected (id : Z) (fde : bytes) (w : Wire) : Prop :=
  exists now slave pos w0, 0 <= nextClientID (w_server w0) /\ nextClientID (w_server w0) + 1 < 2 ^ 32
    /\ id = nextClientID (w_server w0) + 1
    /\ format_description_event now (w_server w) = Ok fde /\ wstep (Connect now slave pos) w0 = Some w.

Lemma connected_delivered id fde w : just_connected id fde w -> delivered id [] [fde] w /\ id = nextClientID (w_server w) /\ 0 <= id.
Proof.
  intros (now & slave & pos & w0 & H0 & H1 & -> & Hf & Hs). unfold wstep in Hs. destruct (w_job w0) eqn:Ej; [done|].
  destruct (register_client slave pos (w_server w0)) as [c s1] eqn:Er.
  assert (s1 = w_server w) as -> by (destruct (format_description_event now s1); by simplify_eq/=).
  rewrite Hf in Hs. injection Hs as <-. unfold register_client in Er. injection Er as <- <-. cbn -[wrap].
  rewrite wrap_id by (unfold in_width; lia). split; [|lia].
  eexists _, _, [], []. cbn -[wrap]. rewrite wrap_id by (unfold in_width; lia). rewrite !lookup_insert_eq. by split_and!.
Qed.

(** C9: What reaches a replica, and in which order.  From the moment a replica
    has registered, however the event processor, its own goroutine and those
    of the others interleave, as long as its stream has not ended and its
    writes succeed: the events numbered by the processor are those of every
    change processed since, the others are the format description event and
    the heartbeats, each in their order, up to the ones still to come; the
    numbers follow the order in which they were taken, from 1 on modulo 256.
    On the wire the packets of each of the two are in this order, with these
    numbers, up to one that is numbered and not yet written; when nothing is
    under way every numbered packet is on the wire once.  Between the two the
    order of the wire need not be that of the numbers
    ([wire_overtakes_numbers]). *)
Theorem client_delivery ms w w' id fde :
  (forall i, write_fails id i = false) -> just_connected id fde w ->
  Forall (fun m => m <> Leave id) ms -> nextClientID (w_server w) + Z.of_nat (length ms) < 2 ^ 32 ->
  wrun ms w = Some w' ->
  exists c st nums outs,
    clients (w_server w') !! id = Some c /\ w_streams w' !! id = Some st
    /\ part true nums ++ job_todo id (w_job w') = feeds change_feed ms w
    /\ part false nums ++ s_todo st = fde :: feeds (beat_feed id) ms w
    /\ sent c = (fun p => packet_of p.1 p.2) <$> outs.*2
    /\ part true outs ++ job_pending id (w_job w') = part true (numbered nums)
    /\ part false outs ++ stream_pending st = part false (numbered nums)
    /\ (job_pending id (w_job w') = [] -> s_pending st = None -> outs.*2 ≡ₚ (numbered nums).*2)
    /\ (Forall (fun p => packet_small p.2) outs.*2 ->
          read_packets (length (concat (sent c))) (concat (sent c)) = Some outs.*2).
Proof.
  intros Hw Hj Hms Hroom Hrun. apply connected_delivered in Hj as (Hd & Hid & H0).
  destruct (wrun_delivered id ms Hw Hms w w' [] [fde]) as (c & st & nums & outs & Hc & _ & Hs & _ & HE & HB & _ & Hsent & Ho1 & Ho2);
    [lia|done|done|done|].
  exists c, st, nums, outs. split_and!; try done.
  - intros Hp Hq. unfold stream_pending in Ho2. rewrite Hp, Hq, !app_nil_r in *. by rewrite !parts_perm, Ho1, Ho2.
  - intros Hsmall. rewrite Hsent. apply (wire_reads outs nums (job_pending id (w_job w')) (stream_pending st)); done.
Qed.
End wire.

(** ** Runs *)

Section runs.
Abbreviation demo_run := (wrun (H := lenenc_mysql) (fun _ => []) (fun id _ => id =? 2)).

(** A replica connects to [demo_server] while nothing else happens. *)
Definition demo_connect : Wire :=
  default (mkWire demo_server None ∅) (demo_run [Connect 0 7 (str "mysql-bin.000001", 4)] (mkWire demo_server None ∅)).

(** The format description event, an UPDATE, then a heartbeat. *)
Definition demo_moves : list move :=
  [Number (Dumper 1); Write (Dumper 1); Process 0 demo_event [1]; Number Processor; Write Processor; Beat 0 1;
   Number Processor; Number (Dumper 1); Write (Dumper 1); Write Processor; Finish].

Lemma client_delivery_witness :
  exists w' c nums (outs : list (bool * (Z * bytes))), demo_run demo_moves demo_connect = Some w' /\ clients (w_server w') !! 1 = Some c
    /\ length (part true nums) = 2%nat /\ length (part false nums) = 2%nat /\ length (sent c) = 4%nat
    /\ outs.*2 ≡ₚ (numbered nums).*2.
Proof.
  destruct (demo_run demo_moves demo_connect) as [w'|] eqn:Ew; [|vm_compute in Ew; discriminate Ew].
  assert (exists fde, format_description_event 0 (w_server demo_connect) = Ok fde) as [fde Hf] by (vm_compute; by eexists).
  destruct (@client_delivery lenenc_mysql (fun _ => []) (fun id _ => id =? 2) demo_moves demo_connect w' 1 fde)
    as (c & st & nums & outs & Hc & Hs & HE & HB & Hsent & _ & _ & Hperm & _).
  - reflexivity.
  - exists 0, 7, (str "mysql-bin.000001", 4), (mkWire demo_server None ∅).
    split; [vm_compute; discriminate |]. split; [vm_compute; reflexivity |]. split; [vm_compute; reflexivity |].
    split; [exact Hf | vm_compute; reflexivity].
  - repeat (constructor; [discriminate |]). constructor.
  - vm_compute. reflexivity.
  - exact Ew.
  - exists w', c, nums, outs. split; [reflexivity |]. split; [exact Hc |].
    vm_compute in Ew. injection Ew as <-. cbn in Hs. injection Hs as <-. cbn [w_job job_todo s_todo] in HE, HB.
    rewrite app_nil_r in HE, HB. rewrite HE, HB.
    split; [vm_compute; reflexivity |]. split; [vm_compute; reflexivity |].
    split; [vm_compute in Hc; injection Hc as <-; vm_compute; reflexivity | by apply Hperm].
Defined.

(** The type of the event in a packet, and its number. *)
Definition packet_kind (p : bytes) : Z * Z := (default 0 (p !! 3%nat), default 0 (p !! 9%nat)).
Definition kinds_sent (ms : list move) : option (list (Z * Z)) :=
  w ← demo_run ms demo_connect; c ← clients (w_server w) !! 1; Some (packet_kind <$> sent c).

(** The number 2 goes out before the number 1: the goroutine of the dump took
    its number first and wrote second. *)
Lemma wire_overtakes_numbers :
  kinds_sent [Process 0 demo_event [1]; Number (Dumper 1); Number Processor; Write Processor; Write (Dumper 1)]
  = Some [(2, TABLE_MAP_EVENT); (1, FORMAT_DESCRIPTION_EVENT)].
Proof. vm_compute. reflexivity. Qed.

(** The client is registered before the format description event is sent, so a
    change that is processed in between reaches it first, with the first
    numbers. *)
Lemma event_before_description :
  kinds_sent [Process 0 demo_event [1]; Number Processor; Write Processor; Number Processor; Write Processor; Finish;
              Number (Dumper 1); Write (Dumper 1)]
  = Some [(1, TABLE_MAP_EVENT); (2, UPDATE_ROWS_EVENTv2); (3, FORMAT_DESCRIPTION_EVENT)].
Proof. vm_compute. reflexivity. Qed.
End runs.
