(* ===== verification/PGStreamer.v ===== *)
(** * The PostgreSQL logical replication streamer

    [pkg/replication/pg_streamer.go]: receives PostgreSQL's logical replication
    messages, turns them into change events for the server, keeps the position
    it has reached in a checkpoint file and reconnects when the stream breaks.

    The messages are parsed by pglogrepl, which is not part of the sources: its
    parsers are the operations of the class [LogRepl].  The outcome of the
    [n]-th call to PostgreSQL is [ext n], so that every sequence of failures is
    covered; what the event channel does with the [n]-th event is [chan n].
    Logging and metrics are left out. *)

From Stdlib Require Import ZArith Lia.
From stdpp Require Import base numbers list strings gmap.
From S2P Require Import Prelude GoStd GoFloat BinlogValue BinlogEvent ReplServer.
Open Scope Z_scope.

(** ** pglogrepl's messages *)

Record RelationColumn := mkRelCol { rc_Name : bytes; rc_DataType : Z }.

(** A tuple column is null ['n'], unchanged ['u'], text ['t'] or of another
    kind, with its data. *)
Record TupleColumn := mkTuple { tc_DataType : Z; tc_Data : bytes }.
Abbreviation TupleData := (list TupleColumn).

Inductive LogicalMessage :=
| RelationMessage (RelationID : Z) (Namespace RelationName : bytes) (Columns : list RelationColumn)
| InsertMessage (RelationID : Z) (Tuple : option TupleData)
| UpdateMessage (RelationID : Z) (OldTuple NewTuple : option TupleData)
| DeleteMessage (RelationID : Z) (OldTuple : option TupleData)
| TruncateMessage (RelationIDs : list Z)
| OtherMessage.

Class LogRepl := {
  Parse : bytes -> option LogicalMessage;
  (** [ParsePrimaryKeepaliveMessage]: whether a reply is requested. *)
  ParseKeepalive : bytes -> option bool;
  (** [ParseXLogData]: [WALStart] and [WALData]. *)
  ParseXLogData : bytes -> option (Z * bytes)
}.

(** ** State *)

Record Checkpoint := mkCheckpoint { cp_LSN : Z; cp_Timestamp : Z; cp_SlotName : bytes }.

Record ColumnInfo := mkColumnInfo {
  ci_Name : bytes; ci_DataType : Z; ci_TypeName : bytes; ci_Nullable : bool
}.

Record TableInfo := mkTableInfo {
  ti_ID : Z; ti_Schema : bytes; ti_Name : bytes; ti_Columns : list ColumnInfo
}.

(** A [pgconn.PgConn] that is nil, open or closed. *)
Inductive conn_state := NoConn | OpenConn | ClosedConn.

(** [emitted] lists the events put on the channel, in order; [dropped] those
    given up.  [deadline] is the next standby message's, [None] the zero time;
    [checkpoint_file] is the content of the checkpoint file, if there is one. *)
Record PGStreamer := mkStreamer {
  st_config : ServerConfig;
  conn : conn_state;
  adminConn : conn_state;
  clientXLogPos : Z;
  deadline : option Z;
  tableCache : gmap Z TableInfo;
  replicaIdentitySet : list bytes;
  emitted : list ChangeEvent;
  dropped : list ChangeEvent;
  sends : nat;
  calls : nat;
  checkpoint_file : option bytes;
  temp_file : option bytes;
  st_done : bool;
  st_running : bool
}.

(** Field updates. *)
Definition with_conns (c a : conn_state) (s : PGStreamer) : PGStreamer :=
  mkStreamer (st_config s) c a (clientXLogPos s) (deadline s) (tableCache s) (replicaIdentitySet s)
    (emitted s) (dropped s) (sends s) (calls s) (checkpoint_file s) (temp_file s) (st_done s) (st_running s).
Definition with_pos (p : Z) (s : PGStreamer) : PGStreamer :=
  mkStreamer (st_config s) (conn s) (adminConn s) p (deadline s) (tableCache s) (replicaIdentitySet s)
    (emitted s) (dropped s) (sends s) (calls s) (checkpoint_file s) (temp_file s) (st_done s) (st_running s).
Definition with_deadline (d : option Z) (s : PGStreamer) : PGStreamer :=
  mkStreamer (st_config s) (conn s) (adminConn s) (clientXLogPos s) d (tableCache s) (replicaIdentitySet s)
    (emitted s) (dropped s) (sends s) (calls s) (checkpoint_file s) (temp_file s) (st_done s) (st_running s).
Definition with_tables (t : gmap Z TableInfo) (r : list bytes) (s : PGStreamer) : PGStreamer :=
  mkStreamer (st_config s) (conn s) (adminConn s) (clientXLogPos s) (deadline s) t r
    (emitted s) (dropped s) (sends s) (calls s) (checkpoint_file s) (temp_file s) (st_done s) (st_running s).
Definition with_events (e d : list ChangeEvent) (n : nat) (s : PGStreamer) : PGStreamer :=
  mkStreamer (st_config s) (conn s) (adminConn s) (clientXLogPos s) (deadline s) (tableCache s)
    (replicaIdentitySet s) e d n (calls s) (checkpoint_file s) (temp_file s) (st_done s) (st_running s).
Definition with_calls (n : nat) (s : PGStreamer) : PGStreamer :=
  mkStreamer (st_config s) (conn s) (adminConn s) (clientXLogPos s) (deadline s) (tableCache s)
    (replicaIdentitySet s) (emitted s) (dropped s) (sends s) n (checkpoint_file s) (temp_file s) (st_done s)
    (st_running s).
Definition with_files (f t : option bytes) (s : PGStreamer) : PGStreamer :=
  mkStreamer (st_config s) (conn s) (adminConn s) (clientXLogPos s) (deadline s) (tableCache s)
    (replicaIdentitySet s) (emitted s) (dropped s) (sends s) (calls s) f t (st_done s) (st_running s).
Definition with_lifecycle (d r : bool) (s : PGStreamer) : PGStreamer :=
  mkStreamer (st_config s) (conn s) (adminConn s) (clientXLogPos s) (deadline s) (tableCache s)
    (replicaIdentitySet s) (emitted s) (dropped s) (sends s) (calls s) (checkpoint_file s) (temp_file s) d r.

(** ** Types and values *)

(** PostgreSQL type OIDs to MySQL column types. *)
Definition pgTypeToMySQLType (pgType : Z) : Z :=
  let oid l := bool_decide (pgType ∈ l) in
  if oid [16] then 1
  else if oid [21] then 2
  else if oid [23] then 3
  else if oid [20] then 8
  else if oid [26] then 3
  else if oid [700] then 4
  else if oid [701] then 5
  else if oid [1700] then 246
  else if oid [1082] then 10
  else if oid [1083; 1266] then 11
  else if oid [1114; 1184] then 12
  else if oid [1186] then 253
  else if oid [18] then 254
  else if oid [25] then 252
  else if oid [1042] then 254
  else if oid [1043; 19] then 253
  else if oid [17] then 252
  else if oid [2950] then 254
  else if oid [114; 3802] then 245
  else if oid [869; 650; 829; 774] then 253
  else if oid [600; 601; 602; 603; 604; 718] then 253
  else if oid [1560; 1562] then 16
  else if oid [1000; 1005; 1007; 1016; 1009; 1015; 1021; 1022] then 245
  else if oid [142] then 253
  else if oid [790] then 246
  else 253.

Definition convertColumns (tableInfo : TableInfo) : list Column :=
  map (fun col => mkCol (ci_Name col) (pgTypeToMySQLType (ci_DataType col)) (ci_Nullable col) false)
    (ti_Columns tableInfo).

(** [fmt.Sscanf(value, "%d", &v)] into a fresh [w]-bit variable. *)
Definition scan_decimal (w : Z) (value : bytes) : Z := scanned (Sscanf w [SInt] value) 0.

(** All the types that keep their text are the last case. *)
Definition convertPGValue (value : bytes) (pgType : Z) : GoValue :=
  let oid l := bool_decide (pgType ∈ l) in
  if oid [16] then
    if bytes_eqb value (str "t") || bytes_eqb value (str "true") || bytes_eqb value (str "1")
    then VInt8 1 else VInt8 0
  else if oid [21] then VInt16 (scan_decimal 16 value)
  else if oid [23; 26] then VInt32 (scan_decimal 32 value)
  else if oid [20] then VInt64 (scan_decimal 64 value)
  else if oid [700] then VFloat32 (Sscanf_float32 value)
  else if oid [701] then VFloat64 (Sscanf_float64 value)
  else if oid [1000; 1005; 1007; 1016; 1009; 1015; 1021; 1022] then
    match value with
    | c :: _ =>
        if (c =? 123) && bool_decide (last value = Some 125)
        then VString ([91] ++ take (length value - 2) (drop 1 value) ++ [93])
        else VString value
    | [] => VString value
    end
  else VString value.

(** The loop of [decodeTupleData] from index [i] on; [None] is a nil slice. *)
Fixpoint decode_columns (i : nat) (cols : TupleData) (tableInfo : TableInfo)
  (fallbackValues : option (list GoValue)) : list GoValue :=
  match cols with
  | [] => []
  | col :: cols' =>
      (if tc_DataType col =? 110 then VNil
       else if tc_DataType col =? 117 then
         match fallbackValues with
         | Some vs => default VNil (vs !! i)
         | None => VNil
         end
       else if tc_DataType col =? 116 then
         match ti_Columns tableInfo !! i with
         | Some c => convertPGValue (tc_Data col) (ci_DataType c)
         | None => VString (tc_Data col)
         end
       else VBytes (tc_Data col)) :: decode_columns (S i) cols' tableInfo fallbackValues
  end.

Definition decodeTupleData (tuple : option TupleData) (tableInfo : TableInfo)
  (fallbackValues : option (list GoValue)) : option (list GoValue) :=
  match tuple with
  | None => None
  | Some cols => Some (decode_columns 0 cols tableInfo fallbackValues)
  end.

(** ** Sending events *)

(** What happens to an event: it is sent at once, sent after the consumer made
    room, given up because the streamer is stopped, or given up because the
    backpressure timeout passed. *)
Inductive chan_outcome := SentNow | SentLater | Cancelled | TimedOut.

Definition chan_delivers (o : chan_outcome) : bool :=
  match o with SentNow | SentLater => true | _ => false end.

(** How long [sendEvent] waits for a full channel. *)
Definition backpressure_timeout (c : ServerConfig) : Z :=
  if BackpressureTimeout c <=? 0 then 30 * 60 * second else BackpressureTimeout c.

Section streamer.
Context `{LogRepl}.
Variable chan : nat -> chan_outcome.

Definition set_LSN (lsn : Z) (e : ChangeEvent) : ChangeEvent :=
  mkChange (ce_Type e) (ce_Timestamp e) (ce_Database e) (ce_Schema e) (ce_Table e) (ce_TableID e) (ce_Columns e)
    (OldValues e) (NewValues e) lsn.

Definition sendEvent (event : ChangeEvent) (s : PGStreamer) : PGStreamer :=
  let event := set_LSN (clientXLogPos s) event in
  if chan_delivers (chan (sends s))
  then with_events (emitted s ++ [event]) (dropped s) (S (sends s)) s
  else with_events (emitted s) (dropped s ++ [event]) (S (sends s)) s.

(** ** Message handlers; [now] is the clock *)

Definition getTableInfo (relationID : Z) (s : PGStreamer) : option TableInfo := tableCache s !! relationID.

Definition relation_table (id : Z) (namespace name : bytes) (cols : list RelationColumn) : TableInfo :=
  mkTableInfo id namespace name (map (fun c => mkColumnInfo (rc_Name c) (rc_DataType c) [] false) cols).

Definition handleRelationMessage (data : bytes) (s : PGStreamer) : PGStreamer :=
  match Parse data with
  | Some (RelationMessage id namespace name cols) =>
      with_tables (<[id := relation_table id namespace name cols]> (tableCache s)) (replicaIdentitySet s) s
  | _ => s
  end.

Definition txn_event (t : ChangeType) (now : Z) : ChangeEvent := mkChange t now [] [] [] 0 [] None None 0.

Definition handleBeginMessage (now : Z) (s : PGStreamer) : PGStreamer := sendEvent (txn_event ChangeTypeBegin now) s.

Definition handleCommitMessage (now : Z) (s : PGStreamer) : PGStreamer := sendEvent (txn_event ChangeTypeCommit now) s.

Definition row_event (t : ChangeType) (now id : Z) (tableInfo : TableInfo) (old new : option (list GoValue))
  : ChangeEvent :=
  mkChange t now [] (ti_Schema tableInfo) (ti_Name tableInfo) id (convertColumns tableInfo) old new 0.

Definition handleInsertMessage (now : Z) (data : bytes) (s : PGStreamer) : PGStreamer :=
  match Parse data with
  | Some (InsertMessage id tuple) =>
      match getTableInfo id s with
      | None => s
      | Some tableInfo =>
          sendEvent (row_event ChangeTypeInsert now id tableInfo None (decodeTupleData tuple tableInfo None)) s
      end
  | _ => s
  end.

Definition handleUpdateMessage (now : Z) (data : bytes) (s : PGStreamer) : PGStreamer :=
  match Parse data with
  | Some (UpdateMessage id oldTuple newTuple) =>
      match getTableInfo id s with
      | None => s
      | Some tableInfo =>
          let oldValues := decodeTupleData oldTuple tableInfo None in
          let newValues := decodeTupleData newTuple tableInfo oldValues in
          sendEvent (row_event ChangeTypeUpdate now id tableInfo oldValues newValues) s
      end
  | _ => s
  end.

Definition handleDeleteMessage (now : Z) (data : bytes) (s : PGStreamer) : PGStreamer :=
  match Parse data with
  | Some (DeleteMessage id oldTuple) =>
      match getTableInfo id s with
      | None => s
      | Some tableInfo =>
          sendEvent (row_event ChangeTypeDelete now id tableInfo (decodeTupleData oldTuple tableInfo None) None) s
      end
  | _ => s
  end.

(** The loop over the truncated relations. *)
Fixpoint truncate_all (now : Z) (ids : list Z) (s : PGStreamer) : PGStreamer :=
  match ids with
  | [] => s
  | id :: ids' =>
      match getTableInfo id s with
      | None => truncate_all now ids' s
      | Some tableInfo =>
          truncate_all now ids'
            (sendEvent (mkChange ChangeTypeTruncate now [] (ti_Schema tableInfo) (ti_Name tableInfo) id [] None None 0) s)
      end
  end.

Definition handleTruncateMessage (now : Z) (data : bytes) (s : PGStreamer) : PGStreamer :=
  match Parse data with
  | Some (TruncateMessage ids) => truncate_all now ids s
  | _ => s
  end.

(** The message type is its first byte. *)
Definition parseLogicalReplicationMessage (now : Z) (data : bytes) (s : PGStreamer) : PGStreamer :=
  match data with
  | [] => s
  | msgType :: _ =>
      if msgType =? 82 then handleRelationMessage data s
      else if msgType =? 66 then handleBeginMessage now s
      else if msgType =? 67 then handleCommitMessage now s
      else if msgType =? 73 then handleInsertMessage now data s
      else if msgType =? 85 then handleUpdateMessage now data s
      else if msgType =? 68 then handleDeleteMessage now data s
      else if msgType =? 84 then handleTruncateMessage now data s
      else s
  end.

Definition handleXLogData (now : Z) (data : bytes) (s : PGStreamer) : PGStreamer :=
  match ParseXLogData data with
  | None => s
  | Some (walStart, walData) =>
      let s := parseLogicalReplicationMessage now walData s in
      with_pos (wrap 64 (walStart + Z.of_nat (length walData))) s
  end.

Definition handleKeepalive (data : bytes) (s : PGStreamer) : PGStreamer :=
  match ParseKeepalive data with
  | Some true => with_deadline None s
  | _ => s
  end.

(** ** The receive loop *)

Inductive RawMessage :=
| ReceiveTimeout
| ReceiveError (ctx_cancelled : bool) (msg : bytes)
| ErrorResponse
| CopyData (data : bytes)
| OtherRaw.

(** One turn of the loop: whether the context is done, the clock, the outcome
    of the standby update if one is due, and the message received. *)
Record turn := mkTurn { t_done : bool; t_now : Z; t_standby : res unit; t_msg : RawMessage }.

Definition after (now : Z) (d : option Z) : bool := match d with None => true | Some t => t <? now end.

Definition standbyMessageTimeout : Z := 10 * second.

(** The loop of [doStream] over the turns it is given; [None] when it is still
    waiting after them. *)
Fixpoint stream_turns (turns : list turn) (s : PGStreamer) : option (res unit) * PGStreamer :=
  match turns with
  | [] => (None, s)
  | t :: turns' =>
      if t_done t then (Some (Ok tt), s) else
      let due := after (t_now t) (deadline s) in
      match (if due then t_standby t else Ok tt) with
      | Err m => (Some (Err (str "failed to send standby status: " ++ m)), s)
      | Panic => (Some Panic, s)
      | Ok _ =>
          let s := if due then with_deadline (Some (t_now t + standbyMessageTimeout)) s else s in
          match t_msg t with
          | ReceiveTimeout => stream_turns turns' s
          | ReceiveError cancelled m =>
              if cancelled then (Some (Ok tt), s)
              else (Some (Err (str "failed to receive message: " ++ m)), s)
          | ErrorResponse | OtherRaw => stream_turns turns' s
          | CopyData [] => (Some Panic, s)
          | CopyData (b :: data) =>
              stream_turns turns'
                (if b =? 107 then handleKeepalive data s
                 else if b =? 119 then handleXLogData (t_now t) data s
                 else s)
          end
      end
  end.

(** [start] is what [pglogrepl.StartReplication] does with the connection. *)
Definition doStream (start : conn_state -> res unit) (now : Z) (turns : list turn) (s : PGStreamer)
  : option (res unit) * PGStreamer :=
  match start (conn s) with
  | Err m => (Some (Err (str "failed to start replication: " ++ m)), s)
  | Panic => (Some Panic, s)
  | Ok _ => stream_turns turns (with_deadline (Some (now + standbyMessageTimeout)) s)
  end.
End streamer.

(** ** Connections *)

(** The outcome of a call to PostgreSQL: rows, an error PostgreSQL reports with
    its code, or another error. *)
Inductive ext_result :=
| XOk (rows : list (list bytes))
| XPgErr (code : bytes)
| XErr (msg : bytes).

Definition ext_error (r : ext_result) : option bytes :=
  match r with XOk _ => None | XPgErr code => Some code | XErr m => Some m end.

Definition duplicate_object : bytes := str "42710".

Section connections.
Variable ext : nat -> ext_result.

Definition call : st PGStreamer ext_result := fun s => (Ok (ext (calls s)), with_calls (S (calls s)) s).

(** A call whose error is returned with a prefix. *)
Definition call_or (prefix : bytes) : st PGStreamer unit :=
  r <- call;; match ext_error r with None => sret tt | Some m => serr (prefix ++ m) end.

Definition ensureReplicationSlot : st PGStreamer unit :=
  r <- call;;
  match r with
  | XOk _ => sret tt
  | XPgErr code => if bytes_eqb code duplicate_object then sret tt else serr code
  | XErr m => serr m
  end.

Definition full_name (schema table : bytes) : bytes := schema ++ [46] ++ table.

Definition mark_identity (name : bytes) : st PGStreamer unit :=
  smod (fun s => with_tables (tableCache s)
    (if bool_decide (name ∈ replicaIdentitySet s) then replicaIdentitySet s else name :: replicaIdentitySet s) s).

(** The loop over the rows of [pg_tables]; rows of fewer than two columns are
    skipped. *)
Fixpoint set_identity (rows : list (list bytes)) : st PGStreamer unit :=
  match rows with
  | [] => sret tt
  | (schema :: table :: _) :: rows' =>
      r <- call;;
      match ext_error r with
      | None => mark_identity (full_name schema table);;; set_identity rows'
      | Some _ => set_identity rows'
      end
  | _ :: rows' => set_identity rows'
  end.

Definition setReplicaIdentityForAllTables : st PGStreamer unit :=
  a <- sget adminConn;;
  match a with
  | NoConn => serr (str "admin connection not available")
  | _ =>
      r <- call;;
      match r with
      | XOk rows => set_identity rows
      | XPgErr m | XErr m => serr (str "failed to query tables: " ++ m)
      end
  end.

(** Runs beside the receive loop for every relation message. *)
Definition ensureReplicaIdentityFull (schema table : bytes) : st PGStreamer unit :=
  set <- sget replicaIdentitySet;;
  a <- sget adminConn;;
  if bool_decide (full_name schema table ∈ set) then sret tt
  else match a with
       | NoConn => sret tt
       | _ =>
           r <- call;;
           match ext_error r with
           | None => mark_identity (full_name schema table)
           | Some _ => sret tt
           end
       end.

Definition ensurePublication : st PGStreamer unit :=
  call_or (str "failed to connect for publication: ");;;
  smod (fun s => with_conns (conn s) OpenConn s);;;
  r <- call;;
  let created :=
    match r with
    | XOk _ => sret tt
    | XPgErr code =>
        if bytes_eqb code duplicate_object then sret tt else serr (str "failed to create publication: " ++ code)
    | XErr m => serr (str "failed to create publication: " ++ m)
    end in
  created;;;
  _ <- stry setReplicaIdentityForAllTables;;
  sret tt.

Definition connect : st PGStreamer unit :=
  call_or (str "failed to parse config: ");;;
  call_or (str "failed to connect: ");;;
  smod (fun s => with_conns OpenConn (adminConn s) s);;;
  r <- stry ensureReplicationSlot;;
  match r with
  | Ok _ =>
      r <- stry ensurePublication;;
      match r with
      | Ok _ => sret tt
      | Err m =>
          smod (fun s => with_conns ClosedConn (adminConn s) s);;;
          serr (str "failed to create publication: " ++ m)
      | Panic => spanic
      end
  | Err m =>
      smod (fun s => with_conns ClosedConn (adminConn s) s);;;
      serr (str "failed to create replication slot: " ++ m)
  | Panic => spanic
  end.

Definition reconnect : st PGStreamer unit :=
  smod (with_conns NoConn NoConn);;; connect.

(** ** Checkpoints *)

(** [marshal] and [unmarshal] are [encoding/json] on a [Checkpoint]; [fs] says
    which step of [saveCheckpoint] fails: the directory, the temporary file
    (after [written] of its bytes) or the rename. *)
Variable marshal : Checkpoint -> res bytes.
Variable unmarshal : bytes -> option Checkpoint.

Inductive fs_fault := FsOk | FsMkdir | FsWrite (written : nat) | FsRename.

(** [read_fault]: the file exists and cannot be read. *)
Definition loadCheckpoint (read_fault : bool) : st PGStreamer unit :=
  c <- sget st_config;;
  file <- sget checkpoint_file;;
  if bytes_eqb (CheckpointFile c) [] then sret tt
  else match file with
  | None => sret tt
  | Some data =>
      if read_fault then serr (str "failed to read checkpoint file: ")
      else match unmarshal data with
           | None => serr (str "failed to parse checkpoint: ")
           | Some cp =>
               if negb (bytes_eqb (cp_SlotName cp) []) && negb (bytes_eqb (cp_SlotName cp) (PGSlotName c))
               then sret tt
               else smod (with_pos (cp_LSN cp))
           end
  end.

Definition saveCheckpoint (fault : fs_fault) (now : Z) : st PGStreamer unit :=
  c <- sget st_config;;
  pos <- sget clientXLogPos;;
  if bytes_eqb (CheckpointFile c) [] then sret tt
  else match marshal (mkCheckpoint pos now (PGSlotName c)) with
  | Err m => serr (str "failed to marshal checkpoint: " ++ m)
  | Panic => spanic
  | Ok data =>
      match fault with
      | FsMkdir => serr (str "failed to create checkpoint directory: ")
      | FsWrite n =>
          smod (fun s => with_files (checkpoint_file s) (Some (take n data)) s);;;
          serr (str "failed to write checkpoint: ")
      | FsRename =>
          smod (fun s => with_files (checkpoint_file s) None s);;;
          serr (str "failed to rename checkpoint file: ")
      | FsOk => smod (fun s => with_files (Some data) None s)
      end
  end.

(** One round of [checkpointLoop]: an error is only logged. *)
Definition checkpoint_tick (fault : fs_fault) (now : Z) (s : PGStreamer) : PGStreamer := (saveCheckpoint fault now s).2.

(** ** Life cycle *)

(** Starting the goroutines has no effect of its own on the state. *)
Definition st_Start : st PGStreamer unit :=
  r <- sget st_running;;
  if r : bool then serr (str "streamer already running")
  else
    smod (fun s => with_lifecycle (st_done s) true s);;;
    r <- stry connect;;
    match r with
    | Ok _ => sret tt
    | Err m =>
        smod (fun s => with_lifecycle (st_done s) false s);;;
        serr (str "failed to connect to PostgreSQL: " ++ m)
    | Panic => spanic
    end.

Definition new_streamer (config : ServerConfig) (file : option bytes) : PGStreamer :=
  mkStreamer config NoConn NoConn 0 None ∅ [] [] [] 0 0 file None false false.

(** A checkpoint that cannot be loaded is only logged. *)
Definition NewPGStreamer (config : ServerConfig) (file : option bytes) (read_fault : bool) : res unit * PGStreamer :=
  (_ <- stry (loadCheckpoint read_fault);;
   r <- stry st_Start;;
   match r with
   | Ok _ => sret tt
   | Err m => smod (fun s => with_lifecycle true (st_running s) s);;; serr m
   | Panic => spanic
   end) (new_streamer config file).

(** [Stop]: the context is cancelled, [checkpointLoop] saves a last checkpoint
    and the connections are closed. *)
Definition st_Stop (fault : fs_fault) (now : Z) (s : PGStreamer) : PGStreamer :=
  if st_running s then
    let s := with_lifecycle true (st_running s) s in
    let s := checkpoint_tick fault now s in
    let s := with_conns NoConn NoConn s in
    with_lifecycle true false s
  else s.

(** ** Reconnecting *)

Definition initial_wait (c : ServerConfig) : Z :=
  if ReconnectInitialWait c <=? 0 then second else ReconnectInitialWait c.
Definition max_wait (c : ServerConfig) : Z :=
  if ReconnectMaxWait c <=? 0 then 30 * second else ReconnectMaxWait c.

Record loop_state := mkLoop { retryCount : Z; waitTime : Z }.

Definition loop_start (c : ServerConfig) : loop_state := mkLoop 0 (initial_wait c).

(** What an iteration of [streamLoop] does: it returns, the process panics, or
    it goes round again after waiting [waited]. *)
Inductive loop_result :=
| Returned
| Crashed
| Next (waited : Z) (l : loop_state).

Definition backoff (c : ServerConfig) (wait : Z) : Z :=
  let wait := swrap 64 (wait * 2) in
  if max_wait c <? wait then max_wait c else wait.

(** The iteration after [doStream] returned [r]; [cancelled] says that the
    context was cancelled by then, or during the wait. *)
Definition stream_retry (r : res unit) (cancelled : bool) (l : loop_state) (s : PGStreamer)
  : loop_result * PGStreamer :=
  let c := st_config s in
  match r with
  | Panic => (Crashed, s)
  | Ok _ => (Returned, s)
  | Err _ =>
      if cancelled then (Returned, s)
      else if negb (ReconnectEnabled c) then (Returned, s)
      else
        let retryCount := retryCount l + 1 in
        if (0 <? ReconnectMaxRetries c) && (ReconnectMaxRetries c <? retryCount) then (Returned, s)
        else
          let waited := waitTime l in
          let wait := backoff c waited in
          match reconnect s with
          | (Ok _, s') => (Next waited (loop_start c), s')
          | (Err _, s') => (Next waited (mkLoop retryCount wait), s')
          | (Panic, s') => (Crashed, s')
          end
  end.
End connections.

(** One round of [streamLoop]: whether the context is done before it, what
    [StartReplication] does with the connection, the clock and the turns of
    [doStream], and whether the context is cancelled by the time it fails or
    during the wait. *)
Record round := mkRound {
  r_done : bool; r_start : conn_state -> res unit; r_now : Z; r_turns : list turn; r_cancelled : bool }.

(** Where the loop is after some rounds: it has returned, the process has
    panicked, it is still receiving, or it is about to go round again. *)
Inductive loop_end := LoopReturned | LoopCrashed | LoopStreaming | LoopAgain.

(** The waits so far come with it. *)
Fixpoint streamLoop `{LogRepl} (chan : nat -> chan_outcome) (ext : nat -> ext_result) (rounds : list round)
  (l : loop_state) (s : PGStreamer) : list Z * loop_end :=
  match rounds with
  | [] => ([], LoopAgain)
  | r :: rounds =>
      if r_done r then ([], LoopReturned)
      else
        match doStream chan (r_start r) (r_now r) (r_turns r) s with
        | (None, s) => ([], LoopStreaming)
        | (Some res, s) =>
            match stream_retry ext res (r_cancelled r) l s with
            | (Returned, s) => ([], LoopReturned)
            | (Crashed, s) => ([], LoopCrashed)
            | (Next waited l, s) => let (waits, e) := streamLoop chan ext rounds l s in (waited :: waits, e)
            end
        end
  end.
