(* ===== verification/StreamerFacts.v ===== *)
(** * From PostgreSQL's messages to the replica

    Theorems about [pkg/replication/pg_streamer.go]: the values of each column
    type reach the replica unchanged, a streamed INSERT is delivered through the
    server, transactions keep their structure, and what happens to events the
    channel does not take, to unchanged TOAST columns and to NUMERIC columns. *)

From Stdlib Require Import ZArith Lia.
From stdpp Require Import base numbers list strings gmap.
From S2P Require Import Prelude GoStd GoFloat BinlogValue DecimalFacts ValueFacts.
From S2P Require Import BinlogEvent EventFacts ReplServer ServerFacts ServerOrder PGStreamer.
Open Scope Z_scope.

(** ** Values *)

(** The bytes written for a PostgreSQL text value of type [oid]. *)
Definition deliver (fmt_v : GoValue -> bytes) (oid : Z) (text : bytes) : res bytes :=
  encodeValue fmt_v (convertPGValue text oid) (pgTypeToMySQLType oid) (getColumnMeta (pgTypeToMySQLType oid)).

Lemma scan_int_dec w z r : 1 < w -> in_swidth w z -> no_digit r -> scan_int w (dec_Z z ++ r) = Some (z, r).
Proof.
  intros Hw Hz Hr. unfold in_swidth in Hz. unfold dec_Z. destruct (Z.ltb_spec z 0) as [Hn|Hn].
  - unfold scan_int. cbn [app skip_space]. change (is_space 45) with false. cbv iota. rewrite Z.eqb_refl.
    rewrite span_digits_app; [|apply dec_nat_digits; lia|done].
    destruct (dec_nat (- z)) eqn:E; [by apply dec_fuel_nonempty in E; [|lia]|]. rewrite <- E.
    rewrite dec_nat_val by lia. cbv zeta. rewrite Z.opp_involutive.
    by rewrite (proj2 (Z.leb_le _ _)), (proj2 (Z.ltb_lt _ _)) by lia.
  - rewrite scan_int_digits; rewrite ?dec_nat_val by lia; auto with digits; try lia.
    by apply dec_fuel_nonempty; lia.
Qed.

Lemma scan_decimal_dec w z : 1 < w -> in_swidth w z -> scan_decimal w (dec_Z z) = z.
Proof.
  intros Hw Hz. unfold scan_decimal, scanned. cbn [Sscanf].
  pose proof (scan_int_dec w z [] Hw Hz I) as Hs. rewrite app_nil_r in Hs. by rewrite Hs.
Qed.

(** integers and booleans reach the replica exactly.  PostgreSQL's text of a
    smallint, integer or bigint, scanned by the streamer and written by the
    encoder, is read back as the same number, and a boolean as 1 or 0. *)
Theorem integers_delivered fmt_v z :
  (in_swidth 16 z -> exists b, deliver fmt_v 21 (dec_Z z) = Ok b /\ decode_signed b = z) /\
  (in_swidth 32 z -> exists b, deliver fmt_v 23 (dec_Z z) = Ok b /\ decode_signed b = z) /\
  (in_swidth 64 z -> exists b, deliver fmt_v 20 (dec_Z z) = Ok b /\ decode_signed b = z) /\
  deliver fmt_v 16 (str "t") = Ok [1] /\ deliver fmt_v 16 (str "f") = Ok [0].
Proof.
  split_and!; [intros Hz..|done|done]; (eexists; split; [reflexivity|]).
  - change (decode_signed (encodeShort (VInt16 (scan_decimal 16 (dec_Z z)))) = z).
    rewrite scan_decimal_dec by (done || lia). unfold encodeShort. rewrite decode_signed_wrap by lia. by apply swrap_id.
  - change (decode_signed (encodeLong (VInt32 (scan_decimal 32 (dec_Z z)))) = z).
    rewrite scan_decimal_dec by (done || lia). unfold encodeLong. rewrite decode_signed_wrap by lia. by apply swrap_id.
  - change (decode_signed (encodeLongLong (VInt64 (scan_decimal 64 (dec_Z z)))) = z).
    rewrite scan_decimal_dec by (done || lia). unfold encodeLongLong. rewrite decode_signed_wrap by lia. by apply swrap_id.
Qed.

Lemma integers_delivered_witness :
  exists b, deliver (fun _ => []) 23 (str "-42") = Ok b /\ decode_signed b = -42.
Proof.
  apply (proj1 (proj2 (integers_delivered (fun _ => []) (-42)))). unfold in_swidth. simpl. lia.
Defined.

(** The types kept as text, with the bytes of the length prefix. *)
Definition text_types : list (Z * nat) :=
  map (fun oid => (oid, 2%nat)) [25; 1043; 19; 1186; 869; 650; 829; 774; 600; 601; 602; 603; 604; 718; 142; 17] ++
  map (fun oid => (oid, 1%nat)) [18; 1042; 2950] ++ map (fun oid => (oid, 4%nat)) [114; 3802].

(** text reaches the replica unchanged: for every type the streamer keeps as
    text, what is written is the text behind a length prefix that says its
    length, as long as the prefix can hold it (255 bytes for character and
    UUID columns, 65535 for text, 4 GiB for JSON). *)
Theorem texts_delivered fmt_v oid n text
  (Hin : In (oid, n) text_types) (Hlen : Z.of_nat (length text) < 2 ^ (8 * Z.of_nat n)) :
  deliver fmt_v oid text = Ok (le_bytes n (Z.of_nat (length text)) ++ text) /\
  field_len (pgTypeToMySQLType oid) (getColumnMeta (pgTypeToMySQLType oid))
    (le_bytes n (Z.of_nat (length text)) ++ text) = Some (n + length text)%nat.
Proof.
  assert (forall k, Some (prefixed k (le_bytes k (Z.of_nat (length text)) ++ text)) = Some (k + length text)%nat
    \/ 2 ^ (8 * Z.of_nat k) <= Z.of_nat (length text)) as Hp.
  { intros k. destruct (Z.lt_ge_cases (Z.of_nat (length text)) (2 ^ (8 * Z.of_nat k))) as [Hk|]; [left|by right].
    pose proof (prefixed_le k text Hk []) as E. rewrite !app_nil_r in E. rewrite E, length_app, le_bytes_length. done. }
  unfold text_types in Hin. cbn [In map app] in Hin.
  set (le n := le_bytes n (Z.of_nat (length text)) ++ text) in *.
  assert (Ok (encodeVarString fmt_v (VString text) 65535) = Ok (le 2%nat)) as Ev by (by rewrite encodeVarString_le).
  assert (Ok (encodeFixedString fmt_v (VString text) 255) = Ok (le 1%nat)) as Ef
    by (by rewrite encodeFixedString_le by lia).
  assert (Ok (encodeBlob (VString text) 2) = Ok (le 2%nat)) as Eb
    by (unfold encodeBlob, encode_blob_data, le; by rewrite le_bytes_wrap by lia).
  assert (Ok (encodeJSON (VString text) 4) = Ok (le 4%nat)) as Ej by reflexivity.
  repeat destruct Hin as [E|Hin]; [injection E as <- <-..|done];
    (split; [first [exact Ev|exact Ef|exact Eb|exact Ej]|];
     first [destruct (Hp 2%nat) as [E|E]; [exact E|exfalso; simpl in *; lia]
           |destruct (Hp 1%nat) as [E|E]; [exact E|exfalso; simpl in *; lia]
           |destruct (Hp 4%nat) as [E|E]; [exact E|exfalso; simpl in *; lia]]).
Qed.

Lemma texts_delivered_witness :
  deliver (fun _ => []) 1043 (str "bob") = Ok ([3; 0] ++ str "bob").
Proof. apply (texts_delivered (fun _ => []) 1043 2 (str "bob")); [simpl; tauto|simpl; lia]. Defined.

(** dates and times reach the replica: from the text PostgreSQL sends for a
    date, time or timestamp (with or without fraction or time zone after it),
    the replica reads the same civil date and clock. *)
Theorem temporals_delivered fmt_v y m d h mi s r
  (Hdate : date_ok y m d) (Hclock : clock_ok h mi s) (Hr : no_digit r) :
  let date := date_text y m d in let clock := clock_text h mi s in
  (exists b, deliver fmt_v 1082 (date ++ r) = Ok b /\ decode_date b = (y, m, d)) /\
  Forall (fun oid => exists b, deliver fmt_v oid (clock ++ r) = Ok b /\ decode_time b = (h, mi, s)) [1083; 1266] /\
  Forall (fun oid => exists b, deliver fmt_v oid (date ++ [32] ++ clock ++ r) = Ok b /\
    decode_datetime b = ((y, m, d), (h, mi, s))) [1114; 1184].
Proof.
  intros date clock. split_and!; repeat constructor; eexists; (split; [reflexivity|]).
  - by apply (encode_date_text_spec y m d r).
  - by apply (encode_time_text_spec h mi s r).
  - by apply (encode_time_text_spec h mi s r).
  - by apply (encode_datetime_text_spec y m d h mi s r).
  - by apply (encode_datetime_text_spec y m d h mi s r).
Qed.

Lemma temporals_delivered_witness :
  exists b, deliver (fun _ => []) 1184 (str "2024-02-29 23:59:58.5+02") = Ok b /\
    decode_datetime b = ((2024, 2, 29), (23, 59, 58)).
Proof.
  destruct (temporals_delivered (fun _ => []) 2024 2 29 23 59 58 (str ".5+02")) as (_ & _ & Hf);
    [unfold date_ok; lia|unfold clock_ok; lia|reflexivity|].
  exact (Forall_inv (Forall_inv_tail Hf)).
Defined.

(** C39: NUMERIC columns are announced as DECIMAL(10,2): of a value I.F the
    replica reads the sign, the integer part modulo 10^8 and the fraction cut to
    two decimals.  So the value arrives unchanged exactly when its integer part
    is below 10^8 and its decimals after the second are zero. *)
Theorem numeric_delivered fmt_v neg I F
  (HI : I <> []) (HdI : forallb digit I = true) (HdF : forallb digit (default [] F) = true) :
  let unit := 10 ^ Z.of_nat (length (default [] F)) in
  let number := digits_val 0 (I ++ default [] F) in
  let m := digits_val 0 I mod 10 ^ 8 * 100 + digits_val 0 (default [] F) * 100 / unit in
  exists b, deliver fmt_v 1700 (decimal_text neg I F) = Ok b /\
    decode_decimal 10 2 b = Some (neg, m) /\
    (m * unit = number * 100 <-> digits_val 0 I < 10 ^ 8 /\ digits_val 0 (default [] F) * 100 mod unit = 0).
Proof.
  intros unit number m. destruct (decode_encode_cut neg I F 10 2 HI HdI HdF) as (b & H1 & _ & H3).
  exists b. split; [exact H1|]. split; [rewrite H3, pad_frac_val by done; reflexivity|].
  subst m number. rewrite digits_val_app, (digits_val_acc (digits_val 0 I)). fold unit. clear H1 H3.
  pose proof (digits_val_range _ HdI) as Hi. assert (0 < unit) as Hu by (apply Z.pow_pos_nonneg; lia).
  pose proof (Z.div_mod (digits_val 0 I) (10 ^ 8) ltac:(lia)) as Ei.
  pose proof (Z.mod_pos_bound (digits_val 0 I) (10 ^ 8) ltac:(lia)) as Hi8.
  pose proof (Z.div_pos (digits_val 0 I) (10 ^ 8) ltac:(lia) ltac:(lia)) as Hq.
  pose proof (Z.div_mod (digits_val 0 (default [] F) * 100) unit ltac:(lia)) as Ef.
  pose proof (Z.mod_pos_bound (digits_val 0 (default [] F) * 100) unit Hu) as Hf.
  set (i := digits_val 0 I) in *. set (f := digits_val 0 (default [] F)) in *.
  set (y := i / 10 ^ 8) in *. set (x := i mod 10 ^ 8) in *. set (r := f * 100 mod unit) in *. set (q := f * 100 / unit) in *.
  clearbody y x r q i f unit. change (10 ^ 8) with 100000000 in *. subst i. split.
  - intros E. assert (unit * y * 10000000000 + r = 0) by lia. assert (unit * y = 0) by nia. nia.
  - intros [Hlt ->]. assert (y = 0) as -> by lia. lia.
Qed.

Lemma numeric_delivered_witness :
  exists b, deliver (fun _ => []) 1700 (str "-1234.5") = Ok b /\ decode_decimal 10 2 b = Some (true, 123450).
Proof.
  destruct (numeric_delivered (fun _ => []) true (str "1234") (Some (str "5")) ltac:(discriminate) eq_refl eq_refl)
    as (b & H1 & H2 & _). exists b. split; [exact H1|exact H2].
Defined.

(** *** Floats *)

(** PostgreSQL's text of a finite float: sign, digits, optional fraction and
    exponent. *)
Definition exp_text (e : Z) : bytes := [101] ++ [if e <? 0 then 45 else 43] ++ dec_pad 2 (Z.abs e).
Definition float_text (neg : bool) (I : bytes) (F : option bytes) (e : option Z) : bytes :=
  decimal_text neg I F ++ match e with Some e => exp_text e | None => [] end.

(** The rational it denotes. *)
Definition float_num (I : bytes) (F : option bytes) (e : option Z) : Z :=
  digits_val 0 (I ++ default [] F) * 10 ^ Z.max 0 (default 0 e - Z.of_nat (length (default [] F))).
Definition float_den (F : option bytes) (e : option Z) : Z :=
  10 ^ Z.max 0 (Z.of_nat (length (default [] F)) - default 0 e).

Lemma bytes_eqb_nil (l : bytes) : l <> [] -> bytes_eqb l [] = false.
Proof. intros H. unfold bytes_eqb. by apply bool_decide_eq_false_2. Qed.

Definition opt_exp (e : option Z) : bytes := match e with Some e => exp_text e | None => [] end.

Lemma parse_exp_text e : parse_exp (opt_exp e) = Some (default 0 e).
Proof.
  destruct e as [e|]; [|done]. unfold opt_exp, exp_text, parse_exp. cbn [app].
  change (accept (str "eE") (101 :: ?r)) with (Some r). cbv iota.
  destruct (dec_pad_spec 2 (Z.abs e)) as (Hd & Hv & Hne); [lia|].
  pose proof (span_digits_app (dec_pad 2 (Z.abs e)) [] Hd Logic.I) as Hs. rewrite app_nil_r in Hs.
  destruct (Z.ltb_spec e 0); cbn [Z.eqb Pos.eqb]; rewrite Hs, bytes_eqb_nil, Hv by done; cbn; f_equal; lia.
Qed.

Lemma parse_decimal_text I F e :
  forallb digit I = true -> forallb digit (default [] F) = true -> I <> [] ->
  parse_decimal (I ++ (match F with Some f => 46 :: f | None => [] end) ++ opt_exp e) =
    Some (I, default [] F, default 0 e).
Proof.
  intros HI HF Hne. unfold parse_decimal.
  assert (no_digit (opt_exp e)) as He by by destruct e.
  assert (I ++ default [] F <> []) as Hne' by by destruct I.
  rewrite span_digits_app; [|done|by destruct F, e].
  destruct F as [f|]; cbn [app default from_option id] in *; unfold id in *.
  - change (46 =? 46) with true. cbv iota. rewrite span_digits_app by done.
    rewrite (bytes_eqb_nil _ Hne'), parse_exp_text. done.
  - assert (match opt_exp e with c :: r => if c =? 46 then span_digits r else ([], opt_exp e) | [] => ([], opt_exp e) end
      = ([], opt_exp e)) as -> by by destruct e.
    rewrite (bytes_eqb_nil _ Hne'), parse_exp_text. done.
Qed.

Lemma digit_head c l : digit c = true -> is_nan (c :: l) = false /\ is_inf (c :: l) = false.
Proof.
  rewrite digit_range. intros Hc. unfold is_nan, is_inf, accept_word, accept. cbn [foldl mbind option_bind str].
  rewrite !(bool_decide_eq_false_2 (c ∈ _)); [done|..]; rewrite !elem_of_cons, elem_of_nil; cbn; lia.
Qed.

Lemma Sscanf_f_text mb eb neg I F e :
  forallb digit I = true -> forallb digit (default [] F) = true -> I <> [] ->
  Sscanf_f mb eb (float_text neg I F e) = default 0 (f_round mb eb neg (float_num I F e) (float_den F e)).
Proof.
  intros HI HF Hne. pose proof (parse_decimal_text I F e HI HF Hne) as Hp.
  destruct I as [|c I]; [done|]. pose proof HI as Hc. cbn in Hc. apply andb_true_iff in Hc as [Hc _].
  destruct (digit_not_sign c Hc) as (Hs & H1 & H2).
  unfold float_text, decimal_text. fold (opt_exp e). rewrite <- !app_assoc. cbn [app] in *.
  set (rest := I ++ _) in *. destruct (digit_head c rest Hc) as [Hn Hi].
  assert (forall n, default 0 (if 0 <=? default 0 e - Z.of_nat (length (default [] F))
      then f_round mb eb neg (n * 10 ^ (default 0 e - Z.of_nat (length (default [] F)))) 1
      else f_round mb eb neg n (10 ^ (- (default 0 e - Z.of_nat (length (default [] F)))))) =
    default 0 (f_round mb eb neg (n * 10 ^ Z.max 0 (default 0 e - Z.of_nat (length (default [] F)))) (float_den F e))) as Hr.
  { intros n. unfold float_den. destruct (Z.leb_spec 0 (default 0 e - Z.of_nat (length (default [] F)))).
    - rewrite (Z.max_r 0), (Z.max_l 0) by lia. done.
    - rewrite (Z.max_l 0), (Z.max_r 0), Z.pow_0_r, Z.mul_1_r by lia. do 3 f_equal. lia. }
  unfold Sscanf_f. destruct neg; cbn [app skip_space].
  - change (is_space 45) with false. cbv iota.
    assert (is_nan (45 :: c :: rest) = false) as -> by reflexivity.
    change (45 =? 45) with true. cbv iota. rewrite Hi, Hp. apply Hr.
  - rewrite Hs, Hn, H1, H2, Hi, Hp. apply Hr.
Qed.

(** a float reaches the replica exactly when PostgreSQL's text identifies it.
    If the decimal text denotes a number less than half a unit in the last
    place from the normal float [m * 2^E] (as PostgreSQL's shortest
    representation does), the bytes written for a double precision or real
    column are that float's bit pattern. *)
Theorem floats_delivered fmt_v oid mb eb n neg I F e m E
  (Hfmt : In (oid, mb, eb, n) [(701, 52, 11, 8%nat); (700, 23, 8, 4%nat)])
  (HI : forallb digit I = true) (HF : forallb digit (default [] F) = true) (Hpos : 0 < digits_val 0 (I ++ default [] F))
  (Hne : I <> []) (Hm : 2 ^ mb <= m < 2 ^ (mb + 1))
  (HE1 : 1 - f_bias eb - mb <= E) (HE2 : E + f_bias eb + mb < 2 ^ eb - 1)
  (Hnear : let A := float_num I F e * 2 ^ Z.max 0 (- E) in let B := float_den F e * 2 ^ Z.max 0 E in
           2 * Z.abs (A - m * B) < B /\ (m * B <= A \/ 2 ^ mb < m)) :
  deliver fmt_v oid (float_text neg I F e) = Ok (le_bytes n (f_encode mb eb (FFin neg m E))).
Proof.
  destruct Hnear as [Hn1 Hn2].
  assert (0 < float_num I F e) by (apply Z.mul_pos_pos; [done|apply Z.pow_pos_nonneg; lia]).
  assert (0 < float_den F e) by (apply Z.pow_pos_nonneg; lia).
  assert (0 < mb /\ 1 < eb) as [Hmb Heb] by (destruct Hfmt as [[=]|[[=]|[]]]; subst; lia).
  assert (Sscanf_f mb eb (float_text neg I F e) = f_encode mb eb (FFin neg m E)) as Hs.
  { rewrite Sscanf_f_text by done. by erewrite f_round_nearest by done. }
  destruct Hfmt as [[=]|[[=]|[]]]; subst; rewrite <- Hs; reflexivity.
Qed.

(** 0.1 as the double nearest to it. *)
Lemma floats_delivered_witness :
  deliver (fun _ => []) 701 (str "0.1") = Ok (le_bytes 8 4591870180066957722).
Proof.
  apply (floats_delivered (fun _ => []) 701 52 11 8 false (str "0") (Some (str "1")) None 7205759403792794 (-56));
    first [by left|reflexivity|done|vm_compute; split; congruence|vm_compute; congruence|idtac].
  cbv zeta. split; [vm_compute; reflexivity|right; vm_compute; reflexivity].
Defined.

(** ** Rows *)

Definition fixed_types : list Z := [1; 2; 3; 8; 4; 5; 246; 10; 11; 12; 16].
Definition prefixed_types : list Z := [253; 254; 252; 245].

(** What a column's length prefix can say. *)
Definition text_limit (t : Z) : Z :=
  if t =? MYSQL_TYPE_STRING then 256 else if t =? MYSQL_TYPE_JSON then 2 ^ 32 else 65536.

(** Discharges a condition of [value_fits] on another column type. *)
Ltac other_type :=
  let Hty := fresh in
  intros Hty; exfalso; revert Hty;
  unfold MYSQL_TYPE_TIME2, MYSQL_TYPE_DATETIME2, MYSQL_TYPE_TIMESTAMP2, MYSQL_TYPE_VARCHAR, MYSQL_TYPE_VAR_STRING,
    MYSQL_TYPE_STRING, MYSQL_TYPE_BLOB, MYSQL_TYPE_GEOMETRY, MYSQL_TYPE_JSON, MYSQL_TYPE_BIT, MYSQL_TYPE_ENUM; lia.

Lemma getColumnMeta_width t : in_width 16 (getColumnMeta t).
Proof. unfold getColumnMeta. repeat case_match; cbv; split; congruence. Qed.

Lemma fixed_fits fmt_v val t : In t fixed_types -> value_fits fmt_v val t (getColumnMeta t).
Proof.
  unfold fixed_types. cbn [In]. intros Hin.
  repeat destruct Hin as [<-|Hin]; [..|done]; (split; [apply getColumnMeta_width|]); split_and!; try other_type.
  intros _. vm_compute. congruence.
Qed.

Lemma prefixed_fits fmt_v text t :
  In t prefixed_types -> Z.of_nat (length text) < text_limit t -> value_fits fmt_v (VString text) t (getColumnMeta t).
Proof.
  unfold prefixed_types. cbn [In]. intros Hin Hlen.
  repeat destruct Hin as [<-|Hin]; [..|done]; (split; [apply getColumnMeta_width|]); split_and!; try other_type.
  - intros _. exact Hlen.
  - intros _. exact Hlen.
  - intros _. change (getColumnMeta 252) with 2. split; [lia|]. exists text. split; [by left|exact Hlen].
  - intros _. change (getColumnMeta 245) with 4. split; [lia|]. exists text. split; [by left|exact Hlen].
Qed.

Lemma array_text_length text :
  forall c, last text = Some 125 -> head text = Some c -> c <> 125 ->
  length ([91] ++ take (length text - 2) (drop 1 text) ++ [93]) = length text.
Proof.
  intros c Hl Hh Hc. rewrite !length_app, length_take, length_drop. simpl.
  destruct text as [|a [|b text]]; [done|simpl in Hl, Hh; congruence|simpl; lia].
Qed.

Lemma array_value oid text :
  oid ∈ [1000; 1005; 1007; 1016; 1009; 1015; 1021; 1022] ->
  exists text', convertPGValue text oid = VString text' /\ length text' = length text.
Proof.
  intros Hin.
  assert (convertPGValue text oid =
    match text with
    | c :: _ => if (c =? 123) && bool_decide (last text = Some 125)
                then VString ([91] ++ take (length text - 2) (drop 1 text) ++ [93]) else VString text
    | [] => VString text
    end) as ->.
  { rewrite ?elem_of_cons, elem_of_nil in Hin. by repeat destruct Hin as [->|Hin]. }
  destruct text as [|c text]; [by eexists|]. destruct (Z.eqb_spec c 123) as [->|]; [|by eexists]. cbn [andb].
  case_bool_decide; [|by eexists]. eexists. split; [done|]. by apply (array_text_length (123 :: text) 123).
Qed.

(** Every type either has a fixed-size column or keeps a text of the same
    length. *)
Lemma pg_type_cases oid text :
  In (pgTypeToMySQLType oid) fixed_types \/
  (In (pgTypeToMySQLType oid) prefixed_types /\
   exists text', convertPGValue text oid = VString text' /\ length text' = length text).
Proof.
  unfold pgTypeToMySQLType.
  repeat match goal with
  | |- In (if bool_decide (oid ∈ ?l) then _ else _) _ \/ _ => destruct (bool_decide_reflect (oid ∈ l)) as [Hin|?]
  end.
  all: try (left; cbn; tauto); right; (split; [cbn; tauto|]); try by apply array_value.
  all: try (rewrite ?elem_of_cons, elem_of_nil in Hin; repeat destruct Hin as [->|Hin]; try done; by eexists).
  exists text. split; [|done]. unfold convertPGValue. cbv zeta.
  rewrite !bool_decide_eq_false_2; [done|..]; rewrite ?elem_of_cons, ?elem_of_nil in *; tauto.
Qed.

(** A tuple within the limits of its table's columns: every column NULL or a
    text its column type can hold. *)
Definition column_fits (c : ColumnInfo) (tc : TupleColumn) : Prop :=
  tc_DataType tc = 110 \/
  (tc_DataType tc = 116 /\ Z.of_nat (length (tc_Data tc)) < text_limit (pgTypeToMySQLType (ci_DataType c))).

(** What the replica should read for a column. *)
Definition expected_field (fmt_v : GoValue -> bytes) (c : ColumnInfo) (tc : TupleColumn) : option bytes :=
  if tc_DataType tc =? 110 then None
  else match deliver fmt_v (ci_DataType c) (tc_Data tc) with Ok b => Some b | _ => None end.

Lemma convertPGValue_not_nil text oid : convertPGValue text oid <> VNil.
Proof. unfold convertPGValue. by repeat case_match. Qed.

Lemma streamed_value_fits fmt_v text oid :
  Z.of_nat (length text) < text_limit (pgTypeToMySQLType oid) ->
  In (pgTypeToMySQLType oid) row_types /\
  value_fits fmt_v (convertPGValue text oid) (pgTypeToMySQLType oid) (getColumnMeta (pgTypeToMySQLType oid)).
Proof.
  intros Hlen. destruct (pg_type_cases oid text) as [Hf|[Hp (text' & -> & Hl)]].
  - split; [|by apply fixed_fits]. unfold fixed_types in Hf. cbn [In] in Hf.
    repeat destruct Hf as [<-|Hf]; [..|done]; cbn; tauto.
  - split; [|apply prefixed_fits; [done|by rewrite Hl]]. unfold prefixed_types in Hp. cbn [In] in Hp.
    repeat destruct Hp as [<-|Hp]; [..|done]; cbn; tauto.
Qed.

Definition column_layout (c : ColumnInfo) : Z * Z :=
  (pgTypeToMySQLType (ci_DataType c), getColumnMeta (pgTypeToMySQLType (ci_DataType c))).

Lemma decode_columns_fit fmt_v ti fb cs cols : forall pre,
  ti_Columns ti = pre ++ cs -> Forall2 column_fits cs cols ->
  Forall2 (fun c val => val = VNil \/ (In c.1 row_types /\ value_fits fmt_v val c.1 c.2))
    (map column_layout cs) (decode_columns (length pre) cols ti fb) /\
  zip_with (field_of fmt_v) (map column_layout cs) (decode_columns (length pre) cols ti fb) =
    zip_with (expected_field fmt_v) cs cols.
Proof.
  intros pre Hti Hf. revert pre Hti. induction Hf as [|c tc cs cols Hc Hf IH]; intros pre Hti; [done|].
  destruct (IH (pre ++ [c])) as [IH1 IH2]; [by rewrite <- app_assoc|].
  rewrite length_app, Nat.add_1_r in IH1, IH2. cbn [decode_columns map zip_with].
  assert (ti_Columns ti !! length pre = Some c) as Hl by (rewrite Hti; apply list_lookup_middle; done).
  destruct Hc as [Hn|[Ht Hlen]].
  - rewrite Hn. cbn [Z.eqb Pos.eqb]. split; [constructor; [by left|done]|].
    f_equal; [|done]. unfold expected_field. by rewrite Hn.
  - rewrite Ht, Hl. cbn [Z.eqb Pos.eqb]. split; [constructor; [right; by apply streamed_value_fits|done]|].
    f_equal; [|done]. unfold expected_field. rewrite Ht. cbn [Z.eqb Pos.eqb]. unfold field_of, deliver.
    pose proof (convertPGValue_not_nil (tc_Data tc) (ci_DataType c)). by destruct (convertPGValue _ _).
Qed.

Lemma event_columns_of ti t now id old new lsn :
  event_columns (set_LSN lsn (row_event t now id ti old new)) = map column_layout (ti_Columns ti).
Proof. unfold event_columns. cbn. unfold convertColumns. rewrite map_map. done. Qed.

Definition table_ok (id : Z) (ti : TableInfo) : Prop :=
  in_width 32 id /\ (length (ti_Schema ti) < 256)%nat /\ (length (ti_Name ti) < 256)%nat /\
  (0 < length (ti_Columns ti))%nat /\ Z.of_nat (length (ti_Columns ti)) < 2 ^ 32.

Section pipeline.
Context `{LogRepl, LenEnc, !LenEncLaws _}.
Variable fmt_v : GoValue -> bytes.
Variable chan : nat -> chan_outcome.

Lemma sendEvent_sent event s :
  chan_delivers (chan (sends s)) = true ->
  emitted (sendEvent chan event s) = emitted s ++ [set_LSN (clientXLogPos s) event].
Proof. intros Hc. unfold sendEvent. by rewrite Hc. Qed.

Lemma streamed_change_ok t now id ti old new lsn :
  is_dml t = true -> table_ok id ti ->
  let event := set_LSN lsn (row_event t now id ti old new) in
  Forall (row_fits fmt_v event) (change_rows event) -> change_ok fmt_v event.
Proof.
  intros Ht (Hi & Hs & Hn & Hpos & Hc) event Hrows. unfold change_ok. cbn. unfold convertColumns.
  rewrite length_map. unfold in_width in *. split_and!; try done; lia.
Qed.

(** C1: a streamed INSERT reaches the replica.  When PostgreSQL sends an INSERT
    for a table whose relation message is cached, with every column NULL or a
    text within its column's limits, the streamer emits one change event; the
    server encodes it without a panic, and the replica reads the table's
    schema, name and column types and a row with NULL exactly where PostgreSQL
    sent NULL and, elsewhere, the bytes that stand for the text. *)
Theorem insert_pipeline now now' data s sv id ti cols
  (Hp : Parse data = Some (InsertMessage id (Some cols))) (Hti : getTableInfo id s = Some ti)
  (Hok : table_ok id ti) (Hcols : Forall2 column_fits (ti_Columns ti) cols)
  (Hchan : chan_delivers (chan (sends s)) = true) (Hsv : server_ok sv)
  (Hsmall : forall event evs sv', emitted (handleInsertMessage chan now data s) = emitted s ++ [event] ->
     convertToMySQLEvents now' event sv = (Ok evs, sv') -> events_small fmt_v evs) :
  exists event e1 e2 d1 d2 nb,
    emitted (handleInsertMessage chan now data s) = emitted s ++ [event] /\
    convertToMySQLEvents now' event sv = (Ok [e1; e2], sv) /\
    encodeBinlogEvent fmt_v e1 = Ok d1 /\ encodeBinlogEvent fmt_v e2 = Ok d2 /\
    replica_dml d1 d2 =
      Some (mkTableMapEvent id 0 (ti_Schema ti) (ti_Name ti) (length (ti_Columns ti))
              (map fst (map column_layout (ti_Columns ti))) (map snd (map column_layout (ti_Columns ti))) nb [],
            WRITE_ROWS_EVENTv2, [zip_with (expected_field fmt_v) (ti_Columns ti) cols]).
Proof.
  destruct (decode_columns_fit fmt_v ti None (ti_Columns ti) cols []) as [Hf Hz]; [done..|]. cbn [length] in Hf, Hz.
  set (event := set_LSN (clientXLogPos s)
    (row_event ChangeTypeInsert now id ti None (Some (decode_columns 0 cols ti None)))).
  assert (emitted (handleInsertMessage chan now data s) = emitted s ++ [event]) as Hem
    by (unfold handleInsertMessage; rewrite Hp, Hti; by apply sendEvent_sent).
  assert (event_columns event = map column_layout (ti_Columns ti)) as Hec by apply event_columns_of.
  assert (change_ok fmt_v event) as Hce.
  { assert (row_fits fmt_v event (decode_columns 0 cols ti None)) as Hrf by (unfold row_fits; by rewrite Hec).
    apply streamed_change_ok; [done..|]. apply Forall_cons. split; [exact Hrf|constructor]. }
  destruct (row_change_reads fmt_v now' event sv Hsv Hce (fun evs s' => Hsmall event evs s' Hem))
    as (e1 & e2 & d1 & d2 & nb & H1 & H2 & H3 & H4 & _).
  exists event, e1, e2, d1, d2, nb. split_and!; [done..|]. rewrite H4, Hec.
  change (change_rows event) with [decode_columns 0 cols ti None]. cbn [map]. rewrite Hz.
  do 2 f_equal. f_equal. unfold event. cbn. unfold convertColumns. rewrite !map_map, length_map. done.
Qed.
End pipeline.

(** A table with an integer and a varchar column, and an INSERT of (7, NULL). *)
Definition demo_table : TableInfo :=
  relation_table 42 (str "public") (str "users") [mkRelCol (str "id") 23; mkRelCol (str "name") 1043].
Definition demo_tuple : TupleData := [mkTuple 116 (str "7"); mkTuple 110 []].

Definition demo_logrepl : LogRepl := {|
  Parse := fun data =>
    match data with
    | [73] => Some (InsertMessage 42 (Some demo_tuple))
    | [82] => Some (RelationMessage 42 (str "public") (str "users") [mkRelCol (str "id") 23; mkRelCol (str "name") 1043])
    | _ => None
    end;
  ParseKeepalive := fun _ => None;
  ParseXLogData := fun data => Some (1000, data)
|}.

Definition demo_streamer : PGStreamer :=
  handleRelationMessage (H := demo_logrepl) [82] (new_streamer DefaultServerConfig None).

Definition demo_insert : PGStreamer :=
  handleInsertMessage (H := demo_logrepl) (fun _ => SentNow) 0 [73] demo_streamer.

Lemma demo_insert_small event evs sv' :
  emitted demo_insert = emitted demo_streamer ++ [event] ->
  convertToMySQLEvents 0 event demo_server = (Ok evs, sv') -> events_small (H := lenenc_mysql) (fun _ => []) evs.
Proof.
  intros He Hc.
  assert (event = set_LSN 0 (row_event ChangeTypeInsert 0 42 demo_table None (Some [VInt32 7; VNil]))) as ->.
  { vm_compute in He. injection He as <-. by vm_compute. }
  apply (f_equal fst) in Hc. cbn [fst] in Hc.
  apply (f_equal (fun r => match r with Ok l => l | _ => [] end)) in Hc. subst evs.
  match goal with |- events_small _ ?l => assert (forallb (fun ev =>
     match encode_payload (H := lenenc_mysql) (fun _ => []) NewBinlogEncoder (ev_Event ev) with
     | Ok p => Z.of_nat (length p) + 23 <? 2 ^ 32 | _ => true end) l = true) as Hb by (vm_compute; reflexivity) end.
  rewrite forallb_forall in Hb. apply Forall_forall. intros ev Hin p Hp.
  specialize (Hb ev (proj1 (list_elem_of_In _ _) Hin)). cbn beta in Hb. rewrite Hp in Hb. by apply Z.ltb_lt.
Qed.

Lemma insert_pipeline_witness :
  exists d1 d2 nb,
    replica_dml d1 d2 =
      Some (mkTableMapEvent 42 0 (str "public") (str "users") 2 [MYSQL_TYPE_LONG; MYSQL_TYPE_VAR_STRING]
              [0; 65535] nb [], WRITE_ROWS_EVENTv2, [[Some [7; 0; 0; 0]; None]]).
Proof.
  destruct (@insert_pipeline demo_logrepl lenenc_mysql lenenc_mysql_laws (fun _ => []) (fun _ => SentNow) 0 0 [73]
    demo_streamer demo_server 42 demo_table demo_tuple) as (ev & e1 & e2 & d1 & d2 & nb & _ & _ & _ & _ & Hr).
  - reflexivity.
  - reflexivity.
  - unfold table_ok, in_width. simpl. lia.
  - constructor; [right; split; [reflexivity|vm_compute; reflexivity]|constructor; [by left|constructor]].
  - reflexivity.
  - unfold server_ok, in_width. simpl. lia.
  - exact demo_insert_small.
  - exists d1, d2, nb. exact Hr.
Defined.
