(* ===== verification/StreamerLoop.v ===== *)
(** * The streamer's loops: order, loss, checkpoints and reconnection

    Theorems about the stateful part of [pkg/replication/pg_streamer.go]. *)

From Stdlib Require Import ZArith Lia.
From stdpp Require Import base numbers list strings gmap.
From S2P Require Import Prelude GoStd GoFloat BinlogValue BinlogEvent EventFacts.
From S2P Require Import ReplServer ServerFacts ServerOrder PGStreamer StreamerFacts.
Open Scope Z_scope.

Section stream.
Context `{LogRepl}.
Variable chan : nat -> chan_outcome.

(** ** What the streamer emits *)

(** The XLogData messages of a stream, each with the time it is handled. *)
Definition process (msgs : list (Z * bytes)) (s : PGStreamer) : PGStreamer :=
  fold_left (fun s m => handleXLogData chan m.1 m.2 s) msgs s.

(** *** The changes a stream stands for

    In the terms of PostgreSQL's protocol: relations as they were announced, and
    the columns of a tuple one by one. *)
Definition relation := (bytes * bytes * list RelationColumn)%type.

Definition column_of (c : RelationColumn) : Column := mkCol (rc_Name c) (pgTypeToMySQLType (rc_DataType c)) false false.

(** A column is null, unchanged since the old tuple, a text of the type of its
    column, or binary. *)
Definition cell (c : TupleColumn) (type : option Z) (old : option GoValue) : GoValue :=
  if tc_DataType c =? 110 then VNil
  else if tc_DataType c =? 117 then default VNil old
  else if tc_DataType c =? 116 then
    match type with Some oid => convertPGValue (tc_Data c) oid | None => VString (tc_Data c) end
  else VBytes (tc_Data c).
Definition cells (cols : list RelationColumn) (old : option (list GoValue)) (tuple : TupleData) : list GoValue :=
  imap (fun i c => cell c (rc_DataType <$> cols !! i) (old ≫= fun vs => vs !! i)) tuple.

(** The changes of a message, when [rels] were announced before it. *)
Definition message_events (now lsn : Z) (rels : gmap Z relation) (data : bytes) : list ChangeEvent :=
  let known id f := match rels !! id with Some (namespace, name, cols) => [f namespace name cols] | None => [] end in
  match data with
  | [] => []
  | b :: _ =>
      if b =? 66 then [mkChange ChangeTypeBegin now [] [] [] 0 [] None None lsn]
      else if b =? 67 then [mkChange ChangeTypeCommit now [] [] [] 0 [] None None lsn]
      else match Parse data with
      | Some (InsertMessage id new) =>
          if b =? 73 then known id (fun namespace name cols =>
            mkChange ChangeTypeInsert now [] namespace name id (column_of <$> cols) None (cells cols None <$> new) lsn)
          else []
      | Some (UpdateMessage id old new) =>
          if b =? 85 then known id (fun namespace name cols =>
            let before := cells cols None <$> old in
            mkChange ChangeTypeUpdate now [] namespace name id (column_of <$> cols) before (cells cols before <$> new) lsn)
          else []
      | Some (DeleteMessage id old) =>
          if b =? 68 then known id (fun namespace name cols =>
            mkChange ChangeTypeDelete now [] namespace name id (column_of <$> cols) (cells cols None <$> old) None lsn)
          else []
      | Some (TruncateMessage ids) =>
          if b =? 84 then ids ≫= fun id => known id (fun namespace name cols =>
            mkChange ChangeTypeTruncate now [] namespace name id [] None None lsn)
          else []
      | _ => []
      end
  end.

Definition message_relations (rels : gmap Z relation) (data : bytes) : gmap Z relation :=
  match data with
  | b :: _ =>
      if b =? 82 then
        match Parse data with
        | Some (RelationMessage id namespace name cols) => <[id := (namespace, name, cols)]> rels
        | _ => rels
        end
      else rels
  | [] => rels
  end.

(** The changes of a stream; the position an event carries is the end of the
    message before its own. *)
Fixpoint stream_events (lsn : Z) (rels : gmap Z relation) (msgs : list (Z * bytes)) : list ChangeEvent :=
  match msgs with
  | [] => []
  | (now, data) :: msgs =>
      match ParseXLogData data with
      | None => stream_events lsn rels msgs
      | Some (start, wal) =>
          message_events now lsn rels wal
          ++ stream_events (wrap 64 (start + Z.of_nat (length wal))) (message_relations rels wal) msgs
      end
  end.

Definition wal_messages (msgs : list (Z * bytes)) : list bytes := omap (fun m => snd <$> ParseXLogData m.2) msgs.

(** The table cache for the relations announced. *)
Definition table_of (id : Z) (r : relation) : TableInfo := let '(namespace, name, cols) := r in relation_table id namespace name cols.
Definition tables_of (rels : gmap Z relation) : gmap Z TableInfo := map_imap (fun id r => Some (table_of id r)) rels.

(** The protocol's order: row changes and truncations only between BEGIN and
    COMMIT. *)
Fixpoint wal_wellformed (opened : bool) (msgs : list bytes) : bool :=
  match msgs with
  | [] => true
  | data :: msgs' =>
      match data with
      | [] => wal_wellformed opened msgs'
      | b :: _ =>
          if b =? 66 then negb opened && wal_wellformed true msgs'
          else if b =? 67 then opened && wal_wellformed false msgs'
          else if (b =? 73) || (b =? 85) || (b =? 68) || (b =? 84) then opened && wal_wellformed opened msgs'
          else wal_wellformed opened msgs'
      end
  end.

Hypothesis chan_ok : forall n, chan_delivers (chan n) = true.

(** [s'] is [s] with [evs] emitted, the tables and the position kept. *)
Definition emits (evs : list ChangeEvent) (s s' : PGStreamer) : Prop :=
  emitted s' = emitted s ++ evs /\ dropped s' = dropped s /\ tableCache s' = tableCache s /\
  clientXLogPos s' = clientXLogPos s.

Lemma emits_nil s : emits [] s s.
Proof. split_and!; [by rewrite app_nil_r|done..]. Qed.

Lemma emits_trans evs evs' s1 s2 s3 : emits evs s1 s2 -> emits evs' s2 s3 -> emits (evs ++ evs') s1 s3.
Proof. intros (H1 & H2 & H3 & H4) (H5 & H6 & H7 & H8). split_and!; [|congruence..]. by rewrite H5, H1, app_assoc. Qed.

Lemma sendEvent_emits event s : emits [set_LSN (clientXLogPos s) event] s (sendEvent chan event s).
Proof. unfold sendEvent. by rewrite chan_ok. Qed.

Lemma tables_lookup rels id : tables_of rels !! id = table_of id <$> rels !! id.
Proof. unfold tables_of. rewrite map_lookup_imap. by destruct (rels !! id). Qed.

Lemma decode_cells namespace name id cols old tuple : forall k,
  decode_columns k tuple (relation_table id namespace name cols) old
  = imap (fun i c => cell c (rc_DataType <$> cols !! (k + i)%nat) (old ≫= fun vs => vs !! (k + i)%nat)) tuple.
Proof.
  induction tuple as [|c tuple IH]; intros k; [done|]. cbn [decode_columns imap]. f_equal.
  - unfold cell. rewrite Nat.add_0_r. cbn [ti_Columns relation_table]. rewrite list_lookup_fmap.
    destruct (cols !! k); cbn; repeat case_match; done.
  - etrans; [apply IH|]. apply imap_ext. intros i x _. cbn. by rewrite Nat.add_succ_r.
Qed.

Lemma decode_tuple namespace name id cols old tuple :
  decodeTupleData tuple (relation_table id namespace name cols) old = cells cols old <$> tuple.
Proof. destruct tuple as [tuple|]; [|done]. cbn. f_equal. apply (decode_cells _ _ _ _ _ _ 0). Qed.

Lemma columns_of namespace name id cols : convertColumns (relation_table id namespace name cols) = column_of <$> cols.
Proof. unfold convertColumns. cbn. induction cols as [|c cols IH]; [done|]. cbn. by rewrite IH. Qed.

Lemma truncate_all_emits now rels ids : forall s, tableCache s = tables_of rels ->
  emits (ids ≫= fun id => match rels !! id with
           | Some (namespace, name, cols) => [mkChange ChangeTypeTruncate now [] namespace name id [] None None (clientXLogPos s)]
           | None => [] end) s (truncate_all chan now ids s).
Proof.
  induction ids as [|id ids IH]; intros s Ht; [apply emits_nil|].
  cbn [truncate_all mbind list_bind]. unfold getTableInfo. rewrite Ht, tables_lookup.
  destruct (rels !! id) as [[[namespace name] cols]|]; [|by apply IH]. cbn [fmap option_fmap option_map table_of].
  match goal with |- context [sendEvent chan ?e s] => pose proof (sendEvent_emits e s) as Hs; set (s1 := sendEvent chan e s) in * end.
  destruct Hs as (H1 & H2 & H3 & H4). specialize (IH s1 ltac:(congruence)). rewrite H4 in IH.
  eapply emits_trans; [by split_and!|exact IH].
Qed.

Lemma message_emits now data rels s : tableCache s = tables_of rels ->
  let s' := parseLogicalReplicationMessage chan now data s in
  emitted s' = emitted s ++ message_events now (clientXLogPos s) rels data /\ dropped s' = dropped s
  /\ tableCache s' = tables_of (message_relations rels data) /\ clientXLogPos s' = clientXLogPos s.
Proof.
  intros Ht. destruct data as [|b data]; [cbn; by rewrite app_nil_r|].
  unfold parseLogicalReplicationMessage, message_relations.
  destruct (Z.eqb_spec b 82) as [->|].
  { unfold message_events, handleRelationMessage. cbn [Z.eqb Pos.eqb].
    destruct (Parse (82 :: data)) as [[]|]; cbn; rewrite ?app_nil_r; split_and!; try done.
    rewrite Ht. unfold tables_of. by rewrite map_imap_insert_Some with (y := table_of RelationID (Namespace, RelationName, Columns)). }
  enough (emits (message_events now (clientXLogPos s) rels (b :: data)) s (if b =? 66 then handleBeginMessage chan now s
    else if b =? 67 then handleCommitMessage chan now s
    else if b =? 73 then handleInsertMessage chan now (b :: data) s
    else if b =? 85 then handleUpdateMessage chan now (b :: data) s
    else if b =? 68 then handleDeleteMessage chan now (b :: data) s
    else if b =? 84 then handleTruncateMessage chan now (b :: data) s else s)) as (H1 & H2 & H3 & H4)
    by (split_and!; congruence).
  unfold message_events.
  destruct (Z.eqb_spec b 66); [apply sendEvent_emits|]. destruct (Z.eqb_spec b 67); [apply sendEvent_emits|].
  unfold handleInsertMessage, handleUpdateMessage, handleDeleteMessage, handleTruncateMessage, getTableInfo.
  destruct (Parse (b :: data)) as [[]|];
    repeat match goal with |- context [b =? ?k] => destruct (Z.eqb_spec b k); try subst b; try lia end;
    try apply emits_nil; try congruence; try (by apply truncate_all_emits).
  all: rewrite Ht, tables_lookup; destruct (rels !! RelationID) as [[[namespace name] cols]|]; [|apply emits_nil].
  all: cbn [fmap option_fmap option_map table_of Z.eqb Pos.eqb]; rewrite !decode_tuple;
    match goal with |- emits [?e] ?st (sendEvent _ ?f _) =>
      replace e with (set_LSN (clientXLogPos st) f) by (unfold row_event; by rewrite columns_of) end;
    apply sendEvent_emits.
Qed.

(** *** Transactions *)

Fixpoint pg_types (opened : bool) (types : list ChangeType) : bool :=
  match types with
  | [] => true
  | t :: types' =>
      match t, opened with
      | ChangeTypeBegin, false => pg_types true types'
      | ChangeTypeCommit, true => pg_types false types'
      | (ChangeTypeInsert | ChangeTypeUpdate | ChangeTypeDelete | ChangeTypeTruncate), true => pg_types true types'
      | _, _ => false
      end
  end.

Lemma pg_wellformed_types now evs : forall opened,
  pg_wellformed opened (map (pair now) evs) = pg_types opened (map ce_Type evs).
Proof.
  induction evs as [|e evs IH]; intros opened; [done|]. cbn [map pg_wellformed pg_types].
  destruct (ce_Type e), opened; try done; apply IH.
Qed.

Definition is_row (e : ChangeEvent) : Prop := is_dml (ce_Type e) = true \/ ce_Type e = ChangeTypeTruncate.

Lemma pg_types_rows evs types : Forall is_row evs -> pg_types true (map ce_Type evs ++ types) = pg_types true types.
Proof.
  induction 1 as [|e evs He Hes IH]; [done|]. cbn. destruct He as [He|He]; [|by rewrite He].
  destruct (ce_Type e); try discriminate; exact IH.
Qed.

Lemma message_events_rows now lsn rels b data :
  b <> 66 -> b <> 67 ->
  Forall is_row (message_events now lsn rels (b :: data)) /\
  ((b =? 73) || (b =? 85) || (b =? 68) || (b =? 84) = false -> message_events now lsn rels (b :: data) = []).
Proof.
  intros H1 H2. unfold message_events. rewrite (proj2 (Z.eqb_neq b 66)), (proj2 (Z.eqb_neq b 67)) by done.
  destruct (Parse _) as [[]|]; try (by split); split;
    repeat match goal with |- context [b =? ?k] => destruct (Z.eqb_spec b k) end; try done;
    try (destruct (rels !! RelationID) as [[[? ?] ?]|]; [apply Forall_singleton; by left|constructor]).
  induction RelationIDs as [|id ids IH]; [constructor|]. cbn. apply Forall_app. split; [|exact IH].
  destruct (rels !! id) as [[[? ?] ?]|]; [apply Forall_singleton; by right|constructor].
Qed.

Lemma stream_events_wellformed msgs : forall opened lsn rels,
  wal_wellformed opened (wal_messages msgs) = true -> pg_types opened (map ce_Type (stream_events lsn rels msgs)) = true.
Proof.
  induction msgs as [|[now data] msgs IH]; intros opened lsn rels Hwf; [done|].
  cbn [stream_events]. unfold wal_messages in Hwf. cbn [omap list_omap snd] in Hwf.
  destruct (ParseXLogData data) as [[start wal]|]; [|by apply IH]. cbn [fmap option_fmap option_map snd wal_wellformed] in Hwf.
  rewrite map_app. destruct wal as [|b wal]; [by apply IH|].
  destruct (Z.eqb_spec b 66) as [->|]; [|destruct (Z.eqb_spec b 67) as [->|]].
  - apply andb_true_iff in Hwf as [Ho Hwf]. destruct opened; [done|]. by apply IH.
  - apply andb_true_iff in Hwf as [Ho Hwf]. destruct opened; [|done]. by apply IH.
  - destruct (message_events_rows now lsn rels b wal) as [Hr Hn]; [done..|].
    destruct (_ || _ || _ || _) eqn:Eb.
    + apply andb_true_iff in Hwf as [Ho Hwf]. destruct opened; [|done]. rewrite pg_types_rows by done. by apply IH.
    + rewrite Hn by done. by apply IH.
Qed.

End stream.


(** ** Unchanged TOAST columns and lost events *)

Section faults.
Context `{LogRepl}.
Variable chan : nat -> chan_outcome.

Lemma decode_columns_lookup cols ti fb : forall k i tc,
  cols !! i = Some tc -> tc_DataType tc = 117 ->
  decode_columns k cols ti fb !! i =
    Some (match fb with Some vs => default VNil (vs !! (k + i)%nat) | None => VNil end).
Proof.
  induction cols as [|c cols IH]; intros k i tc Hi Ht; [done|]. cbn [decode_columns].
  destruct i as [|i].
  - injection Hi as ->. rewrite Ht, Nat.add_0_r. done.
  - etrans; [exact (IH (S k) i tc Hi Ht)|]. by rewrite Nat.add_succ_r.
Qed.

(** unchanged TOAST columns of an UPDATE.  A column PostgreSQL marks
    unchanged takes its value from the old tuple when the message has one.
    Without one (the table's replica identity is not FULL) it becomes NULL, and
    since the before image falls back to the new values, the replica is told
    that the column was NULL before and after. *)
Theorem update_toast now data s id ti old cols
  (Hp : Parse data = Some (UpdateMessage id old (Some cols))) (Hti : getTableInfo id s = Some ti)
  (Hchan : chan_delivers (chan (sends s)) = true) :
  exists event,
    emitted (handleUpdateMessage chan now data s) = emitted s ++ [event] /\
    OldValues event = decodeTupleData old ti None /\
    (forall i tc, cols !! i = Some tc -> tc_DataType tc = 117 ->
       default [] (NewValues event) !! i =
         Some (match OldValues event with Some vs => default VNil (vs !! i) | None => VNil end)) /\
    (old = None -> change_rows event = [default [] (NewValues event); default [] (NewValues event)]).
Proof.
  unfold handleUpdateMessage. rewrite Hp, Hti. unfold sendEvent. rewrite Hchan.
  eexists. split; [reflexivity|]. split_and!; [done| |by intros ->].
  intros i tc Hi Ht. by apply (decode_columns_lookup cols ti _ 0 i tc).
Qed.

(** an event the channel does not take is lost for good.  When the consumer
    stays too slow, the event is dropped, yet the position moves past its
    message all the same: the next standby update and the next checkpoint
    acknowledge a change that no replica was sent. *)
Theorem dropped_event_acknowledged now raw start b wal s
  (Hraw : ParseXLogData raw = Some (start, b :: wal)) (Hb : b = 66 \/ b = 67)
  (Hchan : chan_delivers (chan (sends s)) = false) :
  let s' := handleXLogData chan now raw s in
  emitted s' = emitted s /\
  (exists event, dropped s' = dropped s ++ [event] /\ LSN event = clientXLogPos s) /\
  clientXLogPos s' = wrap 64 (start + Z.of_nat (length (b :: wal))).
Proof.
  unfold handleXLogData. rewrite Hraw. destruct Hb as [->| ->]; cbn -[sendEvent Z.of_nat];
    unfold handleBeginMessage, handleCommitMessage, sendEvent; rewrite Hchan; (split_and!; [done| |done]); by eexists.
Qed.
End faults.

Lemma update_toast_witness :
  exists event,
    NewValues event = Some [VInt32 7; VNil] /\ change_rows event = [[VInt32 7; VNil]; [VInt32 7; VNil]].
Proof.
  set (L := {| Parse := fun _ => Some (UpdateMessage 42 None (Some [mkTuple 116 (str "7"); mkTuple 117 []]));
               ParseKeepalive := fun _ => None; ParseXLogData := fun d => Some (0, d) |}).
  destruct (@update_toast L (fun _ => SentNow) 0 [85] demo_streamer 42 demo_table None
    [mkTuple 116 (str "7"); mkTuple 117 []] eq_refl eq_refl eq_refl) as (event & He & _ & _ & Hr).
  vm_compute in He. injection He as <-. eexists. split; [|exact (Hr eq_refl)]. reflexivity.
Defined.

Lemma dropped_event_acknowledged_witness :
  let s' := handleXLogData (H := demo_logrepl) (fun _ => TimedOut) 0 [67] demo_streamer in
  emitted s' = [] /\ clientXLogPos s' = 1001.
Proof.
  destruct (@dropped_event_acknowledged demo_logrepl (fun _ => TimedOut) 0 [67] 1000 67 [] demo_streamer)
    as (H1 & _ & H3); [reflexivity|by right|reflexivity|]. split; [exact H1|]. rewrite H3. reflexivity.
Defined.

(** ** Connections *)

(** A computation that leaves [f] of the state alone and does not panic. *)
Definition keeps {X A} (f : PGStreamer -> X) (m : st PGStreamer A) : Prop :=
  forall s, f (m s).2 = f s /\ (m s).1 <> Panic.

Lemma keeps_ret {X A} (f : PGStreamer -> X) (a : A) : keeps f (sret a).
Proof. done. Qed.
Lemma keeps_err {X A} (f : PGStreamer -> X) m : keeps f (serr (A := A) m).
Proof. done. Qed.
Lemma keeps_get {X A} (f : PGStreamer -> X) (g : PGStreamer -> A) : keeps f (sget g).
Proof. done. Qed.
Lemma keeps_mod {X} (f : PGStreamer -> X) g : (forall s, f (g s) = f s) -> keeps f (smod g).
Proof. intros Hg s. split; [apply Hg|done]. Qed.
Lemma keeps_bind {X A B} (f : PGStreamer -> X) (c : st PGStreamer A) (k : A -> st PGStreamer B) :
  keeps f c -> (forall a, keeps f (k a)) -> keeps f (sbind c k).
Proof.
  intros Hc Hk s. unfold sbind. destruct (Hc s) as [H1 H2].
  destruct (c s) as [[a|m|] s']; cbn in *; [|done..]. rewrite <- H1. apply Hk.
Qed.
Lemma keeps_try {X A} (f : PGStreamer -> X) (c : st PGStreamer A) : keeps f c -> keeps f (stry c).
Proof. intros Hc s. unfold stry. destruct (Hc s) as [H1 H2]. by destruct (c s) as [[a|m|] s']. Qed.

Section connections.
Variable ext : nat -> ext_result.

(** What establishing connections never changes. *)
Definition persistent (s : PGStreamer) := (st_config s, clientXLogPos s, emitted s, checkpoint_file s, tableCache s).

(** The calls of a helper other than [connect] leave the connections alone, up
    to the admin connection [ensurePublication] opens. *)
Definition main_conn (s : PGStreamer) := (persistent s, conn s).

Lemma call_keeps {X} (f : PGStreamer -> X) : (forall s n, f (with_calls n s) = f s) -> keeps f (call ext).
Proof. intros Hf s. split; [apply Hf|done]. Qed.

Lemma set_identity_keeps rows : keeps (fun s => (main_conn s, adminConn s)) (set_identity ext rows).
Proof.
  induction rows as [|row rows IH]; [apply keeps_ret|]. destruct row as [|schema [|table row]]; [exact IH..|].
  cbn [set_identity]. apply keeps_bind; [by apply call_keeps|]. intros r. case_match; [exact IH|].
  apply keeps_bind; [|intros _; exact IH]. by apply keeps_mod.
Qed.

Lemma setReplicaIdentity_keeps : keeps (fun s => (main_conn s, adminConn s)) (setReplicaIdentityForAllTables ext).
Proof.
  unfold setReplicaIdentityForAllTables. apply keeps_bind; [apply keeps_get|]. intros a.
  assert (keeps (fun s => (main_conn s, adminConn s)) (sbind (call ext) (fun r => match r with
    | XOk rows => set_identity ext rows
    | XPgErr m | XErr m => serr (str "failed to query tables: " ++ m) end))) as Hq.
  { apply keeps_bind; [by apply call_keeps|]. intros []; [apply set_identity_keeps|apply keeps_err..]. }
  destruct a; [apply keeps_err|exact Hq..].
Qed.

Lemma ensurePublication_spec s :
  let r := ensurePublication ext s in
  main_conn r.2 = main_conn s /\ r.1 <> Panic /\ (r.1 = Ok tt -> adminConn r.2 = OpenConn).
Proof.
  unfold ensurePublication, call_or, call, sbind, smod, stry, sret, serr.
  cbn -[setReplicaIdentityForAllTables main_conn str duplicate_object bytes_eqb].
  destruct (ext_error (ext (calls s))); [done|].
  cbn -[setReplicaIdentityForAllTables main_conn str duplicate_object bytes_eqb].
  destruct (ext (S (calls s))) as [rows|code|m]; [|destruct (bytes_eqb code duplicate_object)|];
    cbn -[setReplicaIdentityForAllTables main_conn str duplicate_object bytes_eqb];
    try (split_and!; [reflexivity|discriminate|intros [=]]).
  all: match goal with |- context [setReplicaIdentityForAllTables ext ?s1] =>
    destruct (setReplicaIdentity_keeps s1) as [Hk Hp]; destruct (setReplicaIdentityForAllTables ext s1) as [r1 s2] end;
    cbn in Hk, Hp; injection Hk as Hm Ha; destruct r1; cbn; try done; split_and!; unfold main_conn, persistent; congruence.
Qed.

(** Outcome of [connect]: both connections open, or the main one not open. *)
Lemma connect_spec s :
  let r := connect ext s in
  persistent r.2 = persistent s /\ r.1 <> Panic /\
  (r.1 = Ok tt -> conn r.2 = OpenConn /\ adminConn r.2 = OpenConn) /\
  (r.1 <> Ok tt -> conn r.2 = conn s \/ conn r.2 = ClosedConn).
Proof.
  cbv zeta. destruct (connect ext s) as [r s'] eqn:E. cbn [fst snd].
  unfold connect, call_or, call, sbind at 1 2 3 4 in E.
  cbn -[ensureReplicationSlot ensurePublication persistent stry str] in E.
  destruct (ext_error (ext (calls s))) as [m|].
  { injection E as <- <-. split_and!; [reflexivity|discriminate|intros [=]|by left]. }
  cbn -[ensureReplicationSlot ensurePublication persistent stry str] in E.
  destruct (ext_error (ext (S (calls s)))) as [m|].
  { injection E as <- <-. split_and!; [reflexivity|discriminate|intros [=]|by left]. }
  cbn -[ensureReplicationSlot ensurePublication persistent stry str] in E.
  set (s1 := with_conns OpenConn _ _) in E.
  assert (exists s2, (exists r, stry (ensureReplicationSlot ext) s1 = (Ok r, s2) /\ r <> Panic) /\
    persistent s2 = persistent s /\ conn s2 = OpenConn) as (s2 & (r1 & E1 & Hr) & Hps & Hc2).
  { unfold ensureReplicationSlot, call, sbind, stry.
    destruct (ext (calls s1)) as [rows|code|m]; [|destruct (bytes_eqb code duplicate_object)|];
      eexists; (split; [eexists; split; [reflexivity|discriminate]|done]). }
  unfold sbind at 1 in E. rewrite E1 in E.
  destruct r1 as [[]|m|]; [|injection E as <- <-; split_and!; [exact Hps|discriminate|intros [=]|by right]|done].
  unfold sbind, stry in E. pose proof (ensurePublication_spec s2) as (Hk & Hp & Ha).
  destruct (ensurePublication ext s2) as [[[]|m|] s3]; cbn [fst snd] in *; [| |done];
    injection E as <- <-; injection Hk as Hk1 Hk2 Hk3 Hk4 Hk5 Hk6; injection Hps as Hq1 Hq2 Hq3 Hq4 Hq5.
  - split_and!; [unfold persistent; congruence|discriminate| |done]. intros _. split; [congruence|by apply Ha].
  - split_and!; [unfold persistent; cbn; congruence|discriminate|intros [=]|by right].
Qed.
End connections.

(** ** Checkpoints *)

Section checkpoints.
Variable marshal : Checkpoint -> res bytes.
Variable unmarshal : bytes -> option Checkpoint.

(** [encoding/json] reads back the structure it wrote, when its strings are
    plain ASCII. *)
Hypothesis json_roundtrip : forall cp data,
  ascii_text (cp_SlotName cp) -> marshal cp = Ok data -> unmarshal data = Some cp.

Lemma NewPGStreamer_pos ext c file fault :
  clientXLogPos (NewPGStreamer ext unmarshal c file fault).2 =
  clientXLogPos (loadCheckpoint unmarshal fault (new_streamer c file)).2.
Proof.
  unfold NewPGStreamer, sbind at 1, stry at 1.
  destruct (loadCheckpoint unmarshal fault (new_streamer c file)) as [r s1] eqn:E1.
  assert (st_running s1 = false /\ r <> Panic) as [Hrun Hr].
  { revert E1. unfold loadCheckpoint, sbind, sget, sret, serr, smod.
    repeat case_match; intros [= <- <-]; (split; [done|discriminate]). }
  destruct (st_Start ext s1) as [r2 s2] eqn:E2.
  assert (clientXLogPos s2 = clientXLogPos s1 /\ r2 <> Panic) as [Hp Hnp].
  { unfold st_Start, sbind, sget, stry in E2. rewrite Hrun in E2. cbv iota in E2. unfold smod at 1 in E2.
    pose proof (connect_spec ext (with_lifecycle (st_done s1) true s1)) as (Hk & Hcp & _).
    destruct (connect ext _) as [[[]|m|] s3]; cbn [fst snd] in *; [| |done];
      injection E2 as <- <-; injection Hk as _ Hk _ _ _; (split; [exact Hk|discriminate]). }
  destruct r as [u|m|]; [| |done]; unfold sbind, stry; rewrite E2; by destruct r2 as [[]|m'|].
Qed.

(** C31: checkpoints survive crashes and restarts.  A save that succeeds makes the
    next streamer for the same slot resume at exactly the saved position,
    however its connection goes; a save that fails at any step, a torn
    temporary file included, leaves the previous checkpoint in place; a
    checkpoint of another slot is ignored and an unreadable or corrupt one
    makes the streamer start from position 0 instead of failing. *)
Theorem checkpoint_recovery fault now s
  (Hfile : CheckpointFile (st_config s) <> []) (Hslot : ascii_text (PGSlotName (st_config s))) :
  (forall r s', saveCheckpoint marshal fault now s = (r, s') ->
     (r = Ok tt -> forall ext c, CheckpointFile c <> [] ->
        PGSlotName (st_config s) <> [] ->
        clientXLogPos (NewPGStreamer ext unmarshal c (checkpoint_file s') false).2 =
          if bytes_eqb (PGSlotName (st_config s)) (PGSlotName c) then clientXLogPos s else 0) /\
     (r <> Ok tt -> checkpoint_file s' = checkpoint_file s)) /\
  (forall ext c data read_fault, read_fault = true \/ unmarshal data = None ->
     clientXLogPos (NewPGStreamer ext unmarshal c (Some data) read_fault).2 = 0).
Proof.
  split.
  - intros r s' E. unfold saveCheckpoint, sbind, sget in E. rewrite bytes_eqb_nil in E by done.
    destruct (marshal _) as [data|m|] eqn:Em; [|by injection E as <- <-..].
    destruct fault; injection E as <- <-; (split; [|done]); try (by intros [=]).
    intros _ ext c Hc Hne. rewrite NewPGStreamer_pos.
    unfold loadCheckpoint, sbind, sget. cbn -[bytes_eqb]. rewrite bytes_eqb_nil by done.
    rewrite (json_roundtrip (mkCheckpoint (clientXLogPos s) now (PGSlotName (st_config s))) data Hslot Em). cbn [cp_SlotName cp_LSN]. rewrite bytes_eqb_nil by done. cbn [negb andb].
    by destruct (bytes_eqb _ (PGSlotName c)).
  - intros ext c data rf Hbad. rewrite NewPGStreamer_pos. unfold loadCheckpoint, sbind, sget. cbn -[bytes_eqb].
    destruct (bytes_eqb _ []); [done|]. destruct rf; [done|]. destruct Hbad as [|Hbad]; [done|]. by rewrite Hbad.
Qed.
End checkpoints.

(** A JSON-like encoding that keeps the fields apart. *)
Definition demo_marshal (cp : Checkpoint) : res bytes := Ok (cp_LSN cp :: cp_Timestamp cp :: cp_SlotName cp).
Definition demo_unmarshal (data : bytes) : option Checkpoint :=
  match data with lsn :: ts :: slot => Some (mkCheckpoint lsn ts slot) | _ => None end.

Lemma checkpoint_recovery_witness :
  let s := with_pos 4711 (new_streamer DefaultServerConfig None) in
  clientXLogPos (NewPGStreamer (fun _ => XOk []) demo_unmarshal DefaultServerConfig
    (checkpoint_file (saveCheckpoint demo_marshal FsOk 0 s).2) false).2 = 4711 /\
  checkpoint_file (saveCheckpoint demo_marshal (FsWrite 1) 0 s).2 = None.
Proof.
  intros s.
  assert (forall fault, (forall r s', saveCheckpoint demo_marshal fault 0 s = (r, s') ->
     (r = Ok tt -> forall ext c, CheckpointFile c <> [] -> PGSlotName (st_config s) <> [] ->
        clientXLogPos (NewPGStreamer ext demo_unmarshal c (checkpoint_file s') false).2 =
          if bytes_eqb (PGSlotName (st_config s)) (PGSlotName c) then clientXLogPos s else 0) /\
     (r <> Ok tt -> checkpoint_file s' = checkpoint_file s))) as Hrec.
  { intros fault. apply (checkpoint_recovery demo_marshal demo_unmarshal).
    - intros [lsn ts slot] data _ [= <-]. reflexivity.
    - discriminate.
    - apply (Forall_impl (fun c => (32 <=? c) && (c <? 127) = true)).
      + by repeat constructor.
      + intros c Hc. lia. }
  split.
  - destruct (saveCheckpoint demo_marshal FsOk 0 s) as [r s'] eqn:E. cbn [snd].
    etrans; [apply (Hrec FsOk r s' E); [by vm_compute in E; injection E as <- _|discriminate..]|reflexivity].
  - destruct (saveCheckpoint demo_marshal (FsWrite 1) 0 s) as [r s'] eqn:E. cbn [snd].
    apply (Hrec (FsWrite 1) r s' E). vm_compute in E. injection E as <- _. discriminate.
Defined.

(** ** Reconnection *)

Section reconnection.
Context `{LogRepl}.
Variable chan : nat -> chan_outcome.
Variable ext : nat -> ext_result.

(** The wait before the [i]-th attempt. *)
Definition wait_before (c : ServerConfig) (i : nat) : Z :=
  match i with O => initial_wait c | _ => Z.min (initial_wait c * 2 ^ Z.of_nat i) (max_wait c) end.

Definition waits_ok (c : ServerConfig) : Prop := initial_wait c < 2 ^ 62 /\ max_wait c < 2 ^ 62.

Lemma initial_wait_pos c : 0 < initial_wait c.
Proof. unfold initial_wait, second. case_match; lia. Qed.
Lemma max_wait_pos c : 0 < max_wait c.
Proof. unfold max_wait, second. case_match; lia. Qed.

Lemma backoff_next c i : waits_ok c -> backoff c (wait_before c i) = wait_before c (S i).
Proof.
  intros [H1 H2]. pose proof (initial_wait_pos c). pose proof (max_wait_pos c). unfold backoff.
  assert (0 < wait_before c i < 2 ^ 62) as Hb.
  { unfold wait_before. destruct i; [lia|]. pose proof (Z.pow_pos_nonneg 2 (Z.of_nat (S i))). nia. }
  rewrite swrap_id by (unfold in_swidth; lia).
  assert (forall a m, (if m <? a then m else a) = Z.min a m) as Hmin
    by (intros a m; destruct (Z.ltb_spec m a); lia).
  rewrite Hmin. unfold wait_before. destruct i as [|i]; [change (2 ^ Z.of_nat 1) with 2; lia|].
  rewrite (Nat2Z.inj_succ (S i)), Z.pow_succ_r by lia. lia.
Qed.

(** The stream changes neither the configuration nor the connections. *)
Definition links (s : PGStreamer) : ServerConfig * conn_state * nat := (st_config s, conn s, calls s).

Lemma sendEvent_links event s : links (sendEvent chan event s) = links s.
Proof. unfold sendEvent. by case_match. Qed.
Lemma truncate_links now ids : forall s, links (truncate_all chan now ids s) = links s.
Proof.
  induction ids as [|id ids IH]; intros s; [done|]. cbn. destruct (getTableInfo id s); [|done].
  by rewrite IH, sendEvent_links.
Qed.
Lemma message_links now data s : links (parseLogicalReplicationMessage chan now data s) = links s.
Proof.
  unfold parseLogicalReplicationMessage, handleRelationMessage, handleBeginMessage, handleCommitMessage, handleInsertMessage,
    handleUpdateMessage, handleDeleteMessage, handleTruncateMessage.
  repeat case_match; by rewrite ?sendEvent_links, ?truncate_links.
Qed.
Lemma turns_links turns : forall s, links (stream_turns chan turns s).2 = links s.
Proof.
  induction turns as [|t turns IH]; intros s; [done|]. cbn [stream_turns]. destruct (t_done t); [done|].
  destruct (if after (t_now t) (deadline s) then t_standby t else Ok tt) as [[]|m|]; [|done..].
  set (s1 := if _ : bool then _ else s). assert (links s1 = links s) as Hs1 by (unfold s1; by case_match).
  destruct (t_msg t) as [|cancelled m| |[|b data]|]; try (by rewrite IH); [by destruct cancelled|done|].
  rewrite IH, <- Hs1. unfold handleKeepalive, handleXLogData.
  repeat case_match; try done. unfold links. cbn. exact (message_links _ _ _).
Qed.
Lemma doStream_links start now turns s : links (doStream chan start now turns s).2 = links s.
Proof. unfold doStream. destruct (start (conn s)); [|done..]. by rewrite turns_links. Qed.

Lemma reconnect_spec s :
  let r := reconnect ext s in
  st_config r.2 = st_config s /\ r.1 <> Panic /\
  (r.1 = Ok tt -> conn r.2 = OpenConn /\ adminConn r.2 = OpenConn) /\
  (r.1 <> Ok tt -> conn r.2 = NoConn \/ conn r.2 = ClosedConn).
Proof.
  unfold reconnect, sbind, smod. pose proof (connect_spec ext (with_conns NoConn NoConn s)) as (Hk & Hp & Hok & Herr).
  cbv zeta in *. destruct (connect ext (with_conns NoConn NoConn s)) as [r s']. cbn [fst snd] in *.
  injection Hk as Hk _ _ _ _. by split_and!.
Qed.

(** How a reconnection ends: with no connection at all, with one that PostgreSQL
    then refused (and that is closed), or with a new one. *)
Inductive attempt := NotDialled | Refused | Reconnected.
Definition outcome (s : PGStreamer) : attempt :=
  match reconnect ext s with
  | (Ok _, _) => Reconnected
  | (_, s') => match conn s' with NoConn => NotDialled | _ => Refused end
  end.

(** Every reconnection from [s] on ends like this; what PostgreSQL answers
    depends on the number of calls made so far. *)
Definition every_reconnection (o : attempt) (s : PGStreamer) : Prop :=
  exists P : nat -> Prop, P (calls s) /\ forall s, P (calls s) -> outcome s = o /\ P (calls (reconnect ext s).2).

(** A round in which the stream breaks.  [StartReplication] uses its connection,
    so a nil pointer is a panic; with any other the round ends in an error. *)
Record broken (r : round) : Prop := {
  broken_on : r_done r = false /\ r_cancelled r = false;
  broken_nil : r_start r NoConn = Panic;
  broken_stream s : conn s <> NoConn -> exists m, (doStream chan (r_start r) (r_now r) (r_turns r) s).1 = Some (Err m)
}.

Lemma nil_round r rounds l s : broken r -> conn s = NoConn -> streamLoop chan ext (r :: rounds) l s = ([], LoopCrashed).
Proof.
  intros [[Hd _] Hn _] Hc. cbn [streamLoop]. rewrite Hd. unfold doStream. by rewrite Hc, Hn.
Qed.

(** A round that breaks and is tried again. *)
Lemma broken_round r rounds l s :
  let c := st_config s in
  broken r -> conn s <> NoConn -> ReconnectEnabled c = true ->
  (ReconnectMaxRetries c <= 0 \/ retryCount l + 1 <= ReconnectMaxRetries c) ->
  exists s0 s' l', links s0 = links s /\ s' = (reconnect ext s0).2 /\ st_config s' = c
    /\ streamLoop chan ext (r :: rounds) l s
       = (let (waits, e) := streamLoop chan ext rounds l' s' in (waitTime l :: waits, e))
    /\ match outcome s0 with
       | NotDialled => conn s' = NoConn
       | Refused => conn s' = ClosedConn /\ l' = mkLoop (retryCount l + 1) (backoff c (waitTime l))
       | Reconnected => conn s' = OpenConn /\ l' = loop_start c
       end.
Proof.
  intros c [[Hd Hcan] Hn Hb] Hs He Hr. destruct (Hb s Hs) as [m Hm]. pose proof (doStream_links (r_start r) (r_now r) (r_turns r) s) as Hl.
  cbn [streamLoop]. rewrite Hd. destruct (doStream chan _ _ _ s) as [res s0]. cbn [fst snd] in *. subst res. exists s0.
  injection Hl as Hc0 Hconn Hcalls. unfold stream_retry. rewrite Hcan, Hc0. fold c. rewrite He. cbn [negb].
  assert ((0 <? ReconnectMaxRetries c) && (ReconnectMaxRetries c <? retryCount l + 1) = false) as ->
    by (apply andb_false_iff; destruct Hr; [left|right]; apply Z.ltb_ge; lia).
  pose proof (reconnect_spec s0) as (Hc & Hp & Hok & Herr). unfold outcome. cbv zeta in *.
  destruct (reconnect ext s0) as [[[]|e|] s'] eqn:Er; cbn [fst snd] in *; [| |done]; eexists s', _.
  - split_and!; [unfold links; by rewrite Hc0, Hconn, Hcalls|done|by etrans|reflexivity|by apply Hok|done].
  - split_and!; [unfold links; by rewrite Hc0, Hconn, Hcalls|done|by etrans|reflexivity|].
    destruct Herr as [E|E]; [done|rewrite E..]; done.
Qed.

(** A round past the limit. *)
Lemma last_round r rounds l s :
  broken r -> conn s <> NoConn -> ReconnectEnabled (st_config s) = true ->
  0 < ReconnectMaxRetries (st_config s) < retryCount l + 1 ->
  streamLoop chan ext (r :: rounds) l s = ([], LoopReturned).
Proof.
  intros [[Hd Hcan] Hn Hb] Hs He Hr. destruct (Hb s Hs) as [m Hm]. pose proof (doStream_links (r_start r) (r_now r) (r_turns r) s) as Hl.
  cbn [streamLoop]. rewrite Hd. destruct (doStream chan _ _ _ s) as [res s0]. cbn [fst snd] in *. subst res.
  injection Hl as Hc0 _ _. unfold stream_retry. rewrite Hcan, Hc0, He. cbn [negb].
  assert ((0 <? _) && (ReconnectMaxRetries (st_config s) <? retryCount l + 1) = true) as ->
    by (apply andb_true_iff; split; apply Z.ltb_lt; lia). done.
Qed.

Section rounds.
Context (c : ServerConfig) (He : ReconnectEnabled c = true) (Hw : waits_ok c) (P : nat -> Prop).

Lemma refused_rounds rounds : Forall broken rounds ->
  (forall s, P (calls s) -> outcome s = Refused /\ P (calls (reconnect ext s).2)) ->
  forall i s, st_config s = c -> P (calls s) -> conn s <> NoConn ->
  streamLoop chan ext rounds (mkLoop (Z.of_nat i) (wait_before c i)) s =
  let k := if 0 <? ReconnectMaxRetries c then Z.to_nat (ReconnectMaxRetries c) else (i + length rounds)%nat in
  (map (wait_before c) (seq i (Nat.min (length rounds) (k - i))), if (length rounds <=? k - i)%nat then LoopAgain else LoopReturned).
Proof.
  intros Hb HP. induction Hb as [|r rounds Hr Hb IH]; intros i s Hc Hs Hn; [done|]. cbv zeta.
  set (k := if 0 <? ReconnectMaxRetries c then Z.to_nat (ReconnectMaxRetries c) else (i + length (r :: rounds))%nat).
  destruct (decide (k <= i)%nat) as [Hk|Hk].
  - assert (0 < ReconnectMaxRetries c) as Hpos by (unfold k in Hk; destruct (Z.ltb_spec 0 (ReconnectMaxRetries c)); [done|cbn in Hk; lia]).
    rewrite last_round; [|done|done|by rewrite Hc| rewrite Hc; cbn [retryCount]; unfold k in Hk; rewrite (proj2 (Z.ltb_lt _ _) Hpos) in Hk; lia].
    replace (k - i)%nat with 0%nat by lia. done.
  - destruct (broken_round r rounds (mkLoop (Z.of_nat i) (wait_before c i)) s) as (s0 & s' & l' & Hl & -> & Hc' & E & Ho);
      [done|done|by rewrite Hc| |].
    { rewrite Hc. cbn [retryCount]. unfold k in Hk. destruct (Z.ltb_spec 0 (ReconnectMaxRetries c)); [right|left]; lia. }
    injection Hl as _ _ Hcalls. destruct (HP s0) as [Hout HP']; [by rewrite Hcalls|]. rewrite Hout in Ho. destruct Ho as [Hcl ->].
    rewrite E, Hc in *. cbn [retryCount waitTime]. rewrite backoff_next by done.
    replace (Z.of_nat i + 1) with (Z.of_nat (S i)) by lia. rewrite (IH (S i)); [|done|done|congruence]. cbv zeta.
    set (k' := if 0 <? ReconnectMaxRetries c then Z.to_nat (ReconnectMaxRetries c) else (S i + length rounds)%nat).
    assert (k' = k) as -> by (unfold k', k; destruct (0 <? _); [done|cbn; lia]).
    replace (k - i)%nat with (S (k - S i)) by lia. cbn [length Nat.min seq map]. done.
Qed.

Lemma reconnected_rounds rounds : Forall broken rounds ->
  (forall s, P (calls s) -> outcome s = Reconnected /\ P (calls (reconnect ext s).2)) ->
  forall s, st_config s = c -> P (calls s) -> conn s <> NoConn ->
  streamLoop chan ext rounds (loop_start c) s = (replicate (length rounds) (initial_wait c), LoopAgain).
Proof.
  intros Hb HP. induction Hb as [|r rounds Hr Hb IH]; intros s Hc Hs Hn; [done|].
  destruct (broken_round r rounds (loop_start c) s) as (s0 & s' & l' & Hl & -> & Hc' & E & Ho);
    [done|done|by rewrite Hc|rewrite Hc; cbn; lia|].
  injection Hl as _ _ Hcalls. destruct (HP s0) as [Hout HP']; [by rewrite Hcalls|]. rewrite Hout in Ho. destruct Ho as [Hcl ->].
  rewrite E, Hc in *. rewrite IH by (done || congruence). done.
Qed.
End rounds.

(** C37: reconnecting after a broken stream.  While the stream breaks in every
    round: if PostgreSQL cannot be reached at all, the streamer waits once,
    gives up its connection, and the next round panics on the nil pointer, which
    ends the process.  If PostgreSQL is reached and refuses (the slot, the
    publication), the waits are the initial one, then twice, four times, ...
    that time, capped at the maximum; without a limit the loop never gives up,
    and with a limit of [N] it gives up after exactly [N] attempts.  If
    reconnecting works, the counter is reset every time, so that the limit is
    never reached and the wait never grows. *)
Theorem reconnect_backoff rounds s
  (He : ReconnectEnabled (st_config s) = true) (Hw : waits_ok (st_config s))
  (Hb : Forall broken rounds) (Hn : conn s <> NoConn) :
  let c := st_config s in
  let out := streamLoop chan ext rounds (loop_start c) s in
  (every_reconnection NotDialled s -> (2 <= length rounds)%nat -> out = ([initial_wait c], LoopCrashed))
  /\ (every_reconnection Refused s ->
       (ReconnectMaxRetries c <= 0 -> out = (map (wait_before c) (seq 0 (length rounds)), LoopAgain))
       /\ forall N, ReconnectMaxRetries c = Z.of_nat N -> (0 < N < length rounds)%nat ->
            out = (map (wait_before c) (seq 0 N), LoopReturned))
  /\ (every_reconnection Reconnected s -> out = (replicate (length rounds) (initial_wait c), LoopAgain)).
Proof.
  intros c out. split_and!.
  - intros (P & Hs & HP) Hlen. destruct rounds as [|r [|r2 rounds]]; [cbn in Hlen; lia..|].
    apply Forall_cons in Hb as [Hr Hb]. apply Forall_cons in Hb as [Hr2 _].
    destruct (broken_round r (r2 :: rounds) (loop_start c) s) as (s0 & s' & l' & Hl & -> & _ & E & Ho);
      [done|done|done|cbn; lia|]. injection Hl as _ _ Hcalls. destruct (HP s0) as [Hout _]; [by rewrite Hcalls|].
    rewrite Hout in Ho. unfold out. rewrite E, nil_round by done. done.
  - intros (P & Hs & HP). pose proof (refused_rounds c He Hw P rounds Hb HP 0 s eq_refl Hs Hn) as Hout. cbv zeta in Hout.
    change (streamLoop chan ext rounds _ s) with out in Hout. rewrite Nat.sub_0_r in Hout. split.
    + intros Hm. rewrite Hout, (proj2 (Z.ltb_ge _ _) Hm). cbn [Nat.add]. by rewrite Nat.min_id, Nat.leb_refl.
    + intros N HN Hlen. rewrite Hout, HN, (proj2 (Z.ltb_lt 0 (Z.of_nat N))), Nat2Z.id by lia.
      rewrite Nat.min_r, (proj2 (Nat.leb_gt _ _)) by lia. done.
  - intros (P & Hs & HP). exact (reconnected_rounds c He P rounds Hb HP s eq_refl Hs Hn).
Qed.
End reconnection.

(** A stream that breaks at once. *)
Definition demo_round : round :=
  mkRound false (fun c => match c with OpenConn => Ok tt | ClosedConn => Err (str "conn closed") | NoConn => Panic end) 0
    [mkTurn false 0 (Ok tt) (ReceiveError false (str "EOF"))] false.
(** The slot is refused at every third call. *)
Definition refusing (n : nat) : ext_result := if (n mod 3 =? 2)%nat then XErr [] else XOk [].

Lemma demo_broken : broken (H := demo_logrepl) (fun _ => SentNow) demo_round.
Proof.
  split; [done|done|]. intros s Hs. unfold demo_round, doStream. cbn [r_start r_now r_turns].
  destruct (conn s); [done| |by eexists]. cbn. by eexists.
Qed.

Lemma refusing_refuses s : (calls s mod 3 = 0)%nat ->
  outcome refusing s = Refused /\ (calls (reconnect refusing s).2 mod 3 = 0)%nat.
Proof.
  intros Hs. assert (exists k, calls s = 3 * k)%nat as [k Hk] by (exists (calls s / 3)%nat; pose proof (Nat.div_mod_eq (calls s) 3); lia).
  unfold outcome, reconnect, connect, call_or, call, ensureReplicationSlot, sbind, smod, stry. cbn -[refusing Nat.mul Nat.modulo].
  rewrite Hk. assert (forall j, (j < 3)%nat -> refusing (j + 3 * k) = if (j =? 2)%nat then XErr [] else XOk []) as Hj.
  { intros j Hj. unfold refusing. rewrite Nat.mul_comm, Nat.Div0.mod_add, Nat.mod_small by lia. done. }
  pose proof (Hj 0%nat ltac:(lia)) as H0. pose proof (Hj 1%nat ltac:(lia)) as H1. pose proof (Hj 2%nat ltac:(lia)) as H2.
  cbn -[refusing Nat.mul Nat.modulo] in H0, H1, H2. rewrite H0. cbn -[refusing Nat.mul Nat.modulo]. rewrite H1. cbn -[refusing Nat.mul Nat.modulo]. rewrite H2. cbn -[Nat.modulo Nat.mul]. split; [done|].
  replace (S (S (S (3 * k)))) with (S k * 3)%nat by lia. apply Nat.Div0.mod_mul.
Qed.

Lemma reconnect_backoff_witness :
  let c := mkServerConfig true 1 [] 0 [] [] [] [] [] [] 0 0 [] 0 true 3 second (3 * second) in
  let s := with_conns OpenConn OpenConn (new_streamer c None) in
  let loop ext n := streamLoop (H := demo_logrepl) (fun _ => SentNow) ext (replicate n demo_round) (loop_start c) s in
  loop (fun _ => XErr []) 5%nat = ([second], LoopCrashed)
  /\ loop refusing 5%nat = ([second; 2 * second; 3 * second], LoopReturned)
  /\ loop (fun _ => XOk []) 5%nat = (replicate 5 second, LoopAgain).
Proof.
  intros c s loop. assert (waits_ok c) as Hw by (split; vm_compute; reflexivity).
  assert (Hb : Forall (broken (H := demo_logrepl) (fun _ => SentNow)) (replicate 5 demo_round)) by (apply Forall_replicate, demo_broken).
  split; [|split].
  - destruct (@reconnect_backoff demo_logrepl (fun _ => SentNow) (fun _ => XErr []) (replicate 5 demo_round) s) as [H1 _];
      [reflexivity|exact Hw|exact Hb|discriminate|]. apply H1; [|cbn; lia]. exists (fun _ => True). split; [exact I|]. intros s0 _. by split.
  - destruct (@reconnect_backoff demo_logrepl (fun _ => SentNow) refusing (replicate 5 demo_round) s) as (_ & H2 & _);
      [reflexivity|exact Hw|exact Hb|discriminate|].
    assert (Hr : every_reconnection refusing Refused s) by (exists (fun n => (n mod 3 = 0)%nat); split; [reflexivity|exact refusing_refuses]).
    destruct (H2 Hr) as [_ Hlim]. etrans; [apply (Hlim 3%nat); [reflexivity|cbn; lia]|reflexivity].
  - destruct (@reconnect_backoff demo_logrepl (fun _ => SentNow) (fun _ => XOk []) (replicate 5 demo_round) s) as (_ & _ & H3);
      [reflexivity|exact Hw|exact Hb|discriminate|]. apply H3. exists (fun _ => True). split; [exact I|]. intros s0 _. by split.
Defined.
