(* ===== verification/BinlogWriter.v ===== *)
(** * The statement binlog

    [pkg/binlog/binlog.go]: the writer that buffers the statements the proxy
    executed and appends them to numbered files, and the reader of those files.

    The directory is a map from file names to contents.  Every system call
    takes a tick, and the oracle [fault] says which ticks fail, so a theorem
    about all oracles is a theorem about all patterns of I/O errors; a failing
    write may still have written [partial] bytes.  [marshal] is [json.Marshal],
    [now_text] the creation time of a file header and [os_error] the text of an
    I/O error.  The directory's name has no pattern characters, so listing it
    does not fail. *)

From Stdlib Require Import ZArith Lia.
From stdpp Require Import base numbers list strings gmap sorting.
From S2P Require Import Prelude GoStd.
Open Scope Z_scope.

(** ** Data *)

Inductive EventType :=
| EventTypeUnknown | EventTypeQuery | EventTypeInsert | EventTypeUpdate | EventTypeDelete
| EventTypeDDL | EventTypeBegin | EventTypeCommit | EventTypeRollback.

#[global] Instance EventType_eq_dec : EqDecision EventType.
Proof. solve_decision. Defined.

(** The [uint8] behind the constant. *)
Definition event_code (t : EventType) : Z :=
  match t with
  | EventTypeUnknown => 0 | EventTypeQuery => 1 | EventTypeInsert => 2 | EventTypeUpdate => 3
  | EventTypeDelete => 4 | EventTypeDDL => 5 | EventTypeBegin => 6 | EventTypeCommit => 7
  | EventTypeRollback => 8
  end.

Definition EventType_String (t : EventType) : bytes :=
  match t with
  | EventTypeQuery => str "QUERY"
  | EventTypeInsert => str "INSERT"
  | EventTypeUpdate => str "UPDATE"
  | EventTypeDelete => str "DELETE"
  | EventTypeDDL => str "DDL"
  | EventTypeBegin => str "BEGIN"
  | EventTypeCommit => str "COMMIT"
  | EventTypeRollback => str "ROLLBACK"
  | EventTypeUnknown => str "UNKNOWN"
  end.

Record LogEvent := mkLogEvent {
  le_Timestamp : GoTime;
  le_Position : Z;
  le_EventType : EventType;
  Database : bytes;
  Table : bytes;
  SessionID : bytes;
  User : bytes;
  ClientIP : bytes;
  MySQLQuery : bytes;
  PGQuery : bytes;
  RowsAffected : Z;
  ExecTime : Z
}.

#[global] Instance LogEvent_eq_dec : EqDecision LogEvent.
Proof. solve_decision. Defined.

Definition set_Position (p : Z) (e : LogEvent) : LogEvent :=
  mkLogEvent (le_Timestamp e) p (le_EventType e) (Database e) (Table e) (SessionID e) (User e)
    (ClientIP e) (MySQLQuery e) (PGQuery e) (RowsAffected e) (ExecTime e).

Record Config := mkConfig {
  Enabled : bool;
  Dir : bytes;
  MaxFileSize : Z;
  MaxFiles : Z;
  SyncMode : bytes;
  Format : bytes;
  FlushInterval : Z;
  BufferSize : Z;
  LogDDL : bool;
  LogDML : bool;
  LogSelect : bool
}.

Definition DefaultConfig : Config :=
  mkConfig false (str "./data/binlog") (100 * 1024 * 1024) 10 (str "async") (str "json")
    1000000000 (64 * 1024) true true false.

(** An open or closed file of the directory. *)
Record File := mkFile { f_name : bytes; f_open : bool }.

Record Writer := mkWriter {
  w_config : Config;
  file : option File;
  buffer : bytes;
  bufPos : nat;
  position : Z;
  fileNum : Z
}.

(** The operating system's side: directory and ticks used. *)
Record OS := mkOS { files : gmap bytes bytes; tick : nat }.

Record World := mkWorld { wr : Writer; os : OS }.

Definition upd_wr (f : Writer -> Writer) (s : World) : World := mkWorld (f (wr s)) (os s).
Definition set_file (f : option File) (w : Writer) : Writer :=
  mkWriter (w_config w) f (buffer w) (bufPos w) (position w) (fileNum w).
Definition set_buffer (b : bytes) (p : nat) (w : Writer) : Writer :=
  mkWriter (w_config w) (file w) b p (position w) (fileNum w).
Definition set_position (p : Z) (w : Writer) : Writer :=
  mkWriter (w_config w) (file w) (buffer w) (bufPos w) p (fileNum w).
Definition set_fileNum (n : Z) (w : Writer) : Writer :=
  mkWriter (w_config w) (file w) (buffer w) (bufPos w) (position w) n.

(** ** File names *)

Definition log_name (n : Z) : bytes := str "binlog." ++ dec_pad 6 n.
#[global] Arguments log_name : simpl never.

(** [fmt.Sscanf(name, "binlog.%06d", &num)] when it returns no error. *)
Definition scan_log_name (name : bytes) : option Z :=
  if has_prefix (str "binlog.") name then
    let (d, _) := span_digits (skip_space (drop 7 name)) in
    match take 6 d with
    | [] => None
    | d' => Some (digits_val 0 d')
    end
  else None.

(** The byte order [filepath.Glob] sorts names by. *)
Fixpoint bytes_le (a b : bytes) : bool :=
  match a, b with
  | [], _ => true
  | _ :: _, [] => false
  | x :: a', y :: b' => (x <? y) || ((x =? y) && bytes_le a' b')
  end.

(** [filepath.Glob(dir/binlog.* )]. *)
Definition glob_logs (o : OS) : list bytes :=
  merge_sort (fun a b => bytes_le a b)
    (filter (fun n => has_prefix (str "binlog.") n = true) (elements (dom (files o)))).

(** ** The binary format *)

Definition UnixNano (t : GoTime) : Z := swrap 64 (unix_sec t * 1000000000 + nsec t).

Definition serializeBinary (event : LogEvent) : res bytes :=
  let totalLen := (4 + 8 + 1 + 2 + length (Database event) + 2 + length (Table event) +
                   4 + length (MySQLQuery event) + 4 + length (PGQuery event) + 8 + 8)%nat in
  let buf := make_bytes totalLen in
  buf <~ put_at 0 (be_bytes 4 (wrap 32 (Z.of_nat totalLen))) buf;
  buf <~ put_at 4 (be_bytes 8 (wrap 64 (UnixNano (le_Timestamp event)))) buf;
  buf <~ set_at 12 (to_byte (event_code (le_EventType event))) buf;
  let pos := 13%nat in
  buf <~ put_at pos (be_bytes 2 (wrap 16 (Z.of_nat (length (Database event))))) buf;
  let pos := (pos + 2)%nat in
  buf <~ copy_at pos (Database event) buf;
  let pos := (pos + length (Database event))%nat in
  buf <~ put_at pos (be_bytes 2 (wrap 16 (Z.of_nat (length (Table event))))) buf;
  let pos := (pos + 2)%nat in
  buf <~ copy_at pos (Table event) buf;
  let pos := (pos + length (Table event))%nat in
  buf <~ put_at pos (be_bytes 4 (wrap 32 (Z.of_nat (length (MySQLQuery event))))) buf;
  let pos := (pos + 4)%nat in
  buf <~ copy_at pos (MySQLQuery event) buf;
  let pos := (pos + length (MySQLQuery event))%nat in
  buf <~ put_at pos (be_bytes 4 (wrap 32 (Z.of_nat (length (PGQuery event))))) buf;
  let pos := (pos + 4)%nat in
  buf <~ copy_at pos (PGQuery event) buf;
  let pos := (pos + length (PGQuery event))%nat in
  buf <~ put_at pos (be_bytes 8 (wrap 64 (RowsAffected event))) buf;
  let pos := (pos + 8)%nat in
  put_at pos (be_bytes 8 (wrap 64 (ExecTime event))) buf.

Section writer.
Variable fault : nat -> bool.
Variable partial : nat -> nat.
Variable marshal : LogEvent -> res bytes.
Variable now_text : bytes.
Variable os_error : bytes.

(** ** System calls *)

(** Takes a tick; [true] when this call fails. *)
Definition syscall : st World bool :=
  fun s => (Ok (fault (tick (os s))), mkWorld (wr s) (mkOS (files (os s)) (S (tick (os s))))).

Definition set_content (name content : bytes) : st World unit :=
  smod (fun s => mkWorld (wr s) (mkOS (<[name := content]> (files (os s))) (tick (os s)))).

Definition content_of (o : OS) (name : bytes) : bytes := default [] (files o !! name).

(** [file.Write]: appends; a closed file is an error, and so is a nil one. *)
Definition file_write (data : bytes) : st World unit :=
  f <- sget (fun s => file (wr s));;
  match f with
  | Some (mkFile name true) =>
      old <- sget (fun s => content_of (os s) name);;
      t <- sget (fun s => tick (os s));;
      bad <- syscall;;
      if bad : bool
      then set_content name (old ++ take (partial t) data);;; serr os_error
      else set_content name (old ++ data)
  | _ => serr os_error
  end.

Definition file_sync : st World unit :=
  f <- sget (fun s => file (wr s));;
  match f with
  | Some (mkFile _ true) => bad <- syscall;; if bad : bool then serr os_error else sret tt
  | _ => serr os_error
  end.

(** [file.Close]: the second close of a file is an error. *)
Definition file_close : st World unit :=
  f <- sget (fun s => file (wr s));;
  match f with
  | Some (mkFile name true) =>
      smod (upd_wr (set_file (Some (mkFile name false))));;;
      bad <- syscall;; if bad : bool then serr os_error else sret tt
  | _ => serr os_error
  end.

(** ** Operations *)

Definition flushBuffer : st World unit :=
  w <- sget wr;;
  if (bufPos w =? 0)%nat then sret tt
  else
    data <- (if (length (buffer w) <? bufPos w)%nat then spanic else sret (take (bufPos w) (buffer w)));;
    r <- stry (file_write data);;
    match r with
    | Ok _ =>
        (if bytes_eqb (SyncMode (w_config w)) (str "fsync") then
           r <- stry file_sync;;
           match r with
           | Ok _ => sret tt
           | _ => serr (str "failed to sync binlog file")
           end
         else sret tt);;;
        smod (upd_wr (fun w => set_buffer (buffer w) 0 w))
    | _ => serr (str "failed to write to binlog file")
    end.

Definition header_text (c : Config) : bytes :=
  str "# AProxy Binlog v1.0" ++ [10] ++ str "# Created: " ++ now_text ++ [10] ++
  str "# Format: " ++ Format c ++ [10].
#[global] Arguments header_text : simpl never.

Definition createNewFile : st World unit :=
  w <- sget wr;;
  let filename := log_name (fileNum w) in
  bad <- syscall;;
  if bad : bool then serr (str "failed to create binlog file")
  else
    content <- sget (fun s => content_of (os s) filename);;
    set_content filename content;;;
    bad <- syscall;;
    if bad : bool then spanic
    else
      let opened := mkFile filename true in
      (if (length content =? 0)%nat then
         let header := header_text (w_config w) in
         t <- sget (fun s => tick (os s));;
         bad <- syscall;;
         (if bad : bool
          then set_content filename (content ++ take (partial t) header);;;
               serr (str "failed to write binlog header")
          else set_content filename (content ++ header));;;
         smod (upd_wr (set_position (wrap 64 (Z.of_nat (length header)))))
       else sret tt);;;
      smod (upd_wr (set_file (Some opened))).

(** The greatest number among the listed names, 0 when none parses. *)
Definition num_of (name : bytes) (m : Z) : Z :=
  match scan_log_name name with Some num => if m <? num then num else m | None => m end.

Definition max_num (names : list bytes) : Z := fold_left (fun m n => num_of n m) names 0.

Definition openOrCreateFile : st World unit :=
  matches <- sget (fun s => glob_logs (os s));;
  (if (0 <? length matches)%nat then
     let maxNum := max_num matches in
     smod (upd_wr (set_fileNum maxNum));;;
     let latestFile := log_name maxNum in
     bad <- syscall;;
     info <- sget (fun s => files (os s) !! latestFile);;
     match info with
     | Some content =>
         if bad : bool then serr (str "failed to stat binlog file")
         else
           c <- sget (fun s => w_config (wr s));;
           if MaxFileSize c <=? Z.of_nat (length content)
           then smod (upd_wr (set_fileNum (wrap 32 (maxNum + 1))))
           else smod (upd_wr (set_position (wrap 64 (Z.of_nat (length content)))))
     | None => serr (str "failed to stat binlog file")
     end
   else sret tt);;;
  createNewFile.

(** The clean-up it starts is [cleanupOldFiles], a step of its
    own. *)
Definition rotate : st World unit :=
  flushBuffer;;;
  f <- sget (fun s => file (wr s));;
  (match f with Some _ => _ <- stry file_close;; sret tt | None => sret tt end);;;
  smod (upd_wr (fun w => set_position 0 (set_fileNum (wrap 32 (fileNum w + 1)) w)));;;
  createNewFile.

Definition serialize (c : Config) (event : LogEvent) : res bytes :=
  if bytes_eqb (Format c) (str "json") then
    match marshal event with
    | Ok data => Ok (data ++ [10])
    | Err _ => Err (str "failed to marshal binlog event")
    | Panic => Panic
    end
  else serializeBinary event.

(** Into the buffer, flushed first when there is no room. *)
Definition append_data (data : bytes) : st World unit :=
  w <- sget wr;;
  (if (length (buffer w) <? bufPos w + length data)%nat then flushBuffer else sret tt);;;
  w <- sget wr;;
  b <- slift (copy_at (bufPos w) data (buffer w));;
  smod (upd_wr (fun w => set_position (wrap 64 (position w + Z.of_nat (length data)))
                           (set_buffer b (bufPos w + length data) w)));;;
  if bytes_eqb (SyncMode (w_config w)) (str "sync") then flushBuffer else sret tt.

(** Returns the event with the position it was given. *)
Definition writeEvent (event : LogEvent) : st World LogEvent :=
  w <- sget wr;;
  (if wrap 64 (MaxFileSize (w_config w)) <=? position w then rotate else sret tt);;;
  w <- sget wr;;
  let event := set_Position (position w) event in
  data <- slift (serialize (w_config w) event);;
  append_data data;;;
  sret event.

(** The [len(matches) - MaxFiles] first names are removed; a
    failing removal is logged. *)
Fixpoint remove_names (names : list bytes) : st World unit :=
  match names with
  | [] => sret tt
  | n :: names' =>
      bad <- syscall;;
      (if bad : bool then sret tt
       else smod (fun s => mkWorld (wr s) (mkOS (delete n (files (os s))) (tick (os s)))));;;
      remove_names names'
  end.

Definition cleanupOldFiles : st World unit :=
  matches <- sget (fun s => glob_logs (os s));;
  c <- sget (fun s => w_config (wr s));;
  if Z.of_nat (length matches) <=? MaxFiles c then sret tt
  else
    let toRemove := Z.of_nat (length matches) - MaxFiles c in
    if Z.of_nat (length matches) <? toRemove
    then remove_names matches;;; spanic
    else remove_names (take (Z.to_nat toRemove) matches).

(** The writer's state before its file is opened. *)
Definition NewWriter (config : option Config) (o : OS) : res (option World) :=
  let config := default DefaultConfig config in
  if negb (Enabled config) then Ok None
  else if fault (tick o) then Err (str "failed to create binlog directory")
  else if BufferSize config <? 0 then Panic
  else
    let w := mkWriter config None (make_bytes (Z.to_nat (BufferSize config))) 0 0 0 in
    match openOrCreateFile (mkWorld w (mkOS (files o) (S (tick o)))) with
    | (Ok _, s) => Ok (Some s)
    | (Err m, _) => Err m
    | (Panic, _) => Panic
    end.

Definition GetPosition (w : option Writer) : Z * Z :=
  match w with
  | None => (0, 0)
  | Some w => (fileNum w, position w)
  end.

(** ** The running writer: channel, background goroutines, shutdown *)

Record Sys := mkSys { world : World; eventChan : list LogEvent; closed : bool }.

Definition chan_cap : Z := 10000.

(** Whether the configuration logs events of this type (the [switch] of [Write]). *)
Definition logged (c : Config) (t : EventType) : bool :=
  match t with
  | EventTypeInsert | EventTypeUpdate | EventTypeDelete => LogDML c
  | EventTypeDDL => LogDDL c
  | EventTypeQuery => LogSelect c
  | _ => true
  end.

(** A nil [Writer] is [None]. *)
Definition Write (event : LogEvent) (s : option Sys) : res unit * option Sys :=
  match s with
  | None => (Ok tt, None)
  | Some s =>
      if closed s then (Ok tt, Some s)
      else if negb (logged (w_config (wr (world s))) (le_EventType event)) then (Ok tt, Some s)
      else if Z.of_nat (length (eventChan s)) <? chan_cap
           then (Ok tt, Some (mkSys (world s) (eventChan s ++ [event]) (closed s)))
           else (Err (str "binlog event channel full"), Some s)
  end.

Definition with_world (s : Sys) (r : res unit * World) : res unit * Sys :=
  (fst r, mkSys (snd r) (eventChan s) (closed s)).

(** [Close]: it marks the writer closed and signals the
    goroutines, then takes the lock to flush and close the file. *)
Definition close_mark (s : Sys) : Sys := mkSys (world s) (eventChan s) true.

Definition close_file : st World unit :=
  flushBuffer;;;
  f <- sget (fun s => file (wr s));;
  match f with Some _ => file_close | None => sret tt end.

Definition Close (s : Sys) : res unit * Sys :=
  if closed s then (Ok tt, s)
  else let s := close_mark s in with_world s (close_file (world s)).

(** [asyncWriter] takes the next event, if there is one; it does the same
    before and after the shutdown signal. *)
Definition take_event (s : Sys) : res unit * Sys :=
  match eventChan s with
  | [] => (Ok tt, s)
  | e :: rest => with_world (mkSys (world s) rest (closed s)) ((writeEvent e;;; sret tt) (world s))
  end.

(** What can happen next: a client writes, [asyncWriter] takes an event,
    [periodicFlusher] flushes, the clean-up a rotation started runs, and the
    two halves of [Close]. *)
Inductive action := AWrite (e : LogEvent) | ATake | AFlush | ACleanup | ACloseMark | ACloseFile.

Definition act (a : action) (s : Sys) : res unit * Sys :=
  match a with
  | AWrite e => let (r, s') := Write e (Some s) in (r, default s s')
  | ATake => take_event s
  | AFlush => with_world s (flushBuffer (world s))
  | ACleanup => with_world s (cleanupOldFiles (world s))
  | ACloseMark => (Ok tt, close_mark s)
  | ACloseFile => with_world s (close_file (world s))
  end.

End writer.

(** ** The reader

    [decode] is one [json.Decoder.Decode] on the rest of the stream. *)
Section reader.
Variable decode : bytes -> option (LogEvent * bytes).

Fixpoint decode_all (fuel : nat) (l : bytes) : list LogEvent :=
  match fuel with
  | O => []
  | S k => match decode l with
           | Some (e, r) => e :: decode_all k r
           | None => []
           end
  end.

Definition ReadFrom (o : OS) (num pos : Z) (fuel : nat) : res (list LogEvent) :=
  match files o !! log_name num with
  | None => Err (str "failed to open binlog file")
  | Some content => Ok (decode_all fuel (drop (Z.to_nat pos) content))
  end.
End reader.
