(* ===== verification/WriterFacts.v ===== *)
(** * The statement binlog is a faithful journal

    While I/O succeeds, the bytes of a log file, those on disk followed by
    those still buffered, are the header and the serialized events in the order
    they were accepted, and the [Position] stored in an event is its offset in
    that file.  The theorems follow the invariant [wf] through every operation
    and then through arbitrary interleavings of clients and goroutines. *)

From Stdlib Require Import ZArith Lia.
From stdpp Require Import base numbers list strings gmap sorting.
From S2P Require Import Prelude GoStd BinlogWriter.
Open Scope Z_scope.

(** ** The binary format round-trips *)

Definition rd_be (n : nat) (l : bytes) : option (Z * bytes) :=
  if (n <=? length l)%nat then Some (be_val (take n l), drop n l) else None.
Definition rd_text (n : nat) (l : bytes) : option (bytes * bytes) :=
  '(k, r) ← rd_be n l;
  if (Z.to_nat k <=? length r)%nat then Some (take (Z.to_nat k) r, drop (Z.to_nat k) r) else None.

Lemma rd_be_app n z r : in_width (8 * Z.of_nat n) z -> rd_be n (be_bytes n z ++ r) = Some (z, r).
Proof.
  intros Hz. unfold rd_be. rewrite (proj2 (Nat.leb_le _ _)) by (rewrite length_app, be_bytes_length; lia).
  rewrite take_app_length', drop_app_length', be_val_bytes, wrap_id by by rewrite ?be_bytes_length. done.
Qed.

Lemma rd_text_app n s r :
  Z.of_nat (length s) < 2 ^ (8 * Z.of_nat n) ->
  rd_text n (be_bytes n (Z.of_nat (length s)) ++ s ++ r) = Some (s, r).
Proof.
  intros Hs. unfold rd_text. rewrite rd_be_app by (unfold in_width; lia). cbn [mbind option_bind].
  rewrite Nat2Z.id, (proj2 (Nat.leb_le _ _)) by (rewrite length_app; lia).
  by rewrite take_app_length, drop_app_length.
Qed.

(** Length, time, type code, database, table, both queries, rows, time taken. *)
Definition read_record (l : bytes)
  : option (Z * Z * Z * (bytes * bytes * bytes * bytes) * (Z * Z) * bytes) :=
  '(len, r) ← rd_be 4 l; '(ts, r) ← rd_be 8 r; '(ty, r) ← rd_be 1 r;
  '(db, r) ← rd_text 2 r; '(tb, r) ← rd_text 2 r; '(my, r) ← rd_text 4 r; '(pg, r) ← rd_text 4 r;
  '(rows, r) ← rd_be 8 r; '(us, r) ← rd_be 8 r;
  Some (len, swrap 64 ts, ty, (db, tb, my, pg), (swrap 64 rows, swrap 64 us), r).

Definition record_ok (e : LogEvent) : Prop :=
  Z.of_nat (length (Database e)) < 65536 /\ Z.of_nat (length (Table e)) < 65536 /\
  Z.of_nat (length (Database e) + length (Table e) + length (MySQLQuery e) + length (PGQuery e)) + 41
    < 2 ^ 32 /\
  in_swidth 64 (RowsAffected e) /\ in_swidth 64 (ExecTime e).

Lemma be_bytes_wrap n w z : 8 * Z.of_nat n <= w -> be_bytes n (wrap w z) = be_bytes n z.
Proof. intros. unfold be_bytes. by rewrite le_bytes_wrap. Qed.

Lemma serializeBinary_layout e :
  serializeBinary e =
  Ok (be_bytes 4 (Z.of_nat (41 + length (Database e) + length (Table e) + length (MySQLQuery e) +
                            length (PGQuery e))) ++
      be_bytes 8 (UnixNano (le_Timestamp e)) ++ be_bytes 1 (event_code (le_EventType e)) ++
      be_bytes 2 (Z.of_nat (length (Database e))) ++ Database e ++
      be_bytes 2 (Z.of_nat (length (Table e))) ++ Table e ++
      be_bytes 4 (Z.of_nat (length (MySQLQuery e))) ++ MySQLQuery e ++
      be_bytes 4 (Z.of_nat (length (PGQuery e))) ++ PGQuery e ++
      be_bytes 8 (wrap 64 (RowsAffected e)) ++ be_bytes 8 (wrap 64 (ExecTime e))).
Proof.
  unfold serializeBinary. fill. rewrite app_no_zeros by solve_len.
  change [to_byte (event_code (le_EventType e))] with (be_bytes 1 (event_code (le_EventType e))).
  rewrite !(be_bytes_wrap 4), !(be_bytes_wrap 2), (be_bytes_wrap 8 64 (UnixNano _)) by lia.
  rewrite <- !app_assoc. cbn [app]. do 3 f_equal. lia.
Qed.

(** the binary log format round-trips: from the bytes written for an event
    a reader recovers its size, time, type, database, table, both queries, the
    row count and the execution time, and the record ends where its length
    field says. *)
Theorem serializeBinary_roundtrip e rest (Hok : record_ok e) :
  exists data, serializeBinary e = Ok data /\
    read_record (data ++ rest) =
      Some (Z.of_nat (length data), UnixNano (le_Timestamp e), event_code (le_EventType e),
            (Database e, Table e, MySQLQuery e, PGQuery e), (RowsAffected e, ExecTime e), rest).
Proof.
  destruct Hok as (H1 & H2 & H3 & H4 & H5).
  eexists; split; [apply serializeBinary_layout|]. set (data := be_bytes 4 _ ++ _).
  assert (length data = (41 + length (Database e) + length (Table e) + length (MySQLQuery e) +
                         length (PGQuery e))%nat) as Hl by (subst data; solve_len).
  rewrite Hl. subst data. rewrite <- !app_assoc. unfold read_record.
  assert (in_width 64 (wrap 64 (UnixNano (le_Timestamp e)))) by (apply wrap_range; lia).
  rewrite <- (be_bytes_wrap 8 64 (UnixNano _)) by lia.
  do 3 (rewrite rd_be_app by first [done | apply wrap_range; lia | unfold in_width; lia |
          destruct (le_EventType e); unfold in_width; simpl; lia]; cbn [mbind option_bind]).
  do 4 (rewrite rd_text_app by lia; cbn [mbind option_bind]).
  do 2 (rewrite rd_be_app by (apply wrap_range; lia); cbn [mbind option_bind]).
  rewrite !swrap_wrap, (swrap_id 64 (UnixNano _)) by (lia || apply swrap_range; lia).
  by rewrite !swrap_id by (lia || done).
Qed.

Definition sample_event : LogEvent :=
  mkLogEvent (mkTime 1700000000 5 0) 0 EventTypeInsert (str "shop") (str "orders") (str "s1") [] []
    (str "INSERT INTO orders VALUES (1)") (str "INSERT INTO orders VALUES (1)") 1 250.

Lemma serializeBinary_roundtrip_witness :
  exists data, serializeBinary sample_event = Ok data /\
    read_record data =
      Some (Z.of_nat (length data), 1700000000000000005, 2,
            (str "shop", str "orders", str "INSERT INTO orders VALUES (1)", str "INSERT INTO orders VALUES (1)"),
            (1, 250), []).
Proof.
  destruct (serializeBinary_roundtrip sample_event []) as (data & H1 & H2).
  - unfold record_ok, in_swidth. cbn -[Z.pow]. lia.
  - exists data. rewrite app_nil_r in H2. split; [exact H1|exact H2].
Defined.

(** ** File names *)

Lemma log_name_inj m n : 0 <= m -> 0 <= n -> log_name m = log_name n -> m = n.
Proof.
  intros Hm Hn E. apply (app_inv_head (str "binlog.")) in E.
  destruct (dec_pad_spec 6 m Hm) as (_ & <- & _). destruct (dec_pad_spec 6 n Hn) as (_ & <- & _).
  by rewrite E.
Qed.

(** ** The journal invariant *)

Section journal.
Variable partial : nat -> nat.
Variable marshal : LogEvent -> res bytes.
Variable now_text : bytes.
Variable os_error : bytes.

(** No system call fails. *)
Definition no_fault : nat -> bool := fun _ => false.

Local Abbreviation flushBuffer := (flushBuffer no_fault partial os_error).
Local Abbreviation createNewFile := (createNewFile no_fault partial now_text).
Local Abbreviation rotate := (rotate no_fault partial now_text os_error).
Local Abbreviation writeEvent := (writeEvent no_fault partial marshal now_text os_error).
Local Abbreviation header := (header_text now_text).

Definition current (s : World) : bytes := log_name (fileNum (wr s)).

(** The bytes of log [n]: those on disk and, for the current log, those still
    in the buffer. *)
Definition log_bytes (s : World) (n : Z) : bytes :=
  content_of (os s) (log_name n) ++ (if n =? fileNum (wr s) then take (bufPos (wr s)) (buffer (wr s)) else []).

Record wf (s : World) : Prop := {
  wf_file : file (wr s) = Some (mkFile (current s) true);
  wf_exists : is_Some (files (os s) !! current s);
  wf_num : 0 <= fileNum (wr s);
  wf_buf : (bufPos (wr s) <= length (buffer (wr s)))%nat;
  wf_pos : position (wr s) = Z.of_nat (length (log_bytes s (fileNum (wr s))));
  wf_fresh : forall n, fileNum (wr s) < n -> files (os s) !! log_name n = None
}.

(** What every operation leaves alone. *)
Definition same_config (s s' : World) : Prop :=
  w_config (wr s') = w_config (wr s) /\ length (buffer (wr s')) = length (buffer (wr s)).

Lemma log_bytes_current s :
  log_bytes s (fileNum (wr s)) = content_of (os s) (current s) ++ take (bufPos (wr s)) (buffer (wr s)).
Proof. unfold log_bytes. by rewrite Z.eqb_refl. Qed.

Lemma log_bytes_other s n : n <> fileNum (wr s) -> log_bytes s n = content_of (os s) (log_name n).
Proof. intros. unfold log_bytes. rewrite (proj2 (Z.eqb_neq _ _)) by done. apply app_nil_r. Qed.

Lemma content_insert fs t name c : content_of (mkOS (<[name := c]> fs) t) name = c.
Proof. unfold content_of. cbn. by rewrite lookup_insert_eq. Qed.

Lemma content_insert_ne fs t t' name name' c :
  name <> name' -> content_of (mkOS (<[name := c]> fs) t) name' = content_of (mkOS fs t') name'.
Proof. intros. unfold content_of. cbn. by rewrite lookup_insert_ne. Qed.

(** The state after a successful flush. *)
Lemma flushBuffer_shape s :
  file (wr s) = Some (mkFile (current s) true) -> (bufPos (wr s) <= length (buffer (wr s)))%nat ->
  bufPos (wr s) <> 0%nat ->
  exists t, flushBuffer s =
    (Ok tt, mkWorld (set_buffer (buffer (wr s)) 0 (wr s))
      (mkOS (<[current s := content_of (os s) (current s) ++ take (bufPos (wr s)) (buffer (wr s))]>
              (files (os s))) t)).
Proof.
  destruct s as [w o]. unfold current. cbn [wr os]. intros Hf Hb Hne.
  unfold BinlogWriter.flushBuffer, sbind, sget. cbn [wr os].
  rewrite (proj2 (Nat.eqb_neq _ _)), (proj2 (Nat.ltb_ge _ _)) by done.
  unfold sret, stry, file_write, sbind, sget. cbn [wr os]. rewrite Hf.
  unfold syscall, no_fault, set_content, smod, upd_wr. cbn.
  destruct (bytes_eqb _ _); [|by eexists].
  unfold file_sync, sbind, sget. cbn [wr os]. rewrite Hf. unfold syscall. cbn. by eexists.
Qed.

(** Flushing moves the buffered bytes to the disk: no log changes. *)
Lemma flushBuffer_spec s :
  wf s ->
  exists s', flushBuffer s = (Ok tt, s') /\ wf s' /\ same_config s s' /\
    bufPos (wr s') = 0%nat /\ position (wr s') = position (wr s) /\ fileNum (wr s') = fileNum (wr s) /\
    forall n, 0 <= n -> log_bytes s' n = log_bytes s n.
Proof.
  intros [Hf Hex Hn Hb Hp Hfresh].
  destruct (decide (bufPos (wr s) = 0%nat)) as [E|E].
  { exists s. split; [unfold BinlogWriter.flushBuffer, sbind, sget; by rewrite E|].
    split; [by constructor|]. unfold same_config. auto. }
  destruct (flushBuffer_shape s Hf Hb E) as (t & ->). eexists. split; [reflexivity|].
  set (s' := mkWorld _ _).
  assert (forall n, 0 <= n -> log_bytes s' n = log_bytes s n) as Hlog.
  { intros n Hn0. unfold log_bytes, content_of. subst s'. cbn. destruct (Z.eqb_spec n (fileNum (wr s))) as [->|Hne].
    - unfold current. by rewrite lookup_insert_eq, app_nil_r.
    - unfold current. rewrite lookup_insert_ne; [done|]. intros ?%log_name_inj; lia. }
  split; [|unfold same_config; auto].
  constructor; subst s'; cbn in *; try done; try lia.
  - unfold current. cbn. rewrite lookup_insert_eq. by eexists.
  - by rewrite Hlog.
  - intros n Hlt. unfold current. rewrite lookup_insert_ne; [by apply Hfresh|].
    intros ?%log_name_inj; lia.
Qed.

(** Opening a log that does not exist yet. *)
Lemma createNewFile_shape s :
  files (os s) !! current s = None ->
  exists t, createNewFile s =
    (Ok tt, mkWorld (set_file (Some (mkFile (current s) true))
                       (set_position (wrap 64 (Z.of_nat (length (header (w_config (wr s)))))) (wr s)))
              (mkOS (<[current s := header (w_config (wr s))]> (files (os s))) t)).
Proof.
  destruct s as [w [fs t]]. unfold current. cbn [wr os files]. intros Hnone.
  unfold BinlogWriter.createNewFile, sbind, sget, syscall, no_fault, set_content, smod, sret.
  unfold content_of. cbn. rewrite Hnone. cbn. rewrite insert_insert_eq. by eexists.
Qed.

Lemma file_close_shape s name :
  file (wr s) = Some (mkFile name true) ->
  exists t, file_close no_fault os_error s =
    (Ok tt, mkWorld (set_file (Some (mkFile name false)) (wr s)) (mkOS (files (os s)) t)).
Proof.
  destruct s as [w o]. cbn. intros Hf. unfold file_close, sbind, sget, smod, upd_wr. cbn. rewrite Hf.
  cbn. by eexists.
Qed.

(** A rotation closes the current log and starts the next one with a header. *)
Lemma rotate_spec s :
  wf s -> fileNum (wr s) + 1 < 2 ^ 32 ->
  Z.of_nat (length (header (w_config (wr s)))) < 2 ^ 64 ->
  exists s', rotate s = (Ok tt, s') /\ wf s' /\ same_config s s' /\
    bufPos (wr s') = 0%nat /\ fileNum (wr s') = fileNum (wr s) + 1 /\
    (forall n, 0 <= n -> n <> fileNum (wr s) + 1 -> log_bytes s' n = log_bytes s n) /\
    log_bytes s' (fileNum (wr s) + 1) = header (w_config (wr s)).
Proof.
  intros Hwf Hnum Hhd. destruct (flushBuffer_spec s Hwf) as (s1 & E1 & Hwf1 & [Hc Hl] & Hb & Hp & Hn & Hlog).
  unfold BinlogWriter.rotate, sbind at 1. rewrite E1.
  destruct Hwf1 as [Hf1 Hex1 Hn1 Hb1 Hp1 Hfresh1].
  unfold sbind at 1, sget at 1. rewrite Hf1.
  unfold sbind at 1, sbind at 1, stry. destruct (file_close_shape s1 _ Hf1) as (t1 & ->). cbn [sret].
  unfold sbind at 1, smod, upd_wr. cbn [wr os fileNum set_file].
  set (s2 := mkWorld _ _).
  destruct (createNewFile_shape s2) as (t2 & ->).
  { subst s2. unfold current. cbn. rewrite (wrap_id 32) by (unfold in_width; lia). apply Hfresh1. lia. }
  eexists. split; [reflexivity|]. set (s3 := mkWorld _ _).
  assert (fileNum (wr s3) = fileNum (wr s) + 1) as Hn3.
  { subst s3 s2. cbn. rewrite wrap_id by (unfold in_width; lia). lia. }
  assert (bufPos (wr s3) = 0%nat) as Hb3 by (by subst s3 s2).
  assert (current s2 = log_name (fileNum (wr s) + 1)) as Hcur by (rewrite <- Hn3; done).
  assert (w_config (wr s2) = w_config (wr s)) as Hc2 by (by subst s2).
  assert (log_bytes s3 (fileNum (wr s) + 1) = header (w_config (wr s))) as Hnew.
  { rewrite <- Hn3, log_bytes_current, Hb3. cbn [take]. rewrite app_nil_r. unfold current. rewrite Hn3.
    subst s3. unfold content_of. cbn [os files]. by rewrite Hcur, lookup_insert_eq, Hc2. }
  split_and!; [|by split|done|done| |done].
  - constructor; rewrite ?Hn3; unfold current; rewrite ?Hn3.
    + subst s3. cbn [wr set_file file]. by rewrite Hcur.
    + subst s3. cbn [os files]. rewrite Hcur, lookup_insert_eq. by eexists.
    + lia.
    + rewrite Hb3. lia.
    + rewrite Hnew. subst s3. cbn [wr set_file set_position position].
      rewrite Hc2, wrap_id by (unfold in_width; lia). done.
    + intros n Hlt. subst s3. cbn [os files]. rewrite Hcur, lookup_insert_ne by (intros ?%log_name_inj; lia).
      apply Hfresh1. lia.
  - intros n Hn0 Hne. rewrite log_bytes_other by lia. rewrite <- Hlog by done.
    subst s3. unfold log_bytes, content_of. cbn [os files]. rewrite Hb. cbn [take].
    rewrite Hcur, lookup_insert_ne by (intros ?%log_name_inj; lia).
    subst s2. cbn [os files]. by destruct (_ =? _); rewrite app_nil_r.
Qed.

Local Abbreviation append_data := (append_data no_fault partial os_error).

(** Storing [data] right after the buffered bytes. *)
Lemma copy_at_prefix pos data (buf : bytes) :
  (pos + length data <= length buf)%nat ->
  exists b, copy_at pos data buf = Ok b /\ length b = length buf /\
    take (pos + length data) b = take pos buf ++ data.
Proof.
  intros H. unfold copy_at, put_at. rewrite decide_True by lia. rewrite (take_ge data) by lia.
  rewrite decide_True by lia. eexists. split; [done|].
  rewrite !length_app, length_take, length_drop. split; [lia|].
  rewrite app_assoc, take_app_length'; [done|]. rewrite length_app, length_take. lia.
Qed.

Lemma append_data_spec s data :
  wf s -> (length data <= length (buffer (wr s)))%nat ->
  position (wr s) + Z.of_nat (length data) < 2 ^ 64 ->
  exists s', append_data data s = (Ok tt, s') /\ wf s' /\ same_config s s' /\
    fileNum (wr s') = fileNum (wr s) /\
    log_bytes s' (fileNum (wr s)) = log_bytes s (fileNum (wr s)) ++ data /\
    forall n, 0 <= n -> n <> fileNum (wr s) -> log_bytes s' n = log_bytes s n.
Proof.
  intros Hwf Hfit Hpos. unfold BinlogWriter.append_data, sbind at 1, sget at 1.
  assert (exists s1, (if (length (buffer (wr s)) <? bufPos (wr s) + length data)%nat
      then flushBuffer else sret tt) s = (Ok tt, s1) /\ wf s1 /\ same_config s s1 /\
      position (wr s1) = position (wr s) /\ fileNum (wr s1) = fileNum (wr s) /\
      (bufPos (wr s1) + length data <= length (buffer (wr s1)))%nat /\
      forall n, 0 <= n -> log_bytes s1 n = log_bytes s n) as
    (s1 & E1 & Hwf1 & [Hc1 Hl1] & Hp1 & Hn1 & Hroom & Hlog1).
  { destruct (Nat.ltb_spec (length (buffer (wr s))) (bufPos (wr s) + length data)).
    - destruct (flushBuffer_spec s Hwf) as (s1 & E & Hw & [? ?] & Hb & ? & ? & ?).
      exists s1. split_and!; try done. rewrite Hb. lia.
    - exists s. by split_and!. }
  unfold sbind at 1. rewrite E1. unfold sbind at 1, sget at 1, sbind at 1, slift.
  destruct (copy_at_prefix _ _ _ Hroom) as (b & Eb & Hlb & Htk). rewrite Eb.
  unfold sbind at 1, smod, upd_wr. set (s2 := mkWorld _ _).
  destruct Hwf1 as [Hf Hex Hn0 Hb Hp Hfresh].
  assert (log_bytes s2 (fileNum (wr s)) = log_bytes s (fileNum (wr s)) ++ data) as Hlog2.
  { rewrite <- (Hlog1 (fileNum (wr s)) ltac:(lia)). rewrite <- Hn1. unfold log_bytes. subst s2. cbn.
    by rewrite !Z.eqb_refl, Htk, app_assoc. }
  assert (forall n, 0 <= n -> n <> fileNum (wr s) -> log_bytes s2 n = log_bytes s n) as Hoth.
  { intros n Hn Hne. rewrite <- (Hlog1 n Hn). unfold log_bytes. subst s2. cbn.
    by rewrite (proj2 (Z.eqb_neq n _)) by lia. }
  assert (wf s2) as Hwf2.
  { constructor; try done; subst s2; cbn in *; [lia|].
    rewrite Hn1 in *. rewrite Hlog2, length_app, Nat2Z.inj_add, <- (Hlog1 (fileNum (wr s)) ltac:(lia)), <- Hp.
    rewrite wrap_id; [done|]. unfold in_width. lia. }
  assert (same_config s s2 /\ fileNum (wr s2) = fileNum (wr s)) as [Hsc2 Hn2].
  { subst s2. unfold same_config. cbn. rewrite Hlb. by split_and!. }
  destruct (bytes_eqb _ _); [|exists s2; by split_and!].
  destruct (flushBuffer_spec s2 Hwf2) as (s3 & E3 & Hwf3 & [Hc3 Hl3] & _ & _ & Hn3 & Hlog3).
  exists s3. destruct Hsc2 as [Hc2 Hl2]. rewrite Hn2 in Hn3. split_and!; try done; [split; congruence| |].
  - rewrite Hlog3 by lia. done.
  - intros n Hn Hne. rewrite Hlog3 by done. by apply Hoth.
Qed.

(** The configuration's sizes are within the machine's integers. *)
Definition sane (s : World) : Prop :=
  0 <= MaxFileSize (w_config (wr s)) < 2 ^ 63 /\
  Z.of_nat (length (header (w_config (wr s)))) < 2 ^ 62 /\
  Z.of_nat (length (buffer (wr s))) < 2 ^ 62.

(** The event's record fits the write buffer. *)
Definition fits (c : Config) (room : nat) (e : LogEvent) : Prop :=
  forall p, exists data, serialize marshal c (set_Position p e) = Ok data /\ (length data <= room)%nat.

(** Where one more event goes. *)
Lemma writeEvent_spec s e :
  wf s -> sane s -> fits (w_config (wr s)) (length (buffer (wr s))) e -> fileNum (wr s) + 1 < 2 ^ 32 ->
  exists s' data pre, let n := fileNum (wr s') in
    let e' := set_Position (Z.of_nat (length pre)) e in
    writeEvent e s = (Ok e', s') /\ wf s' /\ same_config s s' /\
    serialize marshal (w_config (wr s)) e' = Ok data /\
    fileNum (wr s) <= n <= fileNum (wr s) + 1 /\
    pre = (if n =? fileNum (wr s) then log_bytes s n else header (w_config (wr s))) /\
    log_bytes s' n = pre ++ data /\
    forall m, 0 <= m -> m <> n -> log_bytes s' m = log_bytes s m.
Proof.
  intros Hwf (Hmax & Hhd & Hbl) Hfits Hnum. unfold BinlogWriter.writeEvent, sbind at 1, sget at 1.
  assert (exists s1, (if wrap 64 (MaxFileSize (w_config (wr s))) <=? position (wr s)
      then rotate else sret tt) s = (Ok tt, s1) /\ wf s1 /\ same_config s s1 /\
      position (wr s1) < 2 ^ 63 /\
      fileNum (wr s) <= fileNum (wr s1) <= fileNum (wr s) + 1 /\
      log_bytes s1 (fileNum (wr s1)) =
        (if fileNum (wr s1) =? fileNum (wr s) then log_bytes s (fileNum (wr s1))
         else header (w_config (wr s))) /\
      forall n, 0 <= n -> n <> fileNum (wr s1) -> log_bytes s1 n = log_bytes s n) as
    (s1 & E1 & Hwf1 & [Hc1 Hl1] & Hp1 & Hn1 & Hcur & Hoth).
  { rewrite (wrap_id 64) by (unfold in_width; lia). destruct (Z.leb_spec (MaxFileSize (w_config (wr s))) (position (wr s))).
    - destruct (rotate_spec s Hwf Hnum ltac:(lia)) as (s1 & E & Hw & Hsc & Hb & Hn & Ho & Hh).
      exists s1. rewrite Hn, (proj2 (Z.eqb_neq _ _)) by lia. split_and!; try done; try lia.
      rewrite (wf_pos _ Hw), Hn, Hh. lia.
    - exists s. rewrite Z.eqb_refl. split_and!; (done || lia). }
  unfold sbind at 1. rewrite E1. unfold sbind at 1, sget at 1, sbind at 1, slift. rewrite Hc1.
  destruct (Hfits (position (wr s1))) as (data & Hser & Hlen). rewrite Hser.
  destruct (append_data_spec s1 data Hwf1) as (s2 & E2 & Hwf2 & [Hc2 Hl2] & Hn2 & Hlog2 & Hoth2); [lia|lia|].
  unfold sbind. rewrite E2. exists s2, data, (log_bytes s1 (fileNum (wr s1))). cbv zeta.
  rewrite Hn2. pose proof (wf_pos _ Hwf1) as Hpos. rewrite <- Hpos.
  split_and!; try done; try lia; [split; congruence|]. intros m Hm Hne. by rewrite Hoth2, Hoth.
Qed.

(** ** Interleavings of clients and goroutines *)

Local Abbreviation act := (act no_fault partial marshal now_text os_error).

(** A schedule; [None] when a step panics.  The second component collects the
    events whose [Write] put them into the channel. *)
Definition accepts (a : action) (s : Sys) : list LogEvent :=
  match a with
  | AWrite e =>
      if negb (closed s) && logged (w_config (wr (world s))) (le_EventType e)
         && (Z.of_nat (length (eventChan s)) <? chan_cap) then [e] else []
  | _ => []
  end.

Fixpoint run (acts : list action) (s : Sys) : option (Sys * list LogEvent) :=
  match acts with
  | [] => Some (s, [])
  | a :: acts' =>
      match act a s with
      | (Panic, _) => None
      | (_, s1) => '(s2, acc) ← run acts' s1; Some (s2, accepts a s ++ acc)
      end
  end.

(** The specification: an append-only journal.  An entry is a log number and an
    event with its position.  What log [n] must hold is its content at the
    start, or a header, followed by the records of its entries. *)
Section spec.
Variable s0 : World.

Definition data_of (x : Z * LogEvent) : bytes :=
  match serialize marshal (w_config (wr s0)) (snd x) with Ok d => d | _ => [] end.

Definition base (n : Z) : bytes :=
  if n <=? fileNum (wr s0) then log_bytes s0 n else header (w_config (wr s0)).

Definition expected (w : list (Z * LogEvent)) (n : Z) : bytes :=
  base n ++ concat (map data_of (filter (fun x => fst x = n) w)).

(** Every entry serialized, and its position is the offset of its record. *)
Inductive journal : list (Z * LogEvent) -> Prop :=
| journal_nil : journal []
| journal_snoc w n e data :
    journal w -> serialize marshal (w_config (wr s0)) e = Ok data ->
    le_Position e = Z.of_nat (length (expected w n)) ->
    journal (w ++ [(n, e)]).

Lemma expected_snoc w n e m :
  expected (w ++ [(n, e)]) m = expected w m ++ (if n =? m then data_of (n, e) else []).
Proof.
  unfold expected. rewrite filter_app, map_app, concat_app, app_assoc. f_equal.
  rewrite filter_cons, filter_nil. cbn [fst]. destruct (Z.eqb_spec n m) as [->|Hne].
  - rewrite decide_True by done. cbn. apply app_nil_r.
  - by rewrite decide_False.
Qed.

(** An entry's record is in its log at the entry's position. *)
Lemma journal_position w n e :
  journal w -> In (n, e) w ->
  exists data post, serialize marshal (w_config (wr s0)) e = Ok data /\
    drop (Z.to_nat (le_Position e)) (expected w n) = data ++ post.
Proof.
  induction 1 as [|w n' e' data Hj IH Hser Hpos]; [done|]. intros [Hin | [[= -> ->] | []]]%in_app_or.
  - destruct (IH Hin) as (d & post & Hs & Hd). rewrite expected_snoc. set (x := if _ : bool then _ else _).
    destruct (decide (Z.to_nat (le_Position e) <= length (expected w n))%nat) as [Hle|Hgt].
    + exists d, (post ++ x). by rewrite drop_app_le, Hd, <- app_assoc by done.
    + rewrite drop_ge in Hd by lia. symmetry in Hd. apply app_nil in Hd as [-> _]. by eexists [], _.
  - exists data, []. split; [done|]. rewrite expected_snoc, Z.eqb_refl, Hpos, Nat2Z.id.
    rewrite drop_app_length. unfold data_of. cbn [snd]. by rewrite Hser, app_nil_r.
Qed.

Definition erase (e : LogEvent) : LogEvent := set_Position 0 e.

Record inv (w : list (Z * LogEvent)) (acc : list LogEvent) (s : Sys) : Prop := {
  inv_wf : wf (world s);
  inv_config : same_config s0 (world s);
  inv_num : fileNum (wr s0) <= fileNum (wr (world s));
  inv_journal : journal w;
  inv_logs : forall n, 0 <= n <= fileNum (wr (world s)) -> log_bytes (world s) n = expected w n;
  inv_new : Forall (fun x => fst x <= fileNum (wr (world s))) w;
  inv_fifo : map erase (map snd w ++ eventChan s) = map erase acc;
  inv_fits : Forall (fits (w_config (wr s0)) (length (buffer (wr s0)))) (eventChan s)
}.

(** The steps of a running writer. *)
Definition running (a : action) : Prop :=
  match a with
  | AWrite e => fits (w_config (wr s0)) (length (buffer (wr s0))) e
  | ATake | AFlush => True
  | ACleanup | ACloseMark | ACloseFile => False
  end.

Lemma expected_other w n :
  Forall (fun x => fst x < n) w -> fileNum (wr s0) < n -> expected w n = header (w_config (wr s0)).
Proof.
  intros Hw Hn. unfold expected, base. rewrite (proj2 (Z.leb_gt _ _)) by lia.
  induction Hw as [|[k e] w Hk Hw IH]; [apply app_nil_r|].
  rewrite filter_cons, decide_False by (cbn in *; lia). apply IH.
Qed.

Lemma inv_take w acc s :
  sane s0 -> fileNum (wr (world s)) + 1 < 2 ^ 32 -> inv w acc s ->
  exists w' s', act ATake s = (Ok tt, s') /\ inv w' acc s' /\
    fileNum (wr (world s')) <= fileNum (wr (world s)) + 1.
Proof.
  intros Hsane Hnum [Hwf Hcfg Hn Hj Hlogs Hnew Hfifo Hfits]. destruct Hcfg as [Hc Hl].
  cbn [BinlogWriter.act]. unfold take_event. destruct (eventChan s) as [|e rest] eqn:Ech.
  { exists w, s. split; [done|]. split; [|lia]. constructor; try done. by rewrite Ech. by rewrite Ech. }
  apply Forall_cons in Hfits as [Hfe Hfr].
  destruct (writeEvent_spec (world s) e Hwf) as (s1 & data & pre & E & Hwf1 & [Hc1 Hl1] & Hser & Hn1 & Hpre & Hlog & Hoth).
  { destruct Hsane as (? & ? & ?). unfold sane. by rewrite Hc, Hl. }
  { by rewrite Hc, Hl. }
  { done. }
  set (e' := set_Position _ e) in *. rewrite Hc in *.
  assert (pre = expected w (fileNum (wr s1))) as Hpre'.
  { rewrite Hpre. destruct (Z.eqb_spec (fileNum (wr s1)) (fileNum (wr (world s)))) as [Eq|Hne].
    - apply Hlogs. pose proof (wf_num _ Hwf1). lia.
    - symmetry. apply expected_other; [|lia]. eapply Forall_impl; [exact Hnew|]. cbn. lia. }
  exists (w ++ [(fileNum (wr s1), e')]). unfold sbind, sret. rewrite E. cbn [with_world fst snd].
  eexists. split; [reflexivity|]. split; [|cbn; lia]. constructor; cbn [world eventChan fst snd]; try done.
  - split; congruence.
  - lia.
  - econstructor; [done|exact Hser|]. by rewrite <- Hpre'.
  - intros n Hle. rewrite expected_snoc. destruct (Z.eqb_spec (fileNum (wr s1)) n) as [<-|Hne].
    + rewrite Hlog, Hpre'. unfold data_of. cbn [snd]. by rewrite Hser.
    + rewrite app_nil_r, Hoth by lia. apply Hlogs. lia.
  - apply Forall_app. split; [|constructor; [done|constructor]].
    eapply Forall_impl; [exact Hnew|]. cbn. lia.
  - rewrite <- Hfifo, !map_app. cbn. by rewrite <- app_assoc.
Qed.

Lemma inv_step w acc s a :
  sane s0 -> fileNum (wr (world s)) + 1 < 2 ^ 32 -> inv w acc s -> running a ->
  exists r w' s', act a s = (r, s') /\ r <> Panic /\ inv w' (acc ++ accepts a s) s' /\
    fileNum (wr (world s')) <= fileNum (wr (world s)) + 1.
Proof.
  intros Hsane Hnum Hinv Ha. destruct a as [e| | | | |]; try done.
  - destruct Hinv as [Hwf Hcfg Hn Hj Hlogs Hnew Hfifo Hfits]. cbn. destruct (closed s) eqn:Hcl; cbn.
    { eexists _, w, s. split; [done|]. rewrite app_nil_r. split_and!; [done|by constructor|lia]. }
    destruct (logged _ _); cbn.
    2:{ eexists _, w, s. split; [done|]. rewrite app_nil_r. split_and!; [done|by constructor|lia]. }
    destruct (_ <? chan_cap); cbn.
    2:{ eexists _, w, s. split; [done|]. rewrite app_nil_r. split_and!; [done|by constructor|lia]. }
    eexists _, w, _. split; [done|]. split_and!; [done| |cbn; lia]. constructor; cbn; try done.
    + by rewrite app_assoc, map_app, Hfifo, map_app.
    + apply Forall_app. split; [done|]. by constructor.
  - destruct (inv_take w acc s Hsane Hnum Hinv) as (w' & s' & E & Hi & Hle).
    eexists _, w', s'. split; [exact E|]. cbn [accepts]. rewrite app_nil_r. by split_and!.
  - destruct Hinv as [Hwf [Hc Hl] Hn Hj Hlogs Hnew Hfifo Hfits]. cbn [BinlogWriter.act accepts].
    destruct (flushBuffer_spec (world s) Hwf) as (s1 & E & Hwf1 & [Hc1 Hl1] & _ & _ & Hn1 & Hlog1).
    rewrite E. unfold with_world. cbn [fst snd]. eexists _, w, _. split; [done|]. rewrite app_nil_r. split_and!; [done| |cbn; lia].
    constructor; cbn; try done.
    + split; congruence.
    + lia.
    + intros n Hle. rewrite Hlog1 by lia. apply Hlogs. lia.
    + by rewrite Hn1.
Qed.

Lemma inv_run acts : forall w acc s,
  sane s0 -> fileNum (wr (world s)) + Z.of_nat (length acts) < 2 ^ 32 -> inv w acc s ->
  Forall running acts ->
  exists s' acc' w', run acts s = Some (s', acc') /\ inv w' (acc ++ acc') s'.
Proof.
  induction acts as [|a acts IH]; intros w acc s Hsane Hnum Hinv Hr.
  - exists s, [], w. rewrite app_nil_r. done.
  - apply Forall_cons in Hr as [Ha Hr]. cbn [length] in Hnum.
    destruct (inv_step w acc s a Hsane ltac:(lia) Hinv Ha) as (r & w1 & s1 & E & Hp & Hi & Hle).
    destruct (IH w1 _ s1 Hsane ltac:(lia) Hi Hr) as (s' & acc' & w' & E' & Hi').
    cbn [run]. rewrite E, E'. exists s', (accepts a s ++ acc'), w'. rewrite app_assoc.
    split; [by destruct r|done].
Qed.
End spec.

(** ** Start-up *)

Lemma scan_log_name_name n : 0 <= n < 1000000 -> scan_log_name (log_name n) = Some n.
Proof.
  intros Hn. destruct (dec_pad_spec 6 n) as (Hd & Hv & Hne); [lia|].
  pose proof (dec_pad_length 6 n ltac:(lia) Hn) as Hl.
  unfold scan_log_name, log_name. change (has_prefix (str "binlog.") (str "binlog." ++ dec_pad 6 n)) with true.
  cbv iota. change (drop 7 (str "binlog." ++ dec_pad 6 n)) with (dec_pad 6 n).
  destruct (dec_pad 6 n) as [|c t] eqn:E; [done|]. rewrite <- E in *.
  assert (skip_space (dec_pad 6 n) = dec_pad 6 n) as ->.
  { rewrite E in Hd |- *. cbn in Hd. apply andb_true_iff in Hd as [Hc _].
    cbn [skip_space]. by destruct (digit_not_sign c Hc) as (-> & _). }
  pose proof (span_digits_app (dec_pad 6 n) [] Hd I) as Hs. rewrite app_nil_r in Hs. rewrite Hs.
  rewrite take_ge by lia. rewrite E, <- E. by rewrite Hv.
Qed.

(** Every [binlog.*] file of the directory is a log with a six-digit number. *)
Definition dir_ok (o : OS) : Prop :=
  forall name, is_Some (files o !! name) -> has_prefix (str "binlog.") name = true ->
  exists n, 0 <= n < 1000000 /\ name = log_name n.

Lemma glob_logs_elem o name :
  In name (glob_logs o) <-> is_Some (files o !! name) /\ has_prefix (str "binlog.") name = true.
Proof.
  unfold glob_logs. rewrite <- list_elem_of_In, merge_sort_Permutation, list_elem_of_filter, elem_of_elements, elem_of_dom.
  tauto.
Qed.

Lemma log_name_prefix n : has_prefix (str "binlog.") (log_name n) = true.
Proof. done. Qed.

Lemma max_num_spec names :
  (forall name, In name names -> exists n, 0 <= n < 1000000 /\ name = log_name n) ->
  forall m, let r := fold_left (fun m n => num_of n m) names m in
    (r = m \/ In (log_name r) names) /\ m <= r /\ (0 <= m < 1000000 -> r < 1000000) /\
    forall n, 0 <= n < 1000000 -> In (log_name n) names -> n <= r.
Proof.
  induction names as [|name names IH]; intros Hok m; cbn [fold_left].
  - cbv zeta. split_and!; [auto|lia|lia|done].
  - destruct (Hok name) as (k & Hk & ->); [by left|].
    specialize (IH (fun x Hx => Hok x (or_intror Hx)) (num_of (log_name k) m)).
    cbv zeta in *. set (r := fold_left _ _ _) in *.
    assert (num_of (log_name k) m = Z.max k m) as Hnum.
    { unfold num_of. rewrite scan_log_name_name by done. destruct (Z.ltb_spec m k); lia. }
    destruct IH as (Hin & Hle & Hlt & Hmax). rewrite Hnum in *. split_and!.
    + destruct Hin as [-> | Hin]; [|by right; right].
      destruct (Z.max_spec k m) as [[_ ->]|[_ ->]]; [by left|right; by left].
    + lia.
    + intros Hm. apply Hlt. lia.
    + intros n Hn [E | Hi]; [|by apply Hmax]. apply log_name_inj in E; lia.
Qed.

(** Opening the current log, new or not. *)
Lemma createNewFile_wf s :
  0 <= fileNum (wr s) -> bufPos (wr s) = 0%nat ->
  (forall n, fileNum (wr s) < n -> files (os s) !! log_name n = None) ->
  (content_of (os s) (current s) <> [] ->
   position (wr s) = Z.of_nat (length (content_of (os s) (current s)))) ->
  Z.of_nat (length (header (w_config (wr s)))) < 2 ^ 64 ->
  exists s', createNewFile s = (Ok tt, s') /\ wf s' /\ same_config s s' /\
    fileNum (wr s') = fileNum (wr s) /\ bufPos (wr s') = 0%nat.
Proof.
  intros Hn Hb Hfresh Hpos Hhd.
  assert (exists c t, createNewFile s =
    (Ok tt, mkWorld (set_file (Some (mkFile (current s) true)) (set_position (Z.of_nat (length c)) (wr s)))
              (mkOS (<[current s := c]> (files (os s))) t))) as (c & t & E).
  { destruct s as [w [fs t]]. unfold current in *. cbn [wr os files] in *.
    unfold BinlogWriter.createNewFile, sbind, sget, syscall, no_fault, set_content, smod, sret, upd_wr.
    cbn -[content_of length]. destruct (content_of _ _) as [|b c] eqn:Ec.
    - cbn. rewrite insert_insert_eq, wrap_id by (unfold in_width; lia). by eexists _, _.
    - cbn. eexists (b :: c), _. do 2 f_equal. rewrite <- Hpos by done. by destruct w. }
  eexists. split; [exact E|]. split_and!; [|done..].
  constructor; try done.
  - unfold current. cbn. rewrite lookup_insert_eq. by eexists.
  - cbn. rewrite Hb. lia.
  - rewrite log_bytes_current. cbn [wr os set_file set_position bufPos buffer position]. rewrite Hb.
    cbn [take]. rewrite app_nil_r. unfold current. cbn [wr fileNum set_file set_position].
    by rewrite content_insert.
  - intros n Hlt. cbn in *. unfold current. rewrite lookup_insert_ne; [by apply Hfresh|].
    intros ?%log_name_inj; lia.
Qed.

(** The number the writer finds: the greatest one, of an existing log if there
    is any. *)
Lemma latest_log_spec o :
  dir_ok o ->
  let r := max_num (glob_logs o) in
  0 <= r < 1000000 /\ (forall n, r < n -> files o !! log_name n = None) /\
  (glob_logs o = [] -> r = 0 /\ files o !! log_name 0 = None) /\
  (glob_logs o <> [] -> is_Some (files o !! log_name r)).
Proof.
  intros Hdir r.
  assert (forall name, In name (glob_logs o) -> exists n, 0 <= n < 1000000 /\ name = log_name n) as Hnames.
  { intros name [Hi Hp]%glob_logs_elem. by apply Hdir. }
  pose proof (max_num_spec _ Hnames 0) as (Hin & Hr0 & Hrlt & Hrmax). fold (max_num (glob_logs o)) in *.
  fold r in Hin, Hr0, Hrlt, Hrmax.
  assert (forall n, is_Some (files o !! log_name n) -> In (log_name n) (glob_logs o)) as Hglob.
  { intros n Hs. by apply glob_logs_elem. }
  split_and!; [lia|lia| | |].
  - intros n Hlt. destruct (files o !! log_name n) eqn:E; [|done]. exfalso.
    destruct (Hdir (log_name n)) as (k & Hk & Ek); [by rewrite E|done|].
    apply log_name_inj in Ek as ->; [|lia|lia].
    specialize (Hrmax k Hk (Hglob k ltac:(by rewrite E))). lia.
  - intros E. split; [by unfold r; rewrite E|].
    destruct (files o !! log_name 0) eqn:E0; [|done]. exfalso.
    specialize (Hglob 0 ltac:(by rewrite E0)). by rewrite E in Hglob.
  - intros Hne. enough (In (log_name r) (glob_logs o)) as [H _]%glob_logs_elem by done.
    destruct Hin as [E0 | Hi]; [|exact Hi].
    destruct (glob_logs o) as [|name names] eqn:Eg; [done|].
    destruct (Hnames name) as (k & Hk & ->); [by left|].
    specialize (Hrmax k Hk ltac:(by left)). replace r with k by lia. by left.
Qed.

Lemma open_wf c num pos o :
  Z.of_nat (length (header c)) < 2 ^ 64 -> 0 <= BufferSize c -> 0 <= num ->
  (forall n, num < n -> files o !! log_name n = None) ->
  (content_of o (log_name num) <> [] -> pos = Z.of_nat (length (content_of o (log_name num)))) ->
  exists s, createNewFile
      (mkWorld (mkWriter c None (make_bytes (Z.to_nat (BufferSize c))) 0 pos num) o) = (Ok tt, s) /\
    wf s /\ bufPos (wr s) = 0%nat /\ w_config (wr s) = c /\
    length (buffer (wr s)) = Z.to_nat (BufferSize c).
Proof.
  intros Hhd Hbuf Hnum Hf Hp.
  destruct (createNewFile_wf (mkWorld (mkWriter c None (make_bytes (Z.to_nat (BufferSize c))) 0 pos num) o))
    as (s & E & Hwf & [Hc Hl] & _ & Hb); try done.
  exists s. split_and!; try done. rewrite Hl. apply length_replicate.
Qed.

Local Abbreviation NewWriter := (NewWriter no_fault partial now_text).

Lemma NewWriter_spec c o :
  Enabled c = true -> 0 <= BufferSize c -> MaxFileSize c < 2 ^ 63 ->
  Z.of_nat (length (header c)) < 2 ^ 64 -> dir_ok o ->
  exists s, NewWriter (Some c) o = Ok (Some s) /\ wf s /\ bufPos (wr s) = 0%nat /\
    w_config (wr s) = c /\ length (buffer (wr s)) = Z.to_nat (BufferSize c).
Proof.
  intros Hen Hbuf Hmax Hhd Hdir. unfold BinlogWriter.NewWriter. change (default DefaultConfig (Some c)) with c. cbv zeta.
  rewrite Hen. unfold no_fault at 1. cbn [negb]. rewrite (proj2 (Z.ltb_ge _ _)) by done.
  destruct (latest_log_spec o Hdir) as (Hr & Hfresh & Hempty & Hlast).
  unfold openOrCreateFile, sbind at 1, sget at 1. cbn [os].
  change (glob_logs (mkOS (files o) (S (tick o)))) with (glob_logs o).
  set (r := max_num (glob_logs o)) in *. clearbody r.
  destruct (glob_logs o) as [|name names].
  - destruct (Hempty eq_refl) as [-> H0]. cbn [length Nat.ltb Nat.leb]. unfold sbind, sret.
    destruct (open_wf c 0 0 (mkOS (files o) (S (tick o)))) as (s & Es & Hs); try done.
    { unfold content_of. cbn. by rewrite H0. }
    rewrite Es. by exists s.
  - destruct (Hlast ltac:(done)) as [content Hcont]. cbn [length].
    change (0 <? S (length names))%nat with true. cbv iota.
    unfold sbind, smod, sget, syscall, no_fault at 1, upd_wr, set_position, set_fileNum.
    cbn -[BinlogWriter.createNewFile]. rewrite Hcont. cbn -[BinlogWriter.createNewFile].
    destruct (Z.leb_spec (MaxFileSize c) (Z.of_nat (length content)));
      cbn -[BinlogWriter.createNewFile]; rewrite wrap_id by (unfold in_width; lia).
    + destruct (open_wf c (r + 1) 0 (mkOS (files o) (S (S (tick o))))) as (s & Es & Hs); try done; [lia| | |].
      { intros n Hn. apply Hfresh. lia. }
      { unfold content_of. cbn. by rewrite Hfresh by lia. }
      rewrite Es. by exists s.
    + destruct (open_wf c r (Z.of_nat (length content)) (mkOS (files o) (S (S (tick o)))))
        as (s & Es & Hs); try done; [lia| |].
      { unfold content_of. cbn. by rewrite Hcont. }
      rewrite Es. by exists s.
Qed.

(** start-up establishes the journal invariant.  On any directory whose
    logs have six-digit numbers, an enabled writer opens the latest log (or the
    next one when that is full), its buffer empty and its position at the end
    of the file. *)
Theorem NewWriter_wf c o
  (Hen : Enabled c = true) (Hbuf : 0 <= BufferSize c) (Hmax : MaxFileSize c < 2 ^ 63)
  (Hhd : Z.of_nat (length (header c)) < 2 ^ 64) (Hdir : dir_ok o) :
  exists s, NewWriter (Some c) o = Ok (Some s) /\ wf s /\ bufPos (wr s) = 0%nat /\
    w_config (wr s) = c /\ length (buffer (wr s)) = Z.to_nat (BufferSize c).
Proof. by apply NewWriter_spec. Qed.

Lemma inv_init s0 :
  wf (world s0) -> eventChan s0 = [] -> inv (world s0) [] [] s0.
Proof.
  intros Hwf Hch. constructor; try done.
  - constructor.
  - intros n Hn. unfold expected, base. rewrite (proj2 (Z.leb_le _ _)) by lia. cbn. by rewrite app_nil_r.
  - by rewrite Hch.
  - by rewrite Hch.
Qed.

(** C3: the log is a faithful, ordered journal.  From any state satisfying the
    start-up invariant, run any interleaving of clients' writes, the async
    writer and the periodic flusher, with any number of rotations, and flush.
    No step panics; the accepted events are, in order, the journal's entries
    followed by those still in the channel; every log file on disk holds
    exactly its old content or a header followed by the records of its entries,
    and an entry's [Position] is the offset of its record in that file. *)
Theorem binlog_journal s0 acts
  (Hwf : wf (world s0)) (Hsane : sane (world s0)) (Hch : eventChan s0 = [])
  (Hacts : Forall (running (world s0)) acts)
  (Hnum : fileNum (wr (world s0)) + Z.of_nat (length acts) < 2 ^ 32) :
  exists s1 acc w s2,
    run acts s0 = Some (s1, acc) /\ act AFlush s1 = (Ok tt, s2) /\ journal (world s0) w /\
    map erase (map snd w ++ eventChan s2) = map erase acc /\
    (forall n, 0 <= n <= fileNum (wr (world s2)) ->
      content_of (os (world s2)) (log_name n) = expected (world s0) w n) /\
    (forall n e, In (n, e) w -> exists data post,
      serialize marshal (w_config (wr (world s0))) e = Ok data /\
      drop (Z.to_nat (le_Position e)) (expected (world s0) w n) = data ++ post).
Proof.
  destruct (inv_run (world s0) acts [] [] s0 Hsane Hnum (inv_init s0 Hwf Hch) Hacts)
    as (s1 & acc & w & Hrun & [Hwf1 Hcfg Hn Hj Hlogs Hnew Hfifo Hfits]).
  destruct (flushBuffer_spec (world s1) Hwf1) as (s2 & E & Hwf2 & _ & Hb & _ & Hn2 & Hlog2).
  exists s1, acc, w, (mkSys s2 (eventChan s1) (closed s1)). cbn [BinlogWriter.act world].
  unfold with_world. rewrite E. split_and!; try done.
  - intros n Hle. rewrite <- Hlogs by lia. rewrite <- Hlog2 by lia. unfold log_bytes. rewrite Hb.
    cbn [take]. by destruct (_ =? _); rewrite app_nil_r.
  - intros n e. by apply journal_position.
Qed.
End journal.

(** A small binary log for the witnesses: rotates after 100 bytes. *)
Definition small_config : Config :=
  mkConfig true (str "d") 100 3 (str "async") (str "binary") 1 256 true true false.

Definition empty_os : OS := mkOS ∅ 0.

Lemma empty_dir_ok : dir_ok empty_os.
Proof. intros name [x Hx]. cbn in Hx. by rewrite lookup_empty in Hx. Qed.

Lemma NewWriter_wf_witness :
  exists s, NewWriter no_fault (fun _ => 0%nat) [] (Some small_config) empty_os = Ok (Some s) /\
    wf s /\ bufPos (wr s) = 0%nat.
Proof.
  destruct (NewWriter_wf (fun _ => 0%nat) [] small_config empty_os) as (s & H1 & H2 & H3 & _);
    [reflexivity|discriminate|reflexivity|reflexivity|exact empty_dir_ok|].
  exists s. split; [exact H1|]. split; [exact H2|exact H3].
Defined.

Lemma sample_fits marshal : fits marshal small_config 256 sample_event.
Proof.
  intros p. unfold serialize. change (bytes_eqb _ _) with false. cbv iota.
  rewrite serializeBinary_layout. eexists. split; [reflexivity|]. solve_len.
Qed.

Lemma binlog_journal_witness :
  exists s0 s1 acc w s2,
    let sys := mkSys s0 [] false in
    NewWriter no_fault (fun _ => 0%nat) [] (Some small_config) empty_os = Ok (Some s0) /\
    run (fun _ => 0%nat) (fun _ => Ok []) [] [] [AWrite sample_event; ATake; AWrite sample_event; ATake] sys
      = Some (s1, acc) /\
    journal (fun _ => Ok []) [] s0 w /\
    map erase (map snd w ++ eventChan s2) = map erase acc.
Proof.
  destruct (NewWriter_spec (fun _ => 0%nat) [] small_config empty_os) as (s0 & H1 & H2 & H3 & H4 & H5);
    [reflexivity|discriminate|reflexivity|reflexivity|exact empty_dir_ok|].
  destruct (binlog_journal (fun _ => 0%nat) (fun _ => Ok []) [] [] (mkSys s0 [] false)
    [AWrite sample_event; ATake; AWrite sample_event; ATake]) as (s1 & acc & w & s2 & R1 & R2 & R3 & R4 & _).
  - exact H2.
  - unfold sane. cbn [world]. rewrite H4, H5. split_and!; [discriminate|reflexivity..].
  - reflexivity.
  - assert (fits (fun _ => Ok []) (w_config (wr s0)) (length (buffer (wr s0))) sample_event) as Hf
      by (rewrite H4, H5; apply sample_fits).
    repeat constructor; exact Hf.
  - cbn. enough (fileNum (wr s0) = 0) by lia. injection H1 as <-. reflexivity.
  - exists s0, s1, acc, w, s2. split; [exact H1|]. split; [exact R1|]. split; [exact R3|exact R4].
Defined.
