(* ===== verification/WriterFaults.v ===== *)
(** * The statement binlog: retention, reading back, errors and shutdown

    The clean-up keeps the newest logs, a reader started at an event's position
    gets that event and its successors, a failed flush loses nothing from the
    buffer; and two defects, an event larger than the buffer and events
    accepted shortly before a shutdown. *)

From Stdlib Require Import ZArith Lia.
From stdpp Require Import base numbers list strings gmap sorting.
From S2P Require Import Prelude GoStd BinlogWriter WriterFacts.
Open Scope Z_scope.

(** ** Errors *)

(** a failing flush loses nothing.  Whatever calls fail, a [flushBuffer]
    that returns an error leaves the writer, its buffered bytes and its
    position as they were, so the next flush writes them; and it never touches
    a file other than the open one. *)
Theorem flushBuffer_error fault partial os_error s m s'
  (H : flushBuffer fault partial os_error s = (Err m, s')) :
  wr s' = wr s /\
  forall name, file (wr s) <> Some (mkFile name true) -> files (os s') !! name = files (os s) !! name.
Proof.
  revert H. unfold flushBuffer, sbind, sget, sret, spanic, stry, serr.
  destruct (bufPos (wr s) =? 0)%nat; [done|]. destruct (_ <? _)%nat; [done|].
  unfold file_write, sbind, sget, serr. destruct (file (wr s)) as [[name []]|] eqn:Ef.
  2, 3: intros [= _ <-]; done.
  unfold syscall, set_content, smod. cbn. destruct (fault (tick (os s))); cbn.
  - intros [= _ <-]. cbn. split; [done|]. intros n Hn. rewrite lookup_insert_ne; [done|congruence].
  - destruct (bytes_eqb _ _); cbn; [|done]. unfold file_sync, sbind, sget, syscall, serr, sret. cbn.
    rewrite Ef. cbn. destruct (fault _); cbn; [|done].
    intros [= _ <-]. cbn. split; [done|]. intros n Hn. rewrite lookup_insert_ne; [done|congruence].
Qed.

(** The second system call of a run fails. *)
Lemma flushBuffer_error_witness :
  let s := mkWorld (mkWriter small_config (Some (mkFile (log_name 0) true)) [1; 2; 3] 2 2 0) (mkOS ∅ 1) in
  wr (snd (flushBuffer (fun t => (t =? 1)%nat) (fun _ => 1%nat) [] s)) = wr s.
Proof.
  intros s. eapply (flushBuffer_error (fun t => (t =? 1)%nat) (fun _ => 1%nat) [] s).
  reflexivity.
Defined.

(** ** Events larger than the buffer *)

(** a record larger than the write buffer is cut and then crashes the
    proxy.  [writeEvent] reports success, but the buffer position it leaves is
    past the end of the buffer and the next flush slices out of range, in a
    goroutine. *)
Theorem oversize_event_panics partial marshal now_text os_error s e data
  (Hwf : wf s) (Hroom : position (wr s) < MaxFileSize (w_config (wr s)))
  (Hmax : MaxFileSize (w_config (wr s)) < 2 ^ 63)
  (Hasync : SyncMode (w_config (wr s)) = str "async")
  (Hser : serialize marshal (w_config (wr s)) (set_Position (position (wr s)) e) = Ok data)
  (Hbig : (length (buffer (wr s)) < length data)%nat) :
  exists e' s', writeEvent no_fault partial marshal now_text os_error e s = (Ok e', s') /\
    (length (buffer (wr s')) < bufPos (wr s'))%nat /\
    fst (flushBuffer no_fault partial os_error s') = Panic.
Proof.
  destruct (flushBuffer_spec partial os_error s Hwf) as (s1 & E1 & Hwf1 & [Hc1 Hl1] & Hb1 & Hp1 & Hn1 & _).
  pose proof (wf_pos _ Hwf) as Hp0.
  unfold writeEvent, sbind at 1, sget at 1. rewrite (wrap_id 64) by (unfold in_width; lia).
  rewrite (proj2 (Z.leb_gt _ _)) by done. unfold sbind at 1, sret at 1, sbind at 1, sget at 1.
  unfold sbind at 1, slift. rewrite Hser. unfold sbind at 1, append_data.
  unfold sbind at 1, sget at 1. rewrite (proj2 (Nat.ltb_lt _ _)) by lia.
  unfold sbind at 1. rewrite E1. unfold sbind at 1, sget at 1, sbind at 1, slift.
  assert (exists b, copy_at (bufPos (wr s1)) data (buffer (wr s1)) = Ok b /\ length b = length (buffer (wr s1)))
    as (b & Eb & Hlb).
  { rewrite Hb1. unfold copy_at, put_at. rewrite decide_True by lia. rewrite length_take.
    rewrite decide_True by lia. eexists. split; [done|]. rewrite !length_app, !length_take, length_drop. lia. }
  rewrite Eb. unfold sbind, smod, upd_wr. rewrite Hc1, Hasync. change (bytes_eqb _ _) with false.
  unfold sret. eexists _, _. split; [reflexivity|].
  cbn [wr set_position set_buffer bufPos buffer]. rewrite Hlb, Hl1, Hb1. split; [lia|].
  unfold flushBuffer, sbind, sget. cbn [wr set_position set_buffer bufPos buffer]. rewrite ?Hb1, ?Hlb, ?Hl1.
  rewrite (proj2 (Nat.eqb_neq _ _)), (proj2 (Nat.ltb_lt _ _)) by lia. done.
Qed.

Lemma sample_data : exists data, serializeBinary sample_event = Ok data /\ (41 <= length data)%nat.
Proof. eexists. split; [apply serializeBinary_layout|]. solve_len. Qed.

(** Witness: a record of 41 and more bytes through a buffer of 16. *)
Lemma oversize_event_panics_witness :
  let c := mkConfig true (str "d") 1000 3 (str "async") (str "binary") 1 16 true true false in
  exists s e' s', NewWriter no_fault (fun _ => 0%nat) [] (Some c) empty_os = Ok (Some s) /\
    writeEvent no_fault (fun _ => 0%nat) (fun _ => Ok []) [] [] sample_event s = (Ok e', s') /\
    fst (flushBuffer no_fault (fun _ => 0%nat) [] s') = Panic.
Proof.
  intros c. destruct (NewWriter_spec (fun _ => 0%nat) [] c empty_os) as (s & H1 & H2 & H3 & H4 & H5);
    [reflexivity|discriminate|reflexivity|reflexivity|exact empty_dir_ok|].
  destruct sample_data as (data & Ed & Hd).
  destruct (oversize_event_panics (fun _ => 0%nat) (fun _ => Ok []) [] [] s sample_event data)
    as (e' & s' & R1 & _ & R2).
  - exact H2.
  - rewrite H4. injection H1 as <-. reflexivity.
  - rewrite H4. reflexivity.
  - rewrite H4. reflexivity.
  - rewrite H4. unfold serialize. change (bytes_eqb _ _) with false.
    unfold set_Position. exact Ed.
  - rewrite H5. change (Z.to_nat (BufferSize c)) with 16%nat. lia.
  - exists s, e', s'. split; [exact H1|]. split; [exact R1|exact R2].
Defined.

(** ** Shutdown *)

Section shutdown.
Variable partial : nat -> nat.
Variable marshal : LogEvent -> res bytes.
Variable now_text : bytes.
Variable os_error : bytes.

Local Abbreviation act := (act no_fault partial marshal now_text os_error).

(** A closed file refuses the bytes; the buffer keeps them. *)
Lemma flush_closed s name :
  file (wr s) = Some (mkFile name false) -> (0 < bufPos (wr s) <= length (buffer (wr s)))%nat ->
  flushBuffer no_fault partial os_error s = (Err (str "failed to write to binlog file"), s).
Proof.
  intros Hf Hb. unfold flushBuffer, sbind, sget, stry, sret.
  rewrite (proj2 (Nat.eqb_neq _ _)), (proj2 (Nat.ltb_ge _ _)) by lia.
  unfold file_write, sbind, sget. rewrite Hf. reflexivity.
Qed.

(** With an empty buffer and no rotation due, an event only goes to the buffer. *)
Lemma writeEvent_buffered s e data :
  bufPos (wr s) = 0%nat -> 0 <= position (wr s) < MaxFileSize (w_config (wr s)) ->
  MaxFileSize (w_config (wr s)) < 2 ^ 63 -> SyncMode (w_config (wr s)) = str "async" ->
  serialize marshal (w_config (wr s)) (set_Position (position (wr s)) e) = Ok data ->
  (length data <= length (buffer (wr s)))%nat ->
  exists e' s', writeEvent no_fault partial marshal now_text os_error e s = (Ok e', s') /\
    os s' = os s /\ file (wr s') = file (wr s) /\ bufPos (wr s') = length data /\
    length (buffer (wr s')) = length (buffer (wr s)).
Proof.
  intros Hb Hpos Hmax Hasync Hser Hlen. unfold writeEvent, sbind at 1, sget at 1.
  rewrite (wrap_id 64) by (unfold in_width; lia). rewrite (proj2 (Z.leb_gt _ _)) by lia.
  unfold sbind, sret at 1, sget at 1, slift. rewrite Hser. unfold append_data, sbind, sget.
  rewrite Hb, (proj2 (Nat.ltb_ge _ _)) by lia. unfold sret, slift, smod, upd_wr. rewrite Hb.
  destruct (copy_at_prefix 0 data (buffer (wr s))) as (b & Eb & Hlb & _); [lia|].
  rewrite Eb, Hasync. change (bytes_eqb _ _) with false. cbv iota.
  eexists _, _. split; [reflexivity|]. cbn [wr os set_position set_buffer file bufPos buffer].
  rewrite ?Hb. by split_and!.
Qed.

(** [Close] loses events it has accepted.  [Close] flushes and closes the
    file without waiting for the async writer to drain the channel: an event
    still queued is afterwards taken from the channel and put into the buffer,
    every later flush fails on the closed file, and nothing of it ever reaches
    the directory. *)
Theorem close_loses_queued_events s e rest
  (Hwf : wf (world s)) (Hopen : closed s = false) (Hch : eventChan s = e :: rest)
  (Hroom : position (wr (world s)) < MaxFileSize (w_config (wr (world s))))
  (Hmax : MaxFileSize (w_config (wr (world s))) < 2 ^ 63)
  (Hasync : SyncMode (w_config (wr (world s))) = str "async")
  (Hfit : fits marshal (w_config (wr (world s))) (length (buffer (wr (world s)))) e)
  (Hne : forall p, serialize marshal (w_config (wr (world s))) (set_Position p e) <> Ok []) :
  exists s1 s2, Close no_fault partial os_error s = (Ok tt, s1) /\ act ATake s1 = (Ok tt, s2) /\
    eventChan s2 = rest /\ files (os (world s2)) = files (os (world s1)) /\
    exists m, act AFlush s2 = (Err m, s2).
Proof.
  destruct (flushBuffer_spec partial os_error (world s) Hwf)
    as (w1 & E1 & Hwf1 & [Hc1 Hl1] & Hb1 & Hp1 & Hn1 & _).
  destruct (file_close_shape os_error w1 _ (wf_file _ Hwf1)) as (t & Ecl).
  destruct (Hfit (position (wr (world s)))) as (data & Hser & Hlen).
  pose proof (wf_pos _ Hwf) as Hp0.
  set (w2 := mkWorld (set_file (Some (mkFile (current w1) false)) (wr w1)) (mkOS (files (os w1)) t)) in *.
  destruct (writeEvent_buffered w2 e data) as (e' & w3 & Ew & Ho & Hf & Hb & Hl);
    subst w2; cbn [wr set_file w_config position bufPos buffer file] in *; rewrite ?Hc1, ?Hp1, ?Hl1 in *; try done; [lia|].
  exists (mkSys (mkWorld (set_file (Some (mkFile (current w1) false)) (wr w1)) (mkOS (files (os w1)) t))
            (e :: rest) true), (mkSys w3 rest true). split_and!.
  - unfold Close. rewrite Hopen. unfold with_world, close_file, sbind, sget, close_mark. cbn [world].
    rewrite E1, (wf_file _ Hwf1), Ecl, Hch. reflexivity.
  - unfold BinlogWriter.act, take_event. cbn [eventChan world]. unfold sbind, sret. rewrite Ew. done.
  - done.
  - cbn [world]. by rewrite Ho.
  - eexists. unfold BinlogWriter.act, with_world. cbn [world].
    rewrite (flush_closed w3 (current w1)); [done|done|]. rewrite Hb, Hl.
    destruct data; [by apply Hne in Hser|simpl in *; lia].
Qed.
End shutdown.

Lemma close_loses_queued_events_witness :
  let c := mkConfig true (str "d") 1000 3 (str "async") (str "binary") 1 256 true true false in
  exists w s1 s2, NewWriter no_fault (fun _ => 0%nat) [] (Some c) empty_os = Ok (Some w) /\
    Close no_fault (fun _ => 0%nat) [] (mkSys w [sample_event] false) = (Ok tt, s1) /\
    act no_fault (fun _ => 0%nat) (fun _ => Ok []) [] [] ATake s1 = (Ok tt, s2) /\
    eventChan s2 = [] /\ files (os (world s2)) = files (os (world s1)).
Proof.
  intros c. destruct (NewWriter_spec (fun _ => 0%nat) [] c empty_os) as (w & H1 & H2 & H3 & H4 & H5);
    [reflexivity|discriminate|reflexivity|reflexivity|exact empty_dir_ok|].
  assert (forall p, exists data, serialize (fun _ => Ok []) c (set_Position p sample_event) = Ok data /\
    (length data <= 256)%nat /\ data <> []) as Hs.
  { intros p. unfold serialize. change (bytes_eqb _ _) with false. cbv iota. rewrite serializeBinary_layout.
    eexists. split; [reflexivity|]. split; [solve_len|]. intros E%(f_equal length). discriminate E. }
  destruct (close_loses_queued_events (fun _ => 0%nat) (fun _ => Ok []) [] [] (mkSys w [sample_event] false)
    sample_event []) as (s1 & s2 & R1 & R2 & R3 & R4 & _); cbn [world]; rewrite ?H4, ?H5.
  - exact H2.
  - reflexivity.
  - reflexivity.
  - injection H1 as <-. reflexivity.
  - reflexivity.
  - reflexivity.
  - intros p. destruct (Hs p) as (data & E & Hl & _). exists data. split; [exact E|exact Hl].
  - intros p. destruct (Hs p) as (data & E & _ & Hne). rewrite E. intros [= ->]. by apply Hne.
  - exists w, s1, s2. split; [exact H1|]. split; [exact R1|]. split; [exact R2|]. split; [exact R3|exact R4].
Defined.

(** ** Retention *)

Lemma bytes_le_total a b : bytes_le a b = true \/ bytes_le b a = true.
Proof.
  revert b; induction a as [|x a IH]; intros [|y b]; cbn; auto.
  destruct (Z.ltb_spec x y), (Z.ltb_spec y x), (Z.eqb_spec x y), (Z.eqb_spec y x); cbn; auto; try lia.
Qed.

Lemma bytes_le_trans a b c : bytes_le a b = true -> bytes_le b c = true -> bytes_le a c = true.
Proof.
  revert b c; induction a as [|x a IH]; intros [|y b] [|z c]; cbn; try done.
  rewrite !orb_true_iff, !andb_true_iff, !Z.ltb_lt, !Z.eqb_eq. intros [H1|[H1 H1']] [H2|[H2 H2']]; try lia.
  right. split; [lia|]. by eapply IH.
Qed.

Local Abbreviation name_le := (fun a b : bytes => Is_true (bytes_le a b)).

#[local] Instance name_le_total : Total name_le.
Proof. intros a b. rewrite !Is_true_true. apply bytes_le_total. Qed.
#[local] Instance name_le_trans : Transitive name_le.
Proof. intros a b c. rewrite !Is_true_true. apply bytes_le_trans. Qed.

(** Digit strings of one length are ordered as numbers. *)
Lemma bytes_le_digits a : forall b,
  forallb digit a = true -> forallb digit b = true -> length a = length b ->
  bytes_le a b = true -> digits_val 0 a <= digits_val 0 b.
Proof.
  induction a as [|x a IH]; intros [|y b] Ha Hb Hl Hle; try done; cbn in *.
  apply andb_true_iff in Ha as [Hx Ha], Hb as [Hy Hb]. injection Hl as Hl.
  rewrite (digits_val_acc _ a), (digits_val_acc _ b), Hl.
  pose proof (digits_val_range a Ha) as Ra. pose proof (digits_val_range b Hb) as Rb. rewrite Hl in Ra.
  apply digit_range in Hx, Hy.
  apply orb_true_iff in Hle as [Hlt%Z.ltb_lt | [->%Z.eqb_eq Hle]%andb_true_iff].
  - assert (0 < 10 ^ Z.of_nat (length b)) by lia. nia.
  - specialize (IH b Ha Hb Hl Hle). lia.
Qed.

Lemma log_name_le m n :
  0 <= m < 1000000 -> 0 <= n < 1000000 -> bytes_le (log_name m) (log_name n) = true -> m <= n.
Proof.
  intros Hm Hn Hle. change (bytes_le (dec_pad 6 m) (dec_pad 6 n) = true) in Hle.
  destruct (dec_pad_spec 6 m) as (Dm & Vm & _); [lia|]. destruct (dec_pad_spec 6 n) as (Dn & Vn & _); [lia|].
  assert (length (dec_pad 6 m) = length (dec_pad 6 n)) as El by (rewrite !dec_pad_length; (done || lia)).
  pose proof (bytes_le_digits _ _ Dm Dn El Hle) as H. lia.
Qed.

Lemma remove_names_spec names : forall s,
  exists t, remove_names no_fault names s =
    (Ok tt, mkWorld (wr s) (mkOS (foldr delete (files (os s)) (rev names)) t)).
Proof.
  induction names as [|n names IH]; intros s; cbn [remove_names].
  - exists (tick (os s)). by destruct s as [? []].
  - unfold sbind, syscall, no_fault, smod. cbn -[remove_names foldr rev].
    edestruct IH as (t & ->). exists t. cbn [wr os files rev]. by rewrite foldr_app.
Qed.

Lemma foldr_delete_lookup (names : list bytes) (fs : gmap bytes bytes) name :
  foldr delete fs names !! name = if decide (name ∈ names) then None else fs !! name.
Proof.
  induction names as [|n names IH]; cbn; [by rewrite decide_False by apply not_elem_of_nil|].
  destruct (decide (n = name)) as [->|Hne].
  - rewrite lookup_delete_eq, decide_True; [done|by left].
  - rewrite lookup_delete_ne, IH by done.
    rewrite (decide_ext _ (name ∈ n :: names)); [done|]. rewrite elem_of_cons.
    split; [by right|]. intros [E|E]; congruence.
Qed.

Lemma glob_logs_NoDup o : NoDup (glob_logs o).
Proof.
  unfold glob_logs. rewrite merge_sort_Permutation. apply NoDup_filter, NoDup_elements.
Qed.

Lemma StronglySorted_take_drop {A} (R : relation A) (l : list A) k x y :
  StronglySorted R l -> In x (take k l) -> In y (drop k l) -> R x y.
Proof.
  revert k; induction l as [|a l IH]; intros [|k] Hs Hx Hy; try done.
  apply StronglySorted_inv in Hs as [Hs Ha]. destruct Hx as [<-|Hx]; [|by eapply IH].
  rewrite Forall_forall in Ha. apply Ha. apply list_elem_of_In.
  rewrite <- (take_drop k l). apply in_or_app. by right.
Qed.

(** The directory after removing the first [k] logs. *)
Definition without (k : nat) (o : OS) (t : nat) : OS :=
  mkOS (foldr delete (files o) (rev (take k (glob_logs o)))) t.

Lemma without_lookup k o t name :
  files (without k o t) !! name = if decide (name ∈ take k (glob_logs o)) then None else files o !! name.
Proof.
  cbn. rewrite foldr_delete_lookup. rewrite (decide_ext _ (name ∈ take k (glob_logs o))); [done|].
  by rewrite !list_elem_of_In, <- in_rev.
Qed.

Lemma without_elem k o t name : In name (glob_logs (without k o t)) <-> In name (drop k (glob_logs o)).
Proof.
  rewrite glob_logs_elem, without_lookup. pose proof (glob_logs_NoDup o) as Hnd.
  pose proof (glob_logs_elem o name) as HL. rewrite <- (take_drop k (glob_logs o)) in Hnd, HL at 1.
  apply NoDup_app in Hnd as (_ & Hdis & _). rewrite in_app_iff in HL.
  destruct (decide (name ∈ take k (glob_logs o))) as [Hi|Hi].
  - split; [intros [[x Hx] _]; discriminate|]. intros Hd%list_elem_of_In. by destruct (Hdis name Hi).
  - rewrite list_elem_of_In in Hi. tauto.
Qed.

Lemma without_length k o t : length (glob_logs (without k o t)) = (length (glob_logs o) - k)%nat.
Proof.
  rewrite <- length_drop. apply Permutation_length, NoDup_Permutation.
  - apply glob_logs_NoDup.
  - pose proof (glob_logs_NoDup o) as Hnd. rewrite <- (take_drop k (glob_logs o)) in Hnd.
    by apply NoDup_app in Hnd as (_ & _ & Hnd).
  - intros x. rewrite !list_elem_of_In. apply without_elem.
Qed.

(** the clean-up keeps the newest logs.  When no removal fails it leaves
    [min(MaxFiles, number of logs)] log files, every removed log has a smaller
    number than every log that stays, and files that are not logs are left
    alone. *)
Theorem cleanup_keeps_newest s (Hmax : 0 <= MaxFiles (w_config (wr s))) :
  exists s', cleanupOldFiles no_fault s = (Ok tt, s') /\ wr s' = wr s /\
    Z.of_nat (length (glob_logs (os s'))) =
      Z.min (MaxFiles (w_config (wr s))) (Z.of_nat (length (glob_logs (os s)))) /\
    (forall name, has_prefix (str "binlog.") name = false ->
       files (os s') !! name = files (os s) !! name) /\
    forall m n, 0 <= m < 1000000 -> 0 <= n < 1000000 ->
      is_Some (files (os s) !! log_name m) -> files (os s') !! log_name m = None ->
      is_Some (files (os s') !! log_name n) -> m < n.
Proof.
  unfold cleanupOldFiles, sbind, sget.
  destruct (Z.leb_spec (Z.of_nat (length (glob_logs (os s)))) (MaxFiles (w_config (wr s)))).
  { exists s. split_and!; try done; [lia|]. intros m n _ _ [x E1] E2. congruence. }
  rewrite (proj2 (Z.ltb_ge _ _)) by lia. set (k := Z.to_nat _).
  destruct (remove_names_spec (take k (glob_logs (os s))) s) as (t & ->). fold (without k (os s) t).
  eexists. split; [reflexivity|]. cbn [wr os]. split_and!; [done| | |].
  - rewrite without_length. subst k. lia.
  - intros name Hp. rewrite without_lookup, decide_False; [done|].
    intros Hi. assert (In name (glob_logs (os s))) as [_ Hi']%glob_logs_elem; [|congruence].
    rewrite <- (take_drop k (glob_logs (os s))). apply in_or_app. left. by apply list_elem_of_In.
  - intros m n Hm Hn Hs Hnone Hkept.
    assert (In (log_name m) (take k (glob_logs (os s)))) as Hin.
    { rewrite without_lookup in Hnone. destruct (decide _) as [Hi|]; [by apply list_elem_of_In|].
      rewrite Hnone in Hs. by destruct Hs. }
    assert (In (log_name n) (drop k (glob_logs (os s)))) as Hin'
      by (apply (without_elem k (os s) t), glob_logs_elem; done).
    assert (m <= n); [|enough (m <> n) by lia].
    + apply log_name_le; [done..|]. apply Is_true_true. eapply (StronglySorted_take_drop name_le); [|exact Hin|exact Hin'].
      apply StronglySorted_merge_sort; apply _.
    + intros ->. apply without_elem with (t := t) in Hin'. apply glob_logs_elem in Hin' as [[x Hx] _].
      congruence.
Qed.

Lemma cleanup_keeps_newest_witness :
  let c := mkConfig true (str "d") 1000 1 (str "async") (str "binary") 1 256 true true false in
  let s := mkWorld (mkWriter c None [] 0 0 2) (mkOS (<[log_name 1 := [7]]> (<[log_name 2 := [8]]> ∅)) 0) in
  exists s', cleanupOldFiles no_fault s = (Ok tt, s') /\
    Z.of_nat (length (glob_logs (os s'))) = Z.min 1 (Z.of_nat (length (glob_logs (os s)))).
Proof.
  intros c s. destruct (cleanup_keeps_newest s) as (s' & H1 & _ & H2 & _); [discriminate|].
  exists s'. split; [exact H1|exact H2].
Defined.

(** ** Reading back *)

(** An event JSON represents exactly: printable ASCII strings, a time with an
    offset of whole minutes, and numbers of their width. *)
Definition json_event (e : LogEvent) : Prop :=
  Forall ascii_text [Database e; Table e; SessionID e; User e; ClientIP e; MySQLQuery e; PGQuery e]
  /\ (zone_offset (le_Timestamp e) mod 60 = 0 /\ Z.abs (zone_offset (le_Timestamp e)) < 86400)
  /\ 0 <= nsec (le_Timestamp e) < 10 ^ 9
  /\ in_width 64 (le_Position e) /\ in_swidth 64 (RowsAffected e) /\ in_swidth 64 (ExecTime e).

Section reading.
Variable marshal : LogEvent -> res bytes.
Variable now_text : bytes.
Variable decode : bytes -> option (LogEvent * bytes).
Variable s0 : World.

Local Abbreviation journal := (journal marshal now_text s0).
Local Abbreviation expected := (expected marshal now_text s0).
Local Abbreviation data_of := (data_of marshal s0).

Lemma journal_entries w :
  journal w -> Forall (fun x => exists data, serialize marshal (w_config (wr s0)) (snd x) = Ok data) w.
Proof.
  induction 1 as [|w n e data Hj IH Hs Hp]; [constructor|].
  apply Forall_app. split; [done|]. constructor; [by exists data|constructor].
Qed.

Lemma journal_split w1 n e w2 :
  journal (w1 ++ (n, e) :: w2) -> le_Position e = Z.of_nat (length (expected w1 n)).
Proof.
  remember (w1 ++ (n, e) :: w2) as w eqn:Ew. intros Hj. revert w2 Ew.
  induction Hj as [|w n' e' data Hj IH Hs Hp]; intros w2 Ew; [by destruct w1|].
  destruct w2 as [|x w2 _] using rev_ind.
  - apply app_inj_tail in Ew as [-> [= <- <-]]. done.
  - rewrite app_comm_cons, app_assoc in Ew. apply app_inj_tail in Ew as [Ew _]. by eapply IH.
Qed.

Lemma expected_split w1 n e w2 :
  expected (w1 ++ (n, e) :: w2) n =
  expected w1 n ++ concat (map data_of ((n, e) :: filter (fun x => fst x = n) w2)).
Proof.
  unfold WriterFacts.expected. rewrite filter_app, filter_cons, decide_True by done.
  by rewrite map_app, concat_app, <- app_assoc.
Qed.

(** The documented behaviour of [encoding/json] the log relies on: a decoder
    at the start of a marshalled event of plain ASCII text, newline-terminated,
    returns it and stops after it; at the end of the stream it returns no
    event. *)
Hypothesis decode_marshal : forall e data rest,
  json_event e -> marshal e = Ok data -> decode (data ++ 10 :: rest) = Some (e, rest).
Hypothesis decode_end : decode [] = None.
Hypothesis json : Format (w_config (wr s0)) = str "json".

Lemma data_of_json x :
  (exists data, serialize marshal (w_config (wr s0)) (snd x) = Ok data) ->
  exists m, marshal (snd x) = Ok m /\ data_of x = m ++ [10].
Proof.
  intros [data Hs]. unfold WriterFacts.data_of. rewrite Hs. unfold serialize in Hs.
  rewrite json in Hs. change (bytes_eqb _ _) with true in Hs. cbv iota in Hs.
  destruct (marshal (snd x)) as [m| |]; try discriminate. injection Hs as <-. by exists m.
Qed.

Lemma decode_all_spec l : forall fuel,
  Forall (fun x => exists data, serialize marshal (w_config (wr s0)) (snd x) = Ok data) l ->
  Forall (fun x => json_event (snd x)) l -> (length l < fuel)%nat -> decode_all decode fuel (concat (map data_of l)) = map snd l.
Proof.
  induction l as [|x l IH]; intros [|fuel] Hok Ha Hf; try (cbn in Hf; lia); cbn [map concat decode_all].
  - by rewrite decode_end.
  - apply Forall_cons in Hok as [Hx Hl]. apply Forall_cons in Ha as [Hax Hal]. destruct (data_of_json x Hx) as (m & Hm & ->).
    rewrite <- app_assoc. cbn [app]. rewrite (decode_marshal (snd x)) by done.
    rewrite IH; [by destruct x|done|done|cbn in Hf; lia].
Qed.

(** C38: the log can be read back from any position.  If the directory holds
    the journal's content of log [n] (as it does after a flush), reading that
    log from the [Position] of one of its entries returns that event and all
    later events of the log, in order, and then stops (events of printable
    ASCII text, which JSON represents exactly). *)
Theorem ReadFrom_journal w1 n e w2 o fuel
  (Hj : journal (w1 ++ (n, e) :: w2))
  (Hjson : Forall (fun x => fst x = n -> json_event (snd x)) ((n, e) :: w2))
  (Hdisk : files o !! log_name n = Some (expected (w1 ++ (n, e) :: w2) n))
  (Hfuel : (length w2 + 1 < fuel)%nat) :
  ReadFrom decode o n (le_Position e) fuel = Ok (e :: map snd (filter (fun x => fst x = n) w2)).
Proof.
  unfold ReadFrom. rewrite Hdisk, expected_split, (journal_split _ _ _ _ Hj), Nat2Z.id, drop_app_length.
  pose proof (journal_entries _ Hj) as [_ He]%Forall_app.
  apply Forall_cons in He as [He Hw2].
  apply Forall_cons in Hjson as [Hje Hjw].
  rewrite decode_all_spec; [done| | |].
  - constructor; [done|]. rewrite Forall_forall in Hw2 |- *.
    intros x [_ Hx]%list_elem_of_filter. by apply Hw2.
  - constructor; [by apply Hje|]. rewrite Forall_forall in Hjw |- *.
    intros x [Hn Hx]%list_elem_of_filter. by apply Hjw.
  - cbn [length]. pose proof (length_filter (fun x : Z * LogEvent => fst x = n) w2). lia.
Qed.
End reading.

(** Witness: an encoder of a single event, whose record is its position. *)
Definition toy_marshal (e : LogEvent) : res bytes :=
  if decide (erase e = sample_event) then Ok [le_Position e] else Err [].

Definition toy_decode (l : bytes) : option (LogEvent * bytes) :=
  match l with p :: 10 :: rest => Some (set_Position p sample_event, rest) | _ => None end.

Lemma toy_decode_marshal e data rest :
  json_event e -> toy_marshal e = Ok data -> toy_decode (data ++ 10 :: rest) = Some (e, rest).
Proof.
  unfold toy_marshal. destruct (decide _) as [E|]; [|discriminate]. intros _ [= <-]. cbn.
  do 2 f_equal. rewrite <- E. by destruct e.
Qed.

Definition toy_world : World :=
  mkWorld (mkWriter DefaultConfig None [] 0 0 0) (mkOS ∅ 0).

Lemma ReadFrom_journal_witness :
  ReadFrom toy_decode (mkOS {[ log_name 0 := [0; 10] ]} 0) 0 0 3 = Ok [sample_event].
Proof.
  apply (ReadFrom_journal toy_marshal [] toy_decode toy_world toy_decode_marshal eq_refl eq_refl
    [] 0 sample_event [] (mkOS {[ log_name 0 := [0; 10] ]} 0) 3).
  - apply (journal_snoc toy_marshal [] toy_world [] 0 sample_event [0; 10]).
    + constructor.
    + reflexivity.
    + reflexivity.
  - repeat constructor; cbn; try lia; unfold in_width, in_swidth; lia.
  - cbn [files]. rewrite lookup_singleton_eq. reflexivity.
  - cbn. lia.
Defined.
