(* ===== verification/SchemaCache.v ===== *)
(** * The schema cache

    [pkg/schema/cache.go]: the cache of table metadata shared by all sessions,
    keyed by "schema.table", with a time to live.  The catalogue it queries is
    PostgreSQL's: a [Catalog] gives the answers of its queries; [db] gives the
    catalogue at each time, so that theorems can speak about stale answers.
    Times are nanoseconds.  A stored nil pointer is [None]. *)

From Stdlib Require Import ZArith Lia.
From stdpp Require Import base numbers list strings gmap.
From S2P Require Import Prelude GoStd BinlogValue.
Open Scope Z_scope.

(** ** Data *)

Record ColumnInfo := mkColumn {
  ci_Name : bytes;
  OrdinalPos : Z;
  DataType : bytes;
  MySQLType : Z;
  MySQLMeta : Z;
  IsNullable : bool;
  IsPrimaryKey : bool;
  IsAutoIncr : bool;
  IsUnsigned : bool;
  MaxLength : Z;
  NumPrecision : Z;
  NumScale : Z
}.

Record TableInfo := mkTableInfo {
  TableName : bytes;
  Schema : bytes;
  AutoIncrColumn : bytes;
  Columns : list ColumnInfo;
  PrimaryKey : list bytes;
  TableID : Z;
  LastRefreshed : Z;
  TTL : Z
}.

Record Cache := mkCache {
  tables : gmap bytes (option TableInfo);
  ttl : Z;
  nextTableID : Z
}.

(** One row of the column query, and the queries' answers: [Err] is a failing
    query, an [Err] row a failing [Scan]. *)
Record ColumnRow := mkColumnRow {
  cr_name : bytes; cr_pos : Z; cr_type : bytes; cr_nullable : bytes;
  cr_len : Z; cr_prec : Z; cr_scale : Z; cr_auto : bool
}.

Record Catalog := mkCatalog {
  auto_increment_of : bytes -> bytes -> option bytes;
  columns_of : bytes -> bytes -> res (list (res ColumnRow));
  primary_key_of : bytes -> bytes -> res (list (res bytes))
}.

Definition NewCache (t : Z) : Cache := mkCache ∅ t 0.

(** [once.Do] runs its function the first time only, so the global cache is the
    one of the first call; [None] is the nil [GlobalCache]. *)
Definition InitGlobalCache (t : Z) (global : option Cache) : option Cache :=
  match global with Some c => Some c | None => Some (NewCache t) end.
Definition GetGlobalCache (global : option Cache) : option Cache :=
  match global with None => InitGlobalCache (5 * 60 * 1000000000) None | g => g end.

Definition set_tables (m : gmap bytes (option TableInfo)) (c : Cache) : Cache := mkCache m (ttl c) (nextTableID c).

(** [schemaName + "." + tableName]. *)
Definition buildTableCacheKey (schemaName tableName : bytes) : bytes := schemaName ++ [46] ++ tableName.

(** ** Operations; [conn] is [None] for a nil connection *)

Definition queryAutoIncrementColumn (conn : option Catalog) (schemaName tableName : bytes) : bytes :=
  match conn with
  | None => []
  | Some db => default [] (auto_increment_of db schemaName (ToLower tableName))
  end.

(** [time.Since(info.LastRefreshed) < info.TTL]. *)
Definition fresh (now : Z) (info : TableInfo) : bool := now - LastRefreshed info <? TTL info.

(** The cached entry of a key when it is still fresh; loading a nil pointer
    panics where its fields are read. *)
Definition load_fresh (now : Z) (key : bytes) (c : Cache) : res (option TableInfo) :=
  match tables c !! key with
  | None => Ok None
  | Some None => Panic
  | Some (Some info) => Ok (if fresh now info then Some info else None)
  end.

Definition GetAutoIncrementColumn (now : Z) (conn : option Catalog) (schemaName tableName : bytes)
  : st Cache bytes :=
  let cacheKey := buildTableCacheKey schemaName tableName in
  c <- sget id;;
  hit <- slift (load_fresh now cacheKey c);;
  match hit with
  | Some info => sret (AutoIncrColumn info)
  | None =>
      let columnName := queryAutoIncrementColumn conn schemaName tableName in
      smod (fun c => set_tables
        (<[cacheKey := Some (mkTableInfo tableName schemaName columnName [] [] 0 now (ttl c))]> (tables c)) c);;;
      sret columnName
  end.

Definition InvalidateTable (schemaName tableName : bytes) (c : Cache) : Cache :=
  set_tables (delete (buildTableCacheKey schemaName tableName) (tables c)) c.

Definition InvalidateAll (c : Cache) : Cache := set_tables ∅ c.

Definition RefreshTable (now : Z) (conn : option Catalog) (schemaName tableName : bytes) : st Cache bytes :=
  smod (InvalidateTable schemaName tableName);;; GetAutoIncrementColumn now conn schemaName tableName.

Definition SetTTL (t : Z) (c : Cache) : Cache := mkCache (tables c) t (nextTableID c).

(** The count and the time to live; [c.ttl.Seconds()] is kept in nanoseconds. *)
Definition GetCacheStats (c : Cache) : nat * Z := (size (tables c), ttl c).

(** One tick of [StartPeriodicRefresh]; a nil entry panics. *)
Definition refreshExpiredEntries (now : Z) (c : Cache) : res Cache :=
  if decide (map_Forall (fun _ v => v <> None) (tables c)) then
    Ok (set_tables (filter (fun kv : bytes * option TableInfo =>
          default true (fresh now <$> snd kv) = true) (tables c)) c)
  else Panic.

Definition pgTypeToMySQL (pgType : bytes) (maxLength : Z) : Z * Z :=
  let ty s := bytes_eqb pgType (str s) in
  if ty "smallint"%string then (MYSQL_TYPE_SHORT, 0)
  else if ty "integer"%string then (MYSQL_TYPE_LONG, 0)
  else if ty "bigint"%string then (MYSQL_TYPE_LONGLONG, 0)
  else if ty "real"%string then (MYSQL_TYPE_FLOAT, 4)
  else if ty "double precision"%string then (MYSQL_TYPE_DOUBLE, 8)
  else if ty "numeric"%string || ty "decimal"%string then
    (MYSQL_TYPE_NEWDECIMAL, Z.lor (Z.shiftl 10 8) 2)
  else if ty "boolean"%string then (MYSQL_TYPE_TINY, 0)
  else if ty "character varying"%string || ty "varchar"%string then
    (MYSQL_TYPE_VARCHAR, wrap 16 (if maxLength =? 0 then 255 else maxLength))
  else if ty "character"%string || ty "char"%string then
    (MYSQL_TYPE_STRING, wrap 16 (if maxLength =? 0 then 1 else maxLength))
  else if ty "text"%string then (MYSQL_TYPE_BLOB, 2)
  else if ty "bytea"%string then (MYSQL_TYPE_BLOB, 2)
  else if ty "date"%string then (MYSQL_TYPE_DATE, 0)
  else if ty "time"%string || ty "time without time zone"%string || ty "time with time zone"%string then
    (MYSQL_TYPE_TIME, 0)
  else if ty "timestamp"%string || ty "timestamp without time zone"%string
          || ty "timestamp with time zone"%string then (MYSQL_TYPE_TIMESTAMP, 0)
  else if ty "json"%string || ty "jsonb"%string then (MYSQL_TYPE_JSON, 4)
  else if ty "uuid"%string then (MYSQL_TYPE_STRING, 36)
  else (MYSQL_TYPE_VARCHAR, 255).

Definition column_of_row (r : ColumnRow) : ColumnInfo :=
  let '(t, m) := pgTypeToMySQL (cr_type r) (cr_len r) in
  mkColumn (cr_name r) (cr_pos r) (cr_type r) t m (bytes_eqb (cr_nullable r) (str "YES")) false
    (cr_auto r) false (cr_len r) (cr_prec r) (cr_scale r).

(** The loop over the column rows: columns so far and the last
    auto-increment column. *)
Fixpoint scan_columns (rows : list (res ColumnRow)) (cols : list ColumnInfo) (auto : bytes)
  : res (list ColumnInfo * bytes) :=
  match rows with
  | [] => Ok (cols, auto)
  | row :: rows' =>
      r <~ row;
      let col := column_of_row r in
      scan_columns rows' (cols ++ [col]) (if IsAutoIncr col then ci_Name col else auto)
  end.

(** Marks the first column of that name. *)
Fixpoint mark_primary (name : bytes) (cols : list ColumnInfo) : list ColumnInfo :=
  match cols with
  | [] => []
  | c :: cols' =>
      if bytes_eqb (ci_Name c) name
      then mkColumn (ci_Name c) (OrdinalPos c) (DataType c) (MySQLType c) (MySQLMeta c) (IsNullable c) true
             (IsAutoIncr c) (IsUnsigned c) (MaxLength c) (NumPrecision c) (NumScale c) :: cols'
      else c :: mark_primary name cols'
  end.

Fixpoint scan_primary (rows : list (res bytes)) (pk : list bytes) (cols : list ColumnInfo)
  : list bytes * list ColumnInfo :=
  match rows with
  | [] => (pk, cols)
  | Ok name :: rows' => scan_primary rows' (pk ++ [name]) (mark_primary name cols)
  | _ :: rows' => scan_primary rows' pk cols
  end.

Definition queryTableInfo (now : Z) (conn : option Catalog) (schemaName tableName : bytes)
  : st Cache (option TableInfo) :=
  match conn with
  | None => sret None
  | Some db =>
      smod (fun c => mkCache (tables c) (ttl c) (wrap 64 (nextTableID c + 1)));;;
      c <- sget id;;
      rows <- slift (columns_of db schemaName tableName);;
      ca <- slift (scan_columns rows [] []);;
      let '(pk, cols) :=
        match primary_key_of db schemaName tableName with
        | Ok pkRows => scan_primary pkRows [] (fst ca)
        | _ => ([], fst ca)
        end in
      sret (Some (mkTableInfo tableName schemaName (snd ca) cols pk (nextTableID c) now (ttl c)))
  end.

Definition GetTableInfo (now : Z) (conn : option Catalog) (schemaName tableName : bytes)
  : st Cache (option TableInfo) :=
  let cacheKey := schemaName ++ [46] ++ tableName in
  c <- sget id;;
  hit <- slift (load_fresh now cacheKey c);;
  match hit with
  | Some info => sret (Some info)
  | None =>
      tableInfo <- queryTableInfo now conn schemaName tableName;;
      smod (fun c => set_tables (<[cacheKey := tableInfo]> (tables c)) c);;;
      sret tableInfo
  end.

(** * Properties *)

(** A successful computation of a fixed value. *)
Lemma GetAutoIncrementColumn_miss now conn sn tn c :
  load_fresh now (buildTableCacheKey sn tn) c = Ok None ->
  let v := queryAutoIncrementColumn conn sn tn in
  GetAutoIncrementColumn now conn sn tn c =
    (Ok v, set_tables (<[buildTableCacheKey sn tn := Some (mkTableInfo tn sn v [] [] 0 now (ttl c))]> (tables c)) c).
Proof. intros H v. unfold GetAutoIncrementColumn, sbind, sget, slift, id. by rewrite H. Qed.

Lemma GetAutoIncrementColumn_hit now conn sn tn c info :
  load_fresh now (buildTableCacheKey sn tn) c = Ok (Some info) ->
  GetAutoIncrementColumn now conn sn tn c = (Ok (AutoIncrColumn info), c).
Proof. intros H. unfold GetAutoIncrementColumn, sbind, sget, slift, id. by rewrite H. Qed.

(** Schema names without a dot make the key injective. *)
Definition no_dot (s : bytes) : Prop := Forall (fun x => x <> 46) s.

Lemma cache_key_inj s1 t1 s2 t2 :
  no_dot s1 -> no_dot s2 -> buildTableCacheKey s1 t1 = buildTableCacheKey s2 t2 -> s1 = s2 /\ t1 = t2.
Proof.
  unfold buildTableCacheKey. intros H1. revert s2. induction H1 as [|x s1 Hx H1 IH]; intros s2 H2 E.
  - destruct H2 as [|y s2 Hy H2]; [by injection E as ->|]. injection E as <- _. done.
  - destruct H2 as [|y s2 Hy H2]; [by injection E as -> _|]. injection E as -> E.
    destruct (IH s2 H2 E) as [-> ->]. done.
Qed.

(** ** Bounded staleness

    A history of operations on the cache, each at a time and on the catalogue
    of that time; [connected] is [false] for a call with a nil connection. *)
Inductive op :=
| OpGet (connected : bool) (schemaName tableName : bytes)
| OpTable (connected : bool) (schemaName tableName : bytes)
| OpInvalidate (schemaName tableName : bytes)
| OpInvalidateAll
| OpRefresh (connected : bool) (schemaName tableName : bytes)
| OpSetTTL (t : Z)
| OpTick.

Section history.
(** The catalogue over time and an upper bound of the times to live. *)
Variable db : Z -> Catalog.
Variable max_ttl : Z.

Definition connection (connected : bool) (now : Z) : option Catalog := if connected then Some (db now) else None.
(** What the catalogue's query for the auto-increment column answers, and the
    column that the table's column list marks. *)
Definition answer (t : Z) (sn tn : bytes) : bytes := queryAutoIncrementColumn (Some (db t)) sn tn.
Definition listed (t : Z) (sn tn v : bytes) : Prop :=
  exists rows cols, columns_of (db t) sn tn = Ok rows /\ scan_columns rows [] [] = Ok (cols, v).

Definition op_ok (o : op) : Prop :=
  match o with
  | OpGet _ sn _ | OpTable _ sn _ | OpInvalidate sn _ | OpRefresh _ sn _ => no_dot sn
  | OpSetTTL t => t <= max_ttl
  | OpInvalidateAll | OpTick => True
  end.

(** The cache after an operation, whether it returned, failed or panicked; a
    panic of the periodic refresh ends the process. *)
Definition exec_op (now : Z) (o : op) (c : Cache) : res Cache :=
  match o with
  | OpGet b sn tn => Ok (snd (GetAutoIncrementColumn now (connection b now) sn tn c))
  | OpTable b sn tn => Ok (snd (GetTableInfo now (connection b now) sn tn c))
  | OpInvalidate sn tn => Ok (InvalidateTable sn tn c)
  | OpInvalidateAll => Ok (InvalidateAll c)
  | OpRefresh b sn tn => Ok (snd (RefreshTable now (connection b now) sn tn c))
  | OpSetTTL t => Ok (SetTTL t c)
  | OpTick => refreshExpiredEntries now c
  end.

(** The caches a history leads to, at non-decreasing times; the last operation
    comes first. *)
Inductive reach : Z -> list (Z * op) -> Cache -> Prop :=
| reach_init now t : t <= max_ttl -> reach now [] (NewCache t)
| reach_step now now' o h c c' :
    reach now h c -> now <= now' -> op_ok o -> exec_op now' o c = Ok c' -> reach now' ((now', o) :: h) c'.

(** Where an answer comes from: one of the two queries at time [t], or a
    lookup without a connection at that time. *)
Definition source (h : list (Z * op)) (t : Z) (sn tn v : bytes) : Prop :=
  v = answer t sn tn \/ listed t sn tn v
  \/ v = [] /\ (In (t, OpGet false sn tn) h \/ In (t, OpRefresh false sn tn) h).

Definition entry_ok (h : list (Z * op)) (now : Z) (key : bytes) (v : option TableInfo) : Prop :=
  exists sn tn, no_dot sn /\ key = buildTableCacheKey sn tn /\
    match v with
    | None => exists t, In (t, OpTable false sn tn) h
    | Some info => LastRefreshed info <= now /\ TTL info <= max_ttl /\ source h (LastRefreshed info) sn tn (AutoIncrColumn info)
    end.

Definition cache_ok (h : list (Z * op)) (now : Z) (c : Cache) : Prop :=
  ttl c <= max_ttl /\ map_Forall (entry_ok h now) (tables c).

Lemma cache_ok_later h now now' x c : now <= now' -> cache_ok h now c -> cache_ok (x :: h) now' c.
Proof.
  intros Hle [Ht He]. split; [done|]. intros k v Hk. destruct (He k v Hk) as (sn & tn & Hd & E & H).
  exists sn, tn. split; [done|]. split; [done|]. destruct v as [info|]; [|destruct H as [t H]; exists t; by right].
  destruct H as (H1 & H2 & H3). split; [lia|]. split; [done|]. destruct H3 as [H3|[H3|[H3 H4]]]; [by left|right; by left|].
  right; right. split; [done|]. destruct H4; [left|right]; by right.
Qed.

Lemma cache_ok_insert h now sn tn v c : no_dot sn -> cache_ok h now c ->
  match v with
  | None => exists t, In (t, OpTable false sn tn) h
  | Some info => LastRefreshed info <= now /\ TTL info <= max_ttl /\ source h (LastRefreshed info) sn tn (AutoIncrColumn info)
  end ->
  cache_ok h now (set_tables (<[buildTableCacheKey sn tn := v]> (tables c)) c).
Proof. intros Hd [Ht He] Hv. split; [done|]. apply map_Forall_insert_2; [by exists sn, tn|done]. Qed.

(** What a cached entry gives a lookup. *)
Lemma load_fresh_ok h now sn tn c : no_dot sn -> cache_ok h now c ->
  match load_fresh now (buildTableCacheKey sn tn) c with
  | Ok (Some info) => exists t, now - max_ttl < t <= now /\ source h t sn tn (AutoIncrColumn info)
  | Ok None => True
  | Err _ => False
  | Panic => exists t, In (t, OpTable false sn tn) h
  end.
Proof.
  intros Hd [_ He]. unfold load_fresh. destruct (tables c !! _) as [v|] eqn:Ek; [|done].
  destruct (He _ _ Ek) as (sn' & tn' & Hd' & Hkey & H). apply cache_key_inj in Hkey as [<- <-]; [|done..].
  destruct v as [info|]; [|done]. destruct H as (H1 & H2 & H3). unfold fresh.
  destruct (Z.ltb_spec (now - LastRefreshed info) (TTL info)); [|done]. exists (LastRefreshed info). split; [lia|done].
Qed.

Lemma cache_ok_get h b now sn tn c : no_dot sn -> cache_ok h now c ->
  (b = false -> In (now, OpGet false sn tn) h \/ In (now, OpRefresh false sn tn) h) ->
  cache_ok h now (snd (GetAutoIncrementColumn now (connection b now) sn tn c)).
Proof.
  intros Hd Hc Hb. destruct (load_fresh now (buildTableCacheKey sn tn) c) as [[info|]|m|] eqn:El.
  - by rewrite (GetAutoIncrementColumn_hit _ _ _ _ _ _ El).
  - rewrite GetAutoIncrementColumn_miss by done. cbn [snd]. apply cache_ok_insert; [done|done|].
    cbn [LastRefreshed TTL AutoIncrColumn]. split; [lia|]. split; [apply Hc|].
    destruct b; [by left|]. right; right. split; [done|]. by apply Hb.
  - unfold GetAutoIncrementColumn, sbind, sget, slift, id. by rewrite El.
  - unfold GetAutoIncrementColumn, sbind, sget, slift, id. by rewrite El.
Qed.

Lemma queryTableInfo_source now conn sn tn c r c' : queryTableInfo now conn sn tn c = (r, c') ->
  tables c' = tables c /\ ttl c' = ttl c
  /\ (forall info, r = Ok (Some info) -> exists d, conn = Some d /\ LastRefreshed info = now /\ TTL info = ttl c
        /\ exists rows cols, columns_of d sn tn = Ok rows /\ scan_columns rows [] [] = Ok (cols, AutoIncrColumn info))
  /\ (r = Ok None -> conn = None).
Proof.
  unfold queryTableInfo. destruct conn as [d|]; [|by intros [= <- <-]; split_and!].
  unfold sbind, smod, sget, slift, id. cbn [tables ttl nextTableID].
  destruct (columns_of d sn tn) as [rows|m|] eqn:Ec; [|by intros [= <- <-]; split_and!..].
  destruct (scan_columns rows [] []) as [[cols auto]|m|] eqn:Es; [|by intros [= <- <-]; split_and!..].
  destruct (match primary_key_of d sn tn with Ok _ => _ | _ => _ end) as [pk cols'].
  intros [= <- <-]. split_and!; [done|done| |done]. intros info [= <-]. exists d. split_and!; [done..|].
  by exists rows, cols.
Qed.

Lemma cache_ok_table h b now sn tn c : no_dot sn -> cache_ok h now c -> In (now, OpTable b sn tn) h ->
  cache_ok h now (snd (GetTableInfo now (connection b now) sn tn c)).
Proof.
  intros Hd Hc Hin. unfold GetTableInfo, sbind, sget, slift, id. fold (buildTableCacheKey sn tn).
  destruct (load_fresh now (buildTableCacheKey sn tn) c) as [[info|]|m|]; [done| |done|done].
  destruct (queryTableInfo now (connection b now) sn tn c) as [r c'] eqn:Eq.
  apply queryTableInfo_source in Eq as (Ht & Httl & Hi & Hn).
  assert (cache_ok h now c') as Hc' by (unfold cache_ok; by rewrite Ht, Httl).
  destruct r as [[info|]|m|]; [| |exact Hc'|exact Hc']; cbn [sret smod snd]; (apply cache_ok_insert; [done|done|]).
  - destruct (Hi info eq_refl) as (d & Ed & -> & -> & H). split; [lia|]. split; [apply Hc|]. right; left.
    destruct b; [|done]. by injection Ed as <-.
  - specialize (Hn eq_refl). destruct b; [done|]. by exists now.
Qed.

Lemma reach_ok now h c : reach now h c -> cache_ok h now c.
Proof.
  induction 1 as [now t Ht|now now' o h c c' Hr IH Hle Hok He].
  - split; [done|]. apply map_Forall_empty.
  - apply (cache_ok_later _ _ _ (now', o) _ Hle) in IH. destruct o as [b sn tn|b sn tn|sn tn| |b sn tn|t|];
      cbn [exec_op op_ok] in He, Hok; try injection He as <-.
    + apply cache_ok_get; [done|done|]. intros ->. left. by left.
    + apply cache_ok_table; [done|done|]. by left.
    + destruct IH as [Ht IH]. split; [done|]. by apply map_Forall_delete.
    + split; [apply IH|]. apply map_Forall_empty.
    + unfold RefreshTable, sbind, smod. apply cache_ok_get; [done| |intros ->; right; by left].
      destruct IH as [Ht IH]. split; [done|]. by apply map_Forall_delete.
    + split; [done|apply IH].
    + unfold refreshExpiredEntries in He. destruct (decide _); [|discriminate]. injection He as <-.
      destruct IH as [Ht IH]. split; [done|]. intros k v [Hk _]%map_lookup_filter_Some. by apply IH.
Qed.

(** C36: bounded staleness.  Whatever the history of lookups of both kinds (with
    a connection or without), invalidations, refreshes and expiry ticks, and
    however the catalogue changes meanwhile, a lookup of the auto-increment
    column returns what the catalogue answered for that schema and table at
    some time within the last [max_ttl] nanoseconds, unless a lookup without a
    connection intervened: then it may return no column, again for at most
    [max_ttl], or panic, after a [GetTableInfo] of the table without a
    connection (schema names without a dot). *)
Theorem auto_increment_staleness now0 h c now sn tn
  (Hreach : reach now0 h c) (Hnow : now0 <= now) (Hsn : no_dot sn) :
  match GetAutoIncrementColumn now (Some (db now)) sn tn c with
  | (Ok v, _) => exists t, (t = now \/ now - max_ttl < t <= now) /\ source h t sn tn v
  | (Err _, _) => False
  | (Panic, _) => exists t, In (t, OpTable false sn tn) h
  end.
Proof.
  apply reach_ok, (cache_ok_later _ _ _ (now, OpTick) _ Hnow) in Hreach.
  pose proof (load_fresh_ok _ now sn tn c Hsn Hreach) as Hl.
  destruct (load_fresh now (buildTableCacheKey sn tn) c) as [[info|]|m|] eqn:El.
  - rewrite (GetAutoIncrementColumn_hit _ _ _ _ _ _ El). destruct Hl as (t & Ht & Hs). exists t. split; [by right|].
    destruct Hs as [Hs|[Hs|[Hs [[[=]|Hs']|[[=]|Hs']]]]]; unfold source; auto.
  - rewrite GetAutoIncrementColumn_miss by done. exists now. split; [by left|]. by left.
  - done.
  - unfold GetAutoIncrementColumn, sbind, sget, slift, id. rewrite El. destruct Hl as [t [[=]|Hl]]. by exists t.
Qed.
End history.

(** A catalogue for the witnesses: [users.id] is an auto-increment column. *)
Definition sample_db : Catalog :=
  mkCatalog (fun _ t => if bytes_eqb t (str "users") then Some (str "id") else None)
    (fun _ _ => Ok [Ok (mkColumnRow (str "id") 1 (str "integer") (str "NO") 0 32 0 true);
                    Ok (mkColumnRow (str "name") 2 (str "character varying") (str "YES") 50 0 0 false)])
    (fun _ _ => Ok [Ok (str "id")]).

(** A lookup without a connection, and what the next lookup gets. *)
Definition nil_lookup : Cache := snd (GetAutoIncrementColumn 7 None (str "public") (str "users") (NewCache 5)).

Lemma auto_increment_staleness_witness :
  fst (GetAutoIncrementColumn 8 (Some sample_db) (str "public") (str "users") nil_lookup) = Ok []
  /\ exists t, (t = 8 \/ 8 - 5 < t <= 8)
     /\ source (fun _ => sample_db) [(7, OpGet false (str "public") (str "users"))] t (str "public") (str "users") [].
Proof.
  split; [vm_compute; reflexivity|].
  assert (Hd : no_dot (str "public")) by (repeat constructor; discriminate).
  exact (auto_increment_staleness (fun _ => sample_db) 5 7 [(7, OpGet false (str "public") (str "users"))] nil_lookup 8
    (str "public") (str "users")
    (reach_step _ _ 0 7 (OpGet false (str "public") (str "users")) [] (NewCache 5) _
       (reach_init _ _ 0 5 (Z.le_refl 5)) ltac:(lia) Hd eq_refl) ltac:(lia) Hd).
Defined.

(** invalidation is effective and local.  After [InvalidateTable] the next
    lookup asks PostgreSQL again, so a DDL statement that invalidates its table
    is seen at once, and lookups of other tables are not affected. *)
Theorem invalidate_then_get now conn sn tn sn' tn' c (H1 : no_dot sn) (H2 : no_dot sn') :
  fst (GetAutoIncrementColumn now conn sn tn (InvalidateTable sn tn c)) =
    Ok (queryAutoIncrementColumn conn sn tn) /\
  ((sn', tn') <> (sn, tn) ->
   tables (InvalidateTable sn tn c) !! buildTableCacheKey sn' tn' = tables c !! buildTableCacheKey sn' tn').
Proof.
  split.
  - rewrite GetAutoIncrementColumn_miss; [done|]. unfold load_fresh. cbn. by rewrite lookup_delete_eq.
  - intros Hne. cbn. apply lookup_delete_ne. intros E. apply cache_key_inj in E as [-> ->]; [done|done|done].
Qed.

Lemma invalidate_then_get_witness :
  fst (GetAutoIncrementColumn 7 (Some sample_db) (str "public") (str "users")
         (InvalidateTable (str "public") (str "users") (NewCache 5))) = Ok (str "id").
Proof.
  destruct (invalidate_then_get 7 (Some sample_db) (str "public") (str "users") (str "public") (str "t")
    (NewCache 5)) as [H _]; [repeat constructor; discriminate|repeat constructor; discriminate|].
  rewrite H. reflexivity.
Defined.

(** ** Table ids *)

(** Ids given so far are below the counter, and no two entries share one; the
    entries that lookups of auto-increment columns store have the id 0. *)
Definition ids_ok (c : Cache) : Prop :=
  0 <= nextTableID c /\
  (forall k i, tables c !! k = Some (Some i) -> 0 <= TableID i <= nextTableID c) /\
  (forall k1 k2 i1 i2, tables c !! k1 = Some (Some i1) -> tables c !! k2 = Some (Some i2) ->
     TableID i1 = TableID i2 -> TableID i1 <> 0 -> k1 = k2).

Lemma ids_ok_insert c key i n :
  ids_ok c -> nextTableID c <= n -> 0 <= TableID i <= n ->
  (TableID i = 0 \/ nextTableID c < TableID i) ->
  ids_ok (mkCache (<[key := Some i]> (tables c)) (ttl c) n).
Proof.
  intros (Hn & Hr & Hu) Hle Hi Hfresh. split_and!; cbn; [lia| |].
  - intros k j [[<- [= <-]]|[_ Hk]]%lookup_insert_Some; [done|]. specialize (Hr k j Hk). lia.
  - intros k1 k2 i1 i2 [[<- [= <-]]|[Hk1 H1]]%lookup_insert_Some [[<- [= <-]]|[Hk2 H2]]%lookup_insert_Some E Hne;
      [done| | |by eapply Hu].
    + specialize (Hr _ _ H2). lia.
    + specialize (Hr _ _ H1). lia.
Qed.

Lemma queryTableInfo_id now conn sn tn c r c' :
  queryTableInfo now conn sn tn c = (r, c') -> nextTableID c + 1 < 2 ^ 64 -> 0 <= nextTableID c ->
  tables c' = tables c /\ ttl c' = ttl c /\ nextTableID c <= nextTableID c' <= nextTableID c + 1 /\
  forall i, r = Ok (Some i) ->
    nextTableID c < TableID i /\ TableID i = nextTableID c' /\ Schema i = sn /\ TableName i = tn /\ LastRefreshed i = now.
Proof.
  unfold queryTableInfo. intros H Hw Hn. destruct conn as [db|].
  2:{ injection H as <- <-. split_and!; try done; lia. }
  unfold sbind, smod, sget, slift, sret, id in H. cbn [nextTableID tables ttl] in H.
  rewrite wrap_id in H by (unfold in_width; lia).
  destruct (columns_of db sn tn) as [rows|m|]; [|injection H as <- <-; cbn; split_and!; (done || lia)..].
  destruct (scan_columns rows [] []) as [[cols auto]|m|];
    [|injection H as <- <-; cbn; split_and!; (done || lia)..].
  destruct (match primary_key_of db sn tn with Ok _ => _ | _ => _ end) as [pk cols'].
  injection H as <- <-. cbn. split_and!; try done; try lia. intros i [= <-]. cbn. split_and!; (done || lia).
Qed.

(** table ids are unique.  Starting from distinct ids, [GetTableInfo] keeps
    all cached tables' ids distinct and gives a newly queried table an id
    larger than all before, so the row events of different tables never carry
    the same id. *)
Theorem table_ids_unique now conn sn tn c (Hok : ids_ok c) (Hmax : nextTableID c + 1 < 2 ^ 64) :
  ids_ok (snd (GetTableInfo now conn sn tn c)) /\ ids_ok (snd (GetAutoIncrementColumn now conn sn tn c)).
Proof.
  split.
  - unfold GetTableInfo, sbind, sget, slift, id. destruct (load_fresh _ _ _) as [[i|]|m|]; cbn [snd sret]; try done.
    destruct (queryTableInfo now conn sn tn c) as [r c'] eqn:E.
    destruct (queryTableInfo_id _ _ _ _ _ _ _ E Hmax (proj1 Hok)) as (Ht & Httl & Hn & Hi).
    assert (ids_ok c') as Hok'.
    { destruct Hok as (H1 & H2 & H3). split_and!; [lia| |rewrite Ht; exact H3].
      intros k j Hk. rewrite Ht in Hk. specialize (H2 k j Hk). lia. }
    destruct r as [[i|]|m|]; cbn [snd sret smod]; try done.
    + destruct (Hi i eq_refl) as (Hid & Hid' & _). unfold set_tables. rewrite Ht, Httl.
      pose proof (proj1 Hok). apply (ids_ok_insert c _ i); (done || lia).
    + destruct Hok' as (H1 & H2 & H3). split_and!; [done| |]; cbn.
      * intros k j [[_ [=]]|[_ Hk]]%lookup_insert_Some. by apply H2 in Hk.
      * intros k1 k2 i1 i2 [[_ [=]]|[_ Hk1]]%lookup_insert_Some [[_ [=]]|[_ Hk2]]%lookup_insert_Some. by apply H3.
  - destruct (load_fresh now (buildTableCacheKey sn tn) c) as [[i|]|m|] eqn:El.
    + by rewrite (GetAutoIncrementColumn_hit _ _ _ _ _ _ El).
    + rewrite GetAutoIncrementColumn_miss by done. cbn [snd]. pose proof (proj1 Hok).
      apply ids_ok_insert; cbn; (done || lia || by left).
    + unfold GetAutoIncrementColumn, sbind, sget, slift, id. by rewrite El.
    + unfold GetAutoIncrementColumn, sbind, sget, slift, id. by rewrite El.
Qed.

Lemma table_ids_unique_witness :
  ids_ok (snd (GetTableInfo 7 (Some sample_db) (str "public") (str "users") (NewCache 5))).
Proof.
  apply (table_ids_unique 7 (Some sample_db) (str "public") (str "users") (NewCache 5)).
  - split_and!; cbn; [lia| |]; intros; discriminate.
  - cbn. lia.
Defined.

(** an auto-increment lookup hides a table's columns.  Both lookups store
    under one key, and the entry a lookup of the auto-increment column stores
    has no columns and the table id 0: while it is fresh, [GetTableInfo]
    returns it instead of querying the table. *)
Theorem auto_increment_hides_columns now now' conn conn' sn tn c v c'
  (Hget : GetAutoIncrementColumn now conn sn tn c = (Ok v, c'))
  (Hmiss : load_fresh now (buildTableCacheKey sn tn) c = Ok None)
  (Hnow : now <= now' < now + ttl c) :
  exists info, GetTableInfo now' conn' sn tn c' = (Ok (Some info), c') /\
    Columns info = [] /\ TableID info = 0.
Proof.
  rewrite (GetAutoIncrementColumn_miss _ _ _ _ _ Hmiss) in Hget. injection Hget as <- <-.
  unfold GetTableInfo, sbind, sget, slift, id, load_fresh. cbn [tables set_tables].
  fold (buildTableCacheKey sn tn). rewrite lookup_insert_eq.
  unfold fresh. cbn [LastRefreshed TTL]. rewrite (proj2 (Z.ltb_lt _ _)) by lia.
  eexists. split; [reflexivity|]. done.
Qed.

Lemma auto_increment_hides_columns_witness :
  let '(r, c') := GetAutoIncrementColumn 7 (Some sample_db) (str "public") (str "users") (NewCache 5) in
  exists info, GetTableInfo 8 (Some sample_db) (str "public") (str "users") c' = (Ok (Some info), c') /\
    Columns info = [] /\ TableID info = 0.
Proof.
  apply (auto_increment_hides_columns 7 8 (Some sample_db) (Some sample_db) (str "public") (str "users")
    (NewCache 5) (str "id")); [reflexivity|reflexivity|cbn; lia].
Defined.

(** a lookup without a connection poisons the cache.  With a nil connection
    [GetTableInfo] stores a nil pointer and returns no error; every later
    lookup of that table, with any connection, dereferences it. *)
Theorem nil_connection_poisons now now' conn' sn tn c
  (Hmiss : load_fresh now (buildTableCacheKey sn tn) c = Ok None) :
  exists c', GetTableInfo now None sn tn c = (Ok None, c') /\
    fst (GetTableInfo now' conn' sn tn c') = Panic /\
    fst (GetAutoIncrementColumn now' conn' sn tn c') = Panic.
Proof.
  unfold GetTableInfo at 1, sbind, sget, slift, id. fold (buildTableCacheKey sn tn). rewrite Hmiss.
  eexists. split; [reflexivity|].
  unfold GetTableInfo, GetAutoIncrementColumn, sbind, sget, slift, id, load_fresh.
  cbn [tables set_tables]. fold (buildTableCacheKey sn tn). by rewrite lookup_insert_eq.
Qed.

Lemma nil_connection_poisons_witness :
  exists c', GetTableInfo 7 None (str "public") (str "users") (NewCache 5) = (Ok None, c') /\
    fst (GetTableInfo 8 (Some sample_db) (str "public") (str "users") c') = Panic.
Proof.
  destruct (nil_connection_poisons 7 8 (Some sample_db) (str "public") (str "users") (NewCache 5))
    as (c' & H1 & H2 & _); [reflexivity|]. exists c'. split; [exact H1|exact H2].
Defined.
