(* ===== verification/Session.v ===== *)
(** * Sessions

    [pkg/session/session.go]: the state of a client session, its transaction
    state machine over a PostgreSQL connection, and the manager of sessions.

    pgx's connection is not part of the sources: it is a type [C] with the
    class [PgConn] of the two calls the session makes, and [PgConnLaws] states
    what PostgreSQL documents about its transaction status after them.  Session
    ids and clock readings are arguments. *)

From Stdlib Require Import ZArith Lia.
From stdpp Require Import base numbers list strings gmap.
From S2P Require Import Prelude GoStd SchemaCache.
Open Scope Z_scope.

(** ** The connection *)

Class PgConn (C : Type) := {
  Exec : C -> bytes -> res unit * C;
  ConnClose : C -> res unit * C
}.

Definition BEGIN : bytes := str "BEGIN".
Definition COMMIT : bytes := str "COMMIT".
Definition ROLLBACK : bytes := str "ROLLBACK".

(** The server's transaction status.  BEGIN opens a transaction or fails
    without opening one; COMMIT and ROLLBACK end it, a failing COMMIT by
    rolling back. *)
Class PgConnLaws (C : Type) `{PgConn C} (in_tx : C -> bool) : Prop := {
  begin_ok c c' : Exec c BEGIN = (Ok tt, c') -> in_tx c' = true;
  begin_err c m c' : Exec c BEGIN = (Err m, c') -> in_tx c = false -> in_tx c' = false;
  commit_ok c c' : Exec c COMMIT = (Ok tt, c') -> in_tx c' = false;
  commit_err c m c' : Exec c COMMIT = (Err m, c') -> in_tx c' = false;
  rollback_ok c c' : Exec c ROLLBACK = (Ok tt, c') -> in_tx c' = false
}.

(** ** Data *)

Record PreparedStatement := mkStmt {
  ps_ID : Z;
  SQL : bytes;
  OriginalSQL : bytes;
  PGName : bytes;
  ParamCount : Z;
  ParamTypes : list Z;
  ColumnCount : Z;
  ColumnTypes : list Z;
  ColumnNames : list bytes
}.

Section session.
Context {C : Type} `{PgConn C}.

Record Session := mkSession {
  ID : bytes;
  sUser : bytes;
  sDatabase : bytes;
  Charset : bytes;
  Autocommit : bool;
  InTransaction : bool;
  LastInsertID : Z;
  CreatedAt : Z;
  LastActiveAt : Z;
  ClientAddr : bytes;
  sessionVars : gmap bytes GoValue;
  userVars : gmap bytes GoValue;
  preparedStmts : gmap Z PreparedStatement;
  autoIncrementTables : gmap bytes bytes;
  pgConn : option C
}.

Definition NewSession (uuid : bytes) (created active : Z) (user database clientAddr : bytes) : Session :=
  mkSession uuid user database (str "utf8mb4") true false 0 created active clientAddr ∅ ∅ ∅ ∅ None.

(** Assignments to the mutable fields. *)
Definition set_Autocommit (v : bool) (s : Session) : Session :=
  mkSession (ID s) (sUser s) (sDatabase s) (Charset s) v (InTransaction s) (LastInsertID s)
    (CreatedAt s) (LastActiveAt s) (ClientAddr s) (sessionVars s) (userVars s) (preparedStmts
    s) (autoIncrementTables s) (pgConn s).
Definition set_InTransaction (v : bool) (s : Session) : Session :=
  mkSession (ID s) (sUser s) (sDatabase s) (Charset s) (Autocommit s) v (LastInsertID s)
    (CreatedAt s) (LastActiveAt s) (ClientAddr s) (sessionVars s) (userVars s) (preparedStmts
    s) (autoIncrementTables s) (pgConn s).
Definition set_LastInsertID (v : Z) (s : Session) : Session :=
  mkSession (ID s) (sUser s) (sDatabase s) (Charset s) (Autocommit s) (InTransaction s) v
    (CreatedAt s) (LastActiveAt s) (ClientAddr s) (sessionVars s) (userVars s) (preparedStmts
    s) (autoIncrementTables s) (pgConn s).
Definition set_LastActiveAt (v : Z) (s : Session) : Session :=
  mkSession (ID s) (sUser s) (sDatabase s) (Charset s) (Autocommit s) (InTransaction s)
    (LastInsertID s) (CreatedAt s) v (ClientAddr s) (sessionVars s) (userVars s) (preparedStmts
    s) (autoIncrementTables s) (pgConn s).
Definition set_sessionVars (v : gmap bytes GoValue) (s : Session) : Session :=
  mkSession (ID s) (sUser s) (sDatabase s) (Charset s) (Autocommit s) (InTransaction s)
    (LastInsertID s) (CreatedAt s) (LastActiveAt s) (ClientAddr s) v (userVars s)
    (preparedStmts s) (autoIncrementTables s) (pgConn s).
Definition set_userVars (v : gmap bytes GoValue) (s : Session) : Session :=
  mkSession (ID s) (sUser s) (sDatabase s) (Charset s) (Autocommit s) (InTransaction s)
    (LastInsertID s) (CreatedAt s) (LastActiveAt s) (ClientAddr s) (sessionVars s) v
    (preparedStmts s) (autoIncrementTables s) (pgConn s).
Definition set_preparedStmts (v : gmap Z PreparedStatement) (s : Session) : Session :=
  mkSession (ID s) (sUser s) (sDatabase s) (Charset s) (Autocommit s) (InTransaction s)
    (LastInsertID s) (CreatedAt s) (LastActiveAt s) (ClientAddr s) (sessionVars s) (userVars s)
    v (autoIncrementTables s) (pgConn s).
Definition set_autoIncrementTables (v : gmap bytes bytes) (s : Session) : Session :=
  mkSession (ID s) (sUser s) (sDatabase s) (Charset s) (Autocommit s) (InTransaction s)
    (LastInsertID s) (CreatedAt s) (LastActiveAt s) (ClientAddr s) (sessionVars s) (userVars s)
    (preparedStmts s) v (pgConn s).
Definition set_pgConn (v : option C) (s : Session) : Session :=
  mkSession (ID s) (sUser s) (sDatabase s) (Charset s) (Autocommit s) (InTransaction s)
    (LastInsertID s) (CreatedAt s) (LastActiveAt s) (ClientAddr s) (sessionVars s) (userVars s)
    (preparedStmts s) (autoIncrementTables s) v.

(** ** Variables, statements and bookkeeping *)

Definition SetPGConn (conn : option C) (s : Session) : Session := set_pgConn conn s.
Definition GetPGConn (s : Session) : option C := pgConn s.

Definition SetSessionVar (key : bytes) (value : GoValue) (s : Session) : Session :=
  set_sessionVars (<[key := value]> (sessionVars s)) s.
Definition GetSessionVar (key : bytes) (s : Session) : option GoValue := sessionVars s !! key.

Definition SetUserVar (key : bytes) (value : GoValue) (s : Session) : Session :=
  set_userVars (<[key := value]> (userVars s)) s.
Definition GetUserVar (key : bytes) (s : Session) : option GoValue := userVars s !! key.

Definition AddPreparedStatement (stmt : PreparedStatement) (s : Session) : Session :=
  set_preparedStmts (<[ps_ID stmt := stmt]> (preparedStmts s)) s.
Definition GetPreparedStatement (id : Z) (s : Session) : option PreparedStatement := preparedStmts s !! id.
Definition RemovePreparedStatement (id : Z) (s : Session) : Session :=
  set_preparedStmts (delete id (preparedStmts s)) s.
Definition GetPreparedStatementCount (s : Session) : nat := size (preparedStmts s).

Definition UpdateLastActive (now : Z) (s : Session) : Session := set_LastActiveAt now s.
Definition SetLastInsertID (id : Z) (s : Session) : Session := set_LastInsertID id s.
Definition GetLastInsertID (s : Session) : Z := LastInsertID s.

Definition MarkTableHasAutoIncrement (tableName columnName : bytes) (s : Session) : Session :=
  set_autoIncrementTables (<[tableName := columnName]> (autoIncrementTables s)) s.

(** ** Transactions *)

(** [s.pgConn.Exec] on a connection that is not nil. *)
Definition exec (cmd : bytes) (c : C) : st Session unit :=
  fun s => let (r, c') := Exec c cmd in (r, set_pgConn (Some c') s).

(** An error of [c] reported as [msg]. *)
Definition wrap_err {A} (msg : bytes) (c : st Session A) : st Session A :=
  fun s => match c s with (Err m, s') => (Err (msg ++ m), s') | r => r end.

Definition commit_failed : bytes := str "failed to commit transaction: ".
Definition begin_failed : bytes := str "failed to begin transaction: ".
Definition rollback_failed : bytes := str "failed to rollback transaction: ".
Definition no_connection : bytes := str "no PostgreSQL connection".

Definition SetAutocommit (autocommit : bool) : st Session unit :=
  s <- sget id;;
  if eqb (Autocommit s) autocommit then sret tt
  else
    smod (set_Autocommit autocommit);;;
    match pgConn s with
    | None => sret tt
    | Some c =>
        if autocommit && InTransaction s then
          wrap_err commit_failed (exec COMMIT c);;; smod (set_InTransaction false)
        else if negb autocommit && negb (InTransaction s) then
          wrap_err begin_failed (exec BEGIN c);;; smod (set_InTransaction true)
        else sret tt
    end.

Definition BeginTransaction : st Session unit :=
  s <- sget id;;
  if InTransaction s then sret tt
  else match pgConn s with
       | None => serr no_connection
       | Some c => wrap_err begin_failed (exec BEGIN c);;; smod (set_InTransaction true)
       end.

Definition CommitTransaction : st Session unit :=
  s <- sget id;;
  if negb (InTransaction s) then sret tt
  else match pgConn s with
       | None => serr no_connection
       | Some c => wrap_err commit_failed (exec COMMIT c);;; smod (set_InTransaction false)
       end.

Definition RollbackTransaction : st Session unit :=
  s <- sget id;;
  if negb (InTransaction s) then sret tt
  else match pgConn s with
       | None => serr no_connection
       | Some c => wrap_err rollback_failed (exec ROLLBACK c);;; smod (set_InTransaction false)
       end.

(** The error of the rollback is dropped; the connection is dropped once its
    [Close] has returned, with or without an error. *)
Definition sess_Close : st Session unit :=
  s <- sget id;;
  match pgConn s with
  | None => sret tt
  | Some c =>
      (if InTransaction s then _ <- stry (exec ROLLBACK c);; sret tt else sret tt);;;
      s <- sget id;;
      match pgConn s with
      | None => sret tt
      | Some c =>
          let (r, c') := ConnClose c in
          match r with
          | Panic => smod (set_pgConn (Some c'));;; slift r
          | _ => smod (set_pgConn None);;; slift r
          end
      end
  end.

(** ** The manager

    Sessions are shared by pointer: the map holds each session's current state
    and [with_session] updates it in place. *)
Definition Manager := gmap bytes Session.

Definition NewManager : Manager := ∅.
Definition AddSession (s : Session) (m : Manager) : Manager := <[ID s := s]> m.
Definition GetSession (id : bytes) (m : Manager) : option Session := m !! id.
Definition RemoveSession (id : bytes) (m : Manager) : Manager :=
  match m !! id with
  | Some s => delete id (<[id := snd (sess_Close s)]> m)
  | None => m
  end.
Definition GetAllSessions (m : Manager) : list Session := snd <$> map_to_list m.
Definition Count (m : Manager) : nat := size m.
End session.

(** ** Auto-increment columns: the session asks the shared cache *)
Definition sess_GetAutoIncrementColumn {C} (catalog_of : C -> Catalog) (now : Z) (s : @Session C)
  (tableName : bytes) : st Cache bytes :=
  GetAutoIncrementColumn now (catalog_of <$> pgConn s) (sDatabase s) tableName.

(** The session's own query ([answer] is the catalogue's answer
    for the current schema). *)
Definition sess_queryAutoIncrementColumn {C} (answer : C -> bytes -> option bytes) (s : @Session C)
  (tableName : bytes) : bytes :=
  match pgConn s with
  | None => []
  | Some c => default [] (answer c (ToLower tableName))
  end.

(** * Properties *)

Section transactions.
Context {C : Type} `{PgConn C} (in_tx : C -> bool) `{!PgConnLaws C in_tx}.

(** ** The transaction state machine and its specification *)

Inductive txop := TxBegin | TxCommit | TxRollback | TxAutocommit (b : bool).

Definition tx (o : txop) : st (@Session C) unit :=
  match o with
  | TxBegin => BeginTransaction
  | TxCommit => CommitTransaction
  | TxRollback => RollbackTransaction
  | TxAutocommit b => SetAutocommit b
  end.

(** What the proxy keeps for a client: autocommit mode and whether a
    transaction is open.  These are the rules of the proxy; MySQL's are
    [mysql_step] below. *)
Record tx_state := mkTx { auto : bool; open_tx : bool }.

Definition tx_spec (o : txop) (a : tx_state) : tx_state :=
  match o with
  | TxBegin => mkTx (auto a) true
  | TxCommit | TxRollback => mkTx (auto a) false
  | TxAutocommit b => if eqb (auto a) b then a else mkTx b (negb b)
  end.

(** MySQL's rules.  BEGIN starts a transaction that COMMIT and ROLLBACK end;
    with autocommit off every statement belongs to a transaction, begun or
    not, and switching autocommit on ends it. *)
Record mysql_state := mkMySQL { my_auto : bool; begun : bool }.
Definition mysql_step (a : mysql_state) (o : txop) : mysql_state :=
  match o with
  | TxBegin => mkMySQL (my_auto a) true
  | TxCommit | TxRollback => mkMySQL (my_auto a) false
  | TxAutocommit b => if eqb (my_auto a) b then a else mkMySQL b (if b then false else begun a)
  end.
Definition mysql_view (a : mysql_state) : tx_state := mkTx (my_auto a) (begun a || negb (my_auto a)).

(** No COMMIT or ROLLBACK while autocommit is off. *)
Fixpoint ends_begun_only (autocommit : bool) (ops : list txop) : bool :=
  match ops with
  | [] => true
  | o :: ops =>
      match o with
      | TxBegin => ends_begun_only autocommit ops
      | TxCommit | TxRollback => autocommit && ends_begun_only autocommit ops
      | TxAutocommit b => ends_begun_only b ops
      end
  end.

(** On such statements the proxy's rules are MySQL's. *)
Lemma tx_spec_mysql ops : forall a, ends_begun_only (my_auto a) ops = true ->
  fold_left (fun v o => tx_spec o v) ops (mysql_view a) = mysql_view (fold_left mysql_step ops a).
Proof.
  induction ops as [|o ops IH]; intros [m b] Hops; [done|]. cbn [fold_left].
  destruct o as [| | |b']; cbn [ends_begun_only my_auto] in Hops.
  - apply (IH (mkMySQL m true)). exact Hops.
  - destruct m; [|done]. apply (IH (mkMySQL true false)). exact Hops.
  - destruct m; [|done]. apply (IH (mkMySQL true false)). exact Hops.
  - rewrite <- (IH (mysql_step (mkMySQL m b) (TxAutocommit b'))) by (by destruct m, b').
    f_equal. by destruct m, b, b'.
Qed.

(** With autocommit off, MySQL is in a transaction again right after a COMMIT;
    the proxy is not, and the statements that follow are committed one by one. *)
Lemma commit_without_autocommit a : my_auto a = false ->
  open_tx (mysql_view (mysql_step a TxCommit)) = true /\ open_tx (tx_spec TxCommit (mysql_view a)) = false.
Proof. destruct a as [m b]. cbn. by intros ->. Qed.

Definition view (s : @Session C) : tx_state := mkTx (Autocommit s) (InTransaction s).

(** The session's flag agrees with the server. *)
Definition synced (s : @Session C) : Prop :=
  exists c, pgConn s = Some c /\ in_tx c = InTransaction s.

Lemma exec_step cmd msg c flag (s : @Session C) :
  (wrap_err msg (exec cmd c);;; smod (set_InTransaction flag)) s =
  match Exec c cmd with
  | (Ok _, c') => (Ok tt, set_InTransaction flag (set_pgConn (Some c') s))
  | (Err m, c') => (Err (msg ++ m), set_pgConn (Some c') s)
  | (Panic, c') => (Panic, set_pgConn (Some c') s)
  end.
Proof.
  unfold sbind, wrap_err, exec, smod. by destruct (Exec c cmd) as [[[]| |] c'].
Qed.

Lemma exec_synced cmd msg c flag s s' :
  (forall c', Exec c cmd = (Ok tt, c') -> in_tx c' = flag) ->
  (wrap_err msg (exec cmd c);;; smod (set_InTransaction flag)) s = (Ok tt, s') ->
  synced s' /\ view s' = mkTx (Autocommit s) flag.
Proof.
  intros Hlaw. rewrite exec_step. destruct (Exec c cmd) as [[[]| |] c'] eqn:E; try discriminate.
  intros [= <-]. split; [|done]. exists c'. split; [done|]. by apply Hlaw.
Qed.

(** An operation that returns no error, on a session with a connection, changes
    the flags of the session as the rules say, whatever state the connection
    is in. *)
Lemma tx_view o s s' : is_Some (pgConn s) -> tx o s = (Ok tt, s') ->
  is_Some (pgConn s') /\ view s' = tx_spec o (view s).
Proof.
  intros [c Hc]. destruct o as [| | |b]; unfold tx, BeginTransaction, CommitTransaction, RollbackTransaction, SetAutocommit,
    sbind at 1, sget, id; rewrite Hc.
  1-3: destruct (InTransaction s) eqn:Ei; cbn [negb]; rewrite ?exec_step;
       repeat (destruct (Exec _ _) as [[[]| |] c']); intros [= <-]; (split; [cbn; rewrite ?Hc; by eexists|]);
       unfold view; cbn; by rewrite ?Ei.
  unfold view. cbn [tx_spec auto]. destruct (eqb (Autocommit s) b) eqn:Eb; [intros [= <-]; split; [by eexists|done]|].
  unfold sbind at 1, smod at 1. destruct b, (InTransaction s) eqn:Ei; cbn [negb andb]; rewrite ?exec_step;
    repeat (destruct (Exec _ _) as [[[]| |] c']); intros [= <-]; (split; [cbn; rewrite ?Hc; by eexists|]); cbn; by rewrite ?Ei.
Qed.

(** One operation that returns no error does what the specification says. *)
Lemma tx_refines o s s' :
  synced s -> tx o s = (Ok tt, s') -> synced s' /\ view s' = tx_spec o (view s).
Proof.
  intros (c & Hc & Hsync) Hrun. assert (synced s) as Hs by (exists c; done).
  destruct o as [| | |b]; unfold tx, BeginTransaction, CommitTransaction, RollbackTransaction, SetAutocommit,
    sbind at 1, sget, id in Hrun; rewrite Hc in Hrun.
  - destruct (InTransaction s) eqn:Ei.
    + injection Hrun as <-. split; [done|]. unfold view. by rewrite Ei.
    + eapply exec_synced in Hrun as [? ->]; [done|]. intros. by eapply begin_ok.
  - destruct (InTransaction s) eqn:Ei; cbn [negb] in Hrun.
    + eapply exec_synced in Hrun as [? ->]; [done|]. intros. by eapply commit_ok.
    + injection Hrun as <-. split; [done|]. unfold view. by rewrite Ei.
  - destruct (InTransaction s) eqn:Ei; cbn [negb] in Hrun.
    + eapply exec_synced in Hrun as [? ->]; [done|]. intros. by eapply rollback_ok.
    + injection Hrun as <-. split; [done|]. unfold view. by rewrite Ei.
  - unfold view. cbn [tx_spec auto]. destruct (eqb (Autocommit s) b) eqn:Eb; [by injection Hrun as <-|].
    unfold sbind at 1, smod at 1 in Hrun.
    destruct b, (InTransaction s) eqn:Ei; cbn [negb andb] in *.
    + eapply exec_synced in Hrun as [? Hv]; [split; [done|exact Hv]|]. intros. by eapply commit_ok.
    + injection Hrun as <-. split; [exists c; cbn; split; congruence|]. cbn. by rewrite Ei.
    + injection Hrun as <-. split; [exists c; cbn; split; congruence|]. cbn. by rewrite Ei.
    + eapply exec_synced in Hrun as [? Hv]; [split; [done|exact Hv]|]. intros. by eapply begin_ok.
Qed.

(** A sequence of operations, as long as none fails. *)
Fixpoint tx_run (ops : list txop) (s : @Session C) : res unit * @Session C :=
  match ops with
  | [] => (Ok tt, s)
  | o :: ops' => (tx o;;; tx_run ops') s
  end.

(** the session's transaction state is PostgreSQL's.  Starting from a
    session in step with its connection, any sequence of BEGIN, COMMIT,
    ROLLBACK and autocommit changes that reports no error leaves the session's
    flags as the specification says, and the connection in a transaction
    exactly when the session believes it is. *)
Theorem transactions_refine ops s s' (Hs : synced s) (Hrun : tx_run ops s = (Ok tt, s')) :
  synced s' /\ view s' = fold_left (fun a o => tx_spec o a) ops (view s).
Proof.
  revert s Hs Hrun. induction ops as [|o ops IH]; intros s Hs Hrun; cbn [tx_run fold_left] in *.
  - by injection Hrun as <-.
  - unfold sbind in Hrun. destruct (tx o s) as [[[]| |] s1] eqn:E; try discriminate.
    destruct (tx_refines o s s1 Hs E) as [Hs1 Hv1]. rewrite <- Hv1. by apply IH.
Qed.

(** a failing BEGIN is harmless: it reports the error and the session stays
    in step with the server, outside a transaction. *)
Theorem begin_failure_synced s m s' (Hs : synced s) (Hrun : BeginTransaction s = (Err m, s')) :
  synced s' /\ InTransaction s' = false.
Proof.
  destruct Hs as (c & Hc & Hsync). unfold BeginTransaction, sbind at 1, sget, id in Hrun. rewrite Hc in Hrun.
  destruct (InTransaction s) eqn:Ei; [discriminate|]. rewrite exec_step in Hrun.
  destruct (Exec c BEGIN) as [[[]|m'|] c'] eqn:E; try discriminate. injection Hrun as _ <-.
  split; [|done]. exists c'. split; [done|]. cbn. rewrite Ei. by eapply begin_err.
Qed.

(** a failing COMMIT desynchronizes the session.  PostgreSQL rolls a
    transaction back when its COMMIT fails, but the session keeps believing it
    is in a transaction: a later BEGIN reports success without being sent, so
    the statements after it run outside any transaction. *)
Theorem commit_failure_desync s m s' (Hs : synced s) (Hrun : CommitTransaction s = (Err m, s')) :
  InTransaction s' = true /\ (exists c', pgConn s' = Some c' /\ in_tx c' = false) /\
  BeginTransaction s' = (Ok tt, s').
Proof.
  destruct Hs as (c & Hc & Hsync). unfold CommitTransaction, sbind at 1, sget, id in Hrun. rewrite Hc in Hrun.
  destruct (InTransaction s) eqn:Ei; [|discriminate]. cbn [negb] in Hrun. rewrite exec_step in Hrun.
  destruct (Exec c COMMIT) as [[[]|m'|] c'] eqn:E; try discriminate. injection Hrun as _ <-.
  split_and!; [done|exists c'; split; [done|by eapply commit_err]|].
  unfold BeginTransaction, sbind, sget, id. cbn. by rewrite Ei.
Qed.

(** a failed [SET autocommit=0] is not retried.  The flag is changed before
    the BEGIN is sent; when that fails the error is reported, but a second
    attempt returns success at once and no transaction is ever opened. *)
Theorem autocommit_failure_sticks s m s'
  (Hs : synced s) (Ha : Autocommit s = true) (Hi : InTransaction s = false)
  (Hrun : SetAutocommit false s = (Err m, s')) :
  Autocommit s' = false /\ InTransaction s' = false /\ SetAutocommit false s' = (Ok tt, s').
Proof.
  destruct Hs as (c & Hc & Hsync). unfold SetAutocommit, sbind at 1, sget, id in Hrun.
  rewrite Ha, Hc, Hi in Hrun. cbn [eqb negb andb] in Hrun. unfold sbind at 1, smod at 1 in Hrun.
  rewrite exec_step in Hrun. destruct (Exec c BEGIN) as [[[]|m'|] c'] eqn:E; try discriminate.
  injection Hrun as _ <-. split_and!; [done|done|].
  unfold SetAutocommit, sbind, sget, id. done.
Qed.

(** closing a session rolls back and lets the connection go.  Whatever errors
    the connection answers with, [Close] sends a ROLLBACK first if a transaction is
    open, closes the connection it then has, and leaves the session without
    one, so a second [Close] does nothing. *)
Theorem sess_Close_spec s c (Hc : pgConn s = Some c)
  (Hexec : forall cmd c', Exec c cmd <> (Panic, c')) (Hclose : forall x c', ConnClose x <> (Panic, c')) :
  let c1 := if InTransaction s then snd (Exec c ROLLBACK) else c in
  sess_Close s = (fst (ConnClose c1), set_pgConn None s) /\
  sess_Close (set_pgConn None s) = (Ok tt, set_pgConn None s).
Proof.
  split; [|done]. unfold sess_Close, sbind at 1, sget at 1, id at 1. rewrite Hc.
  destruct (InTransaction s) eqn:Ei.
  - unfold sbind, stry, exec, sget, sret, smod, slift, id.
    destruct (Exec c ROLLBACK) as [[[]| |] c'] eqn:E; rewrite ?Ei; cbn.
    + destruct (ConnClose c') as [[[]| |] c''] eqn:Ex; [done|done|by destruct (Hclose c' c'')].
    + destruct (ConnClose c') as [[[]| |] c''] eqn:Ex; [done|done|by destruct (Hclose c' c'')].
    + by destruct (Hexec ROLLBACK c').
  - unfold sbind, sret, sget, smod, slift, id. rewrite Ei, Hc.
    destruct (ConnClose c) as [[[]| |] c''] eqn:Ex; [done|done|by destruct (Hclose c c'')].
Qed.
End transactions.

(** ** Witnesses: a connection that is only its transaction status, and fails
    the commands in [failing] *)
Record ToyConn := mkToy { toy_tx : bool; failing : list bytes }.

#[local] Instance toy_conn : PgConn ToyConn := {
  Exec c cmd :=
    if decide (cmd ∈ failing c) then
      (Err (str "refused"), mkToy (if bytes_eqb cmd COMMIT then false else toy_tx c) (failing c))
    else if bytes_eqb cmd BEGIN then (Ok tt, mkToy true (failing c))
    else if bytes_eqb cmd COMMIT || bytes_eqb cmd ROLLBACK then (Ok tt, mkToy false (failing c))
    else (Ok tt, c);
  ConnClose c := (Ok tt, c)
}.

#[local] Instance toy_laws : PgConnLaws ToyConn toy_tx.
Proof.
  split; intros c; unfold Exec, toy_conn; destruct (decide _); intros; simplify_eq/=; done.
Qed.

Definition toy_session (fails : list bytes) : Session :=
  SetPGConn (Some (mkToy false fails)) (NewSession (str "id") 0 0 (str "u") (str "d") (str "a")).

Lemma toy_synced fails : synced toy_tx (toy_session fails).
Proof. eexists. split; reflexivity. Qed.

Lemma transactions_refine_witness :
  view (snd (tx_run [TxBegin; TxBegin; TxCommit; TxAutocommit false] (toy_session []))) = mkTx false true.
Proof.
  apply (transactions_refine toy_tx [TxBegin; TxBegin; TxCommit; TxAutocommit false] (toy_session []));
    [apply toy_synced|reflexivity].
Defined.

Lemma begin_failure_synced_witness :
  InTransaction (snd (BeginTransaction (toy_session [BEGIN]))) = false.
Proof.
  eapply (begin_failure_synced toy_tx (toy_session [BEGIN])); [apply toy_synced|reflexivity].
Defined.

Lemma commit_failure_desync_witness :
  let s := snd (BeginTransaction (toy_session [COMMIT])) in
  InTransaction (snd (CommitTransaction s)) = true.
Proof.
  intros s. eapply (commit_failure_desync toy_tx s); [eexists; split; reflexivity|reflexivity].
Defined.

Lemma autocommit_failure_sticks_witness :
  Autocommit (snd (SetAutocommit false (toy_session [BEGIN]))) = false.
Proof.
  eapply (autocommit_failure_sticks toy_tx (toy_session [BEGIN]));
    [apply toy_synced|reflexivity|reflexivity|reflexivity].
Defined.

Lemma sess_Close_spec_witness :
  sess_Close (toy_session []) = (Ok tt, set_pgConn None (toy_session [])).
Proof.
  eapply (sess_Close_spec (toy_session [])); [reflexivity| |discriminate].
  intros cmd c'. cbn. repeat (match goal with |- context [if ?d then _ else _] => destruct d end); discriminate.
Defined.
