(* ===== verification/GoStrings.v ===== *)
(** * Go's [strings] package and index-driven text loops

    The SQL rewriter and the protocol handler work on Go strings with
    [strings] functions and with loops over byte positions.  This file holds
    the [strings] functions they use, on byte lists; the result type [run] of
    code that can also panic on a bad index or loop for ever; slices with Go's
    bounds checks; and [search_loop], the shape shared by most passes of the
    rewriter: find the next keyword from a position, act on it, go on.

    [strings.ToUpper] and [strings.ToLower] are exact for ASCII text.  For
    other text they apply Unicode's case tables, which are the class [Unicode]
    without any law: the theorems that depend on them assume ASCII text. *)

From Stdlib Require Import ZArith Lia.
From stdpp Require Import base numbers list strings.
From S2P Require Import Prelude GoStd.
Open Scope Z_scope.

(** ** Characters *)

Abbreviation cTab := 9.
Abbreviation cNl := 10.
Abbreviation cSpace := 32.
Abbreviation cDquote := 34.
Abbreviation cDollar := 36.
Abbreviation cQuote := 39.
Abbreviation cLpar := 40.
Abbreviation cRpar := 41.
Abbreviation cComma := 44.
Abbreviation cSemi := 59.
Abbreviation cEqual := 61.
Abbreviation cQmark := 63.
Abbreviation cBackslash := 92.
Abbreviation cUnderscore := 95.
Abbreviation cBacktick := 96.

Definition is_upper (c : Z) : bool := (65 <=? c) && (c <=? 90).
Definition is_lower (c : Z) : bool := (97 <=? c) && (c <=? 122).
Definition is_letter (c : Z) : bool := is_lower c || is_upper c.

(** Space, tab and newline: the white space the loops of the rewriter skip. *)
Definition is_blank (c : Z) : bool := (c =? cSpace) || (c =? cTab) || (c =? cNl).

(** ** Code that may panic or not return *)

(** [Ret a] is a normal return, [Crash] a run-time panic, [NoFuel] says that
    the loop was still running when the fuel was used up. *)
Inductive run (A : Type) : Type :=
| Ret (a : A)
| Crash
| NoFuel.
Arguments Ret {A} a.
Arguments Crash {A}.
Arguments NoFuel {A}.

Definition run_bind {A B} (c : run A) (k : A -> run B) : run B :=
  match c with
  | Ret a => k a
  | Crash => Crash
  | NoFuel => NoFuel
  end.

Notation "x <~~ c ; k" := (run_bind c (fun x => k))
  (at level 100, c at next level, right associativity) : go_scope.

(** [s[i:j]] and [s[i]]. *)
Definition slice (s : bytes) (i j : nat) : run bytes :=
  if (i <=? j)%nat && (j <=? length s)%nat then Ret (take (j - i) (drop i s)) else Crash.
Definition slice_from (s : bytes) (i : nat) : run bytes := slice s i (length s).
Definition slice_to (s : bytes) (j : nat) : run bytes := slice s 0 j.
Definition byte_at (s : bytes) (i : nat) : run Z :=
  match s !! i with Some c => Ret c | None => Crash end.

(** [i < len(s) && p(s[i])]. *)
Definition holds_at (p : Z -> bool) (s : bytes) (i : nat) : bool :=
  match s !! i with Some c => p c | None => false end.

(** [for i < len(s) && p(s[i]) { i++ }]: the value of [i] after the loop. *)
Fixpoint prefix_len (p : Z -> bool) (s : bytes) : nat :=
  match s with
  | c :: t => if p c then S (prefix_len p t) else O
  | [] => O
  end.
Definition skip_while (p : Z -> bool) (s : bytes) (i : nat) : nat := (i + prefix_len p (drop i s))%nat.

(** [s[:i] + new + s[j:]]. *)
Definition splice (s : bytes) (i : nat) (new : bytes) (j : nat) : run bytes :=
  (a <~~ slice_to s i; b <~~ slice_from s j; Ret (a ++ new ++ b))%go.

(** ** [strings] *)

Definition ascii_byte (c : Z) : bool := (0 <=? c) && (c <? 128).
Definition ascii (s : bytes) : bool := forallb ascii_byte s.

(** Unicode's case tables, for text that is not ASCII. *)
Class Unicode := {
  upper_runes : bytes -> bytes;
  lower_runes : bytes -> bytes
}.

(** An instance to evaluate definitions on ASCII text, where the tables do not
    matter. *)
Definition ascii_tables : Unicode := {| upper_runes := id; lower_runes := id |}.

Definition toUpper `{!Unicode} (s : bytes) : bytes := if ascii s then ToUpper s else upper_runes s.
Definition toLower `{!Unicode} (s : bytes) : bytes := if ascii s then ToLower s else lower_runes s.

Definition has_suffix (p s : bytes) : bool := has_prefix (rev p) (rev s).

(** The white space of [unicode.IsSpace]: the ASCII characters, and the UTF-8
    encodings of U+0085, U+00A0, U+1680, U+2000 to U+200A, U+2028, U+2029,
    U+202F, U+205F and U+3000.  [space_len] is the number of bytes of the white
    space a text starts with, [space_len_rev] the same for a reversed text. *)
Definition space_byte (c : Z) : bool := (c =? 32) || ((9 <=? c) && (c <=? 13)).
Definition wide_spaces : list bytes :=
  [[194; 133]; [194; 160]; [225; 154; 128]; [226; 129; 159]; [227; 128; 128]]
  ++ map (fun e => [226; 128; e])
       [128; 129; 130; 131; 132; 133; 134; 135; 136; 137; 138; 168; 169; 175].
Definition space_in (wide : list bytes) (s : bytes) : nat :=
  match s with
  | c :: _ =>
      if space_byte c then 1%nat
      else match List.find (fun w => has_prefix w s) wide with
           | Some w => length w
           | None => O
           end
  | [] => O
  end.
Definition space_len : bytes -> nat := space_in wide_spaces.
Definition space_len_rev : bytes -> nat := space_in (map (@rev Z) wide_spaces).

Fixpoint trim_front (len : bytes -> nat) (skip : nat) (s : bytes) : bytes :=
  match s with
  | [] => []
  | _ :: t =>
      match skip with
      | S k => trim_front len k t
      | O => match len s with
             | O => s
             | S k => trim_front len k t
             end
      end
  end.

Definition TrimSpace (s : bytes) : bytes :=
  rev (trim_front space_len_rev 0 (rev (trim_front space_len 0 s))).

(** [strings.Trim] and [strings.TrimLeft] with a cutset of ASCII characters. *)
Fixpoint TrimLeft (s cutset : bytes) : bytes :=
  match s with
  | c :: t => if existsb (Z.eqb c) cutset then TrimLeft t cutset else s
  | [] => []
  end.
Definition Trim (s cutset : bytes) : bytes := rev (TrimLeft (rev (TrimLeft s cutset)) cutset).

(** [strings.Fields] and, for a predicate on ASCII characters,
    [strings.FieldsFunc]: [cur] is the field being read, reversed. *)
Definition flush (cur : bytes) (l : list bytes) : list bytes :=
  match cur with [] => l | _ => rev cur :: l end.

Fixpoint fields_from (len : bytes -> nat) (skip : nat) (cur : bytes) (s : bytes) : list bytes :=
  match s with
  | [] => flush cur []
  | c :: t =>
      match skip with
      | S k => fields_from len k cur t
      | O => match len s with
             | O => fields_from len 0 (c :: cur) t
             | S k => flush cur (fields_from len k [] t)
             end
      end
  end.
Definition Fields (s : bytes) : list bytes := fields_from space_len 0 [] s.
Definition FieldsFunc (p : Z -> bool) (s : bytes) : list bytes :=
  fields_from (fun s => match s with c :: _ => if p c then 1%nat else O | [] => O end) 0 [] s.

(** [strings.Split] with a one-byte separator. *)
Fixpoint split_on (sep : Z) (s : bytes) : list bytes :=
  match s with
  | [] => [[]]
  | c :: t =>
      if c =? sep then [] :: split_on sep t
      else match split_on sep t with
           | h :: l => (c :: h) :: l
           | [] => [[c]]
           end
  end.

(** [strings.ReplaceAll] for a non-empty [old], and [strings.Replace] with
    [n = 1]. *)
Fixpoint replace_from (old new : bytes) (skip : nat) (s : bytes) : bytes :=
  match s with
  | [] => []
  | c :: t =>
      match skip with
      | S k => replace_from old new k t
      | O => if has_prefix old s then new ++ replace_from old new (length old - 1) t
             else c :: replace_from old new 0 t
      end
  end.
Definition ReplaceAll (s old new : bytes) : bytes := replace_from old new 0 s.
Definition Replace1 (s old new : bytes) : bytes :=
  match index old s with
  | Some i => take i s ++ new ++ drop (i + length old) s
  | None => s
  end.

(** ** Search loops

    [for { idx := Index(ToUpper(result[searchPos:]), kw); ... }]: [act] is the
    body of the loop after the keyword was found at [idx]; it leaves the text
    and the position to go on from, or breaks. *)
Inductive step :=
| Jump (result : bytes) (searchPos : nat)
| Break.

Fixpoint search_loop (fuel : nat) (fold : bytes -> bytes) (kw : bytes) (act : bytes -> nat -> run step)
    (result : bytes) (searchPos : nat) : run bytes :=
  match fuel with
  | O => NoFuel
  | S fuel =>
      (part <~~ slice_from result searchPos;
       match index kw (fold part) with
       | None => Ret result
       | Some k =>
           next <~~ act result (searchPos + k)%nat;
           match next with
           | Break => Ret result
           | Jump result' pos' => search_loop fuel fold kw act result' pos'
           end
       end)%go
  end.

(** A loop over one value: [body] returns the next one, or [None] to break. *)
Fixpoint iter_loop {A} (fuel : nat) (body : A -> run (option A)) (a : A) : run A :=
  match fuel with
  | O => NoFuel
  | S fuel =>
      (next <~~ body a;
       match next with
       | None => Ret a
       | Some a' => iter_loop fuel body a'
       end)%go
  end.

(** ** Lemmas: prefixes, occurrences and slices *)

Lemma has_prefix_spec p s : has_prefix p s = true <-> exists b, s = p ++ b.
Proof.
  revert s; induction p as [|x p IH]; intros s; simpl.
  - split; [by exists s | done].
  - destruct s as [|y s]; simpl; [split; [done | by intros [b ?]] |].
    rewrite andb_true_iff, Z.eqb_eq, IH. split.
    + intros [-> [b ->]]. by exists b.
    + intros [b [= -> ->]]. split; [done | by exists b].
Qed.

Lemma has_prefix_app p b : has_prefix p (p ++ b) = true.
Proof. apply has_prefix_spec. by exists b. Qed.

Lemma has_prefix_false_cons x p y s : x <> y -> has_prefix (x :: p) (y :: s) = false.
Proof. intros. simpl. by rewrite (proj2 (Z.eqb_neq _ _)). Qed.

(** [occurs p s k]: [p] occurs in [s] at position [k]. *)
Definition occurs (p s : bytes) (k : nat) : Prop := exists a b, s = a ++ p ++ b /\ length a = k.

Lemma index_some p s k :
  index p s = Some k <-> occurs p s k /\ forall j, (j < k)%nat -> ~ occurs p s j.
Proof.
  revert k; induction s as [|c s IH]; intros k; cbn [index].
  - destruct (has_prefix p []) eqn:E.
    + apply has_prefix_spec in E as [b E]. symmetry in E. apply app_eq_nil in E as [-> ->].
      split.
      * intros [= <-]. split; [by exists [], [] | lia].
      * intros [(a & b & E & <-) H]. symmetry in E. apply app_eq_nil in E as [-> _]. done.
    + split; [done |]. intros [(a & b & E1 & _) _]. symmetry in E1.
      apply app_eq_nil in E1 as [_ E1]. apply app_eq_nil in E1 as [-> _]. done.
  - destruct (has_prefix p (c :: s)) eqn:E.
    + apply has_prefix_spec in E as [b E]. split.
      * intros [= <-]. split; [by exists [], b | lia].
      * intros [Ho H]. destruct k; [done |]. exfalso. apply (H O); [lia | by exists [], b].
    + assert (E0 : ~ occurs p (c :: s) 0).
      { intros (a & b & E1 & Ha). destruct a; [|done]. simpl in E1.
        rewrite E1 in E. by rewrite (has_prefix_app p b) in E. }
      assert (Ho : forall j, occurs p (c :: s) (S j) <-> occurs p s j).
      { intros j. split.
        - intros (a & b & E1 & Ha). destruct a as [|x a]; [done |].
          simplify_eq/=. by exists a, b.
        - intros (a & b & -> & <-). by exists (c :: a), b. }
      destruct (index p s) as [j|] eqn:Ej; simpl.
      * destruct (IH j) as [[H1 H2] _]; [done |]. split.
        -- intros [= <-]. split; [by apply Ho |]. intros [|i] Hi; [done |].
           rewrite Ho. apply H2. lia.
        -- intros [H3 H4]. destruct k as [|k]; [done |]. f_equal. f_equal.
           rewrite Ho in H3.
           assert (Some j = Some k) as [= <-]; [| done].
           apply IH. split; [done |]. intros i Hi. rewrite <- Ho. apply H4. lia.
      * split; [done |]. intros [H3 H4]. destruct k as [|k]; [done |].
        assert (@None nat = Some k); [| done]. apply IH. split; [by apply Ho |].
        intros i Hi. rewrite <- Ho. apply H4. lia.
Qed.

Lemma app_eq_inv_ge (a b c d : bytes) :
  a ++ b = c ++ d -> (length a <= length c)%nat -> exists o, c = a ++ o /\ b = o ++ d.
Proof.
  intros E Hl. exists (drop (length a) c).
  assert (c = a ++ drop (length a) c) as Hc.
  { rewrite <- (take_drop (length a) c) at 1. f_equal.
    apply (f_equal (take (length a))) in E. rewrite take_app_length, take_app_le in E; [done | lia]. }
  split; [done |]. rewrite Hc, <- app_assoc in E. by apply app_inv_head in E.
Qed.

Lemma index_none p s : index p s = None <-> forall k, ~ occurs p s k.
Proof.
  split.
  - intros E k. revert s E. induction k as [|k IH]; intros s E (a & b & -> & Ha).
    + destruct a; [|done]. simpl in E.
      assert (index p (p ++ b) = Some O) by (apply index_some; split; [by exists [], b | lia]).
      congruence.
    + destruct a as [|x a]; [done |]. simpl in E. destruct (has_prefix _ _); [done |].
      destruct (index p (a ++ p ++ b)) eqn:E1; [done |].
      apply (IH (a ++ p ++ b)); [done |]. exists a, b. by simplify_eq/=.
  - intros H. destruct (index p s) eqn:E; [|done]. apply index_some in E as [Ho _]. by apply H in Ho.
Qed.

Lemma index_bound p s k : index p s = Some k -> (k + length p <= length s)%nat.
Proof. intros [(a & b & -> & <-) _]%index_some. rewrite !length_app. lia. Qed.

Lemma index_split p s k :
  index p s = Some k -> s = take k s ++ p ++ drop (k + length p) s.
Proof.
  intros [(a & b & -> & <-) _]%index_some.
  by rewrite take_app_length, drop_app_add, drop_app_length.
Qed.

Lemma Contains_false s p : Contains s p = false <-> index p s = None.
Proof. unfold Contains. by destruct (index p s). Qed.

Lemma index_app_none p a b : index p (a ++ b) = None -> index p a = None /\ index p b = None.
Proof.
  rewrite !index_none. intros H. split; intros k (x & y & -> & <-).
  - apply (H (length x)). exists x, (y ++ b). by rewrite <- !app_assoc.
  - apply (H (length (a ++ x))). exists (a ++ x), y. by rewrite <- !app_assoc.
Qed.

Lemma slice_ok s i j : (i <= j <= length s)%nat -> slice s i j = Ret (take (j - i) (drop i s)).
Proof. intros. unfold slice. by rewrite (proj2 (Nat.leb_le _ _)), (proj2 (Nat.leb_le _ _)) by lia. Qed.

Lemma slice_mid a b c : slice (a ++ b ++ c) (length a) (length a + length b) = Ret b.
Proof.
  rewrite slice_ok by (rewrite !length_app; lia). f_equal.
  rewrite drop_app_length. replace (length a + length b - length a)%nat with (length b) by lia.
  apply take_app_length.
Qed.

Lemma slice_from_app a b : slice_from (a ++ b) (length a) = Ret b.
Proof.
  unfold slice_from. rewrite slice_ok by (rewrite length_app; lia). f_equal.
  rewrite drop_app_length, take_ge; [done |]. rewrite length_app. lia.
Qed.

Lemma slice_from_ok s i : (i <= length s)%nat -> slice_from s i = Ret (drop i s).
Proof.
  intros. unfold slice_from. rewrite slice_ok by lia. f_equal. apply take_ge. rewrite length_drop. lia.
Qed.

Lemma slice_to_ok s i : (i <= length s)%nat -> slice_to s i = Ret (take i s).
Proof. intros. unfold slice_to. rewrite slice_ok by lia. by rewrite Nat.sub_0_r. Qed.

Lemma splice_ok s i new j :
  (i <= length s)%nat -> (j <= length s)%nat -> splice s i new j = Ret (take i s ++ new ++ drop j s).
Proof. intros. unfold splice. by rewrite slice_to_ok, slice_from_ok. Qed.

Lemma drop_mid (a b c : bytes) : drop (length a + length b) (a ++ b ++ c) = c.
Proof. rewrite app_assoc, <- length_app. apply drop_app_length. Qed.

Lemma splice_mid a b c new : splice (a ++ b ++ c) (length a) new (length a + length b) = Ret (a ++ new ++ c).
Proof.
  rewrite splice_ok by (rewrite !length_app; lia).
  by rewrite take_app_length, drop_mid.
Qed.

Lemma byte_at_ok s i : (i < length s)%nat -> exists c, byte_at s i = Ret c /\ s !! i = Some c.
Proof. intros [c Hc]%lookup_lt_is_Some_2. exists c. unfold byte_at. by rewrite Hc. Qed.

Lemma prefix_len_le p s : (prefix_len p s <= length s)%nat.
Proof. induction s as [|c s IH]; simpl; [lia |]. destruct (p c); lia. Qed.

Lemma skip_while_bounds p s i : (i <= length s)%nat -> (i <= skip_while p s i <= length s)%nat.
Proof.
  intros. unfold skip_while. pose proof (prefix_len_le p (drop i s)) as H1.
  rewrite length_drop in H1. lia.
Qed.

Lemma holds_at_lt p s i : holds_at p s i = true -> (i < length s)%nat.
Proof. unfold holds_at. destruct (s !! i) eqn:E; [|done]. by apply lookup_lt_Some in E. Qed.

Lemma ReplaceAll_none s old new : index old s = None -> ReplaceAll s old new = s.
Proof.
  unfold ReplaceAll. induction s as [|c s IH]; [done |]. cbn [index replace_from].
  destruct (has_prefix old (c :: s)); [done |]. intros E. f_equal. apply IH. by destruct (index old s).
Qed.

(** ** Lemmas: case folding of ASCII text *)

Lemma ascii_app a b : ascii (a ++ b) = ascii a && ascii b.
Proof. unfold ascii. apply forallb_app. Qed.

Lemma ascii_take n s : ascii s = true -> ascii (take n s) = true.
Proof. intros H. rewrite <- (take_drop n s), ascii_app in H. by apply andb_true_iff in H as [? _]. Qed.

Lemma ascii_drop n s : ascii s = true -> ascii (drop n s) = true.
Proof. intros H. rewrite <- (take_drop n s), ascii_app in H. by apply andb_true_iff in H as [_ ?]. Qed.

Lemma toUpper_ascii `{!Unicode} s : ascii s = true -> toUpper s = ToUpper s.
Proof. unfold toUpper. by intros ->. Qed.

Lemma toUpper_length `{!Unicode} s : ascii s = true -> length (toUpper s) = length s.
Proof. intros. rewrite toUpper_ascii by done. apply length_map. Qed.

Lemma toUpper_app `{!Unicode} a b :
  ascii (a ++ b) = true -> toUpper (a ++ b) = toUpper a ++ toUpper b.
Proof.
  intros Ha. pose proof Ha as [H1 H2]%(eq_trans (eq_sym (ascii_app a b)))%andb_true_iff.
  rewrite !toUpper_ascii by done. apply map_app.
Qed.

Lemma toUpper_drop `{!Unicode} n s : ascii s = true -> toUpper (drop n s) = drop n (toUpper s).
Proof.
  intros. rewrite !toUpper_ascii by (try done; by apply ascii_drop).
  unfold ToUpper. by rewrite <- fmap_drop.
Qed.

Lemma toUpper_take `{!Unicode} n s : ascii s = true -> toUpper (take n s) = take n (toUpper s).
Proof.
  intros. rewrite !toUpper_ascii by (try done; by apply ascii_take).
  unfold ToUpper. by rewrite <- fmap_take.
Qed.

(** ** Lemmas: more fuel, enough fuel *)

(** [x] is [y], or [x] ran out of fuel. *)
Definition run_le {A} (x y : run A) : Prop := x = NoFuel \/ x = y.

#[global] Instance run_le_preorder A : PreOrder (@run_le A).
Proof.
  split; [by right |]. intros x y z [->| ->]; [by left | done].
Qed.

Lemma run_le_ret {A} (x y : run A) a : run_le x y -> x = Ret a -> y = Ret a.
Proof. by intros [->| ->]. Qed.

Lemma run_bind_mono {A B} (c c' : run A) (k k' : A -> run B) :
  run_le c c' -> (forall a, run_le (k a) (k' a)) -> run_le (run_bind c k) (run_bind c' k').
Proof. intros [->| ->] Hk; [by left |]. destruct c'; simpl; [apply Hk | by right ..]. Qed.

Lemma search_loop_mono f f' fold kw act act' :
  (f <= f')%nat -> (forall r i, run_le (act r i) (act' r i)) ->
  forall r p, run_le (search_loop f fold kw act r p) (search_loop f' fold kw act' r p).
Proof.
  intros Hf Hact. revert f' Hf. induction f as [|f IH]; intros [|f'] Hf r p; [by left.. | lia |].
  cbn [search_loop]. apply run_bind_mono; [done |]. intros part.
  destruct (index kw (fold part)) as [k|]; [| by right].
  apply run_bind_mono; [apply Hact |]. intros [r' p'|]; [apply IH; lia | by right].
Qed.

Lemma iter_loop_mono {A} f f' (body body' : A -> run (option A)) :
  (f <= f')%nat -> (forall a, run_le (body a) (body' a)) ->
  forall a, run_le (iter_loop f body a) (iter_loop f' body' a).
Proof.
  intros Hf Hb. revert f' Hf. induction f as [|f IH]; intros [|f'] Hf a; [by left.. | lia |].
  cbn [iter_loop]. apply run_bind_mono; [apply Hb |]. intros [a'|]; [apply IH; lia | by right].
Qed.

Create HintDb mono discriminated.
#[export] Hint Resolve run_bind_mono search_loop_mono iter_loop_mono : mono.
#[export] Hint Extern 1 (run_le ?x ?x) => right; reflexivity : mono.

(** A search loop whose body makes progress returns when the fuel exceeds the
    measure [mu]; [ok] is an invariant of the text. *)
Section search_total.
Context (ok : bytes -> Prop) (fold : bytes -> bytes) (kw : bytes) (act : bytes -> nat -> run step)
        (mu : bytes -> nat -> nat).
Hypothesis fold_len : forall r p, ok r -> length (fold (drop p r)) = length (drop p r).
Hypothesis progress : forall r p idx,
  ok r -> (p <= idx)%nat -> (idx + length kw <= length r)%nat ->
  act r idx = Ret Break \/
  exists r' p', act r idx = Ret (Jump r' p') /\ ok r' /\ (p' <= length r')%nat /\ (mu r' p' < mu r p)%nat.

Lemma search_total n : forall r p,
  ok r -> (p <= length r)%nat -> (mu r p < n)%nat ->
  exists out, search_loop n fold kw act r p = Ret out /\ ok out.
Proof using fold_len progress.
  induction n as [|n IH]; intros r p Hok Hp Hn; [lia |].
  cbn [search_loop]. rewrite slice_from_ok by done. simpl.
  destruct (index kw (fold (drop p r))) as [k|] eqn:Ek; [| by exists r].
  apply index_bound in Ek. rewrite fold_len, length_drop in Ek by done.
  destruct (progress r p (p + k)) as [E|(r' & p' & E & Hok' & Hp' & Hmu)]; [done | lia | lia | |];
    rewrite E; simpl.
  - by exists r.
  - apply IH; [done.. | lia].
Qed.
End search_total.

(** The same for [iter_loop]. *)
Lemma iter_total {A} (ok : A -> Prop) (body : A -> run (option A)) (mu : A -> nat) :
  (forall a, ok a -> body a = Ret None \/
     exists a', body a = Ret (Some a') /\ ok a' /\ (mu a' < mu a)%nat) ->
  forall n a, ok a -> (mu a < n)%nat -> exists out, iter_loop n body a = Ret out /\ ok out.
Proof.
  intros Hb. induction n as [|n IH]; intros a Hok Hn; [lia |]. cbn [iter_loop].
  destruct (Hb a Hok) as [E|(a' & E & Hok' & Hmu)]; rewrite E; simpl.
  - by exists a.
  - apply IH; [done | lia].
Qed.

(** A loop whose body always goes on never returns. *)
Lemma iter_diverges {A} (I : A -> Prop) (body : A -> run (option A)) :
  (forall a, I a -> exists a', body a = Ret (Some a') /\ I a') ->
  forall n a, I a -> iter_loop n body a = NoFuel.
Proof.
  intros Hb. induction n as [|n IH]; intros a Ha; [done |]. cbn [iter_loop].
  destruct (Hb a Ha) as (a' & -> & Ha'). simpl. by apply IH.
Qed.

Lemma search_none n fold kw act r p :
  (0 < n)%nat -> (p <= length r)%nat -> index kw (fold (drop p r)) = None ->
  search_loop n fold kw act r p = Ret r.
Proof. intros Hn Hp E. destruct n; [lia |]. cbn [search_loop]. rewrite slice_from_ok by done. simpl. by rewrite E. Qed.

(** An occurrence in ASCII text is one in the upper-case text. *)
Lemma index_upper_none `{!Unicode} kw s :
  ascii s = true -> ascii kw = true -> index (toUpper kw) (toUpper s) = None -> index kw s = None.
Proof.
  intros Hs Hk. rewrite !index_none. intros Hn k (a & b & -> & <-).
  apply (Hn (length (toUpper a))). exists (toUpper a), (toUpper b). split; [|done].
  rewrite !toUpper_app; [done | | done].
  rewrite ascii_app in Hs. by apply andb_true_iff in Hs as [_ ?].
Qed.
