(* ===== verification/SQLText.v ===== *)
(** * Text passes of the SQL generator, part 1

    The lexical helpers of [pkg/sqlrewrite/pg_generator.go]: placeholders,
    character-set prefixes, string literals, parentheses, argument lists, and
    the replacement of type names.  The methods of [PGGenerator] do not use its
    fields, so they are plain functions. *)

From Stdlib Require Import ZArith Lia.
From stdpp Require Import base numbers list strings.
From S2P Require Import Prelude GoStd GoStrings.
Open Scope Z_scope.
Open Scope go_scope.

(** ** Placeholders *)

(** The state of the scan of [convertPlaceholders] and [isInString]: inside a
    string literal or not, its quote character, and whether the last character
    was a backslash. *)
Record lexer := mkLexer { inString : bool; stringChar : Z; escaped : bool }.
Definition lex0 : lexer := mkLexer false 0 false.

Definition is_quote (c : Z) : bool := (c =? cQuote) || (c =? cDquote).

Definition lex_step (l : lexer) (ch : Z) : lexer :=
  if escaped l then mkLexer (inString l) (stringChar l) false
  else if ch =? cBackslash then mkLexer (inString l) (stringChar l) true
  else if is_quote ch then
    if negb (inString l) then mkLexer true ch false
    else if ch =? stringChar l then mkLexer false 0 false
    else l
  else l.

(** [PGGenerator.convertPlaceholders]: the text and the number of
    placeholders. *)
Fixpoint placeholders_from (l : lexer) (paramIndex : Z) (sql : bytes) : bytes * Z :=
  match sql with
  | [] => ([], paramIndex)
  | ch :: rest =>
      if negb (escaped l) && negb (ch =? cBackslash) && negb (is_quote ch)
         && negb (inString l) && (ch =? cQmark) then
        let (out, n) := placeholders_from (lex_step l ch) (paramIndex + 1) rest in
        (cDollar :: dec_Z (paramIndex + 1) ++ out, n)
      else
        let (out, n) := placeholders_from (lex_step l ch) paramIndex rest in
        (ch :: out, n)
  end.
Definition convertPlaceholders (sql : bytes) : bytes * Z := placeholders_from lex0 0 sql.

(** [isInString]: [for i := 0; i < pos && i < len(sql); i++]. *)
Definition isInString (sql : bytes) (pos : nat) : bool :=
  inString (fold_left lex_step (take pos sql) lex0).

(** ** Character-set prefixes *)

Definition charset_prefixes : list bytes :=
  map str ["_UTF8MB4"; "_utf8mb4"; "_UTF8"; "_utf8"; "_BINARY"; "_binary"; "_LATIN1"; "_latin1";
           "_ASCII"; "_ascii"; "_UCS2"; "_ucs2"; "_UTF16"; "_utf16"; "_UTF32"; "_utf32"]%string.

Definition prefix_applies (s p : bytes) : bool :=
  (length p <? length s)%nat && has_prefix p s && holds_at is_quote s (length p).

(** [matchCharsetPrefix]: the length of the prefix, 0 when there is none. *)
Fixpoint matchCharsetPrefix (prefixes : list bytes) (s : bytes) : nat :=
  match prefixes with
  | [] => O
  | p :: l => if prefix_applies s p then length p else matchCharsetPrefix l s
  end.

Fixpoint strip_prefixes (skip : nat) (sql : bytes) : bytes :=
  match sql with
  | [] => []
  | c :: t =>
      match skip with
      | S k => strip_prefixes k t
      | O =>
          let prefixLen :=
            if (c =? cUnderscore) && (2 <? length sql)%nat then matchCharsetPrefix charset_prefixes sql
            else O in
          match prefixLen with
          | S k => strip_prefixes k t
          | O => c :: strip_prefixes 0 t
          end
      end
  end.

Definition removeCharsetPrefixes (sql : bytes) : bytes :=
  if negb (Contains sql [cUnderscore]) then sql else strip_prefixes 0 sql.

(** ** Parentheses and arguments *)

(** The position of the parenthesis that closes [count] open ones. *)
Fixpoint close_paren (count : nat) (s : bytes) : option nat :=
  match s with
  | [] => None
  | c :: t =>
      if c =? cLpar then S <$> close_paren (S count) t
      else if c =? cRpar then
        match count with
        | S (S k) => S <$> close_paren (S k) t
        | _ => Some O
        end
      else S <$> close_paren count t
  end.

Definition findMatchingParen (sql : bytes) (startPos : nat) : option nat :=
  if holds_at (Z.eqb cLpar) sql startPos
  then (fun k => startPos + 1 + k)%nat <$> close_paren 1 (drop (startPos + 1) sql)
  else None.

(** [splitFuncArgs]: the first element is the argument being read. *)
Fixpoint split_args (depth : Z) (inStr : bool) (strChar : Z) (content : bytes) : list bytes :=
  match content with
  | [] => [[]]
  | ch :: t =>
      let push l := match l with h :: r => (ch :: h) :: r | [] => [[ch]] end in
      if inStr then push (split_args depth (negb (ch =? strChar)) strChar t)
      else if is_quote ch then push (split_args depth true ch t)
      else if ch =? cLpar then push (split_args (depth + 1) false strChar t)
      else if ch =? cRpar then push (split_args (depth - 1) false strChar t)
      else if (ch =? cComma) && (depth =? 0) then [] :: split_args depth false strChar t
      else push (split_args depth false strChar t)
  end.
Definition splitFuncArgs (content : bytes) : list bytes := split_args 0 false 0 content.

Definition joinColumnsWithConcat (columns : bytes) : bytes :=
  join (str " || ' ' || ") (map TrimSpace (split_on cComma columns)).

(** ** Words *)

Definition isAlphanumeric (b : Z) : bool := is_lower b || is_upper b || digit b || (b =? cUnderscore).

#[global] Arguments isAlphanumeric : simpl never.

(** [idx == 0 || !isAlphanumeric(s[idx-1])] and
    [end >= len(s) || !isAlphanumeric(s[end])]. *)
Definition word_starts (s : bytes) (idx : nat) : run bool :=
  if (idx =? 0)%nat then Ret true
  else c <~~ byte_at s (idx - 1); Ret (negb (isAlphanumeric c)).
Definition word_ends (s : bytes) (e : nat) : run bool :=
  if (length s <=? e)%nat then Ret true
  else c <~~ byte_at s e; Ret (negb (isAlphanumeric c)).

Definition replaceWord_step (oldWord newWord : bytes) (result : bytes) (idx : nat) : run step :=
  before <~~ word_starts result idx;
  after <~~ word_ends result (idx + length oldWord);
  if before && after then
    r <~~ splice result idx newWord (idx + length oldWord);
    Ret (Jump r (idx + length newWord))
  else Ret (Jump result (idx + length oldWord)).

Definition replaceWord (fuel : nat) (s oldWord newWord : bytes) : run bytes :=
  search_loop fuel id oldWord (replaceWord_step oldWord newWord) s 0.

Section fold.
Context `{!Unicode}.

Definition replaceDoubleType_step (result : bytes) (idx : nat) : run step :=
  let followIdx := skip_while (Z.eqb cSpace) result (idx + 6) in
  precision <~~ (if (followIdx + 9 <=? length result)%nat
                 then w <~~ slice result followIdx (followIdx + 9);
                      Ret (bytes_eqb (toUpper w) (str "PRECISION"))
                 else Ret false);
  if precision then Ret (Jump result (followIdx + 9))
  else
    before <~~ word_starts result idx;
    after <~~ word_ends result (idx + 6);
    if before && after then
      r <~~ splice result idx (str "DOUBLE PRECISION") (idx + 6);
      Ret (Jump r (idx + length (str "DOUBLE PRECISION")))
    else Ret (Jump result (idx + 6)).

Definition replaceDoubleType (fuel : nat) (s : bytes) : run bytes :=
  search_loop fuel toUpper (str "DOUBLE") replaceDoubleType_step s 0.

(** The word replacements of [convertTypes], in order. *)
Definition type_words : list (bytes * bytes) :=
  map (fun p => (str p.1, str p.2))
    [("TINYTEXT", "TEXT"); ("tinytext", "text"); ("MEDIUMTEXT", "TEXT"); ("mediumtext", "text");
     ("LONGTEXT", "TEXT"); ("longtext", "text"); ("BLOB", "BYTEA"); ("blob", "bytea");
     ("JSON", "JSONB"); ("json", "jsonb")]%string.

Fixpoint replace_words (fuel : nat) (l : list (bytes * bytes)) (s : bytes) : run bytes :=
  match l with
  | [] => Ret s
  | (old, new) :: l => r <~~ replaceWord fuel s old new; replace_words fuel l r
  end.

Definition convertTypes (fuel : nat) (sql : bytes) : run bytes :=
  r <~~ replaceDoubleType fuel sql; replace_words fuel type_words r.

End fold.
