(* ===== verification/SQLPasses.v ===== *)
(** * Text passes of the SQL generator, part 2

    The passes of [PGGenerator.PostProcess] ([pkg/sqlrewrite/pg_generator.go])
    that rewrite clauses and calls, and [PostProcess] itself.  Loops take fuel;
    a pass that is still running when it is used up is [NoFuel]. *)

From Stdlib Require Import ZArith Lia.
From stdpp Require Import base numbers list strings.
From S2P Require Import Prelude GoStd GoStrings SQLText.
Open Scope Z_scope.
Open Scope go_scope.

Section passes.
Context `{!Unicode}.

(** ** [IF(cond, a, b)] *)

Definition case_expr (c a b : bytes) : bytes :=
  str "CASE WHEN " ++ TrimSpace c ++ str " THEN " ++ TrimSpace a ++ str " ELSE " ++ TrimSpace b ++ str " END".

Definition convertIF_call (result : bytes) (ifIdx : nat) : run step :=
  let skip := Ret (Jump result (ifIdx + 3)) in
  if isInString result ifIdx then skip
  else
    let parenStart := (ifIdx + 2)%nat in
    match findMatchingParen result parenStart with
    | None => skip
    | Some parenEnd =>
        content <~~ slice result (parenStart + 1) parenEnd;
        match splitFuncArgs content with
        | [c; a; b] =>
            r <~~ splice result ifIdx (case_expr c a b) (parenEnd + 1);
            Ret (Jump r (ifIdx + length (case_expr c a b)))
        | _ => skip
        end
    end.

Definition convertIF_step (result : bytes) (ifIdx : nat) : run step :=
  if (0 <? ifIdx)%nat then
    prev <~~ byte_at result (ifIdx - 1);
    if is_upper prev || is_lower prev || (prev =? cUnderscore) then Ret (Jump result (ifIdx + 3))
    else convertIF_call result ifIdx
  else convertIF_call result ifIdx.

Definition convertIFFunction (fuel : nat) (sql : bytes) : run bytes :=
  search_loop fuel toUpper (str "IF(") convertIF_step sql 0.

(** ** [LIMIT offset, count] *)

Definition convertLimit_step (result : bytes) (limitIdx : nat) : run step :=
  let skip := Ret (Jump result (limitIdx + 5)) in
  let start1 := skip_while is_blank result (limitIdx + 5) in
  let end1 := skip_while digit result start1 in
  if (end1 =? start1)%nat then skip
  else
    offset <~~ slice result start1 end1;
    let i := skip_while is_blank result end1 in
    if negb (holds_at (Z.eqb cComma) result i) then skip
    else
      let start2 := skip_while is_blank result (i + 1) in
      let end2 := skip_while digit result start2 in
      if (end2 =? start2)%nat then skip
      else
        count <~~ slice result start2 end2;
        let newLimit := str "LIMIT " ++ count ++ str " OFFSET " ++ offset in
        r <~~ splice result limitIdx newLimit end2;
        Ret (Jump r (limitIdx + length newLimit)).

Definition convertLimitSyntax (fuel : nat) (sql : bytes) : run bytes :=
  search_loop fuel toUpper (str "LIMIT") convertLimit_step sql 0.

(** ** [GROUP_CONCAT] *)

Definition convertGroupConcat_step (result : bytes) (groupConcatIdx : nat) : run step :=
  let skip := Ret (Jump result (groupConcatIdx + 12)) in
  let openParen := skip_while is_blank result (groupConcatIdx + 12) in
  if negb (holds_at (Z.eqb cLpar) result openParen) then skip
  else
    match close_paren 1 (drop (openParen + 1) result) with
    | None => skip
    | Some k =>
        let closeParen := (openParen + 1 + k)%nat in
        content <~~ slice result (openParen + 1) closeParen;
        newFunc <~~
          match index (str " SEPARATOR ") (toUpper content) with
          | Some separatorIdx =>
              column <~~ slice_to content separatorIdx;
              separator <~~ slice_from content (separatorIdx + 11);
              Ret (str "string_agg(" ++ TrimSpace column ++ str ", " ++ TrimSpace separator ++ str ")")
          | None => Ret (str "string_agg(" ++ TrimSpace content ++ str ", ',')")
          end;
        r <~~ splice result groupConcatIdx newFunc (closeParen + 1);
        Ret (Jump r (groupConcatIdx + length newFunc))
    end.

Definition convertGroupConcat (fuel : nat) (sql : bytes) : run bytes :=
  search_loop fuel toUpper (str "GROUP_CONCAT") convertGroupConcat_step sql 0.

(** ** Full-text search *)

Definition ts_expr (pgColumns searchTerm : bytes) : bytes :=
  str "to_tsvector('simple', " ++ pgColumns ++ str ") @@ to_tsquery('simple', " ++ searchTerm ++ str ")".

(** What an iteration of [convertMatchAgainst] does with the MATCH it found:
    leave it alone (and mark it), stop, or rewrite the expression. *)
Inductive match_action :=
| MarkIt
| StopHere
| RewriteTo (result : bytes).

Definition against_action (result resultUpper : bytes) (matchIdx matchParenStart matchParenEnd : nat)
    : run match_action :=
  columns <~~ slice result (matchParenStart + 1) matchParenEnd;
  tail <~~ slice_from resultUpper matchParenEnd;
  match index (str "AGAINST") tail with
  | None => Ret MarkIt
  | Some k =>
      let againstIdx := (matchParenEnd + k)%nat in
      let againstParenStart := skip_while (Z.eqb cSpace) result (againstIdx + 7) in
      if negb (holds_at (Z.eqb cLpar) result againstParenStart) then Ret MarkIt
      else
        match findMatchingParen result againstParenStart with
        | None => Ret MarkIt
        | Some againstParenEnd =>
            raw <~~ slice result (againstParenStart + 1) againstParenEnd;
            let againstContent := TrimSpace raw in
            searchTerm <~~
              match index (str " IN ") (toUpper againstContent) with
              | Some idx => t <~~ slice_to againstContent idx; Ret (TrimSpace t)
              | None => Ret againstContent
              end;
            r <~~ splice result matchIdx (ts_expr (joinColumnsWithConcat columns) searchTerm)
                    (againstParenEnd + 1);
            Ret (RewriteTo r)
        end
  end.

Definition matchAgainst_action (result resultUpper : bytes) (matchIdx : nat) : run match_action :=
  if isInString result matchIdx then Ret MarkIt
  else
    let searchStart := skip_while (Z.eqb cSpace) result (matchIdx + 5) in
    if negb (holds_at (Z.eqb cLpar) result searchStart) then Ret MarkIt
    else
      match findMatchingParen result searchStart with
      | None => Ret StopHere
      | Some matchParenEnd => against_action result resultUpper matchIdx searchStart matchParenEnd
      end.

(** The loop keeps the text and its upper-case copy; a mark goes into both. *)
Definition convertMatch_step (st : bytes * bytes) : run (option (bytes * bytes)) :=
  let (result, resultUpper) := st in
  match index (str "MATCH") resultUpper with
  | None => Ret None
  | Some matchIdx =>
      action <~~ matchAgainst_action result resultUpper matchIdx;
      match action with
      | MarkIt =>
          r <~~ splice result matchIdx (str "xMATCH") (matchIdx + 5);
          u <~~ splice resultUpper matchIdx (str "xMATCH") (matchIdx + 5);
          Ret (Some (r, u))
      | StopHere => Ret None
      | RewriteTo r => Ret (Some (r, toUpper r))
      end
  end.

Definition convertMatchAgainst (fuel : nat) (sql : bytes) : run bytes :=
  st <~~ iter_loop fuel convertMatch_step (sql, toUpper sql);
  Ret (ReplaceAll st.1 (str "xMATCH") (str "MATCH")).

(** The scan of [convertMatchOperator]: the closing parenthesis and the first
    comma outside nested parentheses. *)
Fixpoint op_scan (parenCount : nat) (commaIdx : option nat) (i : nat) (s : bytes)
    : option nat * option nat :=
  match s with
  | [] => (None, commaIdx)
  | ch :: t =>
      if ch =? cLpar then op_scan (S parenCount) commaIdx (S i) t
      else if ch =? cRpar then
        match parenCount with
        | S (S k) => op_scan (S k) commaIdx (S i) t
        | _ => (Some i, commaIdx)
        end
      else if (ch =? cComma) && (parenCount =? 1)%nat && bool_decide (commaIdx = None)
      then op_scan parenCount (Some i) (S i) t
      else op_scan parenCount commaIdx (S i) t
  end.

Definition convertMatchOperator_step (result : bytes) (startIdx : nat) : run step :=
  match op_scan 1 None (startIdx + 3) (drop (startIdx + 3) result) with
  | (Some i, Some commaIdx) =>
      arg1 <~~ slice result (startIdx + 3) commaIdx;
      arg2 <~~ slice result (commaIdx + 1) i;
      r <~~ splice result startIdx (TrimSpace arg1 ++ str " @@ " ++ TrimSpace arg2) (i + 1);
      Ret (Jump r 0)
  | _ => Ret Break
  end.

Definition convertMatchOperator (fuel : nat) (sql : bytes) : run bytes :=
  search_loop fuel id (str "@@(") convertMatchOperator_step sql 0.

(** ** [AUTO_INCREMENT] and INSERT *)

Definition convertAutoIncrement (sql : bytes) : bytes :=
  let result := ReplaceAll sql (str "INT AUTO_INCREMENT PRIMARY") (str "SERIAL PRIMARY") in
  let result := ReplaceAll result (str "BIGINT AUTO_INCREMENT PRIMARY") (str "BIGSERIAL PRIMARY") in
  let result := ReplaceAll result (str "SMALLINT AUTO_INCREMENT PRIMARY") (str "SMALLSERIAL PRIMARY") in
  let result := ReplaceAll result (str "INT AUTO_INCREMENT") (str "SERIAL") in
  let result := ReplaceAll result (str "BIGINT AUTO_INCREMENT") (str "BIGSERIAL") in
  ReplaceAll result (str "SMALLINT AUTO_INCREMENT") (str "SMALLSERIAL").

(** NULL at [valueStart] is replaced by DEFAULT; the text and the position of
    the closing parenthesis afterwards. *)
Definition null_to_default (result : bytes) (valueStart parenEnd : nat) : run (bytes * nat) :=
  if (valueStart + 4 <=? parenEnd)%nat then
    w <~~ slice result valueStart (valueStart + 4);
    if bytes_eqb (toUpper w) (str "NULL")
       && ((valueStart + 4 =? parenEnd)%nat
           || holds_at (fun c => (c =? cComma) || is_blank c || (c =? cRpar)) result (valueStart + 4))
    then r <~~ splice result valueStart (str "DEFAULT") (valueStart + 4);
         Ret (r, (parenEnd - 4 + 7)%nat)
    else Ret (result, parenEnd)
  else Ret (result, parenEnd).

Definition insertNull_step (st : bytes * nat) : run (option (bytes * nat)) :=
  let (result, searchPos) := st in
  if (length result <=? searchPos)%nat then Ret None
  else
    match index_byte cLpar (drop searchPos result) with
    | None => Ret None
    | Some k =>
        let parenStart := (searchPos + k)%nat in
        match findMatchingParen result parenStart with
        | None => Ret None
        | Some parenEnd =>
            let valueStart := skip_while is_blank (take parenEnd result) (parenStart + 1) in
            p <~~ null_to_default result valueStart parenEnd;
            let (result', parenEnd') := (p : bytes * nat) in
            Ret (Some (result', skip_while (fun c => negb (c =? cLpar) && negb (c =? cSemi))
                                  result' (parenEnd' + 1)))
        end
    end.

Definition convertInsertNullToDefault (fuel : nat) (sql : bytes) : run bytes :=
  let resultUpper := toUpper sql in
  if negb (has_prefix (str "INSERT") resultUpper) then Ret sql
  else
    match index (str "VALUES") resultUpper with
    | None => Ret sql
    | Some valuesIdx =>
        let searchPos := skip_while is_blank sql (valuesIdx + 6) in
        if negb (holds_at (Z.eqb cLpar) sql searchPos) then Ret sql
        else st <~~ iter_loop fuel insertNull_step (sql, searchPos); Ret st.1
    end.

(** ** [ENUM] *)

Definition convertEnum_step (result : bytes) (enumIdx : nat) : run step :=
  let skip := Ret (Jump result (enumIdx + 4)) in
  if isInString result enumIdx then skip
  else
    let searchStart := skip_while (Z.eqb cSpace) result (enumIdx + 4) in
    if negb (holds_at (Z.eqb cLpar) result searchStart) then skip
    else match findMatchingParen result searchStart with
         | None => skip
         | Some parenEnd =>
             r <~~ splice result enumIdx (str "VARCHAR(50)") (parenEnd + 1);
             Ret (Jump r enumIdx)
         end.

Definition convertEnum (fuel : nat) (sql : bytes) : run bytes :=
  search_loop fuel toUpper (str "ENUM") convertEnum_step sql 0.

(** ** Index clauses of CREATE TABLE

    [removeIndexClauses]; its call in [PostProcess] is commented out. *)

(** The first of INDEX and KEY and its length. *)
Definition find_index_keyword (upperPart : bytes) : option (nat * nat) :=
  match index (str "INDEX") upperPart, index (str "KEY") upperPart with
  | None, None => None
  | None, Some k => Some (k, 3%nat)
  | Some i, None => Some (i, 5%nat)
  | Some i, Some k => Some (if (k <? i)%nat then (k, 3%nat) else (i, 5%nat))
  end.

Fixpoint skip_back (s : bytes) (i : nat) : nat :=
  match i with
  | O => O
  | S k => if holds_at is_blank s k then skip_back s k else i
  end.

(** UNIQUE before the keyword: where it starts. *)
Definition unique_before (result : bytes) (keywordIdx : nat) : run (option nat) :=
  let pos := skip_back result keywordIdx in
  if (6 <=? pos)%nat then
    w <~~ slice result (pos - 6) pos;
    Ret (if bytes_eqb (toUpper w) (str "UNIQUE") then Some (pos - 6)%nat else None)
  else Ret None.

(** The clause whose keyword ends at [keywordEnd] is cut out, with the comma
    before it or else the one after it; [None] when it is not a clause. *)
Definition cut_index_clause (result : bytes) (keywordIdx keywordEnd : nat) : run (option (bytes * nat)) :=
  let blankStart := skip_back result keywordIdx in
  let includeComma := (0 <? blankStart)%nat && holds_at (Z.eqb cComma) result (blankStart - 1) in
  let removeStart := if includeComma then (blankStart - 1)%nat else blankStart in
  let parenStart :=
    skip_while (fun c => negb ((c =? cLpar) || (c =? cComma) || (c =? cRpar) || (c =? cSemi))) result keywordEnd in
  if negb (holds_at (Z.eqb cLpar) result parenStart) then Ret None
  else match findMatchingParen result parenStart with
       | None => Ret None
       | Some parenEnd =>
           let removeEnd := skip_while is_blank result (parenEnd + 1) in
           let removeEnd := if negb includeComma && holds_at (Z.eqb cComma) result removeEnd
                            then skip_while is_blank result (removeEnd + 1) else removeEnd in
           r <~~ splice result removeStart [] removeEnd;
           Ret (Some (r, removeStart))
       end.

Definition indexClause_step (st : bytes * nat) : run (option (bytes * nat)) :=
  let (result, searchPos) := st in
  upperPart <~~ slice_from result searchPos;
  match find_index_keyword (toUpper upperPart) with
  | None => Ret None
  | Some (k, keywordLen) =>
      let keywordIdx := (searchPos + k)%nat in
      let skip := Ret (Some (result, (keywordIdx + keywordLen)%nat)) in
      let cut start :=
        x <~~ cut_index_clause result start (keywordIdx + keywordLen);
        match x with None => skip | Some st' => Ret (Some st') end in
      if isInString result keywordIdx then skip
      else
        u <~~ unique_before result keywordIdx;
        match u with
        | Some start => cut start
        | None =>
            if ((0 <? keywordIdx)%nat
                && holds_at (fun c => isAlphanumeric c || (c =? cBacktick)) result (keywordIdx - 1))
               || holds_at isAlphanumeric result (keywordIdx + keywordLen)
            then skip
            else cut keywordIdx
        end
  end.

Definition removeIndexClauses (fuel : nat) (sql : bytes) : run bytes :=
  if negb (Contains (toUpper sql) (str "CREATE TABLE")) then Ret sql
  else st <~~ iter_loop fuel indexClause_step (sql, O); Ret st.1.

(** ** Table options *)

(** After the keyword: spaces, [=], spaces and the value; the position after
    the value, or [None] when there is no [=]. *)
Definition option_end (result : bytes) (pos : nat) : option nat :=
  let i := skip_while (Z.eqb cSpace) result pos in
  if negb (holds_at (Z.eqb cEqual) result i) then None
  else
    let j := skip_while (Z.eqb cSpace) result (i + 1) in
    Some (skip_while (fun c => negb ((c =? cSpace) || (c =? cComma) || (c =? cSemi) || (c =? cRpar)))
            result j).

Definition engine_step (result : bytes) (idx : nat) : run step :=
  if isInString result idx then Ret (Jump result (idx + 6))
  else match option_end result (idx + 6) with
       | None => Ret (Jump result (idx + 6))
       | Some i => r <~~ splice result idx [] i; Ret (Jump r idx)
       end.

(** The first of CHARACTER SET and CHARSET: position, keyword and mark. *)
Definition find_charset (upper : bytes) : option (nat * bytes * bytes) :=
  let long idx := Some (idx, str "CHARACTER SET", str "xCHARACTERxSETx") in
  let short idx := Some (idx, str "CHARSET", str "xCHARSET") in
  match index (str "CHARACTER SET") upper, index (str "CHARSET") upper with
  | Some a, Some b => if (a <? b)%nat then long a else short b
  | Some a, None => long a
  | None, Some b => short b
  | None, None => None
  end.

Definition charset_step (result : bytes) : run (option bytes) :=
  match find_charset (toUpper result) with
  | None => Ret None
  | Some (idx, keyword, mark) =>
      start <~~ (if (8 <=? idx)%nat then
                   prefix <~~ slice result (idx - 8) idx;
                   Ret (if bytes_eqb (toUpper (TrimSpace prefix)) (str "DEFAULT") then (idx - 8)%nat else idx)
                 else Ret idx);
      match option_end result (idx + length keyword) with
      | None => r <~~ splice result idx mark (idx + length keyword); Ret (Some r)
      | Some i => r <~~ splice result start [] i; Ret (Some r)
      end
  end.

Definition collate_step (result : bytes) : run (option bytes) :=
  match index (str "COLLATE") (toUpper result) with
  | None => Ret None
  | Some idx =>
      match option_end result (idx + 7) with
      | None => r <~~ splice result idx (str "xCOLLATE") (idx + 7); Ret (Some r)
      | Some i => r <~~ splice result idx [] i; Ret (Some r)
      end
  end.

Definition cleanup_step (result : bytes) : run (option bytes) :=
  let r := ReplaceAll (ReplaceAll result (str " )") (str ")")) (str ",)") (str ")") in
  Ret (if bytes_eqb r result then None else Some r).

Definition removeTableOptions (fuel : nat) (sql : bytes) : run bytes :=
  result <~~ search_loop fuel toUpper (str "ENGINE") engine_step sql 0;
  result <~~ iter_loop fuel charset_step result;
  let result := ReplaceAll result (str "xCHARSET") (str "CHARSET") in
  let result := ReplaceAll result (str "xCHARACTERxSETx") (str "CHARACTER SET") in
  result <~~ iter_loop fuel collate_step result;
  let result := ReplaceAll result (str "xCOLLATE") (str "COLLATE") in
  iter_loop fuel cleanup_step result.

(** ** Implicit cross joins *)

Definition outer_keywords : list bytes :=
  map str [" WHERE "; " ORDER "; " GROUP "; " LIMIT "; " FOR "; " HAVING "; " UNION "]%string.

Fixpoint outer_end (parenDepth : Z) (i : nat) (s : bytes) : option nat :=
  match s with
  | [] => None
  | ch :: t =>
      if ch =? cLpar then outer_end (parenDepth + 1) (S i) t
      else if ch =? cRpar then outer_end (parenDepth - 1) (S i) t
      else if (parenDepth =? 0) && (ch =? cSpace)
              && existsb (fun k => has_prefix k (toUpper s)) outer_keywords
      then Some i
      else outer_end parenDepth (S i) t
  end.
Definition findOuterClauseEnd (sql : bytes) (startPos : nat) : nat :=
  default (length sql) (outer_end 0 startPos (drop startPos sql)).

Fixpoint outer_on (parenDepth : Z) (s : bytes) : bool :=
  match s with
  | [] => false
  | ch :: t =>
      if ch =? cLpar then outer_on (parenDepth + 1) t
      else if ch =? cRpar then outer_on (parenDepth - 1) t
      else if (parenDepth =? 0) && (ch =? cSpace) && (4 <? length s)%nat
              && has_prefix (str " ON ") (toUpper s)
      then true
      else outer_on parenDepth t
  end.
Definition hasOuterOnClause (fromClause : bytes) : bool := outer_on 0 fromClause.

Definition startsWithSelect (content : bytes) : bool :=
  has_prefix (str "SELECT") (toUpper (TrimSpace content)).

Definition leadingParens_step (result : bytes) : run (option bytes) :=
  if negb (holds_at (Z.eqb cLpar) result 0) then Ret None
  else
    let content := TrimSpace (drop 1 result) in
    if startsWithSelect content then Ret None
    else if negb (has_prefix [cDquote] content) then Ret None
    else match findMatchingParen result 0 with
         | None => Ret None
         | Some closeIdx =>
             tail <~~ slice_from result (closeIdx + 1);
             let afterClose := TrimSpace tail in
             if bytes_eqb afterClose [] || has_prefix [cComma] afterClose then
               innerContent <~~ slice result 1 closeIdx;
               Ret (Some (innerContent ++ tail))
             else Ret None
         end.
Definition removeLeadingTableGroupParens (fuel : nat) (s : bytes) : run bytes :=
  iter_loop fuel leadingParens_step (TrimSpace s).

Definition tableParens_step (st : bytes * nat) : run (option (bytes * nat)) :=
  let (result, i) := st in
  if (length result <=? i)%nat then Ret None
  else if holds_at (Z.eqb cLpar) result i then
    match findMatchingParen result i with
    | None => Ret (Some (result, S i))
    | Some closeIdx =>
        content <~~ slice result (i + 1) closeIdx;
        let contentTrimmed := TrimSpace content in
        if has_prefix [cDquote] contentTrimmed && negb (startsWithSelect contentTrimmed)
           && negb (Contains content [cLpar])
        then r <~~ splice result i content (closeIdx + 1); Ret (Some (r, i))
        else Ret (Some (result, S i))
    end
  else Ret (Some (result, S i)).
Definition removeTableParentheses (fuel : nat) (s : bytes) : run bytes :=
  st <~~ iter_loop fuel tableParens_step (s, O); Ret st.1.

Definition crossJoin_step (result : bytes) : run (option bytes) :=
  match index (str ") JOIN ") result with
  | None => Ret None
  | Some joinIdx => r <~~ splice result (joinIdx + 1) (str ",") (joinIdx + 6); Ret (Some r)
  end.
Definition fixCrossJoinInFromClause (fuel : nat) (fromClause : bytes) : run bytes :=
  result <~~ iter_loop fuel crossJoin_step fromClause;
  result <~~ removeLeadingTableGroupParens fuel result;
  removeTableParentheses fuel result.

Definition implicitJoin_step (fuel : nat) (result : bytes) (fromIdx : nat) : run step :=
  let fromClauseStart := (fromIdx + 5)%nat in
  let fromClauseEnd := findOuterClauseEnd result fromClauseStart in
  if (fromClauseEnd <=? fromClauseStart)%nat then Ret (Jump result (fromIdx + 5))
  else
    fromClause <~~ slice result fromClauseStart fromClauseEnd;
    fixed <~~ (if Contains fromClause (str ") JOIN ") && negb (hasOuterOnClause fromClause)
               then fixCrossJoinInFromClause fuel fromClause
               else Ret fromClause);
    fixed <~~ removeLeadingTableGroupParens fuel fixed;
    if bytes_eqb fixed fromClause then Ret (Jump result (fromIdx + 5))
    else r <~~ splice result fromClauseStart fixed fromClauseEnd; Ret (Jump r (fromIdx + 5)).

Definition fixImplicitCrossJoin (fuel : nat) (sql : bytes) : run bytes :=
  search_loop fuel toUpper (str "FROM ") (implicitJoin_step fuel) sql 0.

(** ** Lengths of integer types *)

Definition typeLength_step (typeName : bytes) (result : bytes) (idx : nat) : run step :=
  let next := (idx + length typeName)%nat in
  before <~~ word_starts result idx;
  after <~~ word_ends result next;
  if negb before || negb after then Ret (Jump result next)
  else
    let parenStart := skip_while is_blank result next in
    if negb (holds_at (Z.eqb cLpar) result parenStart) then Ret (Jump result next)
    else
      let i := skip_while is_blank result (skip_while digit result (parenStart + 1)) in
      if holds_at (Z.eqb cRpar) result i
      then r <~~ splice result parenStart [] (i + 1); Ret (Jump r next)
      else Ret (Jump result next).

Definition int_types : list bytes :=
  map str ["SMALLINT"; "INTEGER"; "BIGINT"; "INT"; "SERIAL"; "BIGSERIAL"]%string.

Fixpoint remove_lengths (fuel : nat) (l : list bytes) (sql : bytes) : run bytes :=
  match l with
  | [] => Ret sql
  | t :: l => r <~~ search_loop fuel toUpper t (typeLength_step t) sql 0; remove_lengths fuel l r
  end.
Definition removeUnsupportedTypeLengths (fuel : nat) (sql : bytes) : run bytes :=
  remove_lengths fuel int_types sql.

(** ** The whole pipeline *)

(** The part of [PostProcess] before the table options. *)
Definition preProcess (fuel : nat) (sql : bytes) : run bytes :=
  let sql := ReplaceAll sql [cBacktick] [cDquote] in
  sql <~~ convertTypes fuel sql;
  let sql := ReplaceAll sql (str " SIGNED") [] in
  let sql := ReplaceAll sql (str "UNIQUE KEY") (str "UNIQUE") in
  let sql := ReplaceAll sql (str "UNIQUE INDEX") (str "UNIQUE") in
  let sql := removeCharsetPrefixes sql in
  let sql := ReplaceAll sql (str "CURRENT_TIMESTAMP()") (str "CURRENT_TIMESTAMP") in
  let sql := ReplaceAll sql (str "CURRENT_DATE()") (str "CURRENT_DATE") in
  let sql := ReplaceAll sql (str "CURRENT_TIME()") (str "CURRENT_TIME") in
  sql <~~ convertIFFunction fuel sql;
  let sql := convertAutoIncrement sql in
  convertInsertNullToDefault fuel sql.

Definition PostProcess (fuel : nat) (sql : bytes) : run bytes :=
  sql <~~ preProcess fuel sql;
  sql <~~ removeTableOptions fuel sql;
  sql <~~ convertMatchAgainst fuel sql;
  sql <~~ convertMatchOperator fuel sql;
  sql <~~ convertLimitSyntax fuel sql;
  sql <~~ fixImplicitCrossJoin fuel sql;
  let sql := ReplaceAll sql (str "LAST_INSERT_ID()") (str "lastval()") in
  sql <~~ convertGroupConcat fuel sql;
  sql <~~ removeUnsupportedTypeLengths fuel sql;
  Ret (ReplaceAll sql (str " ZEROFILL") []).

(** [ConvertFunctionCall]. *)
Definition ConvertFunctionCall (funcName : bytes) (args : list bytes) : bytes :=
  let funcName := toLower funcName in
  let keep := toUpper funcName ++ str "(" ++ join (str ", ") args ++ str ")" in
  if bytes_eqb funcName (str "now") then str "CURRENT_TIMESTAMP"
  else if bytes_eqb funcName (str "curdate") then str "CURRENT_DATE"
  else if bytes_eqb funcName (str "curtime") then str "CURRENT_TIME"
  else if bytes_eqb funcName (str "ifnull") then
    match args with
    | [a; b] => str "COALESCE(" ++ a ++ str ", " ++ b ++ str ")"
    | _ => keep
    end
  else if bytes_eqb funcName (str "if") then
    match args with
    | [c; a; b] => str "CASE WHEN " ++ c ++ str " THEN " ++ a ++ str " ELSE " ++ b ++ str " END"
    | _ => keep
    end
  else keep.

End passes.

(** [removeIndexClauses] takes the index clauses out and leaves a column named
    after a keyword alone. *)
Example removeIndexClauses_example :
  @removeIndexClauses ascii_tables 6
    (str "CREATE TABLE t (a INT, UNIQUE KEY k (a), INDEX (a, b), key_no INT DEFAULT 0)")
  = Ret (str "CREATE TABLE t (a INT, key_no INT DEFAULT 0)").
Proof. vm_compute. reflexivity. Qed.
