(* ===== verification/SQLWords.v ===== *)
(** * Type names: [replaceWord] as a map over words

    [replaceWord] ([pkg/sqlrewrite/pg_generator.go]) searches a substring,
    checks the characters around it and edits the text in place.  The reference
    is a map over the words of the text, a word being a maximal run of letters,
    digits and underscores. *)

From Stdlib Require Import ZArith Lia.
From stdpp Require Import base numbers list strings.
From S2P Require Import Prelude GoStd GoStrings SQLText.
Open Scope Z_scope.

(** ** Words *)

Definition alnum_head (s : bytes) : bool := holds_at isAlphanumeric s 0.

Lemma alnum_head_cons c s : alnum_head (c :: s) = isAlphanumeric c.
Proof. done. Qed.

(** The words of a text, and every other character by itself. *)
Fixpoint tokens (s : bytes) : list bytes :=
  match s with
  | [] => []
  | c :: t =>
      match tokens t with
      | w :: l => if isAlphanumeric c && alnum_head w then (c :: w) :: l else [c] :: w :: l
      | [] => [[c]]
      end
  end.

Definition map_words (f : bytes -> bytes) (s : bytes) : bytes := concat (map f (tokens s)).

Definition is_word (w : bytes) : Prop := w <> [] /\ forallb isAlphanumeric w = true.

Lemma tokens_concat s : concat (tokens s) = s.
Proof.
  induction s as [|c s IH]; [done |]. simpl. destruct (tokens s) as [|w l]; simpl in *; [by subst |].
  destruct (_ && _); simpl; by rewrite <- IH.
Qed.

Lemma tokens_head s : match tokens s with w :: _ => alnum_head w = alnum_head s | [] => s = [] end.
Proof.
  destruct s as [|c s]; [done |]. simpl. destruct (tokens s) as [|w l]; [done |].
  by destruct (_ && _).
Qed.

(** ** The reference for a text that continues a word or not *)

Section replace.
Context (old new : bytes).
Hypothesis old_word : is_word old.
Hypothesis new_word : is_word new.

Definition swap (w : bytes) : bytes := if bytes_eqb w old then new else w.

Definition from_here (prev : bool) (s : bytes) : bytes :=
  match tokens s with
  | w :: l => (if prev && alnum_head w then w else swap w) ++ concat (map swap l)
  | [] => []
  end.

(** [old] is the first word of [s]. *)
Definition whole (s : bytes) : Prop := exists post, s = old ++ post /\ alnum_head post = false.

Lemma from_here_false s : from_here false s = map_words swap s.
Proof. unfold from_here, map_words. by destruct (tokens s). Qed.

Lemma swap_other c : isAlphanumeric c = false -> swap [c] = [c].
Proof.
  intros Hc. unfold swap, bytes_eqb. case_bool_decide as E; [|done].
  destruct old_word as [_ Ho]. rewrite <- E in Ho. simpl in Ho. by rewrite Hc in Ho.
Qed.

Lemma from_here_sep prev c s : isAlphanumeric c = false -> from_here prev (c :: s) = c :: from_here false s.
Proof.
  intros Hc. unfold from_here. simpl. destruct (tokens s) as [|w l]; simpl.
  - rewrite alnum_head_cons, Hc, andb_false_r. simpl. by rewrite swap_other.
  - rewrite Hc. simpl. by rewrite alnum_head_cons, Hc, andb_false_r, swap_other.
Qed.

Lemma from_here_in c s : isAlphanumeric c = true -> from_here true (c :: s) = c :: from_here true s.
Proof.
  intros Hc. unfold from_here. simpl. destruct (tokens s) as [|w l]; simpl.
  - by rewrite alnum_head_cons, Hc.
  - rewrite Hc. simpl. destruct (alnum_head w) eqn:Hw; simpl; by rewrite alnum_head_cons, Hc.
Qed.

Lemma tokens_word w post :
  is_word w -> alnum_head post = false -> tokens (w ++ post) = w :: tokens post.
Proof.
  intros [Hne Hw] Hp. induction w as [|c w IH]; [done |]. simpl in *.
  apply andb_true_iff in Hw as [Hc Hw]. destruct w as [|d w].
  - simpl. pose proof (tokens_head post) as Ht. destruct (tokens post) as [|v l]; [done |].
    by rewrite Ht, Hp, andb_false_r.
  - rewrite IH by done. rewrite Hc. simpl in Hw. apply andb_true_iff in Hw as [Hd _].
    by rewrite alnum_head_cons, Hd.
Qed.

Lemma from_here_whole prev s post :
  s = old ++ post -> alnum_head post = false -> prev = false -> from_here prev s = new ++ from_here true post.
Proof.
  intros -> Hp ->. unfold from_here at 1. rewrite tokens_word by done. simpl.
  unfold swap at 1, bytes_eqb. rewrite bool_decide_eq_true_2 by done. f_equal.
  unfold from_here. pose proof (tokens_head post) as Ht. destruct (tokens post) as [|v l]; [done |].
  by rewrite Ht, Hp.
Qed.

Lemma whole_tokens s w l : tokens s = w :: l -> w = old -> whole s.
Proof.
  intros Ht ->. exists (concat l). split.
  { rewrite <- (tokens_concat s), Ht. done. }
  destruct l as [|v l]; [done |].
  enough (alnum_head v = false) as Hv.
  { pose proof (tokens_concat s) as Hc. rewrite Ht in Hc. clear Hc.
    destruct v as [|x v]; [|done].
    exfalso. revert Ht. clear. generalize old. induction s as [|c s IH]; intros o; simpl; [done |].
    destruct (tokens s) as [|u k] eqn:E; [intros; simplify_eq |].
    destruct (_ && _); intros; simplify_eq; [by eapply IH |].
    destruct s; [done |]. simpl in E. destruct (tokens s); [simplify_eq |].
    destruct (_ && _); simplify_eq. }
  revert Ht. clear - old_word. destruct old_word as [Hne Hw]. clear old_word. revert s v l.
  generalize dependent old. intros o Hne Hw. 
  induction o as [|c o IH]; [done |]. intros s v l. destruct s as [|d s]; [done |]. simpl.
  simpl in Hw. apply andb_true_iff in Hw as [Hc Hw].
  destruct (tokens s) as [|u k] eqn:E; [done |].
  destruct (isAlphanumeric d && alnum_head u) eqn:Ed; intros; simplify_eq.
  - destruct o as [|c' o]; [|by eapply IH].
    exfalso. pose proof (tokens_head s) as Hh. rewrite E in Hh.
    apply andb_true_iff in Ed as [_ Ed]. done.
  - by rewrite Hc in Ed.
Qed.

Lemma from_here_other c s :
  isAlphanumeric c = true -> ~ whole (c :: s) -> from_here false (c :: s) = c :: from_here true s.
Proof.
  intros Hc Hn. destruct (tokens (c :: s)) as [|w l] eqn:Et.
  { pose proof (tokens_concat (c :: s)) as H. by rewrite Et in H. }
  assert (swap w = w) as Hs.
  { unfold swap, bytes_eqb. case_bool_decide; [|done]. destruct Hn. by eapply whole_tokens. }
  rewrite <- (from_here_in c s Hc). unfold from_here. rewrite Et, Hs.
  by destruct (true && alnum_head w).
Qed.

Lemma from_here_step prev c s :
  ~ (prev = false /\ whole (c :: s)) -> from_here prev (c :: s) = c :: from_here (isAlphanumeric c) s.
Proof.
  intros Hn. destruct (isAlphanumeric c) eqn:Hc; [|by apply from_here_sep].
  destruct prev; [by apply from_here_in |]. apply from_here_other; [done |]. intros Hw. by apply Hn.
Qed.

(** The character before the position after [a]. *)
Definition bound (prev : bool) (a : bytes) : bool := fold_left (fun _ c => isAlphanumeric c) a prev.

Lemma bound_app prev a b : bound prev (a ++ b) = bound (bound prev a) b.
Proof. apply fold_left_app. Qed.

Lemma bound_word prev w : is_word w -> bound prev w = true.
Proof.
  intros [Hne Hw]. revert prev Hne Hw. induction w as [|c w IH]; [done |]. intros prev _ Hw. simpl in *.
  apply andb_true_iff in Hw as [Hc Hw]. destruct w; [done | by apply IH].
Qed.

Lemma from_here_verbatim a : forall prev s,
  (forall a1 c a2, a = a1 ++ c :: a2 -> ~ (bound prev a1 = false /\ whole (c :: a2 ++ s))) ->
  from_here prev (a ++ s) = a ++ from_here (bound prev a) s.
Proof.
  induction a as [|c a IH]; intros prev s Hn; [done |]. simpl.
  rewrite from_here_step by apply (Hn [] c a eq_refl). f_equal.
  apply IH. intros a1 d a2 ->. apply (Hn (c :: a1) d a2 eq_refl).
Qed.

Lemma whole_occurs s : whole s -> occurs old s 0.
Proof. intros (post & -> & _). by exists [], post. Qed.

Lemma not_before pre post a1 c a2 :
  (forall j, (j < length pre)%nat -> ~ occurs old (pre ++ post) j) ->
  pre = a1 ++ c :: a2 -> ~ whole (c :: a2 ++ post).
Proof.
  intros Hn -> (b & E & _). apply (Hn (length a1)); [rewrite length_app; simpl; lia |].
  exists a1, b. split; [|done]. rewrite <- app_assoc. f_equal. done.
Qed.

(** ** The loop *)

Lemma word_starts_bound a b :
  word_starts (a ++ b) (length a) = Ret (negb (bound false a)).
Proof.
  unfold word_starts. destruct a as [|c a _] using rev_ind; [done |].
  rewrite length_app. simpl. replace (length a + 1 =? 0)%nat with false by (symmetry; apply Nat.eqb_neq; lia).
  unfold byte_at. replace (length a + 1 - 1)%nat with (length a) by lia.
  rewrite <- app_assoc. simpl. rewrite list_lookup_middle by done. simpl. by rewrite bound_app.
Qed.

Lemma word_ends_head a b : word_ends (a ++ b) (length a) = Ret (negb (alnum_head b)).
Proof.
  unfold word_ends. rewrite length_app. destruct b as [|c b]; simpl.
  - rewrite Nat.add_0_r, Nat.leb_refl. done.
  - replace (length a + S (length b) <=? length a)%nat with false by (symmetry; apply Nat.leb_gt; lia).
    unfold byte_at. by rewrite list_lookup_middle.
Qed.

Lemma replaceWord_step_at a post :
  replaceWord_step old new (a ++ old ++ post) (length a)
  = Ret (if negb (bound false a) && negb (alnum_head post)
         then Jump (a ++ new ++ post) (length (a ++ new))
         else Jump (a ++ old ++ post) (length (a ++ old))).
Proof using Type.
  unfold replaceWord_step. rewrite word_starts_bound. simpl.
  rewrite splice_mid. simpl. rewrite app_assoc, <- length_app, word_ends_head. simpl.
  rewrite !length_app. by destruct (_ && _).
Qed.

(** Between the occurrence found and the next position of the search there is
    no whole word [old] other than the occurrence itself. *)
Lemma verbatim_old prev pre post :
  (forall j, (j < length pre)%nat -> ~ occurs old (pre ++ old ++ post) j) ->
  ~ (bound prev pre = false /\ alnum_head post = false) ->
  from_here prev ((pre ++ old) ++ post) = (pre ++ old) ++ from_here true post.
Proof using old_word.
  intros Hno Hn. rewrite from_here_verbatim; [by rewrite bound_app, (bound_word _ old) |].
  intros a1 c a2 E [Hb Hw].
  destruct (decide (length a1 < length pre)%nat) as [Hl|Hl].
  - destruct Hw as (b & Eb & _). apply (Hno (length a1) Hl). exists a1, b. split; [|done].
    rewrite app_assoc, E, <- app_assoc. by f_equal.
  - apply app_eq_inv_ge in E as (o & -> & E); [|lia]. destruct o as [|x o].
    + rewrite app_nil_r in Hb. destruct Hw as (b & Eb & Hp). simpl in E.
      rewrite (app_comm_cons a2 post c), <- E in Eb. apply app_inv_head in Eb as ->. by apply Hn.
    + rewrite bound_app, bound_word in Hb; [done |]. destruct old_word as [_ Ho]. split; [done |].
      rewrite E, forallb_app in Ho. by apply andb_true_iff in Ho as [? _].
Qed.

Lemma replaceWord_loop n : forall done todo,
  (length todo < n)%nat ->
  search_loop n id old (replaceWord_step old new) (done ++ todo) (length done)
  = Ret (done ++ from_here (bound false done) todo).
Proof using old_word new_word.
  induction n as [|n IH]; intros dn todo Hn; [lia |]. cbn [search_loop].
  rewrite slice_from_app. simpl. unfold id at 1.
  assert (0 < length old)%nat by (destruct old_word as [Hne _]; destruct old; simpl; [done | lia]).
  destruct (index old todo) as [k|] eqn:Ek.
  - apply index_some in Ek as [(pre & post & -> & <-) Hno].
    rewrite !length_app in Hn. rewrite <- length_app, (app_assoc dn pre), replaceWord_step_at. simpl.
    rewrite bound_app.
    destruct (negb (bound (bound false dn) pre) && negb (alnum_head post)) eqn:Hc.
    + apply andb_true_iff in Hc as [Hb%negb_true_iff Hp%negb_true_iff].
      rewrite app_assoc, IH by lia. rewrite (bound_app _ _ new), (bound_word _ new new_word).
      rewrite (from_here_verbatim pre), Hb, (from_here_whole false (old ++ post) post) by
        (try done; intros a1 c a2 E [_ Hw]; by eapply not_before). by rewrite !app_assoc.
    + rewrite (app_assoc (dn ++ pre)), IH by lia.
      rewrite (bound_app _ _ old), (bound_word _ old old_word).
      rewrite (app_assoc pre old), verbatim_old; [by rewrite !app_assoc | done |].
      intros [E1 E2]. by rewrite E1, E2 in Hc.
  - pose proof (from_here_verbatim todo (bound false dn) []) as E. rewrite app_nil_r in E.
    rewrite E; [by rewrite app_nil_r |]. intros a1 c a2 -> [_ Hw]. rewrite app_nil_r in Hw.
    destruct Hw as (b & Eb & _). apply index_none with (k := length a1) in Ek. apply Ek.
    exists a1, b. split; [by f_equal | done].
Qed.

Lemma replaceWord_words n s :
  (length s < n)%nat -> replaceWord n s old new = Ret (map_words swap s).
Proof using old_word new_word.
  intros. unfold replaceWord. rewrite <- from_here_false. by apply (replaceWord_loop n []).
Qed.
End replace.

(** ** The type table of [convertTypes] *)

(** The type name that replaces a word. *)
Fixpoint lookup_word (l : list (bytes * bytes)) (w : bytes) : bytes :=
  match l with
  | [] => w
  | (old, new) :: l => if bytes_eqb w old then new else lookup_word l w
  end.
Definition retype : bytes -> bytes := lookup_word type_words.

(** A map that takes words to words and leaves other characters alone. *)
Definition word_map (f : bytes -> bytes) : Prop :=
  (forall w, is_word w -> is_word (f w)) /\ (forall c, isAlphanumeric c = false -> f [c] = [c]).

Lemma tokens_sep c s : isAlphanumeric c = false -> tokens (c :: s) = [c] :: tokens s.
Proof. intros Hc. simpl. rewrite Hc. by destruct (tokens s). Qed.

Lemma word_split s :
  s = [] \/ (exists c t, s = c :: t /\ isAlphanumeric c = false)
  \/ exists w post, s = w ++ post /\ is_word w /\ alnum_head post = false.
Proof.
  induction s as [|c s IH]; [by left | right]. destruct (isAlphanumeric c) eqn:Hc; [right | left; eauto].
  assert (Hw : forall post, alnum_head post = false -> s = post ->
            exists w post, c :: s = w ++ post /\ is_word w /\ alnum_head post = false).
  { intros post Hp ->. exists [c], post. repeat split; [done | | done]. simpl. by rewrite Hc. }
  destruct IH as [->|[(d & t & -> & Hd)|(w & post & -> & [Hne Hw'] & Hp)]].
  - by apply (Hw []).
  - by apply (Hw (d :: t)).
  - exists (c :: w), post. repeat split; [done | | done]. simpl. by rewrite Hc.
Qed.

(** Induction over the words of a text. *)
Lemma word_ind (P : bytes -> Prop) :
  P [] ->
  (forall c s, isAlphanumeric c = false -> P s -> P (c :: s)) ->
  (forall w s, is_word w -> alnum_head s = false -> P s -> P (w ++ s)) ->
  forall s, P s.
Proof.
  intros H0 H1 H2 s. induction s as [s IH] using (induction_ltof1 _ (@length Z)). unfold ltof in IH.
  destruct (word_split s) as [->|[(c & t & -> & Hc)|(w & post & -> & Hw & Hp)]]; [done | |].
  - apply H1; [done |]. apply IH. simpl. lia.
  - apply H2; [done.. |]. apply IH. rewrite length_app. destruct Hw as [Hne _].
    destruct w; simpl; [done | lia].
Qed.

Lemma map_words_sep f c s : word_map f -> isAlphanumeric c = false -> map_words f (c :: s) = c :: map_words f s.
Proof. intros [_ Hf] Hc. unfold map_words. rewrite tokens_sep by done. simpl. by rewrite Hf. Qed.

Lemma map_words_word f w s :
  is_word w -> alnum_head s = false -> map_words f (w ++ s) = f w ++ map_words f s.
Proof. intros. unfold map_words. by rewrite tokens_word. Qed.

Lemma map_words_head f s : word_map f -> alnum_head s = false -> alnum_head (map_words f s) = false.
Proof.
  intros Hf Hs. destruct s as [|c s]; [done |]. rewrite map_words_sep by done. done.
Qed.

Lemma tokens_map_words f s : word_map f -> tokens (map_words f s) = map f (tokens s).
Proof.
  intros Hf. pose proof Hf as [Hw Hc].
  induction s as [|c s Hs IH|w s Hw' Hs IH] using word_ind; [done | |].
  - rewrite map_words_sep, !tokens_sep by done. simpl. by rewrite Hc, IH.
  - rewrite map_words_word, !tokens_word by auto using map_words_head. simpl. by rewrite IH.
Qed.

Lemma map_words_compose f g s :
  word_map f -> map_words g (map_words f s) = map_words (fun w => g (f w)) s.
Proof. intros Hf. unfold map_words at 1. by rewrite tokens_map_words, map_map. Qed.

Lemma swap_word_map old new : is_word old -> is_word new -> word_map (swap old new).
Proof.
  intros Ho Hn. split; [|intros c; by apply swap_other].
  intros w Hw. unfold swap. by destruct (bytes_eqb w old).
Qed.

(** No replacement is itself replaced later in the list. *)
Fixpoint no_chain (l : list (bytes * bytes)) : Prop :=
  match l with
  | [] => True
  | (old, new) :: l => is_word old /\ is_word new /\ lookup_word l new = new /\ no_chain l
  end.

Lemma lookup_swap old new l w :
  lookup_word l new = new -> lookup_word l (swap old new w) = lookup_word ((old, new) :: l) w.
Proof. intros H. simpl. unfold swap. by destruct (bytes_eqb w old). Qed.

Lemma map_words_ext f g s : (forall w, f w = g w) -> map_words f s = map_words g s.
Proof. intros H. unfold map_words. f_equal. by apply map_ext. Qed.

Lemma map_words_id s : map_words id s = s.
Proof. unfold map_words. rewrite map_id. apply tokens_concat. Qed.

Lemma replace_words_table l : no_chain l -> forall s,
  exists N, forall n, (N <= n)%nat -> replace_words n l s = Ret (map_words (lookup_word l) s).
Proof.
  induction l as [|[old new] l IH]; intros Hl s.
  - exists O. intros n _. simpl. f_equal. symmetry. apply map_words_id.
  - destruct Hl as (Ho & Hn & Hc & Hl). destruct (IH Hl (map_words (swap old new) s)) as [N HN].
    exists (N + S (length s))%nat. intros n Hle. cbn [replace_words].
    rewrite replaceWord_words by (done || lia). cbn [run_bind]. rewrite HN by lia. f_equal.
    rewrite map_words_compose by by apply swap_word_map.
    apply map_words_ext. intros w. by apply lookup_swap.
Qed.

Lemma type_words_no_chain : no_chain type_words.
Proof. repeat split; try done. Qed.

(** C12: On a text without DOUBLE, [convertTypes] replaces each whole word that
    is a MySQL text, blob or JSON type name by its PostgreSQL name and changes
    nothing else: its ten in-place search-and-replace loops are one map over
    the words of the text, and they terminate. *)
Theorem convertTypes_words `{!Unicode} s :
  index (str "DOUBLE") (toUpper s) = None ->
  exists N, forall n, (N <= n)%nat -> convertTypes n s = Ret (map_words retype s).
Proof.
  intros Hd. destruct (replace_words_table type_words type_words_no_chain s) as [N HN].
  exists (S N). intros n Hn. unfold convertTypes, replaceDoubleType.
  rewrite search_none; [simpl; apply HN; lia | lia | lia | done].
Qed.

Lemma convertTypes_words_witness :
  let s := str "INSERT INTO LONGTEXT_log (json, BLOB1) VALUES ('JSON', BLOB)" in
  index (str "DOUBLE") (@toUpper ascii_tables s) = None
  /\ (exists N, forall n, (N <= n)%nat -> @convertTypes ascii_tables n s = Ret (map_words retype s))
  /\ map_words retype s = str "INSERT INTO LONGTEXT_log (jsonb, BLOB1) VALUES ('JSONB', BYTEA)".
Proof.
  assert (H : index (str "DOUBLE") (@toUpper ascii_tables
                (str "INSERT INTO LONGTEXT_log (json, BLOB1) VALUES ('JSON', BLOB)")) = None)
    by (vm_compute; reflexivity).
  split; [exact H |]. split; [exact (@convertTypes_words ascii_tables _ H) | vm_compute; reflexivity].
Defined.
