(* ===== verification/SQLLoops.v ===== *)
(** * Termination of the text passes

    Every pass of [PostProcess] is a loop over positions of a text it edits.
    This file proves that on ASCII text no pass ever indexes outside the text,
    that all passes but three always terminate, and that the three that mark a
    keyword by putting an [x] before it (which leaves the keyword in the text)
    run for ever as soon as they mark one. *)

From Stdlib Require Import ZArith Lia.
From stdpp Require Import base numbers list strings.
From S2P Require Import Prelude GoStd GoStrings SQLText SQLPasses.
Open Scope Z_scope.

Create HintDb ascii discriminated.

Lemma ascii_app2 a b : ascii a = true -> ascii b = true -> ascii (a ++ b) = true.
Proof. intros. rewrite ascii_app. by apply andb_true_iff. Qed.

Lemma ascii_rev s : ascii s = true -> ascii (rev s) = true.
Proof. unfold ascii. rewrite !forallb_forall. intros Hs c Hc. apply Hs. by apply in_rev. Qed.

Lemma trim_front_suffix len k s : exists a, s = a ++ trim_front len k s.
Proof.
  revert k; induction s as [|c s IH]; intros k; [by exists [] |]. simpl.
  destruct k as [|k].
  - destruct (len (c :: s)) as [|k]; [by exists [] |]. destruct (IH k) as [a Ha]. exists (c :: a). simpl. by f_equal.
  - destruct (IH k) as [a Ha]. exists (c :: a). simpl. by f_equal.
Qed.

(** [TrimSpace] returns a part of its argument. *)
Lemma TrimSpace_part s : exists a b, s = a ++ TrimSpace s ++ b.
Proof.
  unfold TrimSpace. destruct (trim_front_suffix space_len 0 s) as [a Ha].
  set (t := trim_front space_len 0 s) in *.
  destruct (trim_front_suffix space_len_rev 0 (rev t)) as [b Hb].
  exists a, (rev b). rewrite Ha at 1. f_equal.
  rewrite <- (rev_involutive t) at 1. rewrite Hb at 1. apply rev_app_distr.
Qed.

Lemma ascii_TrimSpace s : ascii s = true -> ascii (TrimSpace s) = true.
Proof.
  intros Hs. destruct (TrimSpace_part s) as (a & b & E). rewrite E, !ascii_app in Hs.
  by apply andb_true_iff in Hs as [_ [? _]%andb_true_iff].
Qed.

Lemma TrimSpace_length s : (length (TrimSpace s) <= length s)%nat.
Proof. destruct (TrimSpace_part s) as (a & b & E). rewrite E at 2. rewrite !length_app. lia. Qed.

#[export] Hint Resolve ascii_app2 ascii_take ascii_drop ascii_rev ascii_TrimSpace : ascii.
#[export] Hint Extern 9 (ascii _ = true) => reflexivity : ascii.

Lemma close_paren_bound n s k : close_paren n s = Some k -> (k < length s)%nat.
Proof.
  revert n k; induction s as [|c s IH]; intros n k; [done |]. simpl.
  destruct (c =? cLpar); [|destruct (c =? cRpar); [destruct n as [|[|n]] |]]; intros E;
    try (apply fmap_Some in E as (j & E & ->); apply IH in E; lia); simplify_eq; lia.
Qed.

Lemma findMatchingParen_bounds s i e :
  findMatchingParen s i = Some e -> (i < e < length s)%nat.
Proof.
  unfold findMatchingParen. destruct (holds_at _ s i) eqn:Hi; [|done].
  intros (k & Ek & ->)%fmap_Some. apply close_paren_bound in Ek. rewrite length_drop in Ek. lia.
Qed.

Lemma word_starts_ok r idx : (idx <= length r)%nat -> exists b, word_starts r idx = Ret b.
Proof.
  intros. unfold word_starts. destruct (idx =? 0)%nat eqn:E; [by eexists |]. apply Nat.eqb_neq in E.
  destruct (byte_at_ok r (idx - 1)) as (c & -> & _); [lia |]. simpl. by eexists.
Qed.

Lemma word_ends_ok r e : exists b, word_ends r e = Ret b.
Proof.
  unfold word_ends. destruct (length r <=? e)%nat eqn:E; [by eexists |]. apply Nat.leb_gt in E.
  destruct (byte_at_ok r e) as (c & -> & _); [lia |]. simpl. by eexists.
Qed.

(** ** Passes that return *)

(** With enough fuel the function returns, always the same ASCII text. *)
Definition returns (f : nat -> run bytes) : Prop :=
  exists N out, ascii out = true /\ (forall n, (N <= n)%nat -> f n = Ret out)
                /\ (forall n, run_le (f n) (Ret out)).

Definition total_pass (f : nat -> bytes -> run bytes) : Prop :=
  forall s, ascii s = true -> returns (fun n => f n s).

Lemma returns_ret s : ascii s = true -> returns (fun _ => Ret s).
Proof. intros. exists O, s. repeat split; [done | by right]. Qed.

Lemma returns_bind f g :
  returns f -> (forall s, ascii s = true -> returns (g s)) ->
  returns (fun n => run_bind (f n) (fun s => g s n)).
Proof.
  intros (N & s & Hs & HN & Hle) Hg. destruct (Hg s Hs) as (M & t & Ht & HM & Hle').
  exists (N + M)%nat, t. split; [done |]. split.
  - intros n Hn. rewrite HN by lia. simpl. apply HM. lia.
  - intros n. destruct (Hle n) as [->| ->]; [by left | apply Hle'].
Qed.

Lemma returns_mono f :
  (forall m n, (m <= n)%nat -> run_le (f m) (f n)) ->
  (exists m s, f m = Ret s /\ ascii s = true) -> returns f.
Proof.
  intros Hm (m & s & E & Hs).
  assert (HN : forall n, (m <= n)%nat -> f n = Ret s)
    by (intros n Hn; eapply run_le_ret; [by apply Hm | done]).
  exists m, s. repeat split; [done | done |]. intros n. rewrite <- (HN (m + n)%nat) by lia.
  apply Hm. lia.
Qed.

Section total.
Context `{!Unicode}.

Let ok (s : bytes) : Prop := ascii s = true.

(** A keyword search over ASCII text whose body moves on returns. *)
Lemma search_returns fold kw act s :
  (forall r p, ok r -> length (fold (drop p r)) = length (drop p r)) ->
  (forall r idx, ok r -> (idx + length kw <= length r)%nat ->
     act r idx = Ret Break \/
     exists r' p', act r idx = Ret (Jump r' p') /\ ok r' /\ (p' <= length r')%nat
                   /\ (length r' - p' < length r - idx)%nat) ->
  ok s -> returns (fun n => search_loop n fold kw act s 0).
Proof.
  intros Hf Hp Hs. apply returns_mono.
  { intros m n Hle. apply search_loop_mono; [done | by right]. }
  destruct (search_total ok fold kw act (fun r p => length r - p)%nat) with (n := S (length s)) (r := s) (p := O)
    as (out & E & Hout); [done | | done | lia | lia | by exists (S (length s)), out].
  intros r p idx Hr Hpi Hi. destruct (Hp r idx Hr Hi) as [E|(r' & p' & E & H1 & H2 & H3)]; [by left |].
  right. exists r', p'. repeat split; [done.. | lia].
Qed.

Lemma fold_upper_len r p : ok r -> length (toUpper (drop p r)) = length (drop p r).
Proof. intros. apply toUpper_length. by apply ascii_drop. Qed.

(** The two ways a body goes on: from a later position, or with a part of the
    text replaced. *)
Definition goes_on (r : bytes) (idx : nat) (x : run step) : Prop :=
  exists r' p', x = Ret (Jump r' p') /\ ok r' /\ (p' <= length r')%nat
                /\ (length r' - p' < length r - idx)%nat.

Lemma jump_on r idx p : ok r -> (idx < p <= length r)%nat -> goes_on r idx (Ret (Jump r p)).
Proof. intros. exists r, p. repeat split; [done | lia | lia]. Qed.

Lemma splice_on r i new j q idx :
  ok r -> ascii new = true -> (i <= length r)%nat -> (j <= length r)%nat ->
  (q <= i + length new + (length r - j))%nat ->
  (i + length new + (length r - j) - q < length r - idx)%nat ->
  goes_on r idx (run_bind (splice r i new j) (fun r => Ret (Jump r q))).
Proof.
  intros Hr Hn H1 H2 H3 H4. rewrite splice_ok by lia. simpl. eexists _, _. split; [done |].
  assert (E : length (take i r ++ new ++ drop j r) = (i + length new + (length r - j))%nat)
    by (rewrite !length_app, length_take, length_drop; lia).
  unfold ok in *. split; [by auto 6 with ascii |]. rewrite E. lia.
Qed.

Lemma splice_past r i new j idx :
  ok r -> ascii new = true -> (i <= length r)%nat -> (idx < j <= length r)%nat ->
  goes_on r idx (run_bind (splice r i new j) (fun r => Ret (Jump r (i + length new)))).
Proof. intros. apply splice_on; try done; lia. Qed.

Lemma replaceWord_returns old new :
  old <> [] -> ascii new = true -> total_pass (fun n s => replaceWord n s old new).
Proof.
  intros Ho Hn s Hs. apply search_returns; [done | | done]. intros r idx Hr Hi. right.
  assert (0 < length old)%nat by (destruct old; simpl; [done | lia]).
  unfold replaceWord_step.
  destruct (word_starts_ok r idx) as [b1 ->]; [lia |]. destruct (word_ends_ok r (idx + length old)) as [b2 ->].
  simpl. destruct (b1 && b2); [apply splice_past | apply jump_on]; auto; lia.
Qed.

Lemma replaceDoubleType_returns : total_pass replaceDoubleType.
Proof.
  intros s Hs. apply search_returns; [apply fold_upper_len | | done].
  intros r idx Hr Hi. right. simpl in Hi. unfold replaceDoubleType_step.
  pose proof (skip_while_bounds (Z.eqb cSpace) r (idx + 6)) as Hb.
  set (f := skip_while _ r _) in *.
  assert (exists b, (if (f + 9 <=? length r)%nat
                     then run_bind (slice r f (f + 9)) (fun w => Ret (bytes_eqb (toUpper w) (str "PRECISION")))
                     else Ret false) = Ret b /\ (b = true -> f + 9 <= length r)%nat) as (b & -> & Hf).
  { destruct (f + 9 <=? length r)%nat eqn:E; [apply Nat.leb_le in E | by eexists].
    rewrite slice_ok by lia. cbn [run_bind]. by eexists. }
  simpl. destruct b; [apply jump_on; auto; specialize (Hf eq_refl); lia |].
  destruct (word_starts_ok r idx) as [b1 ->]; [lia |]. destruct (word_ends_ok r (idx + 6)) as [b2 ->].
  simpl. destruct (b1 && b2); [apply splice_past | apply jump_on]; auto; lia.
Qed.

Lemma split_args_ascii d i c s a :
  ascii s = true -> In a (split_args d i c s) -> ascii a = true.
Proof.
  revert d i c a; induction s as [|x s IH]; intros d i c a Hs; simpl.
  - by intros [<-|[]].
  - simpl in Hs. apply andb_true_iff in Hs as [Hx Hs].
    assert (Hpush : forall l, (forall a, In a l -> ascii a = true) ->
              In a (match l with h :: r => (x :: h) :: r | [] => [[x]] end) -> ascii a = true).
    { intros [|h l] Hl; simpl.
      - intros [<-|[]]. simpl. by rewrite Hx.
      - intros [<-|Ha]; [|apply Hl; by right]. simpl. rewrite Hx. apply Hl. by left. }
    assert (Hrec : forall d i c a, In a (split_args d i c s) -> ascii a = true) by (intros; by eapply IH).
    destruct i; [by apply Hpush; intros; eapply Hrec |].
    destruct (is_quote x); [by apply Hpush; intros; eapply Hrec |].
    destruct (x =? cLpar); [by apply Hpush; intros; eapply Hrec |].
    destruct (x =? cRpar); [by apply Hpush; intros; eapply Hrec |].
    destruct (_ && _); [|by apply Hpush; intros; eapply Hrec].
    intros [<-|Ha]; [done | by eapply Hrec].
Qed.

Lemma convertIFFunction_returns : total_pass convertIFFunction.
Proof.
  intros s Hs. apply search_returns; [apply fold_upper_len | | done].
  intros r idx Hr Hi. right. simpl in Hi.
  assert (Hcall : goes_on r idx (convertIF_call r idx)).
  { unfold convertIF_call. destruct (isInString r idx); [apply jump_on; auto; lia |].
    destruct (findMatchingParen r (idx + 2)) as [e|] eqn:Ee; [|apply jump_on; auto; lia].
    apply findMatchingParen_bounds in Ee. rewrite slice_ok by lia. cbn [run_bind].
    set (content := take _ _).
    assert (Hargs : forall a, In a (splitFuncArgs content) -> ascii a = true).
    { intros a Ha. eapply split_args_ascii; [|done]. unfold content, ok in *. auto with ascii. }
    destruct (splitFuncArgs content) as [|x [|y [|z [|]]]]; try (apply jump_on; auto; lia).
    apply splice_past; [done | | lia..].
    assert (ascii x = true /\ ascii y = true /\ ascii z = true) as (? & ? & ?)
      by (repeat split; apply Hargs; simpl; auto). unfold case_expr. auto 12 with ascii. }
  unfold convertIF_step. destruct (0 <? idx)%nat eqn:E0; [|done]. apply Nat.ltb_lt in E0.
  destruct (byte_at_ok r (idx - 1)) as (c & -> & _); [lia |]. simpl.
  destruct (_ || _); [apply jump_on; auto; lia | done].
Qed.

Lemma convertLimitSyntax_returns : total_pass convertLimitSyntax.
Proof.
  intros s Hs. apply search_returns; [apply fold_upper_len | | done].
  intros r idx Hr Hi. right. simpl in Hi. unfold convertLimit_step.
  pose proof (skip_while_bounds is_blank r (idx + 5)) as H1. set (s1 := skip_while is_blank r (idx + 5)) in *.
  pose proof (skip_while_bounds digit r s1) as H2. set (e1 := skip_while digit r s1) in *.
  pose proof (skip_while_bounds is_blank r e1) as H3. set (i := skip_while is_blank r e1) in *.
  pose proof (skip_while_bounds is_blank r (i + 1)) as H4. set (s2 := skip_while is_blank r (i + 1)) in *.
  pose proof (skip_while_bounds digit r s2) as H5. set (e2 := skip_while digit r s2) in *.
  destruct (e1 =? s1)%nat; [apply jump_on; auto; lia |].
  rewrite slice_ok by lia. cbn [run_bind].
  destruct (holds_at _ r i) eqn:Hc; cbn [negb]; [apply holds_at_lt in Hc | apply jump_on; auto; lia].
  destruct (e2 =? s2)%nat; [apply jump_on; auto; lia |].
  rewrite slice_ok by lia. cbn [run_bind].
  apply splice_past; [done | | lia..]. unfold ok in *. auto 12 with ascii.
Qed.

Lemma convertGroupConcat_returns : total_pass convertGroupConcat.
Proof.
  intros s Hs. apply search_returns; [apply fold_upper_len | | done].
  intros r idx Hr Hi. right. cbn in Hi. unfold convertGroupConcat_step.
  pose proof (skip_while_bounds is_blank r (idx + 12)) as H1. set (o := skip_while is_blank r _) in *.
  destruct (holds_at _ r o) eqn:Ho; cbn [negb]; [apply holds_at_lt in Ho | apply jump_on; auto; lia].
  destruct (close_paren 1 _) as [k|] eqn:Ek; [|apply jump_on; auto; lia].
  apply close_paren_bound in Ek. rewrite length_drop in Ek.
  rewrite slice_ok by lia. cbn [run_bind]. set (content := take _ _).
  assert (Hc : ascii content = true) by (unfold content, ok in *; auto with ascii).
  assert (exists f, match index (str " SEPARATOR ") (toUpper content) with
    | Some i => run_bind (slice_to content i) (fun column =>
        run_bind (slice_from content (i + 11)) (fun separator =>
          Ret (str "string_agg(" ++ TrimSpace column ++ str ", " ++ TrimSpace separator ++ str ")")))
    | None => Ret (str "string_agg(" ++ TrimSpace content ++ str ", ',')")
    end = Ret f /\ ascii f = true) as (f & -> & Hf).
  { destruct (index _ _) as [i|] eqn:Ei.
    - apply index_bound in Ei. rewrite toUpper_length in Ei by done. cbn in Ei.
      rewrite slice_to_ok, slice_from_ok by lia. cbn [run_bind]. eexists. split; [done |]. auto 12 with ascii.
    - eexists. split; [done |]. auto 12 with ascii. }
  cbn [run_bind]. apply splice_past; [done | done | lia..].
Qed.

Lemma typeLength_returns t :
  t <> [] -> total_pass (fun n s => search_loop n toUpper t (typeLength_step t) s 0).
Proof.
  intros Ht s Hs. apply search_returns; [apply fold_upper_len | | done].
  intros r idx Hr Hi. right. assert (0 < length t)%nat by (destruct t; simpl; [done | lia]).
  unfold typeLength_step.
  destruct (word_starts_ok r idx) as [b1 ->]; [lia |]. destruct (word_ends_ok r (idx + length t)) as [b2 ->].
  cbn [run_bind]. destruct (_ || _); [apply jump_on; auto; lia |].
  pose proof (skip_while_bounds is_blank r (idx + length t)) as H1. set (o := skip_while is_blank r _) in *.
  destruct (holds_at _ r o) eqn:Ho; cbn [negb]; [apply holds_at_lt in Ho | apply jump_on; auto; lia].
  pose proof (skip_while_bounds digit r (o + 1)) as H2. set (j := skip_while digit r _) in *.
  pose proof (skip_while_bounds is_blank r j) as H3. set (i := skip_while is_blank r j) in *.
  destruct (holds_at _ r i) eqn:Hc; [apply holds_at_lt in Hc | apply jump_on; auto; lia].
  apply splice_on; [done | done | simpl; lia..].
Qed.

Lemma removeLengths_returns : total_pass removeUnsupportedTypeLengths.
Proof.
  intros s Hs. unfold removeUnsupportedTypeLengths.
  assert (Forall (fun t => t <> []) int_types) as Hl by by repeat constructor.
  revert s Hs. induction Hl as [|t l Ht Hl IH]; intros s Hs; cbn [remove_lengths].
  - by apply returns_ret.
  - apply (returns_bind _ (fun r n => remove_lengths n l r)); [by apply (typeLength_returns t) | done].
Qed.

Lemma option_end_bounds r p i : option_end r p = Some i -> (p <= length r)%nat -> (p < i <= length r)%nat.
Proof.
  unfold option_end. intros E Hp.
  pose proof (skip_while_bounds (Z.eqb cSpace) r p) as H1. set (a := skip_while _ r p) in *.
  destruct (holds_at _ r a) eqn:Ha; cbn [negb] in E; [|done]. apply holds_at_lt in Ha.
  pose proof (skip_while_bounds (Z.eqb cSpace) r (a + 1)) as H2. set (b := skip_while _ r (a + 1)) in *.
  simplify_eq. pose proof (skip_while_bounds
    (fun c => negb ((c =? cSpace) || (c =? cComma) || (c =? cSemi) || (c =? cRpar))) r b) as H3. lia.
Qed.

Lemma engine_returns : total_pass (fun n s => search_loop n toUpper (str "ENGINE") engine_step s 0).
Proof.
  intros s Hs. apply search_returns; [apply fold_upper_len | | done].
  intros r idx Hr Hi. right. cbn in Hi. unfold engine_step.
  destruct (isInString r idx); [apply jump_on; auto; lia |].
  destruct (option_end r (idx + 6)) as [i|] eqn:Ei; [|apply jump_on; auto; lia].
  apply option_end_bounds in Ei; [|lia]. apply splice_on; [done | done | simpl; lia..].
Qed.

Lemma ascii_replace old new k s : ascii new = true -> ascii s = true -> ascii (replace_from old new k s) = true.
Proof.
  intros Hn. revert k; induction s as [|c s IH]; intros k Hs; [done |]. simpl in *.
  apply andb_true_iff in Hs as [Hc Hs].
  destruct k as [|k]; [|by apply IH]. destruct (has_prefix _ _).
  - apply ascii_app2; auto.
  - simpl. rewrite Hc. by apply IH.
Qed.

Lemma ascii_ReplaceAll s old new : ascii new = true -> ascii s = true -> ascii (ReplaceAll s old new) = true.
Proof. apply ascii_replace. Qed.

Lemma op_scan_bounds lo : forall s n c i e cm,
  (lo <= i)%nat -> (forall x, c = Some x -> (lo <= x < i)%nat) ->
  op_scan n c i s = (Some e, Some cm) -> (lo <= cm < e /\ e < i + length s)%nat.
Proof.
  induction s as [|ch s IH]; intros n c i e cm Hlo Hc; [done |]. simpl.
  assert (Hrec : forall n c', (forall x, c' = Some x -> (lo <= x < S i)%nat) ->
            op_scan n c' (S i) s = (Some e, Some cm) -> (lo <= cm < e /\ e < i + S (length s))%nat).
  { intros n' c' Hc' E. apply IH in E; [lia | lia | done]. }
  assert (Hc' : forall x, c = Some x -> (lo <= x < S i)%nat) by (intros x Hx; apply Hc in Hx; lia).
  destruct (ch =? cLpar); [by apply Hrec |]. destruct (ch =? cRpar).
  - destruct n as [|[|n]]; [| |by apply Hrec]; intros; simplify_eq; specialize (Hc cm eq_refl); lia.
  - destruct (_ && _); [|by apply Hrec]. apply Hrec. intros x [= <-]. lia.
Qed.

Lemma convertMatchOperator_returns : total_pass convertMatchOperator.
Proof.
  intros s Hs. apply returns_mono.
  { intros m n Hle. apply search_loop_mono; [done | by right]. }
  exists (S (length s)).
  destruct (search_total ok id (str "@@(") convertMatchOperator_step (fun r _ => length r))
    with (n := S (length s)) (r := s) (p := O) as (out & E & Hout); [done | | done | lia | lia | by exists out].
  intros r p idx Hr Hp Hi. cbn in Hi. unfold convertMatchOperator_step.
  destruct (op_scan 1 None (idx + 3) _) as [[e|] [cm|]] eqn:E; [|by left..]. right.
  apply (op_scan_bounds (idx + 3)) in E; [|lia|done]. rewrite length_drop in E.
  rewrite !slice_ok by lia. cbn [run_bind]. rewrite splice_ok by lia. cbn [run_bind].
  set (a1 := take (cm - (idx + 3)) _). set (a2 := take (e - (cm + 1)) _).
  assert (H1 : (length a1 = cm - (idx + 3))%nat) by (unfold a1; rewrite length_take, length_drop; lia).
  assert (H2 : (length a2 = e - (cm + 1))%nat) by (unfold a2; rewrite length_take, length_drop; lia).
  pose proof (TrimSpace_length a1). pose proof (TrimSpace_length a2).
  eexists _, _. split; [done |]. split; [|split; [lia |]].
  - unfold a1, a2, ok in *. auto 12 with ascii.
  - rewrite !length_app, length_take, length_drop. simpl length. lia.
Qed.

Lemma null_to_default_ok r v e :
  ok r -> (v <= e < length r)%nat ->
  exists r' e', null_to_default r v e = Ret (r', e') /\ ok r'
    /\ (length r' + e = length r + e' /\ e' < length r')%nat.
Proof.
  intros Hr Hv. unfold null_to_default.
  destruct (v + 4 <=? e)%nat eqn:E; [apply Nat.leb_le in E | exists r, e; repeat split; auto; lia].
  rewrite slice_ok by lia. cbn [run_bind].
  destruct (_ && _); [|exists r, e; repeat split; auto; lia].
  rewrite splice_ok by lia. cbn [run_bind]. eexists _, _. split; [done |].
  rewrite !length_app, length_take, length_drop. simpl length. split; [|lia].
  unfold ok in *. auto 12 with ascii.
Qed.

Lemma index_byte_bound c s k : index_byte c s = Some k -> (k < length s)%nat.
Proof.
  revert k; induction s as [|x s IH]; intros k; [done |]. simpl.
  destruct (x =? c); [intros [= <-]; lia |]. intros (j & E & ->)%fmap_Some. apply IH in E. lia.
Qed.

Lemma insertNull_total n a :
  ok a.1 -> (length a.1 - a.2 < n)%nat -> exists out, iter_loop n insertNull_step a = Ret out /\ ok out.1.
Proof.
  apply (iter_total (fun a => ok a.1) insertNull_step (fun a => length a.1 - a.2)%nat). clear a.
  intros [r p] Hr. simpl in Hr. unfold insertNull_step.
  destruct (length r <=? p)%nat eqn:E; [by left | apply Nat.leb_gt in E].
  destruct (index_byte cLpar _) as [k|] eqn:Ek; [apply index_byte_bound in Ek | by left].
  rewrite length_drop in Ek.
  destruct (findMatchingParen r (p + k)) as [e|] eqn:Ee; [apply findMatchingParen_bounds in Ee | by left].
  right. pose proof (skip_while_bounds is_blank (take e r) (p + k + 1)) as Hv.
  rewrite length_take in Hv. set (v := skip_while _ (take e r) _) in *.
  destruct (null_to_default_ok r v e) as (r' & e' & -> & Hr' & Hl & He'); [done | lia |]. cbn [run_bind].
  eexists. split; [done |]. split; [done |]. simpl.
  pose proof (skip_while_bounds (fun c => negb (c =? cLpar) && negb (c =? cSemi)) r' (e' + 1)) as Hs. lia.
Qed.

Lemma convertInsertNull_returns : total_pass convertInsertNullToDefault.
Proof.
  intros s Hs. unfold convertInsertNullToDefault.
  destruct (has_prefix _ _); cbn [negb]; [|by apply returns_ret].
  destruct (index _ _) as [v|]; [|by apply returns_ret].
  destruct (holds_at _ _ _); cbn [negb]; [|by apply returns_ret].
  apply returns_mono.
  - intros m n Hle. apply run_bind_mono; [|by right]. apply iter_loop_mono; [done | by right].
  - edestruct (insertNull_total (S (length s)) (s, skip_while is_blank s (v + 6))) as (out & E & Hout);
      [done | simpl; lia |].
    exists (S (length s)), out.1. by rewrite E.
Qed.
End total.
#[export] Hint Resolve ascii_ReplaceAll : ascii.
