(* ===== verification/SQLTotal.v ===== *)
(** * When [PostProcess] returns

    The remaining passes of [PostProcess], its behaviour as a whole: on ASCII
    text it never panics, and it either returns or runs for ever; and the
    conditions under which it does the latter. *)

From Stdlib Require Import ZArith Lia.
From stdpp Require Import base numbers list strings.
From S2P Require Import Prelude GoStd GoStrings SQLText SQLPasses SQLLoops.
Open Scope Z_scope.

Section joins.
Context `{!Unicode}.

(** With fuel beyond the length of its input the pass returns a text that is
    not longer. *)
Definition shrinks (f : nat -> bytes -> run bytes) : Prop :=
  forall n s, ascii s = true -> (length s < n)%nat ->
  exists out, f n s = Ret out /\ ascii out = true /\ (length out <= length s)%nat.

Lemma shrinks_iter body :
  (forall a, ascii a = true -> body a = Ret None \/
     exists a', body a = Ret (Some a') /\ ascii a' = true /\ (length a' < length a)%nat) ->
  shrinks (fun n => iter_loop n body).
Proof.
  intros Hb n s Hs Hn.
  destruct (iter_total (fun a => ascii a = true /\ (length a <= length s)%nat) body (@length Z))
    with (n := n) (a := s) as (out & E & H1 & H2); [|done|done|by exists out].
  intros a [Ha Hl]. destruct (Hb a Ha) as [E|(a' & E & Ha' & Hl')]; [by left |].
  right. exists a'. repeat split; [done | done | lia | lia].
Qed.

Lemma shrinks_bind f g : shrinks f -> shrinks g -> shrinks (fun n s => run_bind (f n s) (g n)).
Proof.
  intros Hf Hg n s Hs Hn. destruct (Hf n s Hs Hn) as (t & -> & Ht & Hl). simpl.
  destruct (Hg n t Ht) as (u & E & Hu & Hl'); [lia |]. exists u. repeat split; [done | done | lia].
Qed.

Lemma crossJoin_shrinks : shrinks (fun n => iter_loop n crossJoin_step).
Proof.
  apply shrinks_iter. intros r Hr. unfold crossJoin_step.
  destruct (index _ r) as [j|] eqn:Ej; [right | by left]. apply index_bound in Ej. cbn in Ej.
  rewrite splice_ok by lia. cbn [run_bind]. eexists. split; [done |]. split; [auto 12 with ascii |].
  rewrite !length_app, length_take, length_drop. simpl length. lia.
Qed.

Lemma leadingParens_shrinks : shrinks removeLeadingTableGroupParens.
Proof.
  intros n s Hs Hn. unfold removeLeadingTableGroupParens. pose proof (TrimSpace_length s) as Ht.
  destruct (shrinks_iter leadingParens_step) with (n := n) (s := TrimSpace s) as (out & E & Ho & Hl);
    [| auto with ascii | lia | exists out; repeat split; [done | done | lia]].
  clear. intros r Hr. unfold leadingParens_step.
  destruct (holds_at _ r 0); cbn [negb]; [|by left].
  destruct (startsWithSelect _); [by left |]. destruct (has_prefix _ _); cbn [negb]; [|by left].
  destruct (findMatchingParen r 0) as [e|] eqn:Ee; [apply findMatchingParen_bounds in Ee | by left].
  rewrite slice_from_ok by lia. cbn [run_bind]. destruct (_ || _); [right | by left].
  rewrite slice_ok by lia. cbn [run_bind]. eexists. split; [done |]. split; [auto with ascii |].
  rewrite length_app, length_take, !length_drop. lia.
Qed.

Lemma tableParens_shrinks : shrinks removeTableParentheses.
Proof.
  intros n s Hs Hn. unfold removeTableParentheses.
  destruct (iter_total (fun a => ascii a.1 = true /\ (length a.1 <= length s)%nat) tableParens_step
              (fun a => length a.1 - a.2)%nat) with (n := n) (a := (s, O)) as ([out i] & E & H1 & H2);
    [|done|simpl; lia|rewrite E; by exists out].
  intros [r i] [Hr Hl]. simpl in Hr, Hl. unfold tableParens_step.
  destruct (length r <=? i)%nat eqn:Ei; [by left | right; apply Nat.leb_gt in Ei].
  assert (Hnext : exists a', Ret (Some (r, S i)) = Ret (Some a')
            /\ (ascii a'.1 = true /\ (length a'.1 <= length s)%nat)
            /\ (length a'.1 - a'.2 < length r - i)%nat)
    by (eexists; split; [done |]; simpl; repeat split; [done | lia | lia]).
  destruct (holds_at _ r i); [|done].
  destruct (findMatchingParen r i) as [e|] eqn:Ee; [apply findMatchingParen_bounds in Ee | done].
  rewrite slice_ok by lia. cbn [run_bind]. destruct (_ && _); [|done].
  rewrite splice_ok by lia. cbn [run_bind]. eexists. split; [done |]. simpl.
  rewrite !length_app, !length_take, !length_drop. repeat split; [auto 12 with ascii | lia | lia].
Qed.

Lemma fixCrossJoin_shrinks : shrinks fixCrossJoinInFromClause.
Proof.
  apply (shrinks_bind (fun n => iter_loop n crossJoin_step)); [apply crossJoin_shrinks |].
  apply shrinks_bind; [apply leadingParens_shrinks | apply tableParens_shrinks].
Qed.

Lemma outer_end_bounds d i s j : outer_end d i s = Some j -> (i <= j < i + length s)%nat.
Proof.
  revert d i; induction s as [|c s IH]; intros d i; [done |]. simpl.
  destruct (c =? cLpar); [intros E%IH; lia |]. destruct (c =? cRpar); [intros E%IH; lia |].
  destruct (_ && _); [intros [= <-]; lia | intros E%IH; lia].
Qed.

Lemma findOuterClauseEnd_bound s p : (findOuterClauseEnd s p <= length s)%nat.
Proof.
  unfold findOuterClauseEnd. destruct (outer_end _ _ _) as [j|] eqn:E; simpl; [|lia].
  apply outer_end_bounds in E. rewrite length_drop in E. lia.
Qed.

Lemma removeLeading_mono m n s :
  (m <= n)%nat -> run_le (removeLeadingTableGroupParens m s) (removeLeadingTableGroupParens n s).
Proof. intros. apply iter_loop_mono; [done | by right]. Qed.

Lemma implicitJoin_mono m n r i :
  (m <= n)%nat -> run_le (implicitJoin_step m r i) (implicitJoin_step n r i).
Proof.
  intros Hle. unfold implicitJoin_step. destruct (_ <=? _)%nat; [by right |].
  apply run_bind_mono; [by right | intros clause]. apply run_bind_mono.
  - destruct (_ && _); [|by right]. unfold fixCrossJoinInFromClause, removeTableParentheses.
    apply run_bind_mono; [apply iter_loop_mono; [done | by right] | intros x].
    apply run_bind_mono; [by apply removeLeading_mono | intros y].
    apply run_bind_mono; [apply iter_loop_mono; [done | by right] | by right].
  - intros fixed. apply run_bind_mono; [by apply removeLeading_mono | by right].
Qed.

Lemma fixImplicitCrossJoin_returns : total_pass fixImplicitCrossJoin.
Proof.
  intros s Hs. apply returns_mono.
  { intros m n Hle. apply search_loop_mono; [done |]. intros r i. by apply implicitJoin_mono. }
  exists (S (length s)).
  destruct (search_total (fun r => ascii r = true /\ (length r <= length s)%nat) toUpper (str "FROM ")
    (implicitJoin_step (S (length s))) (fun r p => length r - p)%nat)
    with (n := S (length s)) (r := s) (p := O) as (out & E & Hout & _);
    [| | done | lia | lia | by exists out].
  { intros r p [Hr _]. apply toUpper_length. by apply ascii_drop. }
  intros r p idx [Hr Hl] Hp Hi. cbn in Hi. right. unfold implicitJoin_step.
  pose proof (findOuterClauseEnd_bound r (idx + 5)) as He. set (e := findOuterClauseEnd _ _) in *.
  assert (Hjump : forall r', ascii r' = true -> (idx + 5 <= length r' <= length r)%nat ->
            exists r'' p', Ret (Jump r' (idx + 5)) = Ret (Jump r'' p')
              /\ (ascii r'' = true /\ (length r'' <= length s)%nat)
              /\ (p' <= length r'')%nat /\ (length r'' - p' < length r - p)%nat)
    by (intros r' Hr' Hb; eexists _, _; split; [done |]; repeat split; [done | lia | lia | lia]).
  destruct (e <=? idx + 5)%nat eqn:Ee; [apply Hjump; [done | lia] | apply Nat.leb_gt in Ee].
  rewrite slice_ok by lia. cbn [run_bind]. set (clause := take _ _).
  assert (Hc : ascii clause = true) by (unfold clause; auto with ascii).
  assert (Hcl : (length clause = e - (idx + 5))%nat) by (unfold clause; rewrite length_take, length_drop; lia).
  assert (exists x, (if Contains clause (str ") JOIN ") && negb (hasOuterOnClause clause)
     then fixCrossJoinInFromClause (S (length s)) clause else Ret clause) = Ret x
     /\ ascii x = true /\ (length x <= length clause)%nat) as (x & -> & Hx & Hxl).
  { destruct (_ && _); [|by exists clause]. apply fixCrossJoin_shrinks; [done | lia]. }
  cbn [run_bind]. destruct (leadingParens_shrinks (S (length s)) x) as (y & -> & Hy & Hyl); [done | lia |].
  cbn [run_bind]. destruct (bytes_eqb y clause); [apply Hjump; [done | lia] |].
  rewrite splice_ok by lia. cbn [run_bind]. apply Hjump; [auto 12 with ascii |].
  rewrite !length_app, length_take, length_drop. lia.
Qed.

(** ** The final clean-up of the table options *)

Lemma replace_length old new k s :
  (length new <= length old)%nat -> (0 < length old)%nat ->
  (length (replace_from old new k s) + Nat.min k (length s) <= length s)%nat.
Proof.
  intros Hl Ho. revert k; induction s as [|c s IH]; intros k; [simpl; lia |]. cbn [replace_from].
  destruct k as [|k]; [|specialize (IH k); simpl; lia].
  destruct (has_prefix old (c :: s)) eqn:E.
  - apply has_prefix_spec in E as [b E]. apply (f_equal length) in E. rewrite length_app in E. simpl in E.
    rewrite length_app. specialize (IH (length old - 1)%nat). simpl. lia.
  - specialize (IH O). simpl. lia.
Qed.

Lemma ReplaceAll_length s old new :
  (length new <= length old)%nat -> (0 < length old)%nat -> (length (ReplaceAll s old new) <= length s)%nat.
Proof. intros H1 H2. pose proof (replace_length old new 0 s H1 H2). unfold ReplaceAll. lia. Qed.

Lemma ReplaceAll_shrinks s old new :
  (length new < length old)%nat -> ReplaceAll s old new = s \/ (length (ReplaceAll s old new) < length s)%nat.
Proof.
  intros Hl. unfold ReplaceAll. induction s as [|c s IH]; [by left |]. cbn [replace_from].
  destruct (has_prefix old (c :: s)) eqn:E.
  - right. apply has_prefix_spec in E as [b E]. apply (f_equal length) in E. rewrite length_app in E. simpl in E.
    pose proof (replace_length old new (length old - 1) s). rewrite length_app. simpl. lia.
  - destruct IH as [IH|IH]; [left; by rewrite IH | right; simpl; lia].
Qed.

Lemma cleanup_shrinks : shrinks (fun n => iter_loop n cleanup_step).
Proof.
  apply shrinks_iter. intros r Hr. unfold cleanup_step.
  set (a := ReplaceAll r _ _). set (b := ReplaceAll a _ _).
  destruct (bytes_eqb b r) eqn:E; [by left | right]. exists b. split; [done |].
  split; [unfold b, a; auto with ascii |].
  destruct (ReplaceAll_shrinks r (str " )") (str ")")) as [H1|H1]; [simpl; lia | |];
    destruct (ReplaceAll_shrinks a (str ",)") (str ")")) as [H2|H2]; try (simpl; lia); fold a b in H1, H2.
  - rewrite H2, H1 in E. unfold bytes_eqb in E. by rewrite bool_decide_eq_true_2 in E.
  - rewrite H1 in H2. exact H2.
  - rewrite H2. exact H1.
  - lia.
Qed.

(** ** The passes before the table options *)

Lemma ascii_strip k s : ascii s = true -> ascii (strip_prefixes k s) = true.
Proof.
  revert k; induction s as [|c s IH]; intros k Hs; [done |]. cbn [strip_prefixes].
  simpl in Hs. apply andb_true_iff in Hs as [Hc Hs]. destruct k as [|k]; [|auto].
  destruct (if _ && _ then _ else _); [|auto]. simpl. rewrite Hc. by apply IH.
Qed.

Lemma ascii_removeCharsetPrefixes s : ascii s = true -> ascii (removeCharsetPrefixes s) = true.
Proof. intros. unfold removeCharsetPrefixes. destruct (negb _); [done | by apply ascii_strip]. Qed.

Lemma ascii_convertAutoIncrement s : ascii s = true -> ascii (convertAutoIncrement s) = true.
Proof. intros. unfold convertAutoIncrement. auto 12 with ascii. Qed.

Lemma convertTypes_returns : total_pass convertTypes.
Proof.
  intros s Hs. apply (returns_bind (fun n => replaceDoubleType n s) (fun r n => replace_words n type_words r)).
  { by apply replaceDoubleType_returns. }
  assert (Forall (fun p => p.1 <> [] /\ ascii p.2 = true) type_words) as Hl by by repeat constructor.
  clear s Hs. induction Hl as [|[old new] l [Ho Hn] Hl IH]; intros s Hs; cbn [replace_words].
  - by apply returns_ret.
  - apply (returns_bind (fun n => replaceWord n s old new) (fun r n => replace_words n l r)); [|done].
    by apply replaceWord_returns.
Qed.

Lemma preProcess_returns : total_pass preProcess.
Proof.
  intros s Hs. unfold preProcess.
  apply (returns_bind (fun n => convertTypes n _) (fun r n => run_bind (convertIFFunction n _) _)).
  { apply convertTypes_returns. auto with ascii. }
  intros r Hr.
  apply (returns_bind (fun n => convertIFFunction n _) (fun t n => convertInsertNullToDefault n _)).
  { apply convertIFFunction_returns. auto 12 using ascii_removeCharsetPrefixes with ascii. }
  intros t Ht. apply convertInsertNull_returns. by apply ascii_convertAutoIncrement.
Qed.

End joins.
