(* ===== verification/SQLDiverge.v ===== *)
(** * Loops of [PostProcess] that do not end

    [removeTableOptions] and [convertMatchAgainst] put an [x] in front of a
    keyword they want to leave alone and search again from the start: the
    keyword is found again one position later, for ever.  This file proves it,
    and that on ASCII text nothing else can go wrong. *)

From Stdlib Require Import ZArith Lia.
From stdpp Require Import base numbers list strings.
From S2P Require Import Prelude GoStd GoStrings SQLText SQLPasses SQLLoops SQLTotal.
Open Scope Z_scope.

(** A concrete character is not in a concrete text. *)
Ltac notin := refine (bool_decide_unpack _ _); vm_compute; exact I.

(** ** Marking a keyword *)

Lemma occurs_lookup kw s j i : occurs kw s j -> (i < length kw)%nat -> s !! (j + i)%nat = kw !! i.
Proof.
  intros (a & b & -> & <-) Hi. rewrite lookup_app_r by lia.
  replace (length a + i - length a)%nat with i by lia. by rewrite lookup_app_l.
Qed.

(** A keyword before an inserted character that is not part of it was there
    before the insertion. *)
Lemma occurs_before kw a c b b' j :
  c ∉ kw -> kw <> [] -> occurs kw (a ++ c :: b) j -> (j <= length a)%nat ->
  occurs kw (a ++ b') j /\ (j + length kw <= length a)%nat.
Proof.
  intros Hx Hne Ho Hj. destruct (decide (j + length kw <= length a)%nat) as [Hl|Hl].
  - split; [|done]. destruct Ho as (p & q & E & <-).
    rewrite app_assoc in E. symmetry in E.
    apply app_eq_inv_ge in E as (o & -> & _); [|by rewrite length_app].
    exists p, (o ++ b'). by rewrite <- !app_assoc.
  - destruct Hx. assert (kw !! (length a - j)%nat = Some c) as Hk.
    { rewrite <- (occurs_lookup kw _ j (length a - j) Ho) by lia.
      replace (j + (length a - j))%nat with (length a) by lia. by rewrite list_lookup_middle. }
    by apply list_elem_of_lookup_2 in Hk.
Qed.

Lemma index_mark kw c a b :
  c ∉ kw -> kw <> [] -> index kw (a ++ kw ++ b) = Some (length a) ->
  index kw (a ++ c :: kw ++ b) = Some (S (length a)).
Proof.
  intros Hc Hne [_ Hno]%index_some. apply index_some. split.
  - exists (a ++ [c]), b. rewrite <- app_assoc, length_app. simpl. split; [done | lia].
  - intros j Hj Ho. destruct (occurs_before kw a c (kw ++ b) (kw ++ b) j) as [Ho' Hl]; [done | done | done | lia |].
    apply (Hno j); [|done]. destruct kw; [done | simpl in Hl; lia].
Qed.

Section diverge.
Context `{!Unicode}.

(** The text around a marked keyword. *)
Lemma marked_text r i kw :
  ascii r = true -> index kw (toUpper r) = Some i ->
  (i + length kw <= length r)%nat
  /\ toUpper r = take i (toUpper r) ++ kw ++ drop (i + length kw) (toUpper r)
  /\ length (take i (toUpper r)) = i.
Proof.
  intros Hr Ei. pose proof (index_bound _ _ _ Ei) as Hb. rewrite toUpper_length in Hb by done.
  split; [done |]. split; [by apply index_split |]. rewrite length_take, toUpper_length by done. lia.
Qed.

Lemma toUpper_splice r i mark j :
  ascii r = true -> ascii mark = true ->
  toUpper (take i r ++ mark ++ drop j r) = take i (toUpper r) ++ toUpper mark ++ drop j (toUpper r).
Proof.
  intros Hr Hm. rewrite !toUpper_app by auto with ascii.
  by rewrite toUpper_take, toUpper_drop.
Qed.

Lemma marked_index r i kw c mark :
  ascii r = true -> ascii mark = true -> c ∉ kw -> kw <> [] -> toUpper mark = c :: kw ->
  index kw (toUpper r) = Some i ->
  index kw (toUpper (take i r ++ mark ++ drop (i + length kw) r)) = Some (S i).
Proof.
  intros Hr Hm Hc Hne Em Ei. destruct (marked_text r i kw Hr Ei) as (Hb & Hu & Ht).
  pose proof (index_mark kw c (take i (toUpper r)) (drop (i + length kw) (toUpper r)) Hc Hne) as Hk.
  rewrite <- Hu, Ht in Hk. rewrite toUpper_splice, Em by done. by apply Hk.
Qed.

Lemma drop_marked (r : bytes) i mark j k :
  (i <= length r)%nat -> k = (i + length mark)%nat -> drop k (take i r ++ mark ++ drop j r) = drop j r.
Proof.
  intros Hi ->. replace i with (length (take i r)) at 1 by (rewrite length_take; lia). apply drop_mid.
Qed.

(** There is no [=] after the keyword: it depends on the text after it only. *)
Lemma option_end_none r p :
  option_end r p = None <->
  holds_at (Z.eqb cEqual) (drop p r) (prefix_len (Z.eqb cSpace) (drop p r)) = false.
Proof.
  unfold option_end, skip_while, holds_at. rewrite lookup_drop.
  destruct (r !! _) as [c|]; [|done]. by destruct (61 =? c).
Qed.

(** ** COLLATE *)

(** The first COLLATE of the text is not followed by [=]. *)
Definition collate_hazard (r : bytes) : Prop :=
  ascii r = true /\ exists i, index (str "COLLATE") (toUpper r) = Some i /\ option_end r (i + 7) = None.

Lemma collate_hazard_step r :
  collate_hazard r -> exists r', collate_step r = Ret (Some r') /\ collate_hazard r'.
Proof.
  intros (Hr & i & Ei & Eo). destruct (marked_text r i (str "COLLATE") Hr Ei) as (Hb & _). cbn in Hb.
  unfold collate_step. rewrite Ei, Eo, splice_ok by lia. cbn [run_bind]. eexists. split; [done |].
  split; [auto 12 with ascii |]. exists (S i). split.
  - apply (marked_index r i (str "COLLATE") 88 (str "xCOLLATE")); try done.
    notin.
  - apply option_end_none. rewrite (drop_marked r i (str "xCOLLATE") (i + 7)); [|lia | simpl; lia].
    by apply option_end_none.
Qed.

Lemma collate_diverges r n : collate_hazard r -> iter_loop n collate_step r = NoFuel.
Proof. apply (iter_diverges collate_hazard). intros. by apply collate_hazard_step. Qed.

(** ** CHARSET *)

(** The first of CHARSET and CHARACTER SET is a CHARSET without [=]. *)
Definition charset_hazard (r : bytes) : Prop :=
  ascii r = true /\
  exists i, find_charset (toUpper r) = Some (i, str "CHARSET", str "xCHARSET") /\ option_end r (i + 7) = None.

Lemma find_charset_short u i :
  find_charset u = Some (i, str "CHARSET", str "xCHARSET") <->
  index (str "CHARSET") u = Some i
  /\ forall a, index (str "CHARACTER SET") u = Some a -> (i <= a)%nat.
Proof.
  unfold find_charset. destruct (index (str "CHARACTER SET") u) as [a|] eqn:Ea, (index (str "CHARSET") u) as [b|] eqn:Eb.
  - destruct (a <? b)%nat eqn:E; [apply Nat.ltb_lt in E | apply Nat.ltb_ge in E].
    + split; [intros; simplify_eq |]. intros [[= ->] H1]. specialize (H1 a eq_refl). lia.
    + split; [intros; simplify_eq | by intros [[= ->] _]]. split; [done |]. by intros ? [= <-].
  - split; [intros; simplify_eq | by intros [? _]].
  - split; [intros; simplify_eq | by intros [[= ->] _]]. done.
  - split; [done | by intros [? _]].
Qed.

(** Marking CHARSET brings no CHARACTER SET to the front. *)
Lemma charset_mark_front a b j :
  (forall k, (k < length a)%nat -> ~ occurs (str "CHARACTER SET") (a ++ str "CHARSET" ++ b) k) ->
  occurs (str "CHARACTER SET") (a ++ 88 :: str "CHARSET" ++ b) j -> (S (length a) <= j)%nat.
Proof.
  intros Hno Ho. destruct (decide (j <= length a)%nat) as [Hj|Hj]; [|lia]. exfalso.
  destruct (occurs_before (str "CHARACTER SET") a 88 (str "CHARSET" ++ b) (str "CHARSET" ++ b) j)
    as [Ho' Hl]; [notin | done | done | done |]. cbn in Hl. apply (Hno j); [lia | done].
Qed.

Lemma charset_start r idx :
  ascii r = true -> (idx <= length r)%nat ->
  exists st, (if (8 <=? idx)%nat
     then run_bind (slice r (idx - 8) idx) (fun prefix =>
            Ret (if bytes_eqb (toUpper (TrimSpace prefix)) (str "DEFAULT") then (idx - 8)%nat else idx))
     else Ret idx) = Ret st /\ (st <= idx)%nat.
Proof.
  intros Hr Hi. destruct (8 <=? idx)%nat eqn:E; [apply Nat.leb_le in E | by exists idx].
  rewrite slice_ok by lia. cbn [run_bind]. eexists. split; [done |]. destruct (bytes_eqb _ _); lia.
Qed.

Lemma charset_hazard_step r :
  charset_hazard r -> exists r', charset_step r = Ret (Some r') /\ charset_hazard r'.
Proof.
  intros (Hr & i & Ef & Eo). pose proof Ef as [Ei Hfirst]%find_charset_short.
  destruct (marked_text r i (str "CHARSET") Hr Ei) as (Hb & Hu & Ht). cbn in Hb.
  unfold charset_step. rewrite Ef. destruct (charset_start r i) as (st & -> & _); [done | lia |].
  cbn [run_bind]. change (length (str "CHARSET")) with 7%nat. rewrite Eo, splice_ok by lia.
  cbn [run_bind]. eexists. split; [done |]. split; [auto 12 with ascii |]. exists (S i). split.
  - apply find_charset_short. split.
    + apply (marked_index r i (str "CHARSET") 88 (str "xCHARSET")); try done. notin.
    + intros a [Ha _]%index_some. rewrite toUpper_splice in Ha by done.
      rewrite <- Ht. apply (charset_mark_front _ (drop (i + 7) (toUpper r))); [|exact Ha].
      intros k Hk Hoc. rewrite Ht in Hk. change (str "CHARSET" ++ drop (i + 7) (toUpper r))
        with (str "CHARSET" ++ drop (i + length (str "CHARSET")) (toUpper r)) in Hoc.
      rewrite <- Hu in Hoc.
      destruct (index (str "CHARACTER SET") (toUpper r)) as [a'|] eqn:Ea'.
      * specialize (Hfirst a' eq_refl). apply index_some in Ea' as [_ Hno]. apply (Hno k); [lia | done].
      * apply index_none with (k := k) in Ea'. done.
  - apply option_end_none. rewrite (drop_marked r i (str "xCHARSET") (i + 7)); [|lia | simpl; lia].
    by apply option_end_none.
Qed.

Lemma charset_diverges r n : charset_hazard r -> iter_loop n charset_step r = NoFuel.
Proof. apply (iter_diverges charset_hazard). intros. by apply charset_hazard_step. Qed.

(** ** MATCH *)

(** The first MATCH is left alone. *)
Definition match_hazard (st : bytes * bytes) : Prop :=
  length st.1 = length st.2 /\
  exists i, index (str "MATCH") st.2 = Some i /\ matchAgainst_action st.1 st.2 i = Ret MarkIt.

Section shift.
Context (r : bytes) (i : nat).
Hypothesis Hi : (i + 5 <= length r)%nat.

Definition marked : bytes := take i r ++ str "xMATCH" ++ drop (i + 5) r.

Lemma marked_length : length marked = S (length r).
Proof using Hi. unfold marked. rewrite !length_app, length_take, length_drop. simpl length. lia. Qed.

Lemma marked_drop k : (i + 5 <= k)%nat -> drop (S k) marked = drop k r.
Proof using Hi.
  intros Hk. replace (S k) with ((i + 6) + (k - (i + 5)))%nat by lia. rewrite <- drop_drop.
  unfold marked. rewrite (drop_marked r i (str "xMATCH") (i + 5)) by (simpl; lia).
  rewrite drop_drop. f_equal. lia.
Qed.

Lemma marked_lookup k : (i + 5 <= k)%nat -> marked !! S k = r !! k.
Proof using Hi.
  intros Hk. pose proof (f_equal (fun l : bytes => l !! O) (marked_drop k Hk)) as E. cbv beta in E.
  by rewrite !lookup_drop, !Nat.add_0_r in E.
Qed.

Lemma marked_holds p k : (i + 5 <= k)%nat -> holds_at p marked (S k) = holds_at p r k.
Proof using Hi. intros. unfold holds_at. by rewrite marked_lookup. Qed.

Lemma marked_skip p k : (i + 5 <= k)%nat -> skip_while p marked (S k) = S (skip_while p r k).
Proof using Hi. intros. unfold skip_while. by rewrite marked_drop. Qed.

Lemma marked_paren k : (i + 5 <= k)%nat -> findMatchingParen marked (S k) = S <$> findMatchingParen r k.
Proof using Hi.
  intros. unfold findMatchingParen. rewrite marked_holds by lia. destruct (holds_at _ r k); [|done].
  replace (S k + 1)%nat with (S (k + 1)) by lia. rewrite marked_drop by lia.
  by destruct (close_paren 1 _).
Qed.

Lemma marked_inString : isInString marked (S i) = isInString r i.
Proof using Hi.
  unfold isInString, marked.
  replace (take (S i) _) with (take i r ++ [120]); [|].
  - rewrite fold_left_app. simpl. set (l := fold_left _ _ _). unfold lex_step. by destruct (escaped l).
  - rewrite take_app_ge by (rewrite length_take; lia). rewrite length_take.
    replace (S i - i `min` length r)%nat with 1%nat by lia. done.
Qed.

Lemma marked_slice a b :
  (i + 5 <= a)%nat -> slice marked (S a) (S b) = slice r a b.
Proof using Hi.
  intros Ha. unfold slice. rewrite marked_length. change (S a <=? S b)%nat with (a <=? b)%nat.
  change (S b <=? S (length r))%nat with (b <=? length r)%nat. by rewrite marked_drop.
Qed.

Lemma marked_slice_from a : (i + 5 <= a)%nat -> slice_from marked (S a) = slice_from r a.
Proof using Hi. intros. unfold slice_from. rewrite marked_length. by apply marked_slice. Qed.
End shift.

Lemma against_shift r u i ps pe :
  (i + 5 <= length r)%nat -> length r = length u -> (i + 5 <= ps < pe)%nat ->
  against_action r u i ps pe = Ret MarkIt ->
  against_action (marked r i) (marked u i) (S i) (S ps) (S pe) = Ret MarkIt.
Proof.
  intros Hi Hl Hp. unfold against_action.
  replace (S ps + 1)%nat with (S (ps + 1)) by lia. rewrite marked_slice, marked_slice_from by lia.
  destruct (slice r (ps + 1) pe) as [columns| |]; [|done..]. cbn [run_bind].
  destruct (slice_from u pe) as [tail| |]; [|done..]. cbn [run_bind].
  destruct (index _ tail) as [k|]; [|done].
  replace (S pe + k + 7)%nat with (S (pe + k + 7)) by lia. rewrite marked_skip by lia.
  pose proof (Nat.le_add_r (pe + k + 7) (prefix_len (Z.eqb cSpace) (drop (pe + k + 7) r))) as Hs.
  fold (skip_while (Z.eqb cSpace) r (pe + k + 7)) in Hs.
  set (s := skip_while _ r _) in *. rewrite marked_holds by lia.
  destruct (holds_at _ r s); cbn [negb]; [|done]. rewrite marked_paren by lia.
  destruct (findMatchingParen r s) as [e|]; [|done]. cbn [fmap option_fmap option_map].
  destruct (slice r (s + 1) e) as [raw| |]; [|done..]. cbn [run_bind].
  destruct (match index _ _ with Some _ => _ | None => _ end) as [term| |]; [|done..]. cbn [run_bind].
  destruct (splice _ _ _ _); done.
Qed.

Lemma match_hazard_step st :
  match_hazard st -> exists st', convertMatch_step st = Ret (Some st') /\ match_hazard st'.
Proof.
  destruct st as [r u]. intros (Hl & i & Ei & Ea). cbn [fst snd] in *.
  pose proof (index_bound _ _ _ Ei) as Hb. cbn in Hb. rewrite <- Hl in Hb.
  cbn [convertMatch_step]. rewrite Ei, Ea. cbn [run_bind]. rewrite !splice_ok by lia. cbn [run_bind].
  eexists. split; [done |]. change (match_hazard (marked r i, marked u i)).
  split; cbn [fst snd]; [rewrite !marked_length; lia |]. exists (S i). split.
  - unfold marked. pose proof (index_split _ _ _ Ei) as Hu. cbn [str length] in Hu.
    pose proof (index_mark (str "MATCH") 120 (take i u) (drop (i + 5) u)) as Hk.
    rewrite length_take in Hk. replace (i `min` length u)%nat with i in Hk by lia.
    apply Hk; [notin | done |]. etransitivity; [|exact Ei]. f_equal. symmetry. exact Hu.
  - revert Ea. unfold matchAgainst_action. rewrite marked_inString by lia.
    destruct (isInString r i); [done |]. replace (S i + 5)%nat with (S (i + 5)) by lia.
    rewrite marked_skip by lia.
    pose proof (Nat.le_add_r (i + 5) (prefix_len (Z.eqb cSpace) (drop (i + 5) r))) as Hs.
    fold (skip_while (Z.eqb cSpace) r (i + 5)) in Hs. set (s := skip_while _ r _) in *.
    rewrite marked_holds by lia. destruct (holds_at _ r s); cbn [negb]; [|done].
    rewrite marked_paren by lia. destruct (findMatchingParen r s) as [e|] eqn:Ee; [|done].
    apply findMatchingParen_bounds in Ee. cbn [fmap option_fmap option_map]. apply against_shift; lia.
Qed.

Lemma match_diverges st n : match_hazard st -> iter_loop n convertMatch_step st = NoFuel.
Proof. apply (iter_diverges match_hazard). intros. by apply match_hazard_step. Qed.
End diverge.
