(* ===== verification/SQLSettles.v ===== *)
(** * [PostProcess] as a whole

    On ASCII text the generator's post-processing never panics and either
    returns one text or never returns; a COLLATE or CHARSET without [=], or a
    MATCH that is not a full-text expression, makes it never return. *)

From Stdlib Require Import ZArith Lia.
From stdpp Require Import base numbers list strings.
From S2P Require Import Prelude GoStd GoStrings SQLText SQLPasses SQLLoops SQLTotal SQLDiverge.
Open Scope Z_scope.
Open Scope go_scope.

(** ** Returning or not *)

Definition settles (f : nat -> run bytes) : Prop := returns f \/ forall n, f n = NoFuel.

Lemma settles_bind f g :
  settles f -> (forall s, ascii s = true -> settles (g s)) ->
  settles (fun n => run_bind (f n) (fun s => g s n)).
Proof.
  intros [(N & s & Hs & HN & Hle)|Hd] Hg; [|right; intros n; by rewrite Hd].
  destruct (Hg s Hs) as [(M & t & Ht & HM & Hle')|Hd].
  - left. exists (N + M)%nat, t. repeat split; [done | |].
    + intros n Hn. rewrite HN by lia. simpl. apply HM. lia.
    + intros n. destruct (Hle n) as [->| ->]; [by left | apply Hle'].
  - right. intros n. destruct (Hle n) as [->| ->]; [done | apply Hd].
Qed.

Lemma iter_settles {A} (ok : A -> Prop) (body : A -> run (option A)) (mu : A -> nat) :
  (forall a, ok a -> body a = Ret None
     \/ (exists a', body a = Ret (Some a') /\ ok a' /\ (mu a' < mu a)%nat)
     \/ forall n, iter_loop n body a = NoFuel) ->
  forall a, ok a ->
    (exists N out, ok out /\ iter_loop N body a = Ret out) \/ forall n, iter_loop n body a = NoFuel.
Proof.
  intros Hb a. induction a as [a IH] using (induction_ltof1 _ mu). unfold ltof in IH. intros Ha.
  destruct (Hb a Ha) as [E|[(a' & E & Ha' & Hm)|Hd]]; [| |by right].
  - left. exists 1%nat, a. cbn [iter_loop]. by rewrite E.
  - destruct (IH a' Hm Ha') as [(N & out & Ho & E')|Hd].
    + left. exists (S N), out. cbn [iter_loop]. by rewrite E.
    + right. intros [|n]; [done |]. cbn [iter_loop]. rewrite E. apply Hd.
Qed.

(** The same for a loop over texts. *)
Lemma iter_text_settles body mu s :
  (forall a, ascii a = true -> body a = Ret None
     \/ (exists a', body a = Ret (Some a') /\ ascii a' = true /\ (mu a' < mu a)%nat)
     \/ forall n, iter_loop n body a = NoFuel) ->
  ascii s = true -> settles (fun n => iter_loop n body s).
Proof.
  intros Hb Hs. destruct (iter_settles (fun a => ascii a = true) body mu Hb s Hs) as [(N & out & Ho & E)|Hd];
    [left | by right].
  apply returns_mono; [|by exists N, out]. intros m n Hle. apply iter_loop_mono; [done | by right].
Qed.

(** ** Counting characters *)

Definition count (p : Z -> bool) (s : bytes) : nat := length (List.filter p s).

Lemma count_app p a b : count p (a ++ b) = (count p a + count p b)%nat.
Proof. unfold count. by rewrite List.filter_app, length_app. Qed.

Lemma count_take_drop p n s : (count p (take n s) + count p (drop n s) = count p s)%nat.
Proof. rewrite <- count_app. by rewrite take_drop. Qed.

Lemma count_part p s t : (exists a b, s = a ++ t ++ b) -> (count p t <= count p s)%nat.
Proof. intros (a & b & ->). rewrite !count_app. lia. Qed.

Lemma count_Trim p s : (count p (TrimSpace s) <= count p s)%nat.
Proof. apply count_part, TrimSpace_part. Qed.

Lemma count_take_le p m n s : (m <= n)%nat -> (count p (take m s) <= count p (take n s))%nat.
Proof.
  intros H. apply count_part. exists [], (drop m (take n s)). simpl.
  rewrite <- (take_drop m (take n s)) at 1. by rewrite take_take, Nat.min_l.
Qed.

Lemma count_slice p i j s :
  (i <= j)%nat -> (count p (take i s) + count p (take (j - i) (drop i s)) = count p (take j s))%nat.
Proof.
  intros H. rewrite <- count_app, take_take_drop. do 2 f_equal. lia.
Qed.

Section settle.
Context `{!Unicode}.

(** ** COLLATE and CHARSET *)

Lemma collate_settles s : ascii s = true -> settles (fun n => iter_loop n collate_step s).
Proof.
  apply (iter_text_settles _ (@length Z)). intros r Hr.
  destruct (index (str "COLLATE") (toUpper r)) as [i|] eqn:Ei; [right | left; unfold collate_step; by rewrite Ei].
  destruct (option_end r (i + 7)) as [e|] eqn:Ee; [left | right].
  - destruct (marked_text r i (str "COLLATE") Hr Ei) as (Hb & _). cbn in Hb.
    unfold collate_step. rewrite Ei, Ee. apply option_end_bounds in Ee; [|lia].
    rewrite splice_ok by lia. cbn [run_bind]. eexists. split; [done |]. split; [auto 12 with ascii |].
    rewrite !length_app, length_take, length_drop. simpl. lia.
  - intros n. apply collate_diverges. split; [done | by exists i].
Qed.

Lemma find_charset_cases u :
  find_charset u = None
  \/ (exists i, find_charset u = Some (i, str "CHARSET", str "xCHARSET") /\ index (str "CHARSET") u = Some i)
  \/ (exists i, find_charset u = Some (i, str "CHARACTER SET", str "xCHARACTERxSETx")
                /\ index (str "CHARACTER SET") u = Some i).
Proof. unfold find_charset. repeat case_match; eauto 6. Qed.

Lemma upper_space c : (upper_byte c =? cSpace) = (c =? cSpace).
Proof. unfold upper_byte. destruct ((97 <=? c) && (c <=? 122)) eqn:E; [|done]. apply andb_true_iff in E as [E1%Z.leb_le E2%Z.leb_le]. destruct (c =? 32) eqn:E3; lia. Qed.

Lemma count_upper_space s : ascii s = true -> count (Z.eqb cSpace) (toUpper s) = count (Z.eqb cSpace) s.
Proof.
  intros Hs. rewrite toUpper_ascii by done. clear Hs. unfold count, ToUpper. induction s as [|c s IH]; [done |].
  cbn [map List.filter]. rewrite (Z.eqb_sym cSpace), upper_space, (Z.eqb_sym c).
  destruct (Z.eqb cSpace c); cbn [length]; by rewrite IH.
Qed.

(** The text at a keyword found in the upper-case text. *)
Lemma found_upper r i kw :
  ascii r = true -> index kw (toUpper r) = Some i -> toUpper (take (length kw) (drop i r)) = kw.
Proof.
  intros Hr Ei. rewrite toUpper_take, toUpper_drop by auto with ascii.
  apply index_some in Ei as [(a & b & -> & <-) _]. by rewrite drop_app_length, take_app_length.
Qed.

Definition charset_mu (r : bytes) : nat := (length r + 3 * count (Z.eqb cSpace) r)%nat.

Lemma charset_removed r st i j :
  (st <= i < j)%nat -> (j <= length r)%nat -> (charset_mu (take st r ++ drop j r) < charset_mu r)%nat.
Proof.
  intros H1 H2. unfold charset_mu. rewrite length_app, length_take, length_drop, count_app.
  pose proof (count_take_le (Z.eqb cSpace) st j r). pose proof (count_take_drop (Z.eqb cSpace) j r). lia.
Qed.

Lemma charset_marked r i :
  ascii r = true -> index (str "CHARACTER SET") (toUpper r) = Some i ->
  (charset_mu (take i r ++ str "xCHARACTERxSETx" ++ drop (i + 13) r) < charset_mu r)%nat.
Proof.
  intros Hr Ei. destruct (marked_text r i _ Hr Ei) as (Hb & _). cbn in Hb.
  assert (Hw : count (Z.eqb cSpace) (take 13 (drop i r)) = 1%nat).
  { rewrite <- count_upper_space by auto with ascii.
    pose proof (found_upper r i (str "CHARACTER SET") Hr Ei) as E. cbn [length str] in E. by rewrite E. }
  unfold charset_mu. rewrite !length_app, !count_app, length_take, length_drop.
  change (count (Z.eqb cSpace) (str "xCHARACTERxSETx")) with O. change (length (str "xCHARACTERxSETx")) with 15%nat.
  pose proof (count_slice (Z.eqb cSpace) i (i + 13) r). pose proof (count_take_drop (Z.eqb cSpace) (i + 13) r).
  replace (i + 13 - i)%nat with 13%nat in * by lia. lia.
Qed.

Lemma charset_settles s : ascii s = true -> settles (fun n => iter_loop n charset_step s).
Proof.
  apply (iter_text_settles _ charset_mu). intros r Hr.
  destruct (find_charset_cases (toUpper r)) as [Ef|[(i & Ef & Ei)|(i & Ef & Ei)]].
  - left. unfold charset_step. by rewrite Ef.
  - right. destruct (marked_text r i _ Hr Ei) as (Hb & _). cbn in Hb.
    destruct (option_end r (i + 7)) as [e|] eqn:Ee; [left | right].
    + unfold charset_step. rewrite Ef. destruct (charset_start r i) as (st & -> & Hst); [done | lia |].
      cbn [run_bind]. change (length (str "CHARSET")) with 7%nat. rewrite Ee.
      apply option_end_bounds in Ee; [|lia]. rewrite splice_ok by lia. cbn [run_bind].
      eexists. split; [done |]. split; [auto 12 with ascii |]. apply (charset_removed r st i e); lia.
    + intros n. apply charset_diverges. split; [done | by exists i].
  - right. left. destruct (marked_text r i _ Hr Ei) as (Hb & _). cbn in Hb.
    unfold charset_step. rewrite Ef. destruct (charset_start r i) as (st & -> & Hst); [done | lia |].
    cbn [run_bind]. change (length (str "CHARACTER SET")) with 13%nat.
    destruct (option_end r (i + 13)) as [e|] eqn:Ee.
    + apply option_end_bounds in Ee; [|lia]. rewrite splice_ok by lia. cbn [run_bind].
      eexists. split; [done |]. split; [auto 12 with ascii |]. apply (charset_removed r st i e); lia.
    + rewrite splice_ok by lia. cbn [run_bind]. eexists. split; [done |]. split; [auto 12 with ascii |].
      by apply charset_marked.
Qed.


Lemma removeTableOptions_settles s : ascii s = true -> settles (fun n => removeTableOptions n s).
Proof.
  intros Hs. unfold removeTableOptions.
  apply (settles_bind (fun n => search_loop n toUpper (str "ENGINE") engine_step s 0)
           (fun r n => run_bind (iter_loop n charset_step r) _)).
  { left. by apply engine_returns. }
  intros r Hr. apply (settles_bind (fun n => iter_loop n charset_step r)
           (fun r n => run_bind (iter_loop n collate_step _) _)); [by apply charset_settles |].
  intros t Ht. apply (settles_bind (fun n => iter_loop n collate_step _) (fun r n => iter_loop n cleanup_step _)).
  { apply collate_settles. auto with ascii. }
  intros u Hu. left. apply returns_mono.
  - intros m n Hle. apply iter_loop_mono; [done | by right].
  - set (v := ReplaceAll u _ _). destruct (cleanup_shrinks (S (length v)) v) as (out & E & Ho & _);
      [unfold v; auto with ascii | lia | by exists (S (length v)), out].
Qed.

(** ** MATCH: each rewriting removes an [h] *)

Definition is_h (c : Z) : bool := upper_byte c =? 72.

Lemma count_join sep l : count is_h sep = O -> count is_h (join sep l) = sum_list_with (count is_h) l.
Proof.
  intros Hs. induction l as [|x l IH]; [done |]. cbn [join sum_list_with].
  destruct l as [|y l]; [cbn; lia |]. rewrite !count_app, Hs, IH. lia.
Qed.

Lemma count_split s : (sum_list_with (count is_h) (split_on cComma s) <= count is_h s)%nat.
Proof.
  induction s as [|c s IH]; [done |]. cbn [split_on]. change (c :: s) with ([c] ++ s). rewrite count_app.
  destruct (c =? cComma).
  - cbn [sum_list_with]. change (count is_h []) with O. lia.
  - destruct (split_on cComma s) as [|h l]; cbn [sum_list_with] in *;
      [change (count is_h []) with O; lia |].
    change (c :: h) with ([c] ++ h). rewrite count_app. lia.
Qed.

Lemma count_join_columns s : (count is_h (joinColumnsWithConcat s) <= count is_h s)%nat.
Proof.
  unfold joinColumnsWithConcat. rewrite count_join by done.
  etransitivity; [|apply count_split].
  induction (split_on cComma s) as [|x l IH]; [done |]. cbn [map sum_list_with].
  pose proof (count_Trim is_h x). lia.
Qed.

Lemma ascii_split s : ascii s = true -> Forall (fun x => ascii x = true) (split_on cComma s).
Proof.
  induction s as [|c s IH]; intros Hs; [by repeat constructor |]. cbn [split_on].
  simpl in Hs. apply andb_true_iff in Hs as [Hc Hs]. specialize (IH Hs).
  destruct (c =? cComma); [by constructor |].
  destruct IH as [|h l Hh Hl]; constructor; try done; simpl; by rewrite Hc.
Qed.

Lemma ascii_join sep l :
  ascii sep = true -> Forall (fun x => ascii x = true) l -> ascii (join sep l) = true.
Proof.
  intros Hs. induction 1 as [|x l Hx Hl IH]; [done |]. cbn [join]. destruct l; [done |]. auto with ascii.
Qed.

Lemma ascii_join_columns s : ascii s = true -> ascii (joinColumnsWithConcat s) = true.
Proof.
  intros Hs. apply ascii_join; [done |]. apply ascii_split in Hs. induction Hs; constructor; auto with ascii.
Qed.

Lemma search_term content :
  ascii content = true ->
  exists t, match index (str " IN ") (toUpper content) with
            | Some idx => run_bind (slice_to content idx) (fun t => Ret (TrimSpace t))
            | None => Ret content
            end = Ret t /\ ascii t = true /\ (count is_h t <= count is_h content)%nat.
Proof.
  intros Hc. destruct (index _ _) as [i|] eqn:Ei; [|by exists content].
  apply index_bound in Ei. rewrite toUpper_length in Ei by done. rewrite slice_to_ok by lia. cbn [run_bind].
  eexists. split; [done |]. split; [auto with ascii |]. etransitivity; [apply count_Trim |].
  pose proof (count_take_drop is_h i content). lia.
Qed.

Lemma count_h_upper s : count is_h s = count (fun c => c =? 72) (ToUpper s).
Proof.
  unfold count, ToUpper, is_h. induction s as [|c s IH]; [done |]. cbn [map List.filter].
  destruct (upper_byte c =? 72); cbn [length]; by rewrite IH.
Qed.

Lemma found_h r i :
  ascii r = true -> index (str "MATCH") (toUpper r) = Some i ->
  (count is_h (take i r) + 1 <= count is_h (take (i + 5) r))%nat.
Proof.
  intros Hr Ei. pose proof (found_upper r i (str "MATCH") Hr Ei) as E. cbn [length str] in E.
  pose proof (count_slice is_h i (i + 5) r) as Hc. replace (i + 5 - i)%nat with 5%nat in Hc by lia.
  enough (1 <= count is_h (take 5 (drop i r)))%nat by lia.
  rewrite toUpper_ascii in E by auto with ascii. rewrite count_h_upper, E. vm_compute. lia.
Qed.

Lemma against_cases r i ps pe :
  ascii r = true -> index (str "MATCH") (toUpper r) = Some i -> (i + 5 <= ps < pe)%nat -> (pe < length r)%nat ->
  against_action r (toUpper r) i ps pe = Ret MarkIt
  \/ exists r', against_action r (toUpper r) i ps pe = Ret (RewriteTo r')
        /\ ascii r' = true /\ (count is_h r' < count is_h r)%nat.
Proof.
  intros Hr Ei Hp Hpe. unfold against_action.
  rewrite slice_ok by lia. cbn [run_bind]. rewrite slice_from_ok by (rewrite toUpper_length by done; lia).
  cbn [run_bind]. set (columns := take _ _).
  destruct (index _ (drop pe (toUpper r))) as [k|] eqn:Ek; [|by left].
  apply index_bound in Ek. rewrite length_drop, toUpper_length in Ek by done. cbn in Ek.
  pose proof (skip_while_bounds (Z.eqb cSpace) r (pe + k + 7)) as Hs. set (s := skip_while _ r _) in *.
  destruct (holds_at _ r s); cbn [negb]; [|by left].
  destruct (findMatchingParen r s) as [e|] eqn:Ee; [apply findMatchingParen_bounds in Ee | by left].
  rewrite slice_ok by lia. cbn [run_bind]. set (raw := take _ (drop (s + 1) r)).
  destruct (search_term (TrimSpace raw)) as (t & -> & Ht & Hct); [unfold raw; auto with ascii |].
  cbn [run_bind]. rewrite splice_ok by lia. cbn [run_bind]. right. eexists. split; [done |].
  assert (ascii columns = true) by (unfold columns; auto with ascii).
  split; [unfold ts_expr; auto 14 using ascii_join_columns with ascii |].
  unfold ts_expr. rewrite !count_app.
  change (count is_h (str "to_tsvector('simple', ")) with O.
  change (count is_h (str ") @@ to_tsquery('simple', ")) with O. change (count is_h (str ")")) with O.
  pose proof (count_join_columns columns). pose proof (count_Trim is_h raw). pose proof (found_h r i Hr Ei).
  assert (count is_h (take (ps + 1) r) + count is_h columns = count is_h (take pe r))%nat
    by (apply count_slice; lia).
  assert (count is_h (take (s + 1) r) + count is_h raw = count is_h (take e r))%nat
    by (apply count_slice; lia).
  pose proof (count_take_le is_h (i + 5) (ps + 1) r). pose proof (count_take_le is_h pe (s + 1) r).
  pose proof (count_take_le is_h e (e + 1) r). pose proof (count_take_drop is_h (e + 1) r).
  lia.
Qed.

Lemma convertMatch_settles s : ascii s = true -> settles (fun n => convertMatchAgainst n s).
Proof.
  intros Hs. unfold convertMatchAgainst.
  destruct (iter_settles (fun st => ascii st.1 = true /\ st.2 = toUpper st.1) convertMatch_step
              (fun st => count is_h st.1)) with (a := (s, toUpper s)) as [(N & out & [Ho _] & E)|Hd]; [|done| |].
  - intros [r u] [Hr Hu]. cbn [fst snd] in Hr, Hu. subst u.
    destruct (index (str "MATCH") (toUpper r)) as [i|] eqn:Ei; [|left; cbn [convertMatch_step]; by rewrite Ei].
    assert (Hmark : matchAgainst_action r (toUpper r) i = Ret MarkIt ->
              forall n, iter_loop n convertMatch_step (r, toUpper r) = NoFuel).
    { intros Ea n. apply match_diverges. split; cbn [fst snd]; [by rewrite toUpper_length | by exists i]. }
    destruct (marked_text r i _ Hr Ei) as (Hb & _). cbn in Hb.
    cbn [convertMatch_step]. rewrite Ei. revert Hmark. unfold matchAgainst_action.
    destruct (isInString r i); [by auto |].
    pose proof (skip_while_bounds (Z.eqb cSpace) r (i + 5)) as Hsk. set (p := skip_while _ r _) in *.
    destruct (holds_at _ r p); cbn [negb]; [|by auto].
    destruct (findMatchingParen r p) as [e|] eqn:Ee; [apply findMatchingParen_bounds in Ee | by auto].
    intros Hmark. destruct (against_cases r i p e) as [E|(r' & E & Hr' & Hc)]; try done; try lia; [by auto |].
    right. left. rewrite E. cbn [run_bind]. by exists (r', toUpper r').
  - left. apply returns_mono.
    + intros m n Hle. apply run_bind_mono; [|by right]. apply iter_loop_mono; [done | by right].
    + exists N. rewrite E. cbn [run_bind]. eexists. split; [done |]. auto with ascii.
  - right. intros n. by rewrite Hd.
Qed.

(** The passes after the three loops that may not return. *)
Definition last_passes (fuel : nat) (sql : bytes) : run bytes :=
  sql <~~ convertMatchOperator fuel sql;
  sql <~~ convertLimitSyntax fuel sql;
  sql <~~ fixImplicitCrossJoin fuel sql;
  let sql := ReplaceAll sql (str "LAST_INSERT_ID()") (str "lastval()") in
  sql <~~ convertGroupConcat fuel sql;
  sql <~~ removeUnsupportedTypeLengths fuel sql;
  Ret (ReplaceAll sql (str " ZEROFILL") []).

Lemma last_passes_return c : ascii c = true -> returns (fun n => last_passes n c).
Proof.
  intros Hc. unfold last_passes.
  apply (returns_bind (fun n => convertMatchOperator n c)
    (fun r n => run_bind (convertLimitSyntax n r) _)); [by apply convertMatchOperator_returns |]. intros d Hd.
  apply (returns_bind (fun n => convertLimitSyntax n d)
    (fun r n => run_bind (fixImplicitCrossJoin n r) _)); [by apply convertLimitSyntax_returns |]. intros e He.
  apply (returns_bind (fun n => fixImplicitCrossJoin n e)
    (fun r n => run_bind (convertGroupConcat n _) _)); [by apply fixImplicitCrossJoin_returns |]. intros f Hf.
  apply (returns_bind (fun n => convertGroupConcat n _)
    (fun r n => run_bind (removeUnsupportedTypeLengths n r) _)); [apply convertGroupConcat_returns; auto with ascii |].
  intros g Hg. apply (returns_bind (fun n => removeUnsupportedTypeLengths n g) (fun r n => Ret _));
    [by apply removeLengths_returns |]. intros h Hh. apply returns_ret. auto with ascii.
Qed.

(** C8: On ASCII text [PostProcess] never indexes outside the text it edits, and
    it either returns, with enough fuel always the same text, or it never
    returns, whatever the fuel. *)
Theorem PostProcess_settles sql :
  ascii sql = true ->
  (exists N out, ascii out = true /\ forall n, (N <= n)%nat -> PostProcess n sql = Ret out)
  \/ forall n, PostProcess n sql = NoFuel.
Proof.
  intros Hs. assert (settles (fun n => PostProcess n sql)) as [(N & out & Ho & HN & _)|Hd]; [|left; eauto | by right].
  unfold PostProcess.
  apply (settles_bind (fun n => preProcess n sql)
    (fun r n => run_bind (removeTableOptions n r) _)); [left; by apply preProcess_returns |]. intros a Ha.
  apply (settles_bind (fun n => removeTableOptions n a)
    (fun r n => run_bind (convertMatchAgainst n r) _)); [by apply removeTableOptions_settles |]. intros b Hb.
  apply (settles_bind (fun n => convertMatchAgainst n b) (fun r n => last_passes n r));
    [by apply convertMatch_settles |]. intros c Hc. left. by apply last_passes_return.
Qed.

Lemma returns_ret_unique f n t : returns f -> f n = Ret t -> forall m, run_le (f m) (Ret t).
Proof.
  intros (N & out & _ & _ & Hle) E m. destruct (Hle n) as [E'|E']; rewrite E in E'; simplify_eq. apply Hle.
Qed.

Lemma settles_ret_unique f n t : settles f -> f n = Ret t -> forall m, run_le (f m) (Ret t).
Proof. intros [Hr|Hd] E; [by eapply returns_ret_unique | by rewrite Hd in E]. Qed.

(** Without ENGINE, and with a CHARSET or a COLLATE that is not followed by [=],
    the table options are never done. *)
Lemma tableOptions_hang t :
  ascii t = true -> index (str "ENGINE") (toUpper t) = None ->
  charset_hazard t
  \/ (find_charset (toUpper t) = None /\ Contains t (str "xCHARACTERxSETx") = false /\ collate_hazard t) ->
  forall n, removeTableOptions n t = NoFuel.
Proof.
  intros Ht He Hz n. destruct n as [|n]; [done |]. unfold removeTableOptions.
  rewrite search_none; [|lia|lia|done]. cbn [run_bind].
  destruct Hz as [Hz|(Hf & Hx & Hz)]; [by rewrite charset_diverges |].
  replace (iter_loop (S n) charset_step t) with (Ret t); [|cbn [iter_loop]; unfold charset_step; by rewrite Hf].
  cbn [run_bind]. rewrite (ReplaceAll_none t (str "xCHARSET")).
  { rewrite ReplaceAll_none by by apply Contains_false. by rewrite collate_diverges. }
  apply index_upper_none; [done | done |].
  assert (E : index (str "CHARSET") (toUpper t) = None).
  { unfold find_charset in Hf. destruct (index (str "CHARACTER SET") (toUpper t)) as [x|],
      (index (str "CHARSET") (toUpper t)) as [y|]; try done. by destruct (x <? y)%nat. }
  rewrite index_none in E |- *. intros k (a & b & E' & Hk). apply (E (length (a ++ [88]))).
  exists (a ++ [88]), b. by rewrite E', <- app_assoc.
Qed.

(** C32: [PostProcess] never returns when, after its first passes, the text has a
    CHARSET or COLLATE that is not followed by [=] (a [COLLATE] in an ORDER BY
    or in a column definition), or a MATCH that is not a full-text expression
    (a column called [matches], the word in a string literal): the loop that
    wants to skip the keyword finds it again, for ever. *)
Theorem PostProcess_hangs sql t n :
  ascii sql = true -> preProcess n sql = Ret t -> ascii t = true ->
  (index (str "ENGINE") (toUpper t) = None
   /\ (charset_hazard t
       \/ (find_charset (toUpper t) = None /\ Contains t (str "xCHARACTERxSETx") = false /\ collate_hazard t)))
  \/ (exists u, removeTableOptions n t = Ret u /\ match_hazard (u, toUpper u)) ->
  forall m, PostProcess m sql = NoFuel.
Proof.
  intros Hs Hp Ht Hz m. unfold PostProcess.
  destruct (returns_ret_unique _ n t (preProcess_returns sql Hs) Hp m) as [->| ->]; [done |]. cbn [run_bind].
  destruct Hz as [[He Hz]|(u & Eu & Hz)]; [by rewrite tableOptions_hang |].
  destruct (settles_ret_unique _ n u (removeTableOptions_settles t Ht) Eu m) as [->| ->]; [done |]. cbn [run_bind].
  unfold convertMatchAgainst. by rewrite match_diverges.
Qed.

End settle.

Section witnesses.
#[local] Existing Instance ascii_tables.

Lemma PostProcess_settles_witness :
  (exists N out, ascii out = true /\
     forall n, (N <= n)%nat -> PostProcess n (str "SELECT `a` FROM `t` LIMIT 1,2") = Ret out)
  \/ forall n, PostProcess n (str "SELECT `a` FROM `t` LIMIT 1,2") = NoFuel.
Proof. apply PostProcess_settles. reflexivity. Defined.

Lemma PostProcess_hangs_witness :
  (forall m, PostProcess m (str "SELECT * FROM `t` ORDER BY `n` COLLATE utf8_bin") = NoFuel)
  /\ (forall m, PostProcess m (str "SELECT `matches` FROM `t`") = NoFuel)
  /\ (forall m, PostProcess m (str "INSERT INTO `t` VALUES ('no match')") = NoFuel).
Proof.
  split; [|split].
  - eapply (PostProcess_hangs _ _ 60); [reflexivity | vm_compute; reflexivity | reflexivity |].
    left. split; [reflexivity |]. right. split; [reflexivity |]. split; [reflexivity |].
    split; [reflexivity |]. eexists. split; vm_compute; reflexivity.
  - eapply (PostProcess_hangs _ _ 60); [reflexivity | vm_compute; reflexivity | reflexivity |].
    right. eexists. split; [vm_compute; reflexivity |]. split; [reflexivity |].
    eexists. split; vm_compute; reflexivity.
  - eapply (PostProcess_hangs _ _ 60); [reflexivity | vm_compute; reflexivity | reflexivity |].
    right. eexists. split; [vm_compute; reflexivity |]. split; [reflexivity |].
    eexists. split; vm_compute; reflexivity.
Defined.
End witnesses.
