(* ===== verification/SQLReturns.v ===== *)
(** * When post-processing returns

    A statement whose text, after the first passes of [PostProcess], has none
    of the five keywords the remaining loops look for in a row (ENGINE, CHARSET,
    CHARACTER SET, COLLATE, MATCH) is always post-processed to the end. *)

From Stdlib Require Import ZArith Lia.
From stdpp Require Import base numbers list strings.
From S2P Require Import Prelude GoStd GoStrings SQLText SQLPasses SQLLoops SQLTotal SQLDiverge SQLSettles.
Open Scope Z_scope.
Open Scope go_scope.

Section absent.
Context `{!Unicode}.

(** The keyword does not occur, in any case. *)
Definition absent (kw : bytes) (s : bytes) : Prop := index kw (ToUpper s) = None.

Lemma absent_upper kw s : ascii s = true -> index kw (toUpper s) = None <-> absent kw s.
Proof. intros Hs. unfold absent. by rewrite toUpper_ascii. Qed.

Lemma absent_cons kw c s :
  absent kw (c :: s) <-> has_prefix kw (ToUpper (c :: s)) = false /\ absent kw s.
Proof.
  unfold absent. change (ToUpper (c :: s)) with (upper_byte c :: ToUpper s). cbn [index].
  destruct (has_prefix kw (upper_byte c :: ToUpper s)); [by split; [|intros []] |].
  destruct (index kw (ToUpper s)); split; [done | by intros [] | done | done].
Qed.

(** ** Cleaning up before a closing parenthesis makes no keyword *)

Section cleanup.
Context (x : Z).
Definition tidy : nat -> bytes -> bytes := replace_from [x; cRpar] [cRpar].

Lemma tidy_prefix s : forall kw, cRpar ∉ kw ->
  has_prefix kw (ToUpper (tidy 0 s)) = true -> has_prefix kw (ToUpper s) = true.
Proof.
  induction s as [|c s IH]; intros kw Hk Hp; [done |]. destruct kw as [|k kw]; [done |].
  apply not_elem_of_cons in Hk as [Hk1 Hk2]. unfold tidy in Hp. cbn [replace_from] in Hp. fold (tidy 0 s) in Hp.
  destruct (has_prefix [x; cRpar] (c :: s)).
  - cbn in Hp. apply andb_true_iff in Hp as [E _]. by apply Z.eqb_eq in E.
  - cbn in Hp |- *. apply andb_true_iff in Hp as [-> Hp]. by apply IH.
Qed.

Lemma tidy_absent kw : cRpar ∉ kw -> forall n s, (length s < n)%nat -> absent kw s -> absent kw (tidy 0 s).
Proof.
  intros Hk n. induction n as [|n IH]; intros s Hn Hs; [lia |]. destruct s as [|c s]; [done |].
  pose proof (tidy_prefix (c :: s) kw Hk) as Hp. apply absent_cons in Hs as [H0 Hs].
  assert (Ht : has_prefix kw (ToUpper (tidy 0 (c :: s))) = false).
  { destruct (has_prefix kw (ToUpper (tidy 0 (c :: s)))); [|done]. by rewrite Hp in H0. }
  cbn [length] in Hn. revert Ht. unfold tidy. cbn [replace_from]. fold tidy.
  destruct (has_prefix [x; cRpar] (c :: s)) eqn:E; intros Ht; apply absent_cons; (split; [done |]).
  - destruct s as [|d s]; [by cbn in E; rewrite andb_false_r in E |]. cbn [length] in Hn.
    apply absent_cons in Hs as [_ Hs]. apply IH; [lia | done].
  - apply IH; [lia | done].
Qed.
End cleanup.

Lemma cleanup_absent kw n : forall s out, cRpar ∉ kw ->
  absent kw s -> iter_loop n cleanup_step s = Ret out -> absent kw out.
Proof.
  induction n as [|n IH]; intros s out Hk Hs; [done |]. cbn [iter_loop]. unfold cleanup_step.
  set (t := ReplaceAll _ _ _). cbn [run_bind]. destruct (bytes_eqb t s); [intros; by simplify_eq |].
  apply IH; [done |].
  eapply (tidy_absent cComma); [done | apply Nat.lt_succ_diag_r |].
  eapply (tidy_absent cSpace); [done | apply Nat.lt_succ_diag_r | done].
Qed.

(** ** The loops skip a text without their keywords *)

(** A text without a keyword has no longer one around it either. *)
Lemma absent_longer a kw b s : absent kw s -> absent (a ++ kw ++ b) s.
Proof.
  unfold absent. rewrite !index_none. intros Hn k (p & q & E & _). apply (Hn (length (p ++ a))).
  exists (p ++ a), (b ++ q). by rewrite E, <- !app_assoc.
Qed.

(** The mark of a keyword: replacing it back changes nothing. *)
Lemma unmark_absent a kw b new s :
  ascii s = true -> ascii (a ++ kw ++ b) = true -> toUpper (a ++ kw ++ b) = toUpper a ++ kw ++ toUpper b ->
  absent kw s -> ReplaceAll s (a ++ kw ++ b) new = s.
Proof.
  intros Hs Hk Hu Hn. apply ReplaceAll_none, index_upper_none; [done | done |].
  rewrite Hu. apply absent_upper; [done |]. by apply absent_longer.
Qed.

(** None of the words the three loops look for. *)
Definition no_keywords (t : bytes) : Prop :=
  Forall (fun kw => absent (str kw) t) ["ENGINE"; "CHARSET"; "CHARACTER"; "COLLATE"; "MATCH"]%string.

Lemma tableOptions_skipped t n :
  ascii t = true -> no_keywords t -> (0 < n)%nat -> removeTableOptions n t = iter_loop n cleanup_step t.
Proof.
  intros Ht Hk Hn. destruct n as [|n]; [lia |].
  unfold no_keywords in Hk. rewrite !Forall_cons in Hk. destruct Hk as (He & Hc & Hch & Hco & _).
  unfold removeTableOptions. rewrite search_none; [|lia | lia | by apply absent_upper]. cbn [run_bind].
  assert (Ef : find_charset (toUpper t) = None).
  { unfold find_charset. rewrite (proj2 (absent_upper (str "CHARACTER SET") t Ht)).
    - by rewrite (proj2 (absent_upper (str "CHARSET") t Ht)).
    - by apply (absent_longer [] (str "CHARACTER") (str " SET")). }
  cbn [iter_loop]. unfold charset_step at 1. rewrite Ef. cbn [run_bind].
  rewrite (unmark_absent (str "x") (str "CHARSET") [] _ t) by (try done; by rewrite toUpper_ascii).
  rewrite (unmark_absent (str "x") (str "CHARACTER") (str "xSETx") _ t) by (try done; by rewrite !toUpper_ascii).
  unfold collate_step at 1. rewrite (proj2 (absent_upper (str "COLLATE") t Ht)) by done. cbn [run_bind].
  by rewrite (unmark_absent (str "x") (str "COLLATE") [] _ t) by (try done; by rewrite toUpper_ascii).
Qed.

Lemma matchAgainst_skipped u n :
  ascii u = true -> absent (str "MATCH") u -> (0 < n)%nat -> convertMatchAgainst n u = Ret u.
Proof.
  intros Hu Hm Hn. destruct n as [|n]; [lia |]. unfold convertMatchAgainst. cbn [iter_loop convertMatch_step].
  rewrite (proj2 (absent_upper (str "MATCH") u Hu)) by done. cbn [run_bind fst].
  by rewrite (unmark_absent (str "x") (str "MATCH") [] _ u) by (try done; by rewrite toUpper_ascii).
Qed.

(** C7: The first passes of [PostProcess] return on every ASCII statement; when
    the text they leave has none of the words ENGINE, CHARSET, CHARACTER,
    COLLATE and MATCH, in any case, then [PostProcess] as a whole returns, with
    one text for every large enough amount of fuel. *)
Theorem PostProcess_returns sql :
  ascii sql = true ->
  exists N t, (forall n, (N <= n)%nat -> preProcess n sql = Ret t)
    /\ (no_keywords t ->
        exists M out, ascii out = true /\ forall n, (M <= n)%nat -> PostProcess n sql = Ret out).
Proof.
  intros Hs. destruct (preProcess_returns sql Hs) as (N & t & Ht & HN & _). exists N, t. split; [done |].
  intros Hk. destruct (cleanup_shrinks (S (length t)) t) as (u & Eu & Hu & _); [done | lia |].
  assert (Hm : absent (str "MATCH") u).
  { eapply cleanup_absent, Eu; [apply (bool_decide_unpack _); vm_compute; exact I |].
    by apply (proj1 (Forall_forall _ _) Hk "MATCH"%string), list_elem_of_In; cbn; auto 6. }
  destruct (last_passes_return u Hu) as (L & out & Ho & HL & _).
  exists (S (N + length t + L)), out. split; [done |]. intros n Hn. unfold PostProcess.
  rewrite HN by lia. cbn [run_bind]. rewrite tableOptions_skipped by (done || lia).
  replace (iter_loop n cleanup_step t) with (@Ret bytes u).
  - cbn [run_bind]. rewrite matchAgainst_skipped by (done || lia). apply HL. lia.
  - symmetry. eapply run_le_ret, Eu. apply iter_loop_mono; [lia | by right].
Qed.
End absent.

Lemma PostProcess_returns_witness :
  exists M out, ascii out = true
    /\ forall n, (M <= n)%nat -> @PostProcess ascii_tables n (str "SELECT IF(`a`,1,2) FROM `t` LIMIT 5,9") = Ret out.
Proof.
  destruct (@PostProcess_returns ascii_tables (str "SELECT IF(`a`,1,2) FROM `t` LIMIT 5,9") eq_refl)
    as (N & t & HN & Hr). apply Hr.
  assert (E : preProcess (N + 9) (str "SELECT IF(`a`,1,2) FROM `t` LIMIT 5,9") = Ret t) by (apply HN; lia).
  assert (E9 : exists u, @preProcess ascii_tables 9 (str "SELECT IF(`a`,1,2) FROM `t` LIMIT 5,9") = Ret u /\ no_keywords u).
  { eexists. split; [vm_compute; reflexivity |]. repeat constructor. }
  destruct E9 as (u & E9 & Hu). 
  assert (u = t) as <-; [|exact Hu].
  destruct (@preProcess_returns ascii_tables (str "SELECT IF(`a`,1,2) FROM `t` LIMIT 5,9") eq_refl) as (K & w & _ & _ & Hle).
  destruct (Hle 9%nat) as [E'|E']; rewrite E9 in E'; [done |]. destruct (Hle (N + 9)%nat) as [E''|E'']; rewrite E in E''; [done |].
  congruence.
Defined.
