(* ===== verification/Rewriter.v ===== *)
(** * The rewriter

    [pkg/sqlrewrite/rewriter.go] (the entry point, the textual fallback and the
    statement tests), [ast_rewriter_v3.go] (parse, transform, generate) and
    [stmt_parser.go] (KILL, SET, FLUSH and SELECT @@variable).

    The TiDB parser is not part of the sources: a type of statements with the
    class [SQLParser] of the calls made on it.  [Parse], [Accept] ([None]) and
    [Restore] may panic; [ASTRewriter.Rewrite] recovers from that. *)

From Stdlib Require Import ZArith Lia.
From stdpp Require Import base numbers list strings.
From S2P Require Import Prelude GoStd GoStrings SQLText SQLPasses.
Open Scope Z_scope.
Open Scope go_scope.

(** The error a visitor reports and its number of placeholders. *)
Record ASTVisitorState := mkVisitor { v_err : option bytes; placeholderIndex : Z }.
Definition ResetPlaceholders (v : ASTVisitorState) : ASTVisitorState := mkVisitor (v_err v) 0.

(** A node of a SET statement, of a SELECT list, and so on, as far as
    [stmt_parser.go] looks at it. *)
Inductive expr_view :=
| VariableExpr (name : bytes) (isSystem isGlobal : bool)
| OtherExpr (restored : res bytes).

Record VariableAssignment := mkAssign {
  va_Name : bytes; va_IsGlobal : bool; va_IsSystem : bool; va_Value : option expr_view }.

Inductive stmt_view :=
| KillStmt (connectionID : Z) (query : bool)
| SetStmt (variables : list VariableAssignment)
| FlushStmt (tp : Z)
| SelectStmt (from : bool) (fields : option (list (option expr_view)))
| OtherStmt.

Class SQLParser (Stmt : Type) := {
  Parse : bytes -> res (list Stmt);
  Accept : ASTVisitorState -> Stmt -> option (ASTVisitorState * Stmt);
  Restore : Stmt -> res bytes;
  view : Stmt -> stmt_view
}.

Section rewriter.
Context `{!Unicode} {Stmt : Type} `{!SQLParser Stmt}.

(** ** [ASTRewriter] *)

Record ASTRewriter := mkAST { visitor : ASTVisitorState; ast_enabled : bool }.
Definition NewASTRewriter : ASTRewriter := mkAST (mkVisitor None 0) true.
Definition Enable (r : ASTRewriter) : ASTRewriter := mkAST (visitor r) true.
Definition Disable (r : ASTRewriter) : ASTRewriter := mkAST (visitor r) false.
Definition IsEnabled (r : ASTRewriter) : bool := ast_enabled r.

(** [matchCharsetPrefix] and [preProcessCharsetPrefixes] of the AST rewriter:
    the same loop as the generator's. *)
Fixpoint ast_matchCharsetPrefix (prefixes : list bytes) (s : bytes) : nat :=
  match prefixes with
  | [] => O
  | p :: l => if prefix_applies s p then length p else ast_matchCharsetPrefix l s
  end.
Fixpoint ast_strip (skip : nat) (sql : bytes) : bytes :=
  match sql, skip with
  | [], _ => []
  | _ :: t, S k => ast_strip k t
  | c :: t, O =>
      if (c =? cUnderscore) && (2 <? length sql)%nat
         && (0 <? ast_matchCharsetPrefix charset_prefixes sql)%nat
      then ast_strip (ast_matchCharsetPrefix charset_prefixes sql - 1) t
      else c :: ast_strip 0 t
  end.
Definition preProcessCharsetPrefixes (sql : bytes) : bytes :=
  if negb (Contains sql [cUnderscore]) then sql else ast_strip 0 sql.

(** [Generate] and [GenerateWithPlaceholders]. *)
Definition Generate (stmt : Stmt) : res bytes :=
  match Restore stmt with
  | Err m => Err (str "failed to restore AST to SQL: " ++ m)
  | r => r
  end.
Definition GenerateWithPlaceholders (stmt : Stmt) : res (bytes * Z) :=
  sql <~ Generate stmt; Ok (convertPlaceholders sql).

(** A panic between here and the return is recovered: [recovered] is the error
    the deferred function builds. *)
Definition recovered {A} : res A := Err (str "parser panic: ").

Definition recovering {A} (r : run (res A)) : run (res A) :=
  match r with
  | Crash => Ret recovered
  | Ret Panic => Ret recovered
  | r => r
  end.

(** Steps 1 to 4 of [Rewrite].  The visitor's state is not kept across calls:
    the counter is reset, and no method of the visitor sets the error. *)
Definition ast_pipeline (fuel : nat) (v : ASTVisitorState) (sql : bytes) : run (res bytes) :=
  match Parse (preProcessCharsetPrefixes sql) with
  | Panic => Crash
  | Err m => Ret (Err (str "failed to parse SQL: " ++ m))
  | Ok [] => Ret (Err (str "no statements found in SQL"))
  | Ok (stmt :: _) =>
      match Accept (ResetPlaceholders v) stmt with
      | None => Crash
      | Some (v', stmt') =>
          match v_err v' with
          | Some m => Ret (Err (str "AST transformation failed: " ++ m))
          | None =>
              match GenerateWithPlaceholders stmt' with
              | Panic => Crash
              | Err m => Ret (Err (str "SQL generation failed: " ++ m))
              | Ok (pgSQL, _) => pgSQL <~~ PostProcess fuel pgSQL; Ret (Ok pgSQL)
              end
          end
      end
  end.

Definition ast_Rewrite (fuel : nat) (r : ASTRewriter) (sql : bytes) : run (res bytes) :=
  if negb (ast_enabled r) then Ret (Ok sql) else recovering (ast_pipeline fuel (visitor r) sql).

(** [RewriteBatch]. *)
Fixpoint RewriteBatch_from (fuel : nat) (r : ASTRewriter) (i : Z) (sqls : list bytes)
    : run (res (list bytes)) :=
  match sqls with
  | [] => Ret (Ok [])
  | sql :: rest =>
      x <~~ ast_Rewrite fuel r sql;
      match x with
      | Ok rewritten =>
          y <~~ RewriteBatch_from fuel r (i + 1) rest;
          Ret (l <~ y; Ok (rewritten :: l))
      | Err m => Ret (Err (str "failed to rewrite statement " ++ dec_Z i ++ str ": " ++ m))
      | Panic => Crash
      end
  end.
Definition RewriteBatch (fuel : nat) (r : ASTRewriter) (sqls : list bytes) : run (res (list bytes)) :=
  RewriteBatch_from fuel r 0 sqls.

(** ** [Rewriter] *)

Record Rewriter := mkRewriter {
  enabled : bool;
  astRewriter : option ASTRewriter;
  debugTiming : bool;
  slowThreshold : Z
}.
Definition NewRewriter (enabled : bool) : Rewriter :=
  mkRewriter enabled (Some NewASTRewriter) false (100 * 1000000).
Definition EnableDebugTiming (threshold : Z) (r : Rewriter) : Rewriter :=
  mkRewriter (enabled r) (astRewriter r) true (if 0 <? threshold then threshold else slowThreshold r).
Definition DisableDebugTiming (r : Rewriter) : Rewriter :=
  mkRewriter (enabled r) (astRewriter r) false (slowThreshold r).

Definition stripTiDBSyntax (sql : bytes) : bytes :=
  ReplaceAll (ReplaceAll sql (str " CLUSTERED ") (str " ")) (str " NONCLUSTERED ") (str " ").

(** [removeCharsetPrefixes] of the fallback: the first prefix of the list that
    matches at this position is skipped. *)
Fixpoint first_prefix (prefixes : list bytes) (s : bytes) : option nat :=
  match prefixes with
  | [] => None
  | p :: l => if prefix_applies s p then Some (length p) else first_prefix l s
  end.
Fixpoint r_strip (skip : nat) (sql : bytes) : bytes :=
  match sql with
  | [] => []
  | c :: t =>
      match skip with
      | S k => r_strip k t
      | O =>
          match (if (c =? cUnderscore) && (2 <? length sql)%nat
                 then first_prefix charset_prefixes sql else None) with
          | Some n => r_strip (n - 1) t
          | None => c :: r_strip 0 t
          end
      end
  end.
Definition r_removeCharsetPrefixes (sql : bytes) : bytes :=
  if negb (Contains sql [cUnderscore]) then sql else r_strip 0 sql.

(** [convertPlaceholders] of the fallback: a doubled quote inside a string
    stays inside it; backslashes have no meaning. *)
Fixpoint r_placeholders (inString : bool) (stringChar : Z) (paramNum : Z) (sql : bytes) : bytes :=
  match sql with
  | [] => []
  | c :: t =>
      if negb inString && is_quote c then c :: r_placeholders true c paramNum t
      else if inString && (c =? stringChar) then
        match t with
        | d :: t' =>
            if d =? stringChar then c :: c :: r_placeholders true stringChar paramNum t'
            else c :: r_placeholders false stringChar paramNum t
        | [] => c :: r_placeholders false stringChar paramNum t
        end
      else if negb inString && (c =? cQmark) then
        cDollar :: dec_Z (paramNum + 1) ++ r_placeholders inString stringChar (paramNum + 1) t
      else c :: r_placeholders inString stringChar paramNum t
  end.
Definition r_convertPlaceholders (sql : bytes) : bytes :=
  if negb (Contains sql [cQmark]) then sql else r_placeholders false 0 0 sql.

Definition fastPathRewrite (sql : bytes) : bytes :=
  r_convertPlaceholders (r_removeCharsetPrefixes (ReplaceAll sql [cBacktick] [cDquote])).

Definition Rewrite (fuel : nat) (r : Rewriter) (sql : bytes) : run (res bytes) :=
  if negb (enabled r) then Ret (Ok sql)
  else
    let sql := stripTiDBSyntax (TrimSpace sql) in
    match astRewriter r with
    | Some a =>
        x <~~ ast_Rewrite fuel a sql;
        match x with
        | Ok rewritten => Ret (Ok rewritten)
        | _ => Ret (Ok (fastPathRewrite sql))
        end
    | None => Ret (Ok sql)
    end.

(** The number after a [$], and the highest one in the text. *)
Fixpoint number_at (num : Z) (s : bytes) : Z :=
  match s with
  | c :: t => if digit c then number_at (swrap 64 (num * 10 + (c - 48))) t else num
  | [] => num
  end.
Fixpoint count_params (paramCount : Z) (s : bytes) : Z :=
  match s with
  | [] => paramCount
  | c :: t =>
      let paramCount :=
        if (c =? cDollar) && holds_at digit t 0 then Z.max paramCount (number_at 0 t) else paramCount in
      count_params paramCount t
  end.

Definition RewritePrepared (fuel : nat) (r : Rewriter) (sql : bytes) : run (res (bytes * Z)) :=
  x <~~ Rewrite fuel r sql;
  Ret (rewritten <~ x; Ok (rewritten, count_params 0 rewritten)).

(** ** Statement tests *)

Definition upperSQL (sql : bytes) : bytes := toUpper (TrimSpace sql).

Definition IsShowStatement (sql : bytes) : bool :=
  let u := upperSQL sql in
  has_prefix (str "SHOW ") u || has_prefix (str "DESCRIBE ") u || has_prefix (str "DESC ") u.
Definition IsSetStatement (sql : bytes) : bool := has_prefix (str "SET ") (upperSQL sql).
Definition IsUseStatement (sql : bytes) : bool := has_prefix (str "USE ") (upperSQL sql).
Definition IsBeginStatement (sql : bytes) : bool :=
  let u := upperSQL sql in
  bytes_eqb u (str "BEGIN") || bytes_eqb u (str "START TRANSACTION")
  || has_prefix (str "BEGIN ") u || has_prefix (str "START TRANSACTION ") u.
Definition IsCommitStatement (sql : bytes) : bool :=
  let u := upperSQL sql in bytes_eqb u (str "COMMIT") || has_prefix (str "COMMIT ") u.
Definition IsRollbackStatement (sql : bytes) : bool :=
  let u := upperSQL sql in bytes_eqb u (str "ROLLBACK") || has_prefix (str "ROLLBACK ") u.

(** ** [StmtParser] *)

Record KillInfo := mkKill { ConnectionID : Z; QueryOnly : bool }.
Record SetVarInfo := mkSetVar { sv_Name : bytes; sv_Value : bytes; sv_IsGlobal : bool; sv_IsSystem : bool }.
Record SelectVarInfo := mkSelectVar { VarName : bytes; selIsGlobal : bool }.

(** The first statement of the text, [None] when it does not parse. *)
Definition first_stmt (sql : bytes) : res (option stmt_view) :=
  match Parse sql with
  | Panic => Panic
  | Ok (s :: _) => Ok (Some (view s))
  | _ => Ok None
  end.

Definition ParseKill (sql : bytes) : res (option KillInfo) :=
  s <~ first_stmt sql;
  Ok match s with Some (KillStmt id q) => Some (mkKill id q) | _ => None end.

Definition exprToString (e : expr_view) : res bytes :=
  match e with
  | VariableExpr name _ _ => Ok name
  | OtherExpr (Ok r) => Ok (Trim r [cQuote; cDquote])
  | OtherExpr (Err _) => Ok []
  | OtherExpr Panic => Panic
  end.

Fixpoint set_vars (l : list VariableAssignment) : res (list SetVarInfo) :=
  match l with
  | [] => Ok []
  | v :: l =>
      value <~ match va_Value v with Some e => exprToString e | None => Ok [] end;
      rest <~ set_vars l;
      Ok (mkSetVar (va_Name v) value (va_IsGlobal v) (va_IsSystem v) :: rest)
  end.
(** A nil slice (not a SET, or a SET of no variable) is [None]. *)
Definition ParseSet (sql : bytes) : res (option (list SetVarInfo)) :=
  s <~ first_stmt sql;
  match s with
  | Some (SetStmt vars) => l <~ set_vars vars; Ok (match l with [] => None | _ => Some l end)
  | _ => Ok None
  end.

Definition ParseFlush (sql : bytes) : res (option Z) :=
  s <~ first_stmt sql;
  Ok match s with Some (FlushStmt tp) => Some tp | _ => None end.

Definition ParseSelectVariable (sql : bytes) : res (option SelectVarInfo) :=
  s <~ first_stmt sql;
  Ok match s with
     | Some (SelectStmt false (Some [Some (VariableExpr name true isGlobal)])) =>
         Some (mkSelectVar name isGlobal)
     | _ => None
     end.

End rewriter.
