(* ===== verification/RewriterFacts.v ===== *)
(** * Placeholders and the fallback of the rewriter

    What the two placeholder converters do, that they agree, that the parameter
    count told to the client is the number of placeholders, and that the
    rewriter turns every failure of its parser into the textual fallback. *)

From Stdlib Require Import ZArith Lia.
From stdpp Require Import base numbers list strings.
From S2P Require Import Prelude GoStd GoStrings SQLText SQLPasses Rewriter.
Open Scope Z_scope.

(** ** The reference: the statement as a sequence of pieces *)

(** Inside a literal: an ordinary character, a backslash with the character
    it escapes, or the quote written twice. *)
Inductive inner := InChar (c : Z) | InEscape (c : Z) | InDouble.
(** A statement is made of ordinary characters, placeholder marks, characters
    escaped with a backslash and quoted literals; it ends there, or in a lone
    backslash, or in a literal that is never closed (and that may end in a
    lone backslash itself). *)
Inductive piece := Plain (c : Z) | Mark | Escape (c : Z) | Literal (q : Z) (body : list inner).
Inductive ending := Complete | Dangling | Unclosed (q : Z) (body : list inner) (dangling : bool).
Definition reading : Type := list piece * ending.

Definition inner_text (q : Z) (i : inner) : bytes :=
  match i with InChar c => [c] | InEscape c => [cBackslash; c] | InDouble => [q; q] end.
Definition body_text (q : Z) (body : list inner) : bytes := concat (map (inner_text q) body).
Definition piece_text (p : piece) : bytes :=
  match p with
  | Plain c => [c]
  | Mark => [cQmark]
  | Escape c => [cBackslash; c]
  | Literal q body => q :: body_text q body ++ [q]
  end.
Definition ending_text (e : ending) : bytes :=
  match e with
  | Complete => []
  | Dangling => [cBackslash]
  | Unclosed q body d => q :: body_text q body ++ if d then [cBackslash] else []
  end.
Definition reading_text (t : reading) : bytes := concat (map piece_text t.1) ++ ending_text t.2.

Definition quote_mark (q : Z) : Prop := q = cQuote \/ q = cDquote.
Definition good_inner (q : Z) (i : inner) : Prop :=
  match i with InChar c => c <> q /\ c <> cBackslash | _ => True end.
Definition good_piece (p : piece) : Prop :=
  match p with
  | Plain c => ~ quote_mark c /\ c <> cBackslash /\ c <> cQmark
  | Literal q body => quote_mark q /\ Forall (good_inner q) body
  | _ => True
  end.
Definition good_ending (e : ending) : Prop :=
  match e with Unclosed q body _ => quote_mark q /\ Forall (good_inner q) body | _ => True end.
(** [t] is a way to read [sql]. *)
Definition reads (sql : bytes) (t : reading) : Prop :=
  Forall good_piece t.1 /\ good_ending t.2 /\ reading_text t = sql.

Definition glue (s : bytes) (l : list bytes) : list bytes :=
  match l with h :: r => (s ++ h) :: r | [] => [s] end.
(** The texts between the marks. *)
Fixpoint cut (ps : list piece) (e : ending) : list bytes :=
  match ps with
  | [] => [ending_text e]
  | Mark :: ps => [] :: cut ps e
  | p :: ps => glue (piece_text p) (cut ps e)
  end.
Definition is_mark (p : piece) : bool := match p with Mark => true | _ => false end.
Definition marks (t : reading) : Z := Z.of_nat (length (List.filter is_mark t.1)).
Definition segments (t : reading) : list bytes := cut t.1 t.2.

(** The segments with [$n+1], [$n+2], ... between them. *)
Fixpoint number (n : Z) (segs : list bytes) : bytes :=
  match segs with
  | [] => []
  | [s] => s
  | s :: r => s ++ cDollar :: dec_Z (n + 1) ++ number (n + 1) r
  end.

Lemma cut_nonempty ps e : cut ps e <> [].
Proof. destruct ps as [|[] ps]; cbn [cut]; try done; by destruct (cut ps e). Qed.

Lemma number_glue n s segs : segs <> [] -> number n (glue s segs) = s ++ number n segs.
Proof. destruct segs as [|s' [|s'' r]]; [done | done |]. intros _. cbn [glue number]. by rewrite <- app_assoc. Qed.

Lemma join_glue sep s segs : segs <> [] -> join sep (glue s segs) = s ++ join sep segs.
Proof. destruct segs as [|s' [|s'' r]]; [done | done |]. intros _. cbn [glue join]. by rewrite <- app_assoc. Qed.

Lemma segments_join t : join [cQmark] (segments t) = reading_text t.
Proof.
  destruct t as [ps e]. unfold segments, reading_text. cbn [fst snd].
  induction ps as [|p ps IH]; [done |]. cbn [map concat]. rewrite <- app_assoc, <- IH.
  destruct p; cbn [cut]; try (apply join_glue, cut_nonempty).
  pose proof (cut_nonempty ps e). by destruct (cut ps e).
Qed.

Lemma segments_marks t : Z.of_nat (length (segments t)) = marks t + 1.
Proof.
  destruct t as [ps e]. unfold segments, marks. cbn [fst snd].
  induction ps as [|p ps IH]; [done |]. pose proof (cut_nonempty ps e).
  destruct p; cbn [cut List.filter is_mark length]; try (destruct (cut ps e); [done |]; exact IH). lia.
Qed.

(** *** Every statement has a reading *)

Lemma reads_cons sql p t : good_piece p -> reads sql t -> reads (piece_text p ++ sql) (p :: t.1, t.2).
Proof.
  intros Hp (Hps & He & <-). split; [by constructor |]. split; [done |].
  unfold reading_text. cbn. by rewrite <- app_assoc.
Qed.

Definition reads_inside (q : Z) (sql : bytes) : Prop :=
  exists body, Forall (good_inner q) body
  /\ ((exists rest t, reads rest t /\ sql = body_text q body ++ q :: rest)
      \/ exists d : bool, sql = body_text q body ++ if d then [cBackslash] else []).

Lemma reads_inside_cons q i sql : good_inner q i -> reads_inside q sql -> reads_inside q (inner_text q i ++ sql).
Proof.
  intros Hi (body & Hb & H). exists (i :: body). split; [by constructor |].
  unfold body_text. cbn [map concat]. fold (body_text q body).
  destruct H as [(rest & t & Hr & ->)|[d ->]]; [left; exists rest, t | right; exists d]; by rewrite <- app_assoc.
Qed.

Lemma reading_exists_both n : forall sql, (length sql <= n)%nat ->
  (exists t, reads sql t) /\ forall q, reads_inside q sql.
Proof.
  induction n as [|n IH]; intros sql Hn.
  { destruct sql; [|simpl in Hn; lia]. split; [by exists ([], Complete) |]. intros q. exists []. split; [done |]. right. by exists false. }
  destruct sql as [|c sql].
  { split; [by exists ([], Complete) |]. intros q. exists []. split; [done |]. right. by exists false. }
  simpl in Hn. destruct (IH sql ltac:(lia)) as [[t Ht] Hin]. split.
  - destruct (decide (c = cBackslash)) as [->|Hb].
    { destruct sql as [|x rest]; [by exists ([], Dangling) |]. simpl in Hn.
      destruct (IH rest ltac:(lia)) as [[u Hu] _]. eexists. by apply (reads_cons rest (Escape x) u). }
    destruct (decide (c = cQmark)) as [->|Hq]; [eexists; by apply (reads_cons sql Mark t) |].
    destruct (decide (c = cQuote \/ c = cDquote)) as [Hc|Hc]; [|eexists; by apply (reads_cons sql (Plain c) t)].
    destruct (Hin c) as (body & Hbody & [(rest & u & Hu & ->)|[d ->]]).
    + replace (c :: body_text c body ++ c :: rest) with (piece_text (Literal c body) ++ rest)
        by (cbn; by rewrite <- app_assoc).
      eexists. by apply (reads_cons rest (Literal c body) u).
    + by exists ([], Unclosed c body d).
  - intros q. destruct (decide (c = q)) as [->|Hq].
    { exists []. split; [done |]. left. by exists sql, t. }
    destruct (decide (c = cBackslash)) as [->|Hb]; [|by apply (reads_inside_cons q (InChar c))].
    destruct sql as [|x rest]; [exists []; split; [done |]; right; by exists true |]. simpl in Hn.
    apply (reads_inside_cons q (InEscape x) rest); [done |]. apply IH. lia.
Qed.

Lemma reading_exists sql : exists t, reads sql t.
Proof. apply (reading_exists_both (length sql) sql). lia. Qed.

(** *** The scan follows every reading *)

(** The scan copies [s], going from the state [l] to [l']. *)
Definition copies (l : lexer) (s : bytes) (l' : lexer) : Prop := forall n rest,
  placeholders_from l n (s ++ rest) = (s ++ (placeholders_from l' n rest).1, (placeholders_from l' n rest).2).

Lemma copies_nil l : copies l [] l.
Proof. intros n rest. by destruct (placeholders_from l n rest) eqn:E; cbn; rewrite E. Qed.

Lemma copies_app l s l' s' l'' : copies l s l' -> copies l' s' l'' -> copies l (s ++ s') l''.
Proof. intros H H' n rest. by rewrite <- !app_assoc, H, H'. Qed.

Lemma live_test l c :
  (negb (escaped l) && negb (c =? cBackslash) && negb (is_quote c) && negb (inString l) && (c =? cQmark))
  = negb (escaped l) && negb (inString l) && (c =? cQmark).
Proof.
  destruct (Z.eqb_spec c cQmark) as [->|]; [|by rewrite !andb_false_r].
  by destruct (escaped l), (inString l).
Qed.

Lemma copies_char l c : escaped l || inString l || negb (c =? cQmark) = true -> copies l [c] (lex_step l c).
Proof.
  intros Hc n rest. cbn [app placeholders_from]. rewrite live_test.
  assert (negb (escaped l) && negb (inString l) && (c =? cQmark) = false) as ->
    by (destruct (escaped l), (inString l), (c =? cQmark); done).
  by destruct (placeholders_from (lex_step l c) n rest).
Qed.

Lemma copies_inner q i : quote_mark q -> good_inner q i ->
  copies (mkLexer true q false) (inner_text q i) (mkLexer true q false).
Proof.
  intros Hq Hi. assert (Hb : (q =? cBackslash) = false) by (by destruct Hq as [->| ->]).
  assert (Hqq : is_quote q = true) by (by destruct Hq as [->| ->]).
  assert (Hm : (q =? cQmark) = false) by (by destruct Hq as [->| ->]).
  destruct i as [c|c|]; cbn [inner_text].
  - destruct Hi as [H1%Z.eqb_neq H2%Z.eqb_neq].
    replace (mkLexer true q false) with (lex_step (mkLexer true q false) c) at 2
      by (unfold lex_step; cbn; rewrite H2, H1; by destruct (is_quote c)).
    by apply copies_char.
  - by apply (copies_app _ [cBackslash] (mkLexer true q true)); apply copies_char.
  - apply (copies_app _ [q] (mkLexer false 0 false) [q]).
    + replace (mkLexer false 0 false) with (lex_step (mkLexer true q false) q)
        by (unfold lex_step; cbn; by rewrite Hb, Hqq, Z.eqb_refl).
      by apply copies_char.
    + replace (mkLexer true q false) with (lex_step (mkLexer false 0 false) q)
        by (unfold lex_step; cbn; by rewrite Hb, Hqq).
      apply copies_char. cbn. by rewrite Hm.
Qed.

Lemma copies_body q body : quote_mark q -> Forall (good_inner q) body ->
  copies (mkLexer true q false) (body_text q body) (mkLexer true q false).
Proof.
  intros Hq. induction 1 as [|i body Hi _ IH]; [apply copies_nil |].
  unfold body_text. cbn [map concat]. eapply copies_app; [by apply copies_inner | exact IH].
Qed.

Lemma copies_open q : quote_mark q -> copies lex0 [q] (mkLexer true q false).
Proof.
  intros Hq. replace (mkLexer true q false) with (lex_step lex0 q) by (by destruct Hq as [->| ->]).
  apply copies_char. by destruct Hq as [->| ->].
Qed.

Lemma copies_piece p : good_piece p -> p <> Mark -> copies lex0 (piece_text p) lex0.
Proof.
  intros Hp Hm. destruct p as [c| |c|q body]; cbn [piece_text]; [|done | |].
  - destruct Hp as (Hq & Hb & Hc%Z.eqb_neq).
    replace lex0 with (lex_step lex0 c) at 2; [apply copies_char; cbn; by rewrite Hc |].
    unfold lex_step, is_quote. cbn. rewrite (proj2 (Z.eqb_neq _ _) Hb).
    destruct (Z.eqb_spec c cQuote), (Z.eqb_spec c cDquote); unfold quote_mark in Hq; tauto.
  - by apply (copies_app _ [cBackslash] (mkLexer false 0 true)); apply copies_char.
  - destruct Hp as [Hq Hbody]. apply (copies_app _ [q] (mkLexer true q false)); [by apply copies_open |].
    eapply copies_app; [by apply copies_body |].
    replace lex0 with (lex_step (mkLexer true q false) q) by (by destruct Hq as [->| ->]). by apply copies_char.
Qed.

Lemma ending_copied e n : good_ending e -> placeholders_from lex0 n (ending_text e) = (ending_text e, n).
Proof.
  assert (Hend : forall l s l', copies l s l' -> placeholders_from l n s = (s, n)).
  { intros l s l' H. specialize (H n []). rewrite app_nil_r in H. rewrite H. cbn. by rewrite app_nil_r. }
  intros He. destruct e as [| |q body d]; [done | done |]. destruct He as [Hq Hb]. cbn [ending_text].
  apply (Hend _ _ (mkLexer true q d)). apply (copies_app _ [q] (mkLexer true q false)); [by apply copies_open |].
  eapply copies_app; [by apply copies_body |]. destruct d; [by apply copies_char | apply copies_nil].
Qed.

Lemma placeholders_cut ps e n : Forall good_piece ps -> good_ending e ->
  placeholders_from lex0 n (reading_text (ps, e)) = (number n (cut ps e), n + Z.of_nat (length (cut ps e)) - 1).
Proof.
  intros Hps He. unfold reading_text. cbn [fst snd]. revert n.
  induction Hps as [|p ps Hp _ IH]; intros n.
  { cbn [map concat app cut]. rewrite ending_copied by done. cbn. f_equal. lia. }
  cbn [map concat]. rewrite <- app_assoc. pose proof (cut_nonempty ps e) as Hne.
  assert (Hglue : p <> Mark -> placeholders_from lex0 n (piece_text p ++ concat (map piece_text ps) ++ ending_text e)
    = (number n (glue (piece_text p) (cut ps e)), n + Z.of_nat (length (glue (piece_text p) (cut ps e))) - 1)).
  { intros Hm. rewrite (copies_piece p Hp Hm), IH, number_glue by done. cbn [fst snd]. by destruct (cut ps e). }
  destruct p; cbn [cut]; try by apply Hglue.
  cbn [piece_text app placeholders_from]. rewrite live_test. change (lex_step lex0 cQmark) with lex0. rewrite !IH.
  change (negb (escaped lex0) && negb (inString lex0) && (cQmark =? cQmark)) with true. cbn iota.
  destruct (cut ps e) as [|s r] eqn:E; [done |]. cbn [number]. f_equal. cbn [length]. lia.
Qed.

(** ** Counting the parameters of the result *)

Lemma number_at_digits d r num :
  forallb digit d = true -> holds_at digit r 0 = false -> 0 <= num -> digits_val num d < 2 ^ 63 ->
  number_at num (d ++ r) = digits_val num d.
Proof.
  revert num; induction d as [|c d IH]; intros num Hd Hr Hn Hb.
  - destruct r as [|x r]; [done |]. cbn in *. by rewrite Hr.
  - simpl in Hd. apply andb_true_iff in Hd as [Hc Hd]. cbn [app number_at]. rewrite Hc.
    cbn [digits_val] in *. apply digit_range in Hc. rewrite (Z.mul_comm 10) in Hb |- *.
    pose proof (digits_val_acc (num * 10 + (c - 48)) d) as Ha.
    pose proof (digits_val_range d Hd) as Hr'.
    assert (num * 10 + (c - 48) <= digits_val (num * 10 + (c - 48)) d) as Hle.
    { rewrite Ha. assert (0 < 10 ^ Z.of_nat (length d)) by (apply Z.pow_pos_nonneg; lia). nia. }
    rewrite (swrap_id 64) by (unfold in_swidth; lia). apply IH; [done | done | lia | done].
Qed.

Lemma count_params_none m s r :
  cDollar ∉ s -> count_params m (s ++ r) = count_params m r.
Proof.
  induction s as [|c s IH]; [done |]. intros [Hc Hs]%not_elem_of_cons. cbn [app count_params].
  rewrite (proj2 (Z.eqb_neq c cDollar)) by done. by apply IH.
Qed.

Lemma digits_no_dollar d : forallb digit d = true -> cDollar ∉ d.
Proof.
  intros Hd Hin. rewrite forallb_forall in Hd.
  assert (digit cDollar = true) as Hx by (apply Hd; by apply list_elem_of_In). done.
Qed.

(** No segment after the first one starts with a digit, and none has a [$]. *)
Definition clean (segs : list bytes) : Prop :=
  Forall (fun s => cDollar ∉ s) segs /\ Forall (fun s => holds_at digit s 0 = false) (tail segs).

Lemma holds_number n s r : holds_at digit s 0 = false -> holds_at digit (number n (s :: r)) 0 = false.
Proof. destruct r as [|s' r]; [done |]. destruct s as [|c s]; [done |]. done. Qed.

Lemma count_params_number segs : forall n m,
  segs <> [] -> clean segs -> 0 <= n -> n + Z.of_nat (length segs) <= 2 ^ 63 -> m <= n ->
  count_params m (number n segs) = if (length segs =? 1)%nat then m else n + Z.of_nat (length segs) - 1.
Proof.
  induction segs as [|s r IH]; intros n m Hne [Hd Hh] Hn Hb Hm; [done |].
  destruct r as [|s' r].
  - cbn [number length Nat.eqb]. rewrite <- (app_nil_r s). rewrite count_params_none; [done |]. by inversion Hd.
  - cbn [tail] in Hh. inversion Hd as [|? ? Hs Hd']; subst. inversion Hh as [|? ? Hs' Hh']; subst.
    change (number n (s :: s' :: r)) with (s ++ cDollar :: dec_Z (n + 1) ++ number (n + 1) (s' :: r)).
    rewrite count_params_none by done. cbn [count_params]. cbn [length] in Hb.
    assert (Edec : dec_Z (n + 1) = dec_nat (n + 1)).
    { unfold dec_Z. destruct (n + 1 <? 0) eqn:E; [lia | done]. }
    rewrite Edec.
    pose proof (dec_nat_digits (n + 1)) as Hdig. pose proof (dec_nat_val (n + 1)) as Hval.
    assert (Hfirst : holds_at digit (dec_nat (n + 1) ++ number (n + 1) (s' :: r)) 0 = true).
    { unfold dec_nat in *. pose proof (dec_fuel_nonempty (S (Z.to_nat (Z.log2 (n + 1)))) (n + 1) []) as Hx.
      destruct (dec_fuel _ _ _) as [|c d]; [destruct Hx; [lia | done] |].
      cbn. specialize (Hdig ltac:(lia)). simpl in Hdig. by apply andb_true_iff in Hdig as [? _]. }
    rewrite Hfirst, (Z.eqb_refl cDollar : (cDollar =? cDollar) = true). cbn [andb].
    rewrite number_at_digits; [|apply Hdig; lia | by apply holds_number | lia | rewrite Hval; lia].
    rewrite Hval by lia. rewrite Z.max_r by lia.
    rewrite count_params_none by (apply digits_no_dollar, Hdig; lia).
    rewrite IH; [|done | by split | lia | cbn [length]; lia | lia].
    cbn [length Nat.eqb]. destruct r; cbn [length Nat.eqb]; lia.
Qed.

Lemma numbered sql t : reads sql t -> convertPlaceholders sql = (number 0 (segments t), marks t).
Proof.
  intros (Hps & He & <-). destruct t as [ps e]. unfold convertPlaceholders.
  rewrite placeholders_cut by done. pose proof (segments_marks (ps, e)). unfold segments in *. cbn [fst snd] in *.
  f_equal. lia.
Qed.

Lemma numbered_count t : clean (segments t) -> marks t < 2 ^ 63 -> count_params 0 (number 0 (segments t)) = marks t.
Proof.
  intros Hc Hb. pose proof (segments_marks t) as Hm. pose proof (cut_nonempty t.1 t.2) as Hne.
  rewrite count_params_number; [|done | done | lia | lia | lia].
  destruct (segments t) as [|s [|s' r]] eqn:E; [done | cbn in *; lia |]. cbn [length Nat.eqb] in *. lia.
Qed.

(** C22: Every statement can be read as a sequence of ordinary characters,
    placeholder marks, escaped characters and quoted literals, and whatever the
    reading [convertPlaceholders] replaces its marks, and nothing else, by [$1],
    [$2], ... in order, and returns their number.  When no text contains a [$] or
    continues a mark with a digit, the highest number in the result is the
    number of marks. *)
Theorem placeholders_numbered sql :
  (exists t, reads sql t)
  /\ forall t, reads sql t ->
     join [cQmark] (segments t) = sql
     /\ Z.of_nat (length (segments t)) = marks t + 1
     /\ convertPlaceholders sql = (number 0 (segments t), marks t)
     /\ (clean (segments t) -> marks t < 2 ^ 63 -> count_params 0 (convertPlaceholders sql).1 = marks t).
Proof.
  split; [apply reading_exists |]. intros t Ht. rewrite (numbered sql t Ht), segments_join. cbn [fst].
  split; [apply Ht |]. split; [apply segments_marks |]. split; [done | apply numbered_count].
Qed.

(** ** The two converters agree *)

Lemma r_placeholders_spec sql : forall b c n,
  cBackslash ∉ sql -> (b = true -> is_quote c = true) ->
  r_placeholders b c n sql = (placeholders_from (mkLexer b (if b then c else 0) false) n sql).1.
Proof.
  induction sql as [sql IH] using (induction_ltof1 _ (@length Z)). unfold ltof in IH.
  intros b c n Hs Hc. destruct sql as [|x t]; [done |]. apply not_elem_of_cons in Hs as [Hx Ht].
  assert (Hl : forall b c n, (b = true -> is_quote c = true) ->
            r_placeholders b c n t = (placeholders_from (mkLexer b (if b then c else 0) false) n t).1)
    by (intros; apply IH; [simpl; lia | done | done]).
  cbn [placeholders_from r_placeholders]. rewrite live_test. unfold lex_step. cbn [escaped inString stringChar].
  rewrite (proj2 (Z.eqb_neq x cBackslash)) by done. cbn [negb andb].
  assert (Hqm : is_quote cQmark = false) by done.
  destruct b; cbn [negb andb].
  - destruct (Z.eqb_spec x c) as [->|Hxc].
    + rewrite Hc by done. destruct t as [|d t'].
      { cbn [placeholders_from fst]. by rewrite Hl. }
      destruct (Z.eqb_spec d c) as [->|Hd].
      * apply not_elem_of_cons in Ht as [Hd Ht']. cbn [placeholders_from]. rewrite live_test.
        unfold lex_step. cbn [escaped inString stringChar negb andb].
        rewrite (proj2 (Z.eqb_neq c cBackslash)), Hc by done.
        destruct (Z.eqb_spec c cQmark) as [->|]; [by specialize (Hc eq_refl) |]. cbn [negb andb].
        rewrite (IH t') by (simpl; lia || done).
        by destruct (placeholders_from _ n t').
      * rewrite Hl by done. by destruct (placeholders_from _ n (d :: t')).
    + rewrite Hl by done. destruct (is_quote x); by destruct (placeholders_from _ n t).
  - destruct (is_quote x) eqn:Eq.
    + destruct (Z.eqb_spec x cQmark) as [->|]; [done |].
      rewrite Hl by done. by destruct (placeholders_from _ n t).
    + destruct (Z.eqb_spec x cQmark) as [->|].
      * rewrite (Hl false) by done. by destruct (placeholders_from _ (n + 1) t).
      * rewrite (Hl false) by done. by destruct (placeholders_from _ n t).
Qed.

Lemma no_qmark_id l n sql : Contains sql [cQmark] = false -> (placeholders_from l n sql).1 = sql.
Proof.
  rewrite Contains_false, index_none. intros Hn. revert l n. induction sql as [|c t IH]; intros l n; [done |].
  cbn [placeholders_from]. rewrite live_test.
  assert (negb (escaped l) && negb (inString l) && (c =? cQmark) = false) as ->.
  { destruct (Z.eqb_spec c cQmark) as [->|]; [|by rewrite andb_false_r].
    destruct (Hn O). by exists [], t. }
  specialize (IH ltac:(intros k (a & b & -> & <-); apply (Hn (S (length a))); by exists (c :: a), b)
                (lex_step l c) n).
  destruct (placeholders_from _ _ t). simpl in *. by rewrite IH.
Qed.

(** On a statement without backslashes the placeholder converter of the
    textual fallback and that of the generator give the same text, although one
    treats a doubled quote as one escaped quote and the other as the end of a
    literal and the start of the next. *)
Theorem placeholder_converters_agree sql :
  cBackslash ∉ sql -> r_convertPlaceholders sql = (convertPlaceholders sql).1.
Proof.
  intros Hs. unfold r_convertPlaceholders, convertPlaceholders.
  destruct (Contains sql [cQmark]) eqn:E; cbn [negb].
  - by rewrite r_placeholders_spec.
  - by rewrite no_qmark_id.
Qed.

(** ** Character-set prefixes: three copies of one loop *)

Lemma first_prefix_match l s :
  (forall p, p ∈ l -> p <> []) ->
  match first_prefix l s with
  | Some n => matchCharsetPrefix l s = n /\ (0 < n)%nat
  | None => matchCharsetPrefix l s = O
  end.
Proof.
  induction l as [|p l IH]; intros Hl; [done |]. cbn [first_prefix matchCharsetPrefix].
  destruct (prefix_applies s p).
  - split; [done |]. specialize (Hl p ltac:(left)). destruct p; simpl; [done | lia].
  - apply IH. intros q Hq. apply Hl. by right.
Qed.

Lemma prefixes_nonempty p : p ∈ charset_prefixes -> p <> [].
Proof. revert p. apply Forall_forall. by repeat constructor. Qed.

Lemma strips_agree k s : r_strip k s = strip_prefixes k s /\ ast_strip k s = strip_prefixes k s.
Proof.
  revert k; induction s as [|c t IH]; intros k; [by destruct k |]. cbn [r_strip ast_strip strip_prefixes].
  destruct k as [|k]; [|apply IH].
  assert (ast_matchCharsetPrefix charset_prefixes (c :: t) = matchCharsetPrefix charset_prefixes (c :: t)) as ->.
  { induction charset_prefixes as [|p l IHl]; [done |]. simpl. by rewrite IHl. }
  destruct ((c =? cUnderscore) && (2 <? length (c :: t))%nat); cbn [andb].
  - pose proof (first_prefix_match charset_prefixes (c :: t) prefixes_nonempty) as Hm.
    destruct (first_prefix charset_prefixes (c :: t)) as [n|].
    + destruct Hm as [Hm Hn]. rewrite Hm. destruct n as [|n]; [lia |]. cbn [Nat.ltb Nat.leb].
      rewrite Nat.sub_1_r. cbn [Nat.pred]. apply IH.
    + rewrite Hm. cbn. split; f_equal; apply IH.
  - split; f_equal; apply IH.
Qed.

Lemma charset_copies_agree sql :
  r_removeCharsetPrefixes sql = removeCharsetPrefixes sql
  /\ preProcessCharsetPrefixes sql = removeCharsetPrefixes sql.
Proof.
  unfold r_removeCharsetPrefixes, preProcessCharsetPrefixes, removeCharsetPrefixes.
  destruct (negb _); [done | apply strips_agree].
Qed.

(** ** Failures of the parser *)

Section facts.
Context `{!Unicode} {Stmt : Type} `{!SQLParser Stmt}.

(** C35: Rewriting never fails: whatever the parser, the syntax tree and the
    passes do (an error, a panic), the rewriter returns a text, from the
    generator when that succeeds and from the textual fallback otherwise;
    the only other outcome is that it does not return. *)
Theorem Rewrite_never_fails fuel r sql :
  Rewrite fuel r sql = NoFuel
  \/ exists out, Rewrite fuel r sql = Ret (Ok out)
     /\ (enabled r = false /\ out = sql
         \/ enabled r = true /\ astRewriter r = None /\ out = stripTiDBSyntax (TrimSpace sql)
         \/ exists a, enabled r = true /\ astRewriter r = Some a /\
             (ast_Rewrite fuel a (stripTiDBSyntax (TrimSpace sql)) = Ret (Ok out)
              \/ (exists m, ast_Rewrite fuel a (stripTiDBSyntax (TrimSpace sql)) = Ret (Err m))
                 /\ out = fastPathRewrite (stripTiDBSyntax (TrimSpace sql)))).
Proof.
  unfold Rewrite. destruct (enabled r); cbn [negb]; [|right; eexists; split; [done |]; by left].
  destruct (astRewriter r) as [a|]; [|right; eexists; split; [done |]; right; by left].
  set (t := stripTiDBSyntax _).
  assert (Hx : ast_Rewrite fuel a t = NoFuel \/ (exists o, ast_Rewrite fuel a t = Ret (Ok o))
               \/ exists m, ast_Rewrite fuel a t = Ret (Err m)).
  { unfold ast_Rewrite. destruct (negb _); [eauto |].
    destruct (ast_pipeline fuel (visitor a) t) as [[o|m|]| |]; unfold recovering, recovered; eauto. }
  destruct Hx as [->|[[o E]|[m E]]]; [by left | right | right]; rewrite E; cbn [run_bind].
  - exists o. split; [done |]. right; right. exists a. auto.
  - eexists. split; [done |]. right; right. exists a. split; [done |]. split; [done |]. right. eauto.
Qed.
(** C23: When the syntax-tree rewriter fails, the statement that [RewritePrepared]
    returns is the fallback text with its marks numbered, and the number of
    parameters it tells the client is the number of marks (in a text without
    backslashes, without another [$] and without a digit after a mark). *)
Theorem fallback_prepared fuel r a query m t :
  let sql := r_removeCharsetPrefixes (ReplaceAll (stripTiDBSyntax (TrimSpace query)) [cBacktick] [cDquote]) in
  enabled r = true -> astRewriter r = Some a ->
  ast_Rewrite fuel a (stripTiDBSyntax (TrimSpace query)) = Ret (Err m) ->
  reads sql t -> cBackslash ∉ sql -> clean (segments t) -> marks t < 2 ^ 63 ->
  RewritePrepared fuel r query = Ret (Ok (number 0 (segments t), marks t)).
Proof.
  intros sql He Ha Hf Ht Hb Hc Hm. unfold RewritePrepared, Rewrite. rewrite He, Ha. cbn [negb].
  rewrite Hf. cbn [run_bind]. unfold fastPathRewrite. fold sql.
  rewrite placeholder_converters_agree, (numbered sql t Ht) by done.
  cbn -[count_params number segments marks]. by rewrite numbered_count.
Qed.
End facts.

(** *** Concrete statements *)

(** A statement with a mark in a literal and three outside. *)
Definition demo_statement : bytes := str "SELECT '?' FROM t WHERE a = ? AND b IN (?, ?)".
Definition demo_reading : reading :=
  (map Plain (str "SELECT ") ++ Literal cQuote [InChar cQmark] :: map Plain (str " FROM t WHERE a = ")
     ++ Mark :: map Plain (str " AND b IN (") ++ Mark :: map Plain (str ", ") ++ Mark :: map Plain (str ")"), Complete).

Lemma demo_reads : reads demo_statement demo_reading.
Proof.
  split; [|by vm_compute]. cbn. repeat constructor; cbn; try done; intros [|]; done.
Qed.

Lemma demo_clean : clean (segments demo_reading).
Proof. apply (bool_decide_unpack _). vm_compute. exact I. Qed.

Lemma placeholders_numbered_witness :
  convertPlaceholders demo_statement = (str "SELECT '?' FROM t WHERE a = $1 AND b IN ($2, $3)", 3)
  /\ count_params 0 (convertPlaceholders demo_statement).1 = 3.
Proof.
  destruct (proj2 (placeholders_numbered demo_statement) demo_reading demo_reads) as (_ & _ & E & Hn).
  split; [rewrite E; vm_compute; reflexivity |]. exact (Hn demo_clean eq_refl).
Defined.

(** A parser that accepts nothing. *)
Definition refusing_parser : SQLParser bytes :=
  {| Parse sql := Err (str "syntax error"); Accept v s := Some (v, s); Restore s := Ok s; Rewriter.view s := OtherStmt |}.

Lemma fallback_prepared_witness :
  @RewritePrepared ascii_tables bytes refusing_parser 10 (NewRewriter true) demo_statement
  = Ret (Ok (str "SELECT '?' FROM t WHERE a = $1 AND b IN ($2, $3)", 3)).
Proof.
  refine (@fallback_prepared ascii_tables bytes refusing_parser 10 (NewRewriter true) NewASTRewriter demo_statement
            _ demo_reading eq_refl eq_refl _ demo_reads _ demo_clean eq_refl).
  - vm_compute. reflexivity.
  - apply (bool_decide_unpack _). vm_compute. exact I.
Defined.

Lemma placeholder_converters_agree_witness :
  r_convertPlaceholders (str "SELECT 'it''s ?', ?")
  = (convertPlaceholders (str "SELECT 'it''s ?', ?")).1.
Proof.
  refine (placeholder_converters_agree (str "SELECT 'it''s ?', ?") _).
  apply (bool_decide_eq_false_1 (cBackslash ∈ str "SELECT 'it''s ?', ?")). vm_compute. reflexivity.
Defined.
