(* ===== verification/SQLClauses.v ===== *)
(** * What single passes do

    LIMIT clauses, matching parentheses, argument lists, AUTO_INCREMENT, and
    what [PostProcess] does to string literals. *)

From Stdlib Require Import ZArith Lia.
From stdpp Require Import base numbers list strings.
From S2P Require Import Prelude GoStd GoStrings SQLText SQLPasses SQLLoops.
Open Scope Z_scope.

(** ** Positions in a text given by its parts *)

Definition stops (p : Z -> bool) (s : bytes) : Prop := holds_at p s 0 = false.

Lemma prefix_len_app p a b : forallb p a = true -> stops p b -> prefix_len p (a ++ b) = length a.
Proof.
  intros Ha Hb. induction a as [|c a IH]; simpl in *.
  - destruct b as [|c b]; [done |]. unfold stops in Hb. cbn in Hb. simpl. by rewrite Hb.
  - apply andb_true_iff in Ha as [-> Ha]. by rewrite IH.
Qed.

Lemma skip_while_app p x a b i :
  i = length x -> forallb p a = true -> stops p b -> skip_while p (x ++ a ++ b) i = length (x ++ a).
Proof.
  intros -> Ha Hb. unfold skip_while. by rewrite drop_app_length, prefix_len_app, length_app.
Qed.

Lemma stops_app p a b : a <> [] -> stops p a -> stops p (a ++ b).
Proof. by destruct a. Qed.

Lemma stops_digits_blank d : d <> [] -> forallb digit d = true -> stops is_blank d.
Proof.
  destruct d as [|c d]; [done |]. intros _ [Hc _]%andb_true_iff. apply digit_range in Hc.
  unfold stops, holds_at, is_blank. simpl. lia.
Qed.

Lemma stops_blank_digit b r : forallb is_blank b = true -> stops digit r -> stops digit (b ++ r).
Proof.
  destruct b as [|c b]; [done |]. intros [Hc _]%andb_true_iff _. unfold stops, holds_at. simpl.
  unfold is_blank in Hc. unfold digit. lia.
Qed.

(** ** LIMIT *)

Section limit.
Context `{!Unicode}.
Context (kw b1 off b2 b3 cnt : bytes).
Hypothesis Hkw : length kw = 5%nat.
Hypothesis Hb1 : forallb is_blank b1 = true.
Hypothesis Hb2 : forallb is_blank b2 = true.
Hypothesis Hb3 : forallb is_blank b3 = true.
Hypothesis Hoff : off <> [] /\ forallb digit off = true.
Hypothesis Hcnt : cnt <> [] /\ forallb digit cnt = true.

Definition mysql_limit : bytes := kw ++ b1 ++ off ++ b2 ++ [cComma] ++ b3 ++ cnt.
Definition pg_limit : bytes := str "LIMIT " ++ cnt ++ str " OFFSET " ++ off.

Lemma convertLimit_step_at pre post :
  stops digit post ->
  convertLimit_step (pre ++ mysql_limit ++ post) (length pre)
  = Ret (Jump (pre ++ pg_limit ++ post) (length (pre ++ pg_limit))).
Proof using All.
  intros Hpost. destruct Hoff as [Ho1 Ho2], Hcnt as [Hc1 Hc2].
  assert (Hlo : (0 < length off)%nat) by (destruct off; simpl; [done | lia]).
  assert (Hlc : (0 < length cnt)%nat) by (destruct cnt; simpl; [done | lia]).
  unfold convertLimit_step, mysql_limit.
  rewrite <- !app_assoc. set (r := pre ++ _).
  assert (E1 : skip_while is_blank r (length pre + 5) = length ((pre ++ kw) ++ b1)).
  { unfold r. rewrite (app_assoc pre). apply skip_while_app; [rewrite length_app; lia | done |].
    apply stops_app; [done | by apply stops_digits_blank]. }
  assert (E2 : skip_while digit r (length ((pre ++ kw) ++ b1)) = length (((pre ++ kw) ++ b1) ++ off)).
  { unfold r. rewrite (app_assoc pre), (app_assoc (pre ++ kw)). apply skip_while_app; [done | done |].
    by apply stops_blank_digit. }
  assert (E3 : skip_while is_blank r (length (((pre ++ kw) ++ b1) ++ off)) = length ((((pre ++ kw) ++ b1) ++ off) ++ b2)).
  { unfold r. rewrite (app_assoc pre), (app_assoc (pre ++ kw)), (app_assoc ((pre ++ kw) ++ b1)).
    by apply skip_while_app. }
  rewrite E1, E2, E3.
  replace (length (((pre ++ kw) ++ b1) ++ off) =? length ((pre ++ kw) ++ b1))%nat with false
    by (symmetry; apply Nat.eqb_neq; rewrite (length_app _ off); lia).
  set (x3 := (((pre ++ kw) ++ b1) ++ off) ++ b2) in *.
  assert (Er : r = x3 ++ [cComma] ++ b3 ++ cnt ++ post) by (unfold r, x3; by rewrite <- !app_assoc).
  assert (Es1 : slice r (length ((pre ++ kw) ++ b1)) (length (((pre ++ kw) ++ b1) ++ off)) = Ret off).
  { unfold r. rewrite (app_assoc pre), (app_assoc (pre ++ kw)), (length_app _ off). apply slice_mid. }
  rewrite Es1. cbn [run_bind].
  assert (Eh : holds_at (Z.eqb cComma) r (length x3) = true).
  { rewrite Er. unfold holds_at. cbn [app]. by rewrite list_lookup_middle. }
  rewrite Eh. cbn [negb].
  assert (E4 : skip_while is_blank r (length x3 + 1) = length ((x3 ++ [cComma]) ++ b3)).
  { rewrite Er, (app_assoc x3). apply skip_while_app; [rewrite length_app; simpl; lia | done |].
    apply stops_app; [done | by apply stops_digits_blank]. }
  assert (E5 : skip_while digit r (length ((x3 ++ [cComma]) ++ b3)) = length (((x3 ++ [cComma]) ++ b3) ++ cnt)).
  { rewrite Er, (app_assoc x3), (app_assoc (x3 ++ [cComma])). by apply skip_while_app. }
  rewrite E4, E5.
  replace (length (((x3 ++ [cComma]) ++ b3) ++ cnt) =? length ((x3 ++ [cComma]) ++ b3))%nat with false
    by (symmetry; apply Nat.eqb_neq; rewrite (length_app _ cnt); lia).
  assert (Es2 : slice r (length ((x3 ++ [cComma]) ++ b3)) (length (((x3 ++ [cComma]) ++ b3) ++ cnt)) = Ret cnt).
  { rewrite Er, (app_assoc x3), (app_assoc (x3 ++ [cComma])), (length_app _ cnt). apply slice_mid. }
  rewrite Es2. cbn [run_bind]. fold pg_limit.
  replace (length (((x3 ++ [cComma]) ++ b3) ++ cnt)) with (length pre + length mysql_limit)%nat
    by (unfold x3, mysql_limit; rewrite !length_app; simpl; lia).
  replace r with (pre ++ mysql_limit ++ post) by (unfold r, mysql_limit; by rewrite <- !app_assoc).
  rewrite splice_mid. cbn [run_bind]. by rewrite length_app.
Qed.
End limit.

Section clauses.
Context `{!Unicode}.

(** [convertLimitSyntax] turns [LIMIT offset, count] (in any case and with
    any white space) into [LIMIT count OFFSET offset] and leaves the text
    before and after it alone, when that has no other LIMIT. *)
Theorem limit_converted pre kw b1 off b2 b3 cnt post :
  ascii (pre ++ mysql_limit kw b1 off b2 b3 cnt ++ post) = true ->
  index (str "LIMIT") (toUpper (pre ++ mysql_limit kw b1 off b2 b3 cnt ++ post)) = Some (length pre) ->
  length kw = 5%nat -> forallb is_blank (b1 ++ b2 ++ b3) = true ->
  off <> [] -> forallb digit off = true -> cnt <> [] -> forallb digit cnt = true ->
  stops digit post -> index (str "LIMIT") (toUpper post) = None ->
  forall n, (2 <= n)%nat ->
  convertLimitSyntax n (pre ++ mysql_limit kw b1 off b2 b3 cnt ++ post)
  = Ret (pre ++ str "LIMIT " ++ cnt ++ str " OFFSET " ++ off ++ post).
Proof.
  intros Ha Hi Hk Hb Ho1 Ho2 Hc1 Hc2 Hp Hn n Hle. rewrite !forallb_app, !andb_true_iff in Hb.
  destruct Hb as (H1 & H2 & H3). destruct n as [|[|n]]; [lia | lia |].
  unfold convertLimitSyntax. cbn [search_loop]. rewrite slice_from_ok, drop_0 by lia. cbn [run_bind].
  rewrite Hi, Nat.add_0_l, convertLimit_step_at by done. cbn [run_bind].
  rewrite app_assoc, slice_from_app. cbn [run_bind]. rewrite Hn. f_equal. unfold pg_limit.
  by rewrite <- !app_assoc.
Qed.

(** ** Argument lists *)

Lemma split_args_join d i c s : join [cComma] (split_args d i c s) = s /\ split_args d i c s <> [].
Proof.
  revert d i c; induction s as [|x s IH]; intros d i c; [done |]. cbn [split_args].
  assert (Hpush : forall d i c, join [cComma] (match split_args d i c s with h :: r => (x :: h) :: r | [] => [[x]] end) = x :: s
            /\ (match split_args d i c s with h :: r => (x :: h) :: r | [] => [[x]] end) <> []).
  { intros d' i' c'. destruct (IH d' i' c') as [E Hne]. destruct (split_args d' i' c' s) as [|h [|h' r]]; [done | |].
    - split; [|done]. cbn in *. by rewrite E.
    - split; [|done]. change (x :: join [cComma] (h :: h' :: r) = x :: s). by rewrite E. }
  destruct i; [done |]. destruct (is_quote x); [done |]. destruct (x =? cLpar); [done |].
  destruct (x =? cRpar); [done |]. destruct ((x =? cComma) && (d =? 0)) eqn:E; [|done].
  apply andb_true_iff in E as [->%Z.eqb_eq _]. destruct (IH d false c) as [E Hne]. split; [|done].
  destruct (split_args d false c s) as [|h r]; [done |].
  change (cComma :: join [cComma] (h :: r) = cComma :: s). by rewrite E.
Qed.

(** ** Parentheses *)

(** The nesting depth after a text. *)
Fixpoint depth (d : Z) (s : bytes) : Z :=
  match s with
  | [] => d
  | c :: t => depth (if c =? cLpar then d + 1 else if c =? cRpar then d - 1 else d) t
  end.

Lemma depth_app d a b : depth d (a ++ b) = depth (depth d a) b.
Proof. revert d; induction a; intros; simpl; auto. Qed.

Lemma close_paren_spec s : forall n k, (0 < n)%nat ->
  close_paren n s = Some k <->
  s !! k = Some cRpar /\ depth (Z.of_nat n) (take k s) = 1
  /\ forall j, (j <= k)%nat -> 0 < depth (Z.of_nat n) (take j s).
Proof.
  induction s as [|c s IH]; intros n k Hn; cbn [close_paren].
  { split; [done | by intros [? _]]. }
  (* one step over a character that does not end the search *)
  assert (Hstep : forall m, (0 < m)%nat -> Z.of_nat m = (if c =? cLpar then Z.of_nat n + 1 else if c =? cRpar then Z.of_nat n - 1 else Z.of_nat n) ->
    (S <$> close_paren m s = Some k <->
     (c :: s) !! k = Some cRpar /\ depth (Z.of_nat n) (take k (c :: s)) = 1
     /\ forall j, (j <= k)%nat -> 0 < depth (Z.of_nat n) (take j (c :: s)))
    \/ (c = cRpar /\ n = 1%nat)).
  { intros m Hm Em. destruct (decide (c = cRpar /\ n = 1%nat)) as [|Hd]; [by right | left].
    destruct k as [|k].
    - split; [by intros (j & _ & ?)%fmap_Some |]. intros (Hl & H1 & _). exfalso. apply Hd.
      cbn in Hl, H1. split; [congruence | lia].
    - rewrite fmap_Some. split.
      + intros (j & E & [= ->]). apply IH in E as (Hl & H1 & H2); [|done].
        cbn [lookup list_lookup take depth]. rewrite <- Em. split; [done |]. split; [done |].
        intros [|j'] Hj; cbn [take depth]; [lia |]. rewrite <- Em. apply H2. lia.
      + intros (Hl & H1 & H2). exists k. split; [|done]. apply IH; [done |].
        cbn [lookup list_lookup take depth] in Hl, H1. rewrite <- Em in H1. split; [done |]. split; [done |].
        intros j Hj. specialize (H2 (S j) ltac:(lia)). cbn [take depth] in H2. by rewrite <- Em in H2. }
  destruct (Z.eqb_spec c cLpar) as [->|Hl].
  - destruct (Hstep (S n)) as [E|[? _]]; [lia | change (Z.of_nat (S n) = Z.of_nat n + 1); lia | done | done].
  - destruct (Z.eqb_spec c cRpar) as [->|Hr].
    + destruct n as [|[|n]]; [lia | |].
      * split.
        -- intros [= <-]. split; [done |]. split; [done |]. intros j Hj. replace j with O by lia. done.
        -- intros (Hl' & H1 & H2). destruct k as [|k]; [done |]. exfalso.
           specialize (H2 1%nat ltac:(lia)). by change (0 < 0) in H2.
      * destruct (Hstep (S n)) as [E|[_ ?]]; [lia | change (Z.of_nat (S n) = Z.of_nat (S (S n)) - 1); lia | done | lia].
    + destruct (Hstep n) as [E|[? _]]; [lia | done | done | done].
Qed.

(** [findMatchingParen] finds the parenthesis that matches the open one: the
    text between them is balanced, and it is the first place where that is so;
    without a match it finds none. *)
Theorem findMatchingParen_spec sql i e :
  findMatchingParen sql i = Some e <->
  sql !! i = Some cLpar /\ (i < e)%nat /\ sql !! e = Some cRpar
  /\ depth 0 (take (e - (i + 1)) (drop (i + 1) sql)) = 0
  /\ forall j, (i < j <= e)%nat -> 0 <= depth 0 (take (j - (i + 1)) (drop (i + 1) sql)).
Proof.
  assert (Hshift : forall s d, depth d s = d + depth 0 s).
  { induction s as [|c s IH]; intros d; cbn [depth]; [lia |].
    rewrite IH. rewrite (IH (if c =? cLpar then 0 + 1 else if c =? cRpar then 0 - 1 else 0)).
    destruct (c =? cLpar); [lia |]. destruct (c =? cRpar); lia. }
  unfold findMatchingParen.
  destruct (holds_at (Z.eqb cLpar) sql i) eqn:Hh.
  - unfold holds_at in Hh. destruct (sql !! i) as [c|] eqn:Ei; [|done]. apply Z.eqb_eq in Hh as <-.
    rewrite fmap_Some. split.
    + intros (k & E & ->). apply close_paren_spec in E as (Hl & H1 & H2); [|lia].
      rewrite lookup_drop in Hl. split; [done |]. split; [lia |]. split; [done |].
      replace (i + 1 + k - (i + 1))%nat with k by lia. rewrite Hshift in H1. cbn in H1. split; [lia |].
      intros j Hj. specialize (H2 (j - (i + 1))%nat ltac:(lia)). rewrite Hshift in H2. cbn in H2. lia.
    + intros (_ & Hlt & Hl & H1 & H2). exists (e - (i + 1))%nat. split; [|lia].
      apply close_paren_spec; [lia |]. rewrite lookup_drop. replace (i + 1 + (e - (i + 1)))%nat with e by lia.
      split; [done |]. rewrite Hshift. cbn. split; [lia |]. intros j Hj. rewrite Hshift. cbn.
      specialize (H2 (j + (i + 1))%nat ltac:(lia)). replace (j + (i + 1) - (i + 1))%nat with j in H2 by lia. lia.
  - split; [done |]. intros (Hl & _). unfold holds_at in Hh. by rewrite Hl in Hh.
Qed.

End clauses.

Lemma limit_converted_witness :
  @convertLimitSyntax ascii_tables 2 (str "SELECT a FROM t limit  5 , 10;")
  = Ret (str "SELECT a FROM t LIMIT 10 OFFSET 5;").
Proof.
  refine (@limit_converted ascii_tables (str "SELECT a FROM t ") (str "limit") (str "  ") (str "5") (str " ")
            (str " ") (str "10") (str ";") _ _ _ _ _ _ _ _ _ _ 2 _);
    first [vm_compute; reflexivity | vm_compute; discriminate | lia].
Defined.
