(* ===== verification/ACL.v ===== *)
(** * Users and privileges

    [pkg/sqlrewrite/rewrite_acl.go]: MySQL's CREATE USER, DROP USER, GRANT and
    REVOKE as PostgreSQL role statements.  The TiDB parser is the argument
    [ParseACL]; the nodes it returns carry the fields the code reads. *)

From Stdlib Require Import ZArith Lia.
From stdpp Require Import base numbers list strings.
From S2P Require Import Prelude GoStd GoStrings SQLText.
Open Scope Z_scope.

(** ** Data *)

Inductive PrivilegeType :=
| AllPriv | SelectPriv | InsertPriv | UpdatePriv | DeletePriv | CreatePriv | DropPriv | AlterPriv
| IndexPriv | ExecutePriv | ReferencesPriv | TriggerPriv | UsagePriv | GrantPriv | ShowDBPriv
| CreateUserPriv | ProcessPriv | ReloadPriv | FilePriv | SuperPriv
| ReplicationSlavePriv | ReplicationClientPriv
| OtherPriv (name : option bytes).  (** any other one, with its entry in [Priv2Str] *)

Inductive GrantLevelType := GrantLevelNone | GrantLevelGlobal | GrantLevelDB | GrantLevelTable.
Record GrantLevel := mkLevel { Level : GrantLevelType; DBName : bytes; TableName : bytes }.

Record AuthOption := mkAuth { ByAuthString : bool; AuthString : bytes }.
Record UserSpec := mkSpec { Username : bytes; AuthOpt : option AuthOption }.

Inductive acl_stmt :=
| CreateUserStmt (ifNotExists : bool) (specs : list UserSpec)
| DropUserStmt (ifExists : bool) (userList : list bytes)
| GrantStmt (privs : list PrivilegeType) (level : option GrantLevel) (users : list UserSpec)
| RevokeStmt (privs : list PrivilegeType) (level : option GrantLevel) (users : list UserSpec)
| FlushACLStmt (privileges : bool)
| OtherACLStmt.

Section acl.
Context `{!Unicode}.

Definition IsACLCommand (sql : bytes) : bool :=
  let upper := toUpper (TrimSpace sql) in
  existsb (fun p => has_prefix p upper)
    (map str ["CREATE USER"; "DROP USER"; "GRANT "; "REVOKE "; "FLUSH PRIVILEGES"]%string).

(** ** Names and strings *)

Definition plain_char (c : Z) : bool := is_lower c || is_upper c || digit c || (c =? cUnderscore).

Definition quoteIdentifier (name : bytes) : bytes :=
  let name := Trim name [cBacktick; cQuote; cDquote] in
  match name with
  | [] => []
  | _ => if forallb plain_char name then name else [cDquote] ++ name ++ [cDquote]
  end.

Definition escapeString (s : bytes) : bytes := ReplaceAll s [cQuote] [cQuote; cQuote].

(** ** Statements *)

Definition rewriteCreateUser (specs : list UserSpec) : bytes :=
  match specs with
  | [] => str "CREATE ROLE WITH LOGIN"
  | spec :: _ =>
      join (str " ")
        ([str "CREATE ROLE"; quoteIdentifier (Username spec); str "WITH LOGIN"]
         ++ match AuthOpt spec with
            | Some a => if ByAuthString a
                        then [str "PASSWORD '" ++ escapeString (AuthString a) ++ str "'"] else []
            | None => []
            end)
  end.

Definition rewriteDropUser (ifExists : bool) (userList : list bytes) : bytes :=
  join (str " ")
    ([str "DROP ROLE"] ++ (if ifExists then [str "IF EXISTS"] else [])
     ++ [join (str ", ") (map quoteIdentifier userList)]).

Definition hasReplicationPriv (privs : list PrivilegeType) : bool :=
  existsb (fun p => match p with ReplicationSlavePriv | ReplicationClientPriv => true | _ => false end) privs.

Definition mapPriv (p : PrivilegeType) : list bytes :=
  match p with
  | AllPriv => [str "ALL PRIVILEGES"]
  | SelectPriv => [str "SELECT"]
  | InsertPriv => [str "INSERT"]
  | UpdatePriv => [str "UPDATE"]
  | DeletePriv => [str "DELETE"]
  | CreatePriv => [str "CREATE"]
  | DropPriv => [str "DROP"]
  | AlterPriv => [str "ALTER"]
  | IndexPriv => [str "CREATE"]
  | ExecutePriv => [str "EXECUTE"]
  | ReferencesPriv => [str "REFERENCES"]
  | TriggerPriv => [str "TRIGGER"]
  | UsagePriv => [str "USAGE"]
  | GrantPriv => [str "ALL PRIVILEGES"]
  | ShowDBPriv => [str "CONNECT"]
  | CreateUserPriv => [str "CREATEROLE"]
  | ProcessPriv => [str "pg_read_all_stats"]
  | ReloadPriv => [str "EXECUTE"]
  | FilePriv => [str "pg_read_server_files"]
  | SuperPriv => [str "SUPERUSER"]
  | ReplicationSlavePriv | ReplicationClientPriv => [str "REPLICATION"]
  | OtherPriv (Some name) => [toUpper name]
  | OtherPriv None => []
  end.

Definition mapPrivsFromAST (privs : list PrivilegeType) : bytes :=
  match concat (map mapPriv privs) with
  | [] => str "USAGE"
  | l => join (str ", ") l
  end.

Definition all_tables : bytes := str "ALL TABLES IN SCHEMA public".

Definition mapGrantLevelFromAST (level : option GrantLevel) : bytes :=
  match level with
  | None => all_tables
  | Some l =>
      match Level l with
      | GrantLevelDB =>
          if bytes_eqb (DBName l) [] then all_tables
          else str "ALL TABLES IN SCHEMA " ++ quoteIdentifier (DBName l)
      | GrantLevelTable =>
          if negb (bytes_eqb (DBName l) []) && negb (bytes_eqb (TableName l) [])
          then str "TABLE " ++ quoteIdentifier (DBName l) ++ str "." ++ quoteIdentifier (TableName l)
          else if negb (bytes_eqb (TableName l) []) then str "TABLE " ++ quoteIdentifier (TableName l)
          else all_tables
      | GrantLevelGlobal | GrantLevelNone => all_tables
      end
  end.

Definition pg_users (users : list UserSpec) : bytes :=
  join (str ", ") (map (fun s => quoteIdentifier (Username s)) users).

Definition rewriteGrant (privs : list PrivilegeType) (level : option GrantLevel) (users : list UserSpec) : bytes :=
  match users with
  | [] => str "-- empty GRANT (no users)"
  | u :: _ =>
      if hasReplicationPriv privs
      then str "ALTER ROLE " ++ quoteIdentifier (Username u) ++ str " REPLICATION"
      else str "GRANT " ++ mapPrivsFromAST privs ++ str " ON " ++ mapGrantLevelFromAST level
           ++ str " TO " ++ pg_users users
  end.

Definition rewriteRevoke (privs : list PrivilegeType) (level : option GrantLevel) (users : list UserSpec) : bytes :=
  match users with
  | [] => str "-- empty REVOKE (no users)"
  | u :: _ =>
      if hasReplicationPriv privs
      then str "ALTER ROLE " ++ quoteIdentifier (Username u) ++ str " NOREPLICATION"
      else str "REVOKE " ++ mapPrivsFromAST privs ++ str " ON " ++ mapGrantLevelFromAST level
           ++ str " FROM " ++ pg_users users
  end.

(** [RewriteACL]: the statement and whether it was handled. *)
Definition RewriteACL (ParseACL : bytes -> res (list acl_stmt)) (sql : bytes) : res (bytes * bool) :=
  match ParseACL sql with
  | Panic => Panic
  | Err _ | Ok [] => Ok (sql, false)
  | Ok (stmt :: _) =>
      Ok match stmt with
         | CreateUserStmt _ specs => (rewriteCreateUser specs, true)
         | DropUserStmt ifExists users => (rewriteDropUser ifExists users, true)
         | GrantStmt privs level users => (rewriteGrant privs level users, true)
         | RevokeStmt privs level users => (rewriteRevoke privs level users, true)
         | FlushACLStmt true => ([], true)
         | _ => (sql, false)
         end
  end.
End acl.

(** ** Reading the statements back, as PostgreSQL does *)

(** The rest of a string literal after its opening quote: its value and the
    text after it (standard-conforming strings: backslashes are ordinary). *)
Fixpoint read_literal (s : bytes) : option (bytes * bytes) :=
  match s with
  | [] => None
  | c :: t =>
      if c =? cQuote then
        match t with
        | d :: t' => if d =? cQuote then prod_map (cons cQuote) id <$> read_literal t' else Some ([], t)
        | [] => Some ([], [])
        end
      else prod_map (cons c) id <$> read_literal t
  end.

(** The rest of a quoted identifier after its opening quote. *)
Fixpoint read_quoted (s : bytes) : option (bytes * bytes) :=
  match s with
  | [] => None
  | c :: t =>
      if c =? cDquote then
        match t with
        | d :: t' => if d =? cDquote then prod_map (cons cDquote) id <$> read_quoted t' else Some ([], t)
        | [] => Some ([], [])
        end
      else prod_map (cons c) id <$> read_quoted t
  end.

(** An identifier, with the text after it: quoted and not empty, or a letter
    or underscore (or a byte of a longer character) with letters, underscores,
    digits and dollars after it, folded to lower case and not one of the
    [reserved] words.  (The truncation to 63 bytes is left out.) *)
Definition ident_start (c : Z) : bool := is_letter c || (c =? cUnderscore) || (128 <=? c).
Definition ident_cont (c : Z) : bool := ident_start c || digit c || (c =? cDollar).
Fixpoint span_ident (s : bytes) : bytes * bytes :=
  match s with
  | c :: t => if ident_cont c then let (a, b) := span_ident t in (c :: a, b) else ([], s)
  | [] => ([], [])
  end.
Definition fold_case (s : bytes) : bytes := map (fun c => if is_upper c then c + 32 else c) s.
Definition read_ident (reserved : bytes -> bool) (s : bytes) : option (bytes * bytes) :=
  match s with
  | [] => None
  | c :: t =>
      if c =? cDquote then
        match read_quoted t with Some ([], _) => None | r => r end
      else if ident_start c then
        let (a, rest) := span_ident s in
        if reserved (fold_case a) then None else Some (fold_case a, rest)
      else None
  end.

Lemma escapeString_cons c s :
  escapeString (c :: s) = (if c =? cQuote then [cQuote; cQuote] else [c]) ++ escapeString s.
Proof.
  unfold escapeString, ReplaceAll. cbn [replace_from has_prefix]. rewrite (Z.eqb_sym cQuote c), andb_true_r.
  by destruct (c =? cQuote).
Qed.

Definition starts (c : Z) (s : bytes) : bool := holds_at (Z.eqb c) s 0.

Lemma read_escaped s rest :
  starts cQuote rest = false -> read_literal (escapeString s ++ cQuote :: rest) = Some (s, rest).
Proof.
  intros Hr. induction s as [|c s IH].
  - destruct rest as [|d rest]; [done |]. unfold starts, holds_at in Hr. cbn [lookup list_lookup] in Hr.
    cbn [escapeString ReplaceAll replace_from app read_literal]. rewrite Z.eqb_refl, (Z.eqb_sym d), Hr. done.
  - rewrite escapeString_cons. destruct (c =? cQuote) eqn:Ec.
    + apply Z.eqb_eq in Ec as ->. cbn [app read_literal]. rewrite !Z.eqb_refl, IH. done.
    + cbn [app read_literal]. by rewrite Ec, IH.
Qed.

Lemma read_quoted_plain s rest :
  cDquote ∉ s -> starts cDquote rest = false -> read_quoted (s ++ cDquote :: rest) = Some (s, rest).
Proof.
  intros Hs Hr. induction s as [|c s IH].
  - destruct rest as [|d rest]; [done |]. unfold starts, holds_at in Hr. cbn [lookup list_lookup] in Hr.
    cbn [app read_quoted]. rewrite Z.eqb_refl, (Z.eqb_sym d), Hr. done.
  - apply not_elem_of_cons in Hs as [Hc Hs]. cbn [app read_quoted].
    rewrite (proj2 (Z.eqb_neq c cDquote)) by done. by rewrite IH.
Qed.

Lemma plain_ident c : plain_char c = true -> ident_cont c = true.
Proof.
  unfold plain_char, ident_cont, ident_start, is_letter.
  destruct (is_lower c), (is_upper c), (digit c), (c =? cUnderscore); try done; by rewrite ?orb_true_r.
Qed.

Lemma span_ident_app s rest :
  forallb plain_char s = true -> holds_at ident_cont rest 0 = false -> span_ident (s ++ rest) = (s, rest).
Proof.
  intros Hs Hr. induction s as [|c s IH]; cbn [app].
  - destruct rest as [|d rest]; [done |]. unfold holds_at in Hr. cbn [lookup list_lookup] in Hr.
    cbn [span_ident]. by rewrite Hr.
  - simpl in Hs. apply andb_true_iff in Hs as [Hc Hs]. cbn [span_ident]. by rewrite plain_ident, IH.
Qed.

(** A text with its double quotes doubled. *)
Definition doubled (s : bytes) : bytes := concat (map (fun c => if c =? cDquote then [c; c] else [c]) s).

Lemma read_quoted_doubled d rest : starts cDquote rest = false -> read_quoted (doubled d ++ cDquote :: rest) = Some (d, rest).
Proof.
  intros Hr. induction d as [|c d IH]; [by apply (read_quoted_plain []); [apply not_elem_of_nil |] |].
  unfold doubled. cbn [map concat]. fold (doubled d). destruct (Z.eqb_spec c cDquote) as [->|Hc]; cbn [app read_quoted].
  - by rewrite Z.eqb_refl, IH.
  - by rewrite (proj2 (Z.eqb_neq _ _) Hc), IH.
Qed.

Lemma doubled_plain s : cDquote ∉ s -> doubled s = s.
Proof.
  induction s as [|c s IH]; [done |]. intros [Hc Hs]%not_elem_of_cons. unfold doubled. cbn [map concat].
  fold (doubled s). rewrite (proj2 (Z.eqb_neq c cDquote)) by done. cbn. by rewrite IH.
Qed.

(** What the reader drops: the closing quote, and one of each doubled quote. *)
Lemma read_quoted_length s v r : read_quoted s = Some (v, r) ->
  length s = (length v + length (List.filter (Z.eqb cDquote) v) + 1 + length r)%nat.
Proof.
  revert v r. induction s as [s IH] using (induction_ltof1 _ (@length Z)). unfold ltof in IH. intros v r E.
  destruct s as [|c t]; [done |]. cbn [read_quoted] in E. destruct (Z.eqb_spec c cDquote) as [->|Hc].
  - destruct t as [|d t]; simplify_eq; [done |]. destruct (Z.eqb_spec d cDquote) as [->|Hd]; [|simplify_eq; cbn; lia].
    apply fmap_Some in E as ([v' r'] & E & [= -> ->]). apply IH in E; [|cbn; lia].
    cbn [length List.filter prod_map fst snd id]. rewrite Z.eqb_refl. cbn [length]. lia.
  - apply fmap_Some in E as ([v' r'] & E & [= -> ->]). apply IH in E; [|cbn; lia].
    cbn [length List.filter prod_map fst snd id]. rewrite (Z.eqb_sym cDquote), (proj2 (Z.eqb_neq _ _) Hc). lia.
Qed.

Lemma read_quoted_self s rest : read_quoted (s ++ cDquote :: rest) = Some (s, rest) -> cDquote ∉ s.
Proof.
  intros E%read_quoted_length Hin. rewrite length_app in E. cbn [length] in E.
  assert (length (List.filter (Z.eqb cDquote) s) = 0%nat) as E0 by lia. apply nil_length_inv in E0.
  assert (Hf : In cDquote (List.filter (Z.eqb cDquote) s)) by (apply filter_In; split; [by apply list_elem_of_In | done]).
  by rewrite E0 in Hf.
Qed.

Lemma plain_not_dquote s : forallb plain_char s = true -> cDquote ∉ s.
Proof.
  intros Hs Hin. rewrite forallb_forall in Hs.
  assert (plain_char cDquote = true) as Hx by (apply Hs; by apply list_elem_of_In). done.
Qed.

Definition trimmed (name : bytes) : bytes := Trim name [cBacktick; cQuote; cDquote].

(** C13: The password of a CREATE USER reaches PostgreSQL unchanged, whatever
    characters it has: the string literal the rewriter writes reads back as the
    password and ends where the rewriter ends it. *)
Theorem password_literal spec others a :
  AuthOpt spec = Some a -> ByAuthString a = true ->
  exists pre, rewriteCreateUser (spec :: others) = pre ++ cQuote :: escapeString (AuthString a) ++ [cQuote]
    /\ pre = str "CREATE ROLE " ++ quoteIdentifier (Username spec) ++ str " WITH LOGIN PASSWORD "
    /\ read_literal (escapeString (AuthString a) ++ [cQuote]) = Some (AuthString a, []).
Proof.
  intros Ea Hb. eexists. split; [|split; [done |]].
  - unfold rewriteCreateUser. rewrite Ea, Hb. cbn [app join]. by rewrite <- !app_assoc.
  - by apply read_escaped.
Qed.

(** What the rewriter puts after a name: nothing, a blank, a comma or a dot. *)
Definition separated (rest : bytes) : Prop := match rest with [] => True | c :: _ => c = cSpace \/ c = cComma \/ c = 46 end.

Lemma separated_quote rest : separated rest -> starts cDquote rest = false.
Proof. destruct rest; [done |]. by intros [->|[->| ->]]. Qed.
Lemma separated_ident rest : separated rest -> holds_at ident_cont rest 0 = false.
Proof. destruct rest; [done |]. by intros [->|[->| ->]]. Qed.

(** A name PostgreSQL takes as it stands without quotes. *)
Definition bare_name (reserved : bytes -> bool) (s : bytes) : Prop :=
  holds_at digit s 0 = false /\ fold_case s = s /\ reserved s = false.

Section identifiers.
Context (reserved : bytes -> bool) (name rest : bytes).
Context (Hname : trimmed name <> []) (Hrest : separated rest).

Lemma read_unquoted : forallb plain_char (trimmed name) = true ->
  read_ident reserved (quoteIdentifier name ++ rest)
  = if holds_at digit (trimmed name) 0 || reserved (fold_case (trimmed name)) then None
    else Some (fold_case (trimmed name), rest).
Proof.
  intros Hp. unfold quoteIdentifier. fold (trimmed name). rewrite Hp.
  pose proof (span_ident_app (trimmed name) rest Hp (separated_ident _ Hrest)) as Hs.
  destruct (trimmed name) as [|c t] eqn:Et; [done |]. pose proof Hp as Hp'. simpl in Hp'.
  apply andb_true_iff in Hp' as [Hc _]. cbn [app read_ident] in *. rewrite Hs.
  assert ((c =? cDquote) = false) as -> by (destruct (Z.eqb_spec c cDquote) as [->|]; done).
  change (holds_at digit (c :: t) 0) with (digit c).
  assert (ident_start c = negb (digit c)) as ->.
  { unfold plain_char, ident_start, is_letter, is_lower, is_upper, digit in *. lia. }
  by destruct (digit c).
Qed.

Lemma read_delimited d r : forallb plain_char (trimmed name) = false -> d <> [] ->
  read_quoted (trimmed name ++ cDquote :: rest) = Some (d, r) ->
  read_ident reserved (quoteIdentifier name ++ rest) = Some (d, r).
Proof.
  intros Hp Hd Hr. unfold quoteIdentifier. fold (trimmed name). rewrite Hp.
  destruct (trimmed name) as [|c t] eqn:Et; [done |]. cbn [app read_ident]. rewrite Z.eqb_refl.
  change (c :: t ++ [cDquote]) with ((c :: t) ++ [cDquote]). cbn [app] in Hr |- *.
  rewrite <- app_assoc. cbn [app]. rewrite Hr. by destruct d.
Qed.
End identifiers.

(** C33: PostgreSQL reads a user, database or table name of a rewritten statement
    as the name itself exactly when it is lower case, not a reserved word and
    does not start with a digit, or has a character that makes
    [quoteIdentifier] quote it and no double quote.  Otherwise an unquoted name
    is folded to lower case, or is no identifier when it is reserved or starts
    with a digit; inside a quoted one a doubled double quote is read as one, and a
    single one ends the identifier: the rest of the name continues the
    statement. *)
Theorem identifier_boundary reserved name rest :
  trimmed name <> [] -> separated rest ->
  let ident := read_ident reserved (quoteIdentifier name ++ rest) in
  (ident = Some (trimmed name, rest)
   <-> if forallb plain_char (trimmed name) then bare_name reserved (trimmed name) else cDquote ∉ trimmed name)
  /\ (forallb plain_char (trimmed name) = true ->
      ident = if holds_at digit (trimmed name) 0 || reserved (fold_case (trimmed name)) then None
              else Some (fold_case (trimmed name), rest))
  /\ (forall d, forallb plain_char (trimmed name) = false -> trimmed name = doubled d -> ident = Some (d, rest))
  /\ (forall d b, trimmed name = doubled d ++ cDquote :: b -> d <> [] -> b <> [] -> starts cDquote b = false ->
      ident = Some (d, b ++ cDquote :: rest)).
Proof.
  intros Hne Hr ident. pose proof (separated_quote _ Hr) as Hq.
  assert (Hdbl : forall d, forallb plain_char (trimmed name) = false -> trimmed name = doubled d -> ident = Some (d, rest)).
  { intros d Hp E. apply read_delimited; [done | done | | by rewrite E, read_quoted_doubled].
    intros ->. by rewrite E in Hne. }
  split; [|split; [|split; [done |]]].
  - destruct (forallb plain_char (trimmed name)) eqn:Hp.
    + unfold ident, bare_name. rewrite read_unquoted by done.
      destruct (holds_at digit (trimmed name) 0); cbn [orb]; [by split; [|intros [? _]] |].
      split.
      * destruct (reserved (fold_case (trimmed name))) eqn:Er; [done |]. intros [= E]. by rewrite E in Er.
      * intros (_ & -> & ->). done.
    + split.
      * intros E. apply (read_quoted_self _ rest). revert E. unfold ident, quoteIdentifier. fold (trimmed name).
        rewrite Hp. destruct (trimmed name) as [|c t] eqn:Et; [done |]. cbn [app read_ident]. rewrite Z.eqb_refl, <- app_assoc.
        cbn [app]. by destruct (read_quoted _) as [[[] ?]|].
      * intros Hd. apply Hdbl; [done | by rewrite doubled_plain].
  - intros Hp. by apply read_unquoted.
  - intros d b E Hd Hb Hs. apply read_delimited; [done | | done |].
    + destruct (forallb plain_char (trimmed name)) eqn:Hp; [|done]. apply plain_not_dquote in Hp.
      exfalso. apply Hp. rewrite E. apply elem_of_app. right. left.
    + rewrite E, <- app_assoc. cbn [app]. apply read_quoted_doubled. by destruct b.
Qed.

Definition demo_spec : UserSpec := mkSpec (str "app") (Some (mkAuth true (str "o'clock"))).
Lemma password_literal_witness :
  exists pre, rewriteCreateUser [demo_spec] = pre ++ cQuote :: escapeString (str "o'clock") ++ [cQuote]
    /\ pre = str "CREATE ROLE " ++ quoteIdentifier (Username demo_spec) ++ str " WITH LOGIN PASSWORD "
    /\ read_literal (escapeString (str "o'clock") ++ [cQuote]) = Some (str "o'clock", []).
Proof. apply (password_literal demo_spec [] (mkAuth true (str "o'clock"))); reflexivity. Defined.

(** A name with a double quote inside. *)
Definition bad_name : bytes := str "x-y" ++ cDquote :: str " SUPERUSER; --".
Definition demo_reserved (w : bytes) : bool := existsb (bytes_eqb w) (map str ["user"; "order"; "table"]%string).
Lemma identifier_boundary_witness :
  let read name := read_ident demo_reserved (quoteIdentifier (str name) ++ str " WITH LOGIN") in
  read "my app"%string = Some (str "my app", str " WITH LOGIN")
  /\ read "MyUser"%string = Some (str "myuser", str " WITH LOGIN")
  /\ read "order"%string = None
  /\ read_ident demo_reserved (quoteIdentifier bad_name ++ str " WITH LOGIN")
     = Some (str "x-y", str " SUPERUSER; --" ++ cDquote :: str " WITH LOGIN").
Proof.
  intros read.
  assert (Hw : separated (str " WITH LOGIN")) by (by left). split; [|split; [|split]].
  - refine (proj2 (proj1 (identifier_boundary demo_reserved (str "my app") (str " WITH LOGIN") ltac:(done) Hw)) _).
    refine (bool_decide_unpack _ _); vm_compute; exact I.
  - exact (proj1 (proj2 (identifier_boundary demo_reserved (str "MyUser") (str " WITH LOGIN") ltac:(done) Hw)) eq_refl).
  - exact (proj1 (proj2 (identifier_boundary demo_reserved (str "order") (str " WITH LOGIN") ltac:(done) Hw)) eq_refl).
  - refine (proj2 (proj2 (proj2 (identifier_boundary demo_reserved bad_name (str " WITH LOGIN") ltac:(done) Hw)))
      (str "x-y") (str " SUPERUSER; --") _ _ _ _); done.
Defined.
