(* ===== verification/TypeMap.v ===== *)
(** * Types and the AST visitor

    [pkg/sqlrewrite/type_mapper.go] and [ast_visitor.go]: MySQL column types as
    PostgreSQL types, and what the visitor changes in a syntax tree.  The tree
    itself is the TiDB parser's; the node types here carry the fields the
    visitor reads and writes. *)

From Stdlib Require Import ZArith Lia.
From stdpp Require Import base numbers list strings.
From S2P Require Import Prelude GoStd GoStrings.
Open Scope Z_scope.

(** ** [types.FieldType] *)

Inductive MySQLType :=
| TypeTiny | TypeShort | TypeInt24 | TypeLong | TypeLonglong | TypeFloat | TypeDouble | TypeNewDecimal
| TypeDate | TypeDatetime | TypeTimestamp | TypeDuration | TypeYear
| TypeVarchar | TypeVarString | TypeString | TypeTinyBlob | TypeBlob | TypeMediumBlob | TypeLongBlob
| TypeJSON | TypeEnum | TypeSet | TypeBit | TypeGeometry | TypeNull | TypeOther (code : Z).

#[global] Instance MySQLType_eq_dec : EqDecision MySQLType.
Proof. solve_decision. Defined.

Record FieldType := mkField {
  ft_Type : MySQLType; Flag : Z; Flen : Z; Decimal : Z; Elems : list bytes }.

(** The flags, by their bit. *)
Definition UnsignedFlag : Z := 5.
Definition ZerofillFlag : Z := 6.
Definition BinaryFlag : Z := 7.
Definition HasFlag (f : Z) (flag : Z) : bool := Z.testbit flag f.

Definition SetType (t : MySQLType) (tp : FieldType) : FieldType :=
  mkField t (Flag tp) (Flen tp) (Decimal tp) (Elems tp).
Definition SetFlen (n : Z) (tp : FieldType) : FieldType :=
  mkField (ft_Type tp) (Flag tp) n (Decimal tp) (Elems tp).
Definition SetDecimal (n : Z) (tp : FieldType) : FieldType :=
  mkField (ft_Type tp) (Flag tp) (Flen tp) n (Elems tp).
Definition SetElems (l : list bytes) (tp : FieldType) : FieldType :=
  mkField (ft_Type tp) (Flag tp) (Flen tp) (Decimal tp) l.
Definition DelFlag (f : Z) (tp : FieldType) : FieldType :=
  mkField (ft_Type tp) (Z.clearbit (Flag tp) f) (Flen tp) (Decimal tp) (Elems tp).

(** ** [TypeMapper] *)

Section mapper.
Context `{!Unicode}.

Definition with_len (name : bytes) (n : Z) : bytes := name ++ str "(" ++ dec_Z n ++ str ")".

Definition MySQLToPostgreSQL (tp : option FieldType) : bytes :=
  match tp with
  | None => str "TEXT"
  | Some tp =>
      let isUnsigned := HasFlag UnsignedFlag (Flag tp) in
      let flen := Flen tp in
      let blob := if HasFlag BinaryFlag (Flag tp) then str "BYTEA" else str "TEXT" in
      match ft_Type tp with
      | TypeTiny | TypeShort => str "SMALLINT"
      | TypeLong | TypeInt24 => if isUnsigned then str "BIGINT" else str "INTEGER"
      | TypeLonglong => if isUnsigned then str "NUMERIC(20,0)" else str "BIGINT"
      | TypeFloat => str "REAL"
      | TypeDouble => str "DOUBLE PRECISION"
      | TypeNewDecimal =>
          if 0 <? flen then
            if 0 <? Decimal tp
            then str "NUMERIC(" ++ dec_Z flen ++ str "," ++ dec_Z (Decimal tp) ++ str ")"
            else with_len (str "NUMERIC") flen
          else str "NUMERIC"
      | TypeDate => str "DATE"
      | TypeDatetime | TypeTimestamp =>
          if 0 <? flen then with_len (str "TIMESTAMP") flen else str "TIMESTAMP"
      | TypeDuration => if 0 <? flen then with_len (str "TIME") flen else str "TIME"
      | TypeYear => str "SMALLINT"
      | TypeVarchar | TypeVarString =>
          if (0 <? flen) && (flen <=? 65535) then with_len (str "VARCHAR") flen else str "TEXT"
      | TypeString => if (0 <? flen) && (flen <=? 255) then with_len (str "CHAR") flen else str "TEXT"
      | TypeTinyBlob | TypeBlob | TypeMediumBlob | TypeLongBlob => blob
      | TypeJSON => str "JSONB"
      | TypeEnum => str "TEXT"
      | TypeSet => str "TEXT[]"
      | TypeBit => if 0 <? flen then with_len (str "BIT") flen else str "BIT"
      | TypeGeometry => str "GEOMETRY"
      | TypeNull | TypeOther _ => str "TEXT"
      end
  end.

Definition IsBooleanType (tp : option FieldType) : bool :=
  match tp with
  | None => false
  | Some tp => bool_decide (ft_Type tp = TypeTiny) && (Flen tp =? 1)
  end.

Definition MySQLToPostgreSQLBoolean (tp : option FieldType) : bytes :=
  if IsBooleanType tp then str "BOOLEAN" else MySQLToPostgreSQL tp.

Definition one_of (s : bytes) (l : list string) : bool := existsb (fun t => bytes_eqb s (str t)) l.

Definition MySQLToPostgreSQLString (mysqlType : bytes) : bytes :=
  let upper := toUpper (TrimSpace mysqlType) in
  let baseType := match index (str "(") upper with
                  | Some idx => TrimSpace (take idx upper)
                  | None => upper
                  end in
  if one_of baseType ["TINYINT"%string] then Replace1 upper (str "TINYINT") (str "SMALLINT")
  else if one_of baseType ["INT"; "INTEGER"; "MEDIUMINT"]%string then
    if Contains upper (str "UNSIGNED")
    then Replace1 (Replace1 upper (str "UNSIGNED") []) baseType (str "BIGINT")
    else Replace1 upper baseType (str "INTEGER")
  else if one_of baseType ["BIGINT"%string] then
    if Contains upper (str "UNSIGNED") then str "NUMERIC(20,0)" else upper
  else if one_of baseType ["FLOAT"%string] then Replace1 upper (str "FLOAT") (str "REAL")
  else if one_of baseType ["DOUBLE"; "DOUBLE PRECISION"]%string then str "DOUBLE PRECISION"
  else if one_of baseType ["DECIMAL"; "NUMERIC"]%string then Replace1 upper (str "DECIMAL") (str "NUMERIC")
  else if one_of baseType ["DATETIME"; "TIMESTAMP"]%string then
    Replace1 (Replace1 upper (str "DATETIME") (str "TIMESTAMP")) (str "TIMESTAMP") (str "TIMESTAMP")
  else if one_of baseType ["YEAR"%string] then str "SMALLINT"
  else if one_of baseType ["TINYTEXT"; "TINYBLOB"]%string then
    if Contains baseType (str "BLOB") then str "BYTEA" else str "TEXT"
  else if one_of baseType ["TEXT"; "MEDIUMTEXT"; "LONGTEXT"]%string then str "TEXT"
  else if one_of baseType ["BLOB"; "MEDIUMBLOB"; "LONGBLOB"]%string then str "BYTEA"
  else if one_of baseType ["JSON"%string] then str "JSONB"
  else if one_of baseType ["ENUM"%string] then str "TEXT"
  else if one_of baseType ["SET"%string] then str "TEXT[]"
  else upper.

Definition GetPostgreSQLDefaultValue (mysqlDefault pgType : bytes) : bytes :=
  let upper := toUpper mysqlDefault in
  match mysqlDefault with
  | [] => []
  | _ =>
      if one_of upper ["NOW()"; "CURRENT_TIMESTAMP()"; "CURRENT_TIMESTAMP"]%string then str "CURRENT_TIMESTAMP"
      else if one_of upper ["CURDATE()"; "CURRENT_DATE()"; "CURRENT_DATE"]%string then str "CURRENT_DATE"
      else if one_of upper ["CURTIME()"; "CURRENT_TIME()"; "CURRENT_TIME"]%string then str "CURRENT_TIME"
      else if has_prefix (str "BOOLEAN") pgType && (bytes_eqb mysqlDefault (str "0") || bytes_eqb upper (str "FALSE"))
      then str "FALSE"
      else if has_prefix (str "BOOLEAN") pgType && (bytes_eqb mysqlDefault (str "1") || bytes_eqb upper (str "TRUE"))
      then str "TRUE"
      else mysqlDefault
  end.

(** ** The visitor *)

(** [createFunctionMap]. *)
Definition functionMap : list (string * string) :=
  [("now", "CURRENT_TIMESTAMP"); ("curdate", "CURRENT_DATE"); ("current_date", "CURRENT_DATE");
   ("curtime", "CURRENT_TIME"); ("current_time", "CURRENT_TIME");
   ("unix_timestamp", "EXTRACT(EPOCH FROM CURRENT_TIMESTAMP)"); ("from_unixtime", "TO_TIMESTAMP");
   ("date_format", "TO_CHAR"); ("str_to_date", "TO_DATE"); ("date_add", ""); ("date_sub", "");
   ("datediff", ""); ("timestampdiff", "");
   ("concat", "CONCAT"); ("concat_ws", "CONCAT_WS"); ("length", "LENGTH"); ("char_length", "CHAR_LENGTH");
   ("substring", "SUBSTRING"); ("substr", "SUBSTRING"); ("left", "LEFT"); ("right", "RIGHT");
   ("upper", "UPPER"); ("lower", "LOWER"); ("trim", "TRIM"); ("ltrim", "LTRIM"); ("rtrim", "RTRIM");
   ("replace", "REPLACE"); ("locate", "POSITION"); ("instr", ""); ("find_in_set", "");
   ("abs", "ABS"); ("ceil", "CEIL"); ("ceiling", "CEIL"); ("floor", "FLOOR"); ("round", "ROUND");
   ("mod", "MOD"); ("power", "POWER"); ("pow", "POWER"); ("sqrt", "SQRT"); ("rand", "RANDOM");
   ("count", "COUNT"); ("sum", "SUM"); ("avg", "AVG"); ("max", "MAX"); ("min", "MIN");
   ("group_concat", "STRING_AGG");
   ("if", ""); ("ifnull", "COALESCE"); ("nullif", "NULLIF"); ("coalesce", "COALESCE");
   ("cast", "CAST"); ("convert", "CAST");
   ("json_extract", ""); ("json_unquote", ""); ("json_array", "JSON_BUILD_ARRAY");
   ("json_object", "JSON_BUILD_OBJECT"); ("last_insert_id", "lastval")]%string.

(** A function name as the parser keeps it: as written and in lower case. *)
Record CIStr := mkCI { ci_O : bytes; ci_L : bytes }.
Definition NewCIStr (s : bytes) : CIStr := mkCI s (toLower s).

(** The methods for functions with an empty entry. *)
Definition transformIF (fnName : CIStr) : CIStr := fnName.
Definition transformDateAddSub (fnName : CIStr) : CIStr := fnName.
Definition transformGroupConcat (fnName : CIStr) : CIStr := NewCIStr (str "STRING_AGG").
Definition transformUnixTimestamp (fnName : CIStr) : CIStr := fnName.

Definition visitFuncCall (fnName : CIStr) : CIStr :=
  let funcName := toLower (ci_L fnName) in
  match List.find (fun e => bytes_eqb (str e.1) funcName) functionMap with
  | Some (_, EmptyString) =>
      if bytes_eqb funcName (str "if") then transformIF fnName
      else if bytes_eqb funcName (str "date_add") || bytes_eqb funcName (str "date_sub") then transformDateAddSub fnName
      else if bytes_eqb funcName (str "group_concat") then transformGroupConcat fnName
      else if bytes_eqb funcName (str "unix_timestamp") then transformUnixTimestamp fnName
      else fnName
  | Some (_, pgFunc) => NewCIStr (str pgFunc)
  | None => fnName
  end.

(** [visitParamMarker]: the new counter and the order of the node. *)
Definition visitParamMarker (placeholderIndex : Z) : Z * Z := (placeholderIndex + 1, placeholderIndex + 1).

Definition visitAggregateFunc (f : bytes) : bytes :=
  if bytes_eqb (toLower f) (str "group_concat") then str "STRING_AGG" else f.

(** The switch on the type, the flags and the widening of unsigned types of
    [convertColumnType]; its last loop, over the options, changes nothing. *)
Definition convert_type (tp : FieldType) : FieldType :=
  match ft_Type tp with
  | TypeTiny => SetType TypeShort tp
  | TypeInt24 => SetType TypeLong tp
  | TypeDatetime => SetType TypeTimestamp tp
  | TypeEnum => SetElems [] (SetFlen 50 (SetType TypeVarchar tp))
  | TypeTinyBlob | TypeMediumBlob | TypeLongBlob => SetType TypeBlob tp
  | TypeYear => SetType TypeShort tp
  | _ => tp
  end.
Definition drop_zerofill (tp : FieldType) : FieldType :=
  if HasFlag ZerofillFlag (Flag tp) then DelFlag ZerofillFlag tp else tp.
Definition widen_unsigned (tp : FieldType) : FieldType :=
  if HasFlag UnsignedFlag (Flag tp) then
    match ft_Type tp with
    | TypeShort => DelFlag UnsignedFlag (SetType TypeLong tp)
    | TypeLong => DelFlag UnsignedFlag (SetType TypeLonglong tp)
    | TypeLonglong => DelFlag UnsignedFlag (SetDecimal 0 (SetFlen 20 (SetType TypeNewDecimal tp)))
    | _ => tp
    end
  else tp.
Definition convertColumnType (tp : option FieldType) : option FieldType :=
  (fun tp => widen_unsigned (drop_zerofill (convert_type tp))) <$> tp.

(** ** CREATE TABLE *)

Inductive ConstraintType := ConstraintKey | ConstraintIndex | ConstraintUniq | ConstraintOther (code : Z).
Record Constraint := mkConstraint { c_Tp : ConstraintType; c_Name : bytes; c_Keys : list bytes }.

Inductive TableOptionType :=
| TableOptionEngine | TableOptionCharset | TableOptionCollate | TableOptionAutoIncrement
| TableOptionRowFormat | TableOptionKeyBlockSize | TableOptionCompression | TableOptionComment
| TableOptionOther (code : Z).

Record ColumnDef := mkColumn { col_Name : bytes; col_Tp : option FieldType }.
Record CreateTable := mkCreate {
  ct_Cols : list ColumnDef; Constraints : list Constraint; Options : list (TableOptionType * bytes) }.

Definition keep_constraint (c : Constraint) : bool :=
  match c_Tp c with ConstraintIndex | ConstraintKey => false | _ => true end.
Definition clear_name (c : Constraint) : Constraint :=
  match c_Tp c with ConstraintUniq => mkConstraint (c_Tp c) [] (c_Keys c) | _ => c end.
Definition keep_option (o : TableOptionType * bytes) : bool :=
  match o.1 with
  | TableOptionEngine | TableOptionCharset | TableOptionCollate | TableOptionAutoIncrement
  | TableOptionRowFormat | TableOptionKeyBlockSize | TableOptionCompression => false
  | _ => true
  end.

Definition visitCreateTable (n : CreateTable) : CreateTable :=
  mkCreate (map (fun c => mkColumn (col_Name c) (convertColumnType (col_Tp c))) (ct_Cols n))
           (map clear_name (List.filter keep_constraint (Constraints n)))
           (List.filter keep_option (Options n)).

(** ** Value ranges *)

(** The values MySQL's integer column types hold. *)
Definition mysql_range (tp : FieldType) : option (Z * Z) :=
  let u := HasFlag UnsignedFlag (Flag tp) in
  let ints w := Some (if u then (0, 2 ^ w - 1) else (- 2 ^ (w - 1), 2 ^ (w - 1) - 1)) in
  match ft_Type tp with
  | TypeTiny => ints 8
  | TypeShort => ints 16
  | TypeInt24 => ints 24
  | TypeLong => ints 32
  | TypeLonglong => ints 64
  | TypeYear => Some (0, 2155)
  | _ => None
  end.

(** The values of the PostgreSQL column created for a type of the converted
    tree: SMALLINT, INT, BIGINT, and DECIMAL(p,0). *)
Definition pg_range (tp : FieldType) : option (Z * Z) :=
  if HasFlag UnsignedFlag (Flag tp) then None
  else match ft_Type tp with
       | TypeShort => Some (- 2 ^ 15, 2 ^ 15 - 1)
       | TypeLong => Some (- 2 ^ 31, 2 ^ 31 - 1)
       | TypeLonglong => Some (- 2 ^ 63, 2 ^ 63 - 1)
       | TypeNewDecimal =>
           if (0 <? Flen tp) && (Decimal tp =? 0) then Some (- (10 ^ Flen tp - 1), 10 ^ Flen tp - 1) else None
       | _ => None
       end.

(** The same by the name [MySQLToPostgreSQL] gives. *)
Definition pg_name_range (name : bytes) : option (Z * Z) :=
  if bytes_eqb name (str "SMALLINT") then Some (- 2 ^ 15, 2 ^ 15 - 1)
  else if bytes_eqb name (str "INTEGER") then Some (- 2 ^ 31, 2 ^ 31 - 1)
  else if bytes_eqb name (str "BIGINT") then Some (- 2 ^ 63, 2 ^ 63 - 1)
  else if bytes_eqb name (str "NUMERIC(20,0)") then Some (- (10 ^ 20 - 1), 10 ^ 20 - 1)
  else None.

Definition fits (a b : Z * Z) : Prop := b.1 <= a.1 /\ a.2 <= b.2.

Lemma testbit_clear f flag : HasFlag f (Z.clearbit flag f) = false.
Proof. unfold HasFlag. apply Z.clearbit_eq. Qed.

Lemma testbit_clear_other f g flag : f <> g -> HasFlag f (Z.clearbit flag g) = HasFlag f flag.
Proof. intros. unfold HasFlag. apply Z.clearbit_neq. done. Qed.

Lemma drop_zerofill_spec tp :
  ft_Type (drop_zerofill tp) = ft_Type tp /\ Flen (drop_zerofill tp) = Flen tp
  /\ Decimal (drop_zerofill tp) = Decimal tp
  /\ HasFlag UnsignedFlag (Flag (drop_zerofill tp)) = HasFlag UnsignedFlag (Flag tp)
  /\ HasFlag ZerofillFlag (Flag (drop_zerofill tp)) = false.
Proof.
  unfold drop_zerofill. destruct (HasFlag ZerofillFlag (Flag tp)) eqn:E; [|done].
  cbn [DelFlag Flag ft_Type Flen Decimal]. by rewrite testbit_clear, testbit_clear_other.
Qed.

(** C24: Every value of a MySQL integer column, signed or unsigned, fits the
    PostgreSQL type the visitor gives the column; the converted type is neither
    unsigned nor zero-filled. *)
Theorem convertColumnType_range tp r :
  mysql_range tp = Some r ->
  exists tp' r', convertColumnType (Some tp) = Some tp' /\ pg_range tp' = Some r' /\ fits r r'
    /\ HasFlag UnsignedFlag (Flag tp') = false /\ HasFlag ZerofillFlag (Flag tp') = false.
Proof.
  intros Hr. cbn [convertColumnType fmap option_fmap option_map].
  set (tz := drop_zerofill (convert_type tp)).
  destruct (drop_zerofill_spec (convert_type tp)) as (E1 & E2 & E3 & E4 & E5). fold tz in E1, E2, E3, E4, E5.
  unfold mysql_range in Hr. unfold widen_unsigned. rewrite E4, E1.
  destruct (ft_Type tp) eqn:Et; try done; unfold convert_type in *; rewrite Et in *;
    cbn [SetType Flag ft_Type] in *; rewrite ?Et in E1 |- *; destruct (HasFlag UnsignedFlag (Flag tp)) eqn:Eu; injection Hr as <-;
    eexists _, _; (split; [done |]); unfold pg_range, DelFlag, SetType, SetFlen, SetDecimal;
    cbn [Flag ft_Type Flen Decimal]; rewrite ?testbit_clear, ?testbit_clear_other by done;
    rewrite ?E4, ?E1; (split; [done |]); (split; [unfold fits; cbn; lia |]); done.
Qed.

(** The type mapper's table holds every integer too, but for SMALLINT UNSIGNED,
    whose largest value does not fit the SMALLINT it is given. *)
Theorem MySQLToPostgreSQL_range tp r :
  mysql_range tp = Some r ->
  exists r', pg_name_range (MySQLToPostgreSQL (Some tp)) = Some r'
    /\ (fits r r' <-> ~ (ft_Type tp = TypeShort /\ HasFlag UnsignedFlag (Flag tp) = true)).
Proof.
  unfold mysql_range, MySQLToPostgreSQL. intros Hr.
  destruct (ft_Type tp) eqn:Et; try done; destruct (HasFlag UnsignedFlag (Flag tp)) eqn:Eu;
    injection Hr as <-; eexists; (split; [vm_compute; reflexivity |]); unfold fits; cbn;
    (split; [intros [? ?] [? ?]; try done; lia | intros Hn; try lia; exfalso; by apply Hn]).
Qed.

(** ** The visitor leaves a converted table alone *)

(** A type no step of the conversion changes. *)
Definition settled (tp : FieldType) : Prop :=
  convert_type tp = tp /\ HasFlag ZerofillFlag (Flag tp) = false
  /\ (HasFlag UnsignedFlag (Flag tp) = true ->
      ft_Type tp <> TypeShort /\ ft_Type tp <> TypeLong /\ ft_Type tp <> TypeLonglong).

Lemma settled_fixed tp : settled tp -> widen_unsigned (drop_zerofill (convert_type tp)) = tp.
Proof.
  intros (-> & Hz & Hu). unfold drop_zerofill. rewrite Hz. unfold widen_unsigned.
  destruct (HasFlag UnsignedFlag (Flag tp)); [|done]. destruct (Hu eq_refl) as (? & ? & ?).
  by destruct (ft_Type tp).
Qed.

Lemma convert_type_twice tp : convert_type (drop_zerofill (convert_type tp)) = drop_zerofill (convert_type tp).
Proof.
  destruct (drop_zerofill_spec (convert_type tp)) as (E1 & _). set (t := drop_zerofill _) in *.
  unfold convert_type at 1. rewrite E1. unfold convert_type. destruct (ft_Type tp) eqn:E; cbn; rewrite ?E; done.
Qed.

Lemma settled_after tp : settled (widen_unsigned (drop_zerofill (convert_type tp))).
Proof.
  pose proof (convert_type_twice tp) as Ec.
  destruct (drop_zerofill_spec (convert_type tp)) as (_ & _ & _ & _ & Ez). set (t := drop_zerofill _) in *.
  assert (Hclear : forall x, ft_Type x <> TypeTiny -> convert_type x = x ->
            HasFlag ZerofillFlag (Flag x) = false -> settled (DelFlag UnsignedFlag x)).
  { intros x Hx Hcx Hzx. unfold DelFlag. split; [|split]; cbn [Flag ft_Type].
    - revert Hcx. unfold convert_type. cbn [ft_Type]. destruct (ft_Type x) eqn:E; try done;
        intros Hcx; apply (f_equal ft_Type) in Hcx; cbn in Hcx; congruence.
    - by rewrite testbit_clear_other.
    - by rewrite testbit_clear. }
  unfold widen_unsigned. destruct (HasFlag UnsignedFlag (Flag t)) eqn:Eu.
  - destruct (ft_Type t) eqn:Et; try (by apply Hclear); (split; [done |]; split; [done |]; intros _; by rewrite Et).
  - split; [done |]. split; [done |]. by rewrite Eu.
Qed.

Lemma convertColumnType_idem tp : convertColumnType (convertColumnType tp) = convertColumnType tp.
Proof.
  destruct tp as [tp|]; [|done]. cbn [convertColumnType fmap option_fmap option_map]. f_equal.
  apply settled_fixed, settled_after.
Qed.

(** [visitCreateTable] keeps the columns and their order, keeps exactly the
    constraints that are not plain indexes and the options PostgreSQL may know,
    and leaves a table it has already converted unchanged. *)
Theorem visitCreateTable_spec n :
  map col_Name (ct_Cols (visitCreateTable n)) = map col_Name (ct_Cols n)
  /\ (forall c, In c (Constraints (visitCreateTable n)) <->
        exists c0, In c0 (Constraints n) /\ keep_constraint c0 = true /\ c = clear_name c0)
  /\ (forall o, In o (Options (visitCreateTable n)) <-> In o (Options n) /\ keep_option o = true)
  /\ visitCreateTable (visitCreateTable n) = visitCreateTable n.
Proof.
  split; [|split; [|split]].
  - cbn [visitCreateTable ct_Cols]. by rewrite map_map.
  - intros c. cbn [visitCreateTable Constraints]. rewrite in_map_iff. setoid_rewrite List.filter_In. naive_solver.
  - intros o. cbn [visitCreateTable Options]. apply List.filter_In.
  - unfold visitCreateTable. cbn [ct_Cols Constraints Options]. f_equal.
    + rewrite map_map. apply map_ext. intros c. cbn. by rewrite convertColumnType_idem.
    + assert (Hk : forall c, keep_constraint (clear_name c) = keep_constraint c)
        by (intros [[] ? ?]; done).
      assert (Hc : forall c, clear_name (clear_name c) = clear_name c) by (intros [[] ? ?]; done).
      induction (Constraints n) as [|c l IH]; [done |]. cbn [List.filter].
      destruct (keep_constraint c) eqn:E; [|done]. cbn [map List.filter]. rewrite Hk, E. cbn [map].
      by rewrite Hc, IH.
    + induction (Options n) as [|o l IH]; [done |]. cbn [List.filter].
      destruct (keep_option o) eqn:E; [|done]. cbn [List.filter]. by rewrite E, IH.
Qed.

End mapper.

Lemma convertColumnType_range_witness :
  exists tp' r', convertColumnType (Some (mkField TypeTiny 96 3 0 [])) = Some tp' /\ pg_range tp' = Some r'
    /\ fits (0, 255) r' /\ HasFlag UnsignedFlag (Flag tp') = false /\ HasFlag ZerofillFlag (Flag tp') = false.
Proof. apply (convertColumnType_range (mkField TypeTiny 96 3 0 []) (0, 255)). reflexivity. Defined.
