(* ===== verification/Visitor.v ===== *)
(** * The walk of the AST visitor

    [Enter] and [Leave] of [pkg/sqlrewrite/ast_visitor.go], which the TiDB parser
    calls on the nodes of a statement.  A node is one of the kinds the visitor
    tells apart, with the fields it reads and writes; which nodes are visited in
    which order is the parser's, so the theorems are about any sequence of
    calls. *)

From Stdlib Require Import ZArith Lia.
From stdpp Require Import base numbers list strings.
From S2P Require Import Prelude GoStd GoStrings SQLText SQLPasses Rewriter TypeMap.
Open Scope Z_scope.

Inductive Node :=
| FuncCallExpr (fnName : CIStr)
| ParamMarkerExpr (order : Z)
| ColumnDefNode (c : ColumnDef)
| SelectNode
| LimitNode
| MatchAgainst
| CreateTableStmt (n : CreateTable)
| InsertStmt
| AggregateFuncExpr (f : bytes)
| OtherNode (tag : Z).

Section visitor.
Context `{!Unicode}.

Definition NewASTVisitor : ASTVisitorState := mkVisitor None 0.
Definition GetError (v : ASTVisitorState) : option bytes := v_err v.
Definition GetPlaceholderCount (v : ASTVisitorState) : Z := placeholderIndex v.

(** The visits that return the node as it is; the type that [visitColumnDef]
    computes is not used. *)
Definition visitColumnDef (c : ColumnDef) : ColumnDef :=
  match col_Tp c with
  | None => c
  | Some tp => let _ := MySQLToPostgreSQLBoolean (Some tp) in c
  end.

(** The node, whether its children are skipped, and the visitor. *)
Definition Enter (n : Node) (v : ASTVisitorState) : Node * bool * ASTVisitorState :=
  match v_err v with
  | Some _ => (n, true, v)
  | None =>
      match n with
      | FuncCallExpr fnName => (FuncCallExpr (visitFuncCall fnName), false, v)
      | ParamMarkerExpr order =>
          let (index, order) := visitParamMarker (placeholderIndex v) in
          (ParamMarkerExpr order, false, mkVisitor (v_err v) index)
      | ColumnDefNode c => (ColumnDefNode (visitColumnDef c), false, v)
      | CreateTableStmt t => (CreateTableStmt (visitCreateTable t), false, v)
      | AggregateFuncExpr f => (AggregateFuncExpr (visitAggregateFunc f), false, v)
      | SelectNode | LimitNode | MatchAgainst | InsertStmt | OtherNode _ => (n, false, v)
      end
  end.

Definition Leave (n : Node) (v : ASTVisitorState) : Node * bool :=
  (n, match v_err v with None => true | Some _ => false end).

(** The calls the parser makes for a statement, in its order. *)
Fixpoint enter_all (ns : list Node) (v : ASTVisitorState) : list (Node * bool) * ASTVisitorState :=
  match ns with
  | [] => ([], v)
  | n :: ns =>
      let '(n', skip, v) := Enter n v in
      let (l, v) := enter_all ns v in ((n', skip) :: l, v)
  end.

(** * Properties *)

(** The dynamic type of a node. *)
Definition node_type (n : Node) : Z :=
  match n with
  | FuncCallExpr _ => 1 | ParamMarkerExpr _ => 2 | ColumnDefNode _ => 3 | SelectNode => 4 | LimitNode => 5
  | MatchAgainst => 6 | CreateTableStmt _ => 7 | InsertStmt => 8 | AggregateFuncExpr _ => 9 | OtherNode t => 10 + Z.abs t
  end.
Definition is_marker (n : Node) : bool := match n with ParamMarkerExpr _ => true | _ => false end.
Definition orders (l : list (Node * bool)) : list Z :=
  omap (fun x => match x.1 with ParamMarkerExpr o => Some o | _ => None end) l.

Lemma Enter_spec n v : v_err v = None ->
  let '(n', skip, v') := Enter n v in
  node_type n' = node_type n /\ skip = false /\ v_err v' = None
  /\ placeholderIndex v' = placeholderIndex v + (if is_marker n then 1 else 0)
  /\ is_marker n' = is_marker n /\ (is_marker n = true -> n' = ParamMarkerExpr (placeholderIndex v + 1)).
Proof. intros E. unfold Enter. rewrite E. destruct n; cbn; repeat split; try done; lia. Qed.

(** C28: The visitor never stops a walk.  Whatever nodes the parser visits, in
    whatever order: every node keeps its type, as the parser demands; no
    children are skipped and every [Leave] lets the walk go on; the
    placeholders are numbered one after the other in the order of the visit; and
    the count afterwards is the number of placeholders. *)
Theorem visitor_walk ns v :
  v_err v = None ->
  let (l, v') := enter_all ns (ResetPlaceholders v) in
  map (fun x => node_type x.1) l = map node_type ns
  /\ Forall (fun x => x.2 = false) l
  /\ (forall n, Leave n v' = (n, true)) /\ GetError v' = None
  /\ orders l = seqZ 1 (GetPlaceholderCount v')
  /\ GetPlaceholderCount v' = Z.of_nat (length (List.filter is_marker ns)).
Proof.
  assert (Hgen : forall ns v, v_err v = None -> let (l, v') := enter_all ns v in
    map (fun x => node_type x.1) l = map node_type ns /\ Forall (fun x => x.2 = false) l /\ v_err v' = None
    /\ orders l = seqZ (placeholderIndex v + 1) (placeholderIndex v' - placeholderIndex v)
    /\ placeholderIndex v' = placeholderIndex v + Z.of_nat (length (List.filter is_marker ns))).
  { clear. induction ns as [|n ns IH]; intros v Hv; cbn [enter_all].
    - repeat split; [by constructor | done | by rewrite Z.sub_diag | cbn; lia].
    - pose proof (Enter_spec n v Hv) as He. destruct (Enter n v) as [[n' skip] v1].
      destruct He as (Ht & -> & Hv1 & Hi & Hm & Ho). specialize (IH v1 Hv1). destruct (enter_all ns v1) as [l v'].
      destruct IH as (H1 & H2 & H3 & H4 & H5). cbn [map fst]. rewrite H1, Ht. repeat split; try done; [by constructor | |].
      + unfold orders in *. destruct (is_marker n) eqn:En; cbn.
        * rewrite Ho by done. cbn. rewrite H4, Hi. rewrite (seqZ_cons (placeholderIndex v + 1)) by lia.
          f_equal. f_equal; lia.
        * destruct n'; try done; rewrite H4, Hi; f_equal; lia.
      + cbn [List.filter]. destruct (is_marker n); cbn [length]; lia. }
  intros Hv. specialize (Hgen ns (ResetPlaceholders v) Hv). destruct (enter_all ns (ResetPlaceholders v)) as [l v'].
  destruct Hgen as (H1 & H2 & H3 & H4 & H5). cbn in H4, H5. rewrite Z.sub_0_r in H4.
  repeat split; try done. unfold Leave. by rewrite H3.
Qed.

(** The names that group_concat and unix_timestamp get come from the table: the
    cases of the switch for them are never reached. *)
Lemma special_cases_dead fnName :
  let funcName := toLower (ci_L fnName) in
  funcName = str "group_concat" \/ funcName = str "unix_timestamp" ->
  exists pgFunc, visitFuncCall fnName = NewCIStr (str pgFunc) /\ pgFunc <> EmptyString.
Proof.
  unfold visitFuncCall. cbv zeta. intros [-> | ->].
  - by exists "STRING_AGG"%string.
  - by exists "EXTRACT(EPOCH FROM CURRENT_TIMESTAMP)"%string.
Qed.
End visitor.

Lemma visitor_walk_witness :
  let ns := [SelectNode; ParamMarkerExpr 0; OtherNode 3; ParamMarkerExpr 0] in
  orders (fst (@enter_all ascii_tables ns (ResetPlaceholders (mkVisitor None 7)))) = [1; 2].
Proof.
  intros ns. pose proof (@visitor_walk ascii_tables ns (mkVisitor None 7) eq_refl) as H.
  destruct (enter_all ns _) as [l v'] eqn:E. destruct H as (_ & _ & _ & _ & Ho & Hc). cbn [fst]. rewrite Ho, Hc. reflexivity.
Defined.
