(* ===== verification/Detector.v ===== *)
(** * The detector of unsupported features

    [pkg/sqlrewrite/unsupported_detector.go]: the table of patterns and the
    scan.  Go's [regexp] is modelled for the operators the patterns use, by
    derivatives, on ASCII text: there [(?i)] adds nothing to the upper-cased
    statement, while on other text it also matches characters such as the
    Kelvin sign for K. *)

From Stdlib Require Import ZArith Lia.
From stdpp Require Import base numbers list strings.
From S2P Require Import Prelude GoStd GoStrings SQLText.
Open Scope Z_scope.

(** ** Regular expressions *)

Inductive re :=
| Void
| Eps
| Chr (p : Z -> bool)
| Cat (a b : re)
| Alt (a b : re)
| Star (a : re).

(** The texts an expression matches. *)
Inductive lang : re -> bytes -> Prop :=
| l_eps : lang Eps []
| l_chr p c : p c = true -> lang (Chr p) [c]
| l_cat a b s t : lang a s -> lang b t -> lang (Cat a b) (s ++ t)
| l_alt_l a b s : lang a s -> lang (Alt a b) s
| l_alt_r a b s : lang b s -> lang (Alt a b) s
| l_star_nil a : lang (Star a) []
| l_star_app a s t : lang a s -> lang (Star a) t -> lang (Star a) (s ++ t).

Fixpoint nullable (r : re) : bool :=
  match r with
  | Void | Chr _ => false
  | Eps | Star _ => true
  | Cat a b => nullable a && nullable b
  | Alt a b => nullable a || nullable b
  end.

(** Constructors that drop what cannot match, to keep derivatives small. *)
Definition cat (a b : re) : re :=
  match a, b with
  | Void, _ | _, Void => Void
  | Eps, _ => b
  | _, _ => Cat a b
  end.
Definition alt (a b : re) : re :=
  match a, b with
  | Void, _ => b
  | _, Void => a
  | _, _ => Alt a b
  end.

Fixpoint deriv (c : Z) (r : re) : re :=
  match r with
  | Void | Eps => Void
  | Chr p => if p c then Eps else Void
  | Cat a b => if nullable a then alt (cat (deriv c a) b) (deriv c b) else cat (deriv c a) b
  | Alt a b => alt (deriv c a) (deriv c b)
  | Star a => cat (deriv c a) (Star a)
  end.

Fixpoint matches (r : re) (s : bytes) : bool :=
  match s with
  | [] => nullable r
  | c :: t => matches (deriv c r) t
  end.

(** [Regexp.MatchString]: some part of the text matches. *)
Fixpoint prefix_matches (r : re) (s : bytes) : bool :=
  nullable r || match s with
                | [] => false
                | c :: t => prefix_matches (deriv c r) t
                end.
Fixpoint MatchString (r : re) (s : bytes) : bool :=
  prefix_matches r s || match s with
                        | [] => false
                        | _ :: t => MatchString r t
                        end.

(** The operators of the patterns. *)
Definition Lit (s : string) : re := fold_right (fun c r => cat (Chr (Z.eqb c)) r) Eps (str s).
Definition Plus (a : re) : re := Cat a (Star a).
Definition Opt (a : re) : re := Alt Eps a.
Definition seqs (l : list re) : re := fold_right Cat Eps l.
Definition white (c : Z) : bool := (c =? 9) || (c =? 10) || (c =? 12) || (c =? 13) || (c =? 32).
Definition decimal (c : Z) : bool := digit c.
Definition wordc (c : Z) : bool := isAlphanumeric c.
Definition not_newline (c : Z) : bool := negb (c =? cNl).

(** ** The table *)

Record UnsupportedPattern := mkPattern {
  p_Name : string; Pattern : re; p_Suggestion : string; p_Severity : string; p_Category : string }.

Record UnsupportedFeature := mkFeature {
  Feature : string; f_SQL : bytes; Suggestion : string; Severity : string; Category : string }.

Definition buildUnsupportedPatterns : list UnsupportedPattern :=
  ([
   mkPattern "UPDATE ... LIMIT" (seqs [Lit "UPDATE"; Plus (Chr white); Star (Chr not_newline); Plus (Chr white); Lit "LIMIT"; Plus (Chr white); Plus (Chr decimal)])
     "Use subquery: UPDATE ... WHERE id IN (SELECT id ... LIMIT n)" "error" "syntax";
   mkPattern "DELETE ... LIMIT" (seqs [Lit "DELETE"; Plus (Chr white); Star (Chr not_newline); Plus (Chr white); Lit "LIMIT"; Plus (Chr white); Plus (Chr decimal)])
     "Use subquery: DELETE ... WHERE id IN (SELECT id ... LIMIT n)" "error" "syntax";
   mkPattern "STRAIGHT_JOIN" (Lit "STRAIGHT_JOIN")
     "Use explicit JOIN order or pg_hint_plan extension" "warning" "syntax";
   mkPattern "FORCE INDEX" (seqs [Lit "FORCE"; Plus (Chr white); Lit "INDEX"])
     "Remove or use pg_hint_plan extension" "warning" "syntax";
   mkPattern "USE INDEX" (seqs [Lit "USE"; Plus (Chr white); Lit "INDEX"])
     "Remove or use pg_hint_plan extension" "warning" "syntax";
   mkPattern "IGNORE INDEX" (seqs [Lit "IGNORE"; Plus (Chr white); Lit "INDEX"])
     "Remove hint, let PostgreSQL optimizer decide" "warning" "syntax";
   mkPattern "INSERT DELAYED" (seqs [Lit "INSERT"; Plus (Chr white); Lit "DELAYED"])
     "Use regular INSERT (DELAYED is deprecated in MySQL 5.7+)" "warning" "syntax";
   mkPattern "PARTITION BY in CREATE TABLE" (seqs [Lit "PARTITION"; Plus (Chr white); Lit "BY"])
     "Rewrite using PostgreSQL declarative partitioning syntax" "error" "syntax";
   mkPattern "VALUES() function in INSERT ... ON DUPLICATE KEY UPDATE" (seqs [Lit "ON"; Plus (Chr white); Lit "DUPLICATE"; Plus (Chr white); Lit "KEY"; Plus (Chr white); Lit "UPDATE"; Star (Chr not_newline); Lit "VALUES"; Star (Chr white); Lit "("])
     "Use EXCLUDED table reference instead of VALUES()" "error" "syntax";
   mkPattern "FOUND_ROWS()" (seqs [Lit "FOUND_ROWS"; Star (Chr white); Lit "("; Star (Chr white); Lit ")"])
     "Use COUNT(*) OVER() or separate COUNT query" "error" "function";
   mkPattern "GET_LOCK()" (seqs [Lit "GET_LOCK"; Star (Chr white); Lit "("])
     "Use pg_advisory_lock(key::BIGINT)" "error" "function";
   mkPattern "RELEASE_LOCK()" (seqs [Lit "RELEASE_LOCK"; Star (Chr white); Lit "("])
     "Use pg_advisory_unlock(key::BIGINT)" "error" "function";
   mkPattern "IS_FREE_LOCK()" (seqs [Lit "IS_FREE_LOCK"; Star (Chr white); Lit "("])
     "Query pg_locks system view" "error" "function";
   mkPattern "DATE_FORMAT()" (seqs [Lit "DATE_FORMAT"; Star (Chr white); Lit "("])
     "Use TO_CHAR(date, format) with PostgreSQL format strings" "error" "function";
   mkPattern "STR_TO_DATE()" (seqs [Lit "STR_TO_DATE"; Star (Chr white); Lit "("])
     "Use TO_DATE() or TO_TIMESTAMP() with PostgreSQL format" "error" "function";
   mkPattern "TIMESTAMPDIFF()" (seqs [Lit "TIMESTAMPDIFF"; Star (Chr white); Lit "("])
     "Use EXTRACT(EPOCH FROM (t2 - t1))" "error" "function";
   mkPattern "FORMAT()" (seqs [Lit "FORMAT"; Star (Chr white); Lit "("; Star (Chr white); (Chr decimal)])
     "Use TO_CHAR(number, format)" "warning" "function";
   mkPattern "ENCRYPT()" (seqs [Lit "ENCRYPT"; Star (Chr white); Lit "("])
     "Use pgcrypto extension functions" "error" "function";
   mkPattern "PASSWORD()" (seqs [Lit "PASSWORD"; Star (Chr white); Lit "("])
     "Use crypt() or pgcrypto extension (PASSWORD is deprecated)" "warning" "function";
   mkPattern "INET_ATON()" (seqs [Lit "INET_ATON"; Star (Chr white); Lit "("])
     "Use inet data type and casting" "error" "function";
   mkPattern "INET_NTOA()" (seqs [Lit "INET_NTOA"; Star (Chr white); Lit "("])
     "Use inet data type and host() function" "error" "function";
   mkPattern "LOAD_FILE()" (seqs [Lit "LOAD_FILE"; Star (Chr white); Lit "("])
     "Security risk - not supported in PostgreSQL" "error" "function";
   mkPattern "SET data type" (seqs [Lit "CREATE"; Plus (Chr white); Lit "TABLE"; Star (Chr not_newline); Plus (Chr white); Lit "SET"; Star (Chr white); Lit "("])
     "Use TEXT[] array or separate many-to-many table" "error" "type";
   mkPattern "GEOMETRY/SPATIAL types" ((Alt (Lit "GEOMETRY") (Alt (Lit "POINT") (Alt (Lit "LINESTRING") (Alt (Lit "POLYGON") (Alt (Lit "MULTIPOINT") (Alt (Lit "MULTILINESTRING") (Alt (Lit "MULTIPOLYGON") (Lit "GEOMETRYCOLLECTION")))))))))
     "Install and use PostGIS extension" "error" "type";
   mkPattern "LOAD DATA INFILE" (seqs [Lit "LOAD"; Plus (Chr white); Lit "DATA"; Plus (Chr white); Opt (seqs [Lit "LOCAL"; Plus (Chr white)]); Lit "INFILE"])
     "Use PostgreSQL COPY FROM command" "error" "other";
   mkPattern "LOCK TABLES" (seqs [Lit "LOCK"; Plus (Chr white); Lit "TABLES"])
     "Use transaction-level locks or LOCK TABLE (different syntax)" "warning" "other";
   mkPattern "UNLOCK TABLES" (seqs [Lit "UNLOCK"; Plus (Chr white); Lit "TABLES"])
     "Locks are released at transaction end in PostgreSQL" "info" "other";
   mkPattern "User variable (@variable)" (seqs [Lit "@"; Plus (Chr wordc)])
     "Use temporary tables or session variables" "warning" "other"
  ])%string.

Section detect.
Context `{!Unicode}.

Definition feature_of (sql : bytes) (p : UnsupportedPattern) : UnsupportedFeature :=
  mkFeature (p_Name p) sql (p_Suggestion p) (p_Severity p) (p_Category p).

Definition Detect (patterns : list UnsupportedPattern) (sql : bytes) : list UnsupportedFeature :=
  let upperSQL := toUpper sql in
  map (feature_of sql) (List.filter (fun p => MatchString (Pattern p) upperSQL) patterns).
End detect.

(** ** The matcher agrees with the meaning of the expressions *)

Lemma nullable_spec r : nullable r = true <-> lang r [].
Proof.
  induction r as [| |p|a IHa b IHb|a IHa b IHb|a IHa]; cbn [nullable].
  - split; [done | inversion 1].
  - split; [constructor | done].
  - split; [done | inversion 1].
  - rewrite andb_true_iff, IHa, IHb. split.
    + intros [Ha Hb]. by apply (l_cat a b [] []).
    + inversion 1 as [| |? ? s t Ha Hb E1 E2| | | |]; subst. apply app_eq_nil in E2 as [-> ->]. done.
  - rewrite orb_true_iff, IHa, IHb. split; [intros [?|?]; [by apply l_alt_l | by apply l_alt_r] |].
    inversion 1; subst; auto.
  - split; [constructor | done].
Qed.

Lemma cat_void a b s : a = Void \/ b = Void -> ~ lang (Cat a b) s.
Proof.
  intros Hab Hl. inversion Hl as [| |? ? u v H1 H2| | | |]; subst.
  destruct Hab as [->| ->]; [inversion H1 | inversion H2].
Qed.

Lemma cat_spec a b s : lang (cat a b) s <-> lang (Cat a b) s.
Proof.
  assert (Hv : a = Void \/ b = Void -> lang Void s <-> lang (Cat a b) s).
  { intros Hab. split; [inversion 1 | intros Hl; by destruct (cat_void a b s Hab)]. }
  assert (He : a = Eps -> lang b s <-> lang (Cat a b) s).
  { intros ->. split; [intros Hl; by apply (l_cat Eps b []); [constructor |] |].
    intros Hl. inversion Hl as [| |? ? u v H1 H2| | | |]; subst. by inversion H1; subst. }
  destruct a, b; cbn [cat]; first [apply Hv; auto; fail | apply He; done | reflexivity].
Qed.

Lemma alt_spec a b s : lang (alt a b) s <-> lang (Alt a b) s.
Proof.
  assert (Hl : a = Void -> lang b s <-> lang (Alt a b) s).
  { intros ->. split; [apply l_alt_r | intros Hs; inversion Hs as [| | |? ? ? H1|? ? ? H1| |]; subst; [inversion H1 | done]]. }
  assert (Hr : b = Void -> lang a s <-> lang (Alt a b) s).
  { intros ->. split; [apply l_alt_l | intros Hs; inversion Hs as [| | |? ? ? H1|? ? ? H1| |]; subst; [done | inversion H1]]. }
  destruct a, b; cbn [alt]; first [apply Hl; done | apply Hr; done | reflexivity].
Qed.

Lemma star_cons a c s : lang (Star a) (c :: s) -> exists u v, s = u ++ v /\ lang a (c :: u) /\ lang (Star a) v.
Proof.
  remember (Star a) as r eqn:Er. remember (c :: s) as w eqn:Ew. intros Hl. revert a c s Er Ew.
  induction Hl as [| | | | | |a s t H1 _ H2 IH]; intros a' c' s' Er Ew; simplify_eq.
  destruct s as [|x s]; [by apply IH |]. simplify_eq/=. by exists s, t.
Qed.

Lemma deriv_spec r : forall c s, lang (deriv c r) s <-> lang r (c :: s).
Proof.
  induction r as [| |p|a IHa b IHb|a IHa b IHb|a IHa]; intros c s; cbn [deriv].
  - split; inversion 1.
  - split; inversion 1.
  - destruct (p c) eqn:E; split.
    + inversion 1; subst. by constructor.
    + inversion 1; subst. constructor.
    + inversion 1.
    + inversion 1; subst. congruence.
  - assert (Hcat : lang (Cat (deriv c a) b) s <-> exists u v, s = u ++ v /\ lang a (c :: u) /\ lang b v).
    { split.
      - inversion 1 as [| |? ? u v H1 H2| | | |]; subst. exists u, v. by rewrite <- IHa.
      - intros (u & v & -> & H1 & H2). constructor; [by apply IHa | done]. }
    assert (Hall : lang (Cat a b) (c :: s) <->
       (exists u v, s = u ++ v /\ lang a (c :: u) /\ lang b v) \/ (lang a [] /\ lang b (c :: s))).
    { split.
      - inversion 1 as [| |? ? u v H1 H2 E1 E2| | | |]; subst. destruct u as [|x u]; simplify_eq/=; [by right |].
        left. by exists u, v.
      - intros [(u & v & -> & H1 & H2)|[H1 H2]]; [by apply (l_cat a b (c :: u)) | by apply (l_cat a b [])]. }
    rewrite Hall, <- Hcat. destruct (nullable a) eqn:En.
    + apply nullable_spec in En. rewrite alt_spec. split.
      * inversion 1 as [| | |? ? ? H1|? ? ? H1| |]; subst; [left; by apply cat_spec | right; by rewrite <- IHb].
      * intros [H1|[_ H1]]; [apply l_alt_l; by apply cat_spec | apply l_alt_r; by apply IHb].
    + rewrite cat_spec. split; [by left |]. intros [H1|[H1 _]]; [done |]. apply nullable_spec in H1. congruence.
  - rewrite alt_spec. split; inversion 1 as [| | |? ? ? H1|? ? ? H1| |]; subst.
    + apply l_alt_l. by apply IHa.
    + apply l_alt_r. by apply IHb.
    + apply l_alt_l. by apply IHa.
    + apply l_alt_r. by apply IHb.
  - rewrite cat_spec. split.
    + inversion 1 as [| |? ? u v H1 H2| | | |]; subst. apply (l_star_app a (c :: u)); [by apply IHa | done].
    + intros (u & v & -> & H1 & H2)%star_cons. constructor; [by apply IHa | done].
Qed.

Lemma prefix_matches_spec s : forall r,
  prefix_matches r s = true <-> exists m b, s = m ++ b /\ lang r m.
Proof.
  induction s as [|c s IH]; intros r; cbn [prefix_matches]; rewrite orb_true_iff, nullable_spec.
  - split; [intros [H1|H1]; [by exists [], [] | done] |].
    intros (m & b & E & H1). symmetry in E. apply app_eq_nil in E as [-> ->]. by left.
  - rewrite IH. split.
    + intros [H1|(m & b & -> & H1)]; [by exists [], (c :: s) |]. exists (c :: m), b. by rewrite <- deriv_spec.
    + intros (m & b & E & H1). destruct m as [|x m]; [by left |]. simplify_eq/=. right. exists m, b.
      by rewrite deriv_spec.
Qed.

Lemma MatchString_spec r s :
  MatchString r s = true <-> exists a m b, s = a ++ m ++ b /\ lang r m.
Proof.
  induction s as [|c s IH]; cbn [MatchString]; rewrite orb_true_iff, prefix_matches_spec.
  - split.
    + intros [(m & b & E & H1)|H1]; [by exists [], m, b | done].
    + intros (a & m & b & E & H1). symmetry in E. apply app_eq_nil in E as [-> E]. left. by exists m, b.
  - rewrite IH. split.
    + intros [(m & b & E & H1)|(a & m & b & -> & H1)]; [by exists [], m, b | by exists (c :: a), m, b].
    + intros (a & m & b & E & H1). destruct a as [|x a]; [left; by exists m, b |]. simplify_eq/=.
      right. by exists a, m, b.
Qed.

Lemma filter_sublist {A} (f : A -> bool) l : sublist (List.filter f l) l.
Proof. induction l as [|x l IH]; cbn; [done |]. destruct (f x); by constructor. Qed.

Lemma map_sublist {A B} (g : A -> B) l k : sublist l k -> sublist (map g l) (map g k).
Proof. induction 1; cbn; by constructor. Qed.

(** A feature of this name is reported. *)
Definition reported `{!Unicode} (name : string) (sql : bytes) : Prop :=
  In name (map Feature (Detect buildUnsupportedPatterns sql)).

Lemma reported_spec `{!Unicode} name sql : reported name sql <->
  exists p, In p buildUnsupportedPatterns /\ p_Name p = name
    /\ exists a m b, toUpper sql = a ++ m ++ b /\ lang (Pattern p) m.
Proof.
  unfold reported, Detect. rewrite map_map, in_map_iff. setoid_rewrite List.filter_In. setoid_rewrite MatchString_spec.
  split; intros (p & Hp); exists p; tauto.
Qed.

(** *** The operators *)

Lemma lang_cat_inv a b m : lang (Cat a b) m <-> exists u v, m = u ++ v /\ lang a u /\ lang b v.
Proof.
  split; [inversion 1 as [| |? ? u v H1 H2| | | |]; subst; by exists u, v |].
  intros (u & v & -> & H1 & H2). by constructor.
Qed.

Lemma lang_lit s m : lang (Lit s) m <-> m = str s.
Proof.
  unfold Lit. revert m. induction (str s) as [|c t IH]; intros m; cbn [fold_right].
  - split; [by inversion 1 | intros ->; constructor].
  - rewrite cat_spec, lang_cat_inv. setoid_rewrite IH. split.
    + intros (u & v & -> & Hu & ->). inversion Hu as [|? x Hx| | | | |]; subst. by apply Z.eqb_eq in Hx as <-.
    + intros ->. exists [c], t. split; [done |]. split; [constructor; apply Z.eqb_refl | done].
Qed.

Lemma lang_star_chr p m : lang (Star (Chr p)) m <-> forallb p m = true.
Proof.
  induction m as [|c m IH]; [split; [done | constructor] |]. cbn [forallb]. rewrite andb_true_iff. split.
  - intros (u & v & -> & Hu & Hv)%star_cons. inversion Hu as [|? x Hx| | | | |]; subst. by rewrite <- IH.
  - intros [Hc Hm]. apply (l_star_app (Chr p) [c]); [by constructor | by apply IH].
Qed.

Lemma lang_plus_chr p m : lang (Plus (Chr p)) m <-> m <> [] /\ forallb p m = true.
Proof.
  unfold Plus. rewrite lang_cat_inv. setoid_rewrite lang_star_chr. split.
  - intros (u & v & -> & Hu & Hv). inversion Hu as [|? x Hx| | | | |]; subst. cbn. by rewrite Hx.
  - intros [Hne Hm]. destruct m as [|c m]; [done |]. cbn in Hm. apply andb_true_iff in Hm as [Hc Hm].
    exists [c], m. split; [done |]. split; [by constructor | done].
Qed.

Lemma lang_seqs_cons r l m : lang (seqs (r :: l)) m <-> exists u v, m = u ++ v /\ lang r u /\ lang (seqs l) v.
Proof. apply lang_cat_inv. Qed.
Lemma lang_seqs_nil m : lang (seqs []) m <-> m = [].
Proof. split; [by inversion 1 | intros ->; constructor]. Qed.

(** *** LIMIT in an UPDATE or a DELETE *)

Definition blanks (w : bytes) : Prop := w <> [] /\ forallb white w = true.
(** [verb], later on LIMIT with a number, and between the blanks after the
    verb and those before LIMIT a text without line breaks. *)
Definition limited (verb : string) (text : bytes) : Prop :=
  exists a w1 x w2 w3 d b,
    text = a ++ str verb ++ w1 ++ x ++ w2 ++ str "LIMIT" ++ w3 ++ d :: b
    /\ blanks w1 /\ (cNl ∉ x) /\ blanks w2 /\ blanks w3 /\ digit d = true.

Definition limit_pattern (verb : string) : re :=
  seqs [Lit verb; Plus (Chr white); Star (Chr not_newline); Plus (Chr white); Lit "LIMIT"; Plus (Chr white); Plus (Chr decimal)].

Lemma no_newline x : forallb not_newline x = true <-> cNl ∉ x.
Proof.
  induction x as [|c x IH]; [split; [intros _; apply not_elem_of_nil | done] |].
  cbn [forallb]. rewrite andb_true_iff, IH, not_elem_of_cons. unfold not_newline. rewrite negb_true_iff, Z.eqb_neq.
  by split; intros [H1 H2]; split.
Qed.

Lemma limit_pattern_spec verb text :
  (exists a m b, text = a ++ m ++ b /\ lang (limit_pattern verb) m)
  <-> limited verb text.
Proof.
  unfold limit_pattern, limited. split.
  - intros (a & m & b & -> & H). repeat setoid_rewrite lang_seqs_cons in H.
    destruct H as (? & ? & -> & ->%lang_lit & w1 & ? & -> & H1%lang_plus_chr & x & ? & -> & Hx%lang_star_chr
      & w2 & ? & -> & H2%lang_plus_chr & ? & ? & -> & ->%lang_lit & w3 & ? & -> & H3%lang_plus_chr
      & ds & ? & -> & [Hd Hds]%lang_plus_chr & ->%lang_seqs_nil).
    destruct ds as [|d ds]; [done |]. cbn in Hds. apply andb_true_iff in Hds as [Hdd _].
    exists a, w1, x, w2, w3, d, (ds ++ b). rewrite <- !app_assoc. split; [done |]. by rewrite <- no_newline.
  - intros (a & w1 & x & w2 & w3 & d & b & -> & H1 & Hx%no_newline & H2 & H3 & Hd).
    exists a, (str verb ++ w1 ++ x ++ w2 ++ str "LIMIT" ++ w3 ++ [d]), b. split; [by rewrite <- !app_assoc |].
    repeat (apply lang_cat_inv; eexists _, _; split; [reflexivity |]; split;
      [first [by apply lang_lit | by apply lang_plus_chr | by apply lang_star_chr] |]).
    apply lang_cat_inv. exists [d], []. split; [done |]. split; [|constructor].
    apply lang_plus_chr. cbn. unfold decimal. by rewrite Hd.
Qed.

Lemma reported_pattern `{!Unicode} i p sql : buildUnsupportedPatterns !! i = Some p ->
  reported (p_Name p) sql <-> exists a m b, toUpper sql = a ++ m ++ b /\ lang (Pattern p) m.
Proof.
  intros Hp%list_elem_of_lookup_2%list_elem_of_In. rewrite reported_spec. split; [|eauto].
  intros (q & Hq & Hn & Hm). enough (q = p) as -> by done.
  assert (Hnd : NoDup (map p_Name buildUnsupportedPatterns)) by (apply (bool_decide_unpack _); vm_compute; exact I).
  revert Hp Hq Hn Hnd. generalize buildUnsupportedPatterns. clear. intros l Hp Hq Hn Hnd.
  induction l as [|r l IH]; [done |]. cbn in Hnd. apply NoDup_cons in Hnd as [Hr Hnd].
  destruct Hp as [->|Hp], Hq as [->|Hq]; [done | | | by apply IH];
    exfalso; apply Hr, list_elem_of_In, in_map_iff; eauto.
Qed.

(** C34: An UPDATE or a DELETE with a LIMIT is reported exactly when the text
    between the verb and LIMIT has no line break other than right after the verb
    or right before LIMIT: a statement written over more lines passes the
    detector.  LOCK TABLES is reported for every UNLOCK TABLES. *)
Theorem limit_detected `{!Unicode} sql :
  ascii sql = true ->
  (reported "UPDATE ... LIMIT" sql <-> limited "UPDATE" (ToUpper sql))
  /\ (reported "DELETE ... LIMIT" sql <-> limited "DELETE" (ToUpper sql))
  /\ (reported "UNLOCK TABLES" sql -> reported "LOCK TABLES" sql).
Proof.
  intros Ha. assert (Hu : toUpper sql = ToUpper sql) by (unfold toUpper; by rewrite Ha). rewrite <- Hu. split; [|split].
  - rewrite <- limit_pattern_spec. exact (reported_pattern 0 _ sql eq_refl).
  - rewrite <- limit_pattern_spec. exact (reported_pattern 1 _ sql eq_refl).
  - intros (a & m & b & E & Hm)%(reported_pattern 26 _ sql eq_refl).
    apply (reported_pattern 25 _ sql eq_refl). cbn [Pattern] in *.
    apply lang_seqs_cons in Hm as (? & v & -> & ->%lang_lit & Hm).
    exists (a ++ str "UN"), (str "LOCK" ++ v), b. split; [rewrite E; by rewrite <- !app_assoc |].
    apply lang_seqs_cons. exists (str "LOCK"), v. split; [done |]. split; [by apply lang_lit | done].
Qed.

(** A statement with two features, and one that only looks like it has one. *)
Example Detect_found :
  map Feature (@Detect ascii_tables buildUnsupportedPatterns (str "update t set a = password( 'x' ) where b = 1 limit 3"))
  = ["UPDATE ... LIMIT"; "PASSWORD()"]%string.
Proof. vm_compute. reflexivity. Qed.
Example Detect_false_alarm :
  map Feature (@Detect ascii_tables buildUnsupportedPatterns (str "select checkpoint from t where mail = 'a@b.c'"))
  = ["GEOMETRY/SPATIAL types"; "User variable (@variable)"]%string.
Proof. vm_compute. reflexivity. Qed.
(** An UPDATE on three lines. *)
Definition long_update : bytes := str "update t" ++ cNl :: str "set a = 1" ++ cNl :: str "limit 3".

Lemma limit_detected_witness :
  @reported ascii_tables "UPDATE ... LIMIT" (str "update t set a = 1 limit 3")
  /\ ~ limited "UPDATE" (ToUpper long_update).
Proof.
  split.
  - apply (proj2 (proj1 (@limit_detected ascii_tables (str "update t set a = 1 limit 3") eq_refl))).
    exists [], (str " "), (str "T SET A = 1"), (str " "), (str " "), 51, [].
    split; [vm_compute; reflexivity |]. split; [split; [discriminate | reflexivity] |].
    split; [refine (bool_decide_unpack _ _); vm_compute; exact I |].
    split; [split; [discriminate | reflexivity] |]. split; [split; [discriminate | reflexivity] | reflexivity].
  - intros H. apply (proj2 (proj1 (@limit_detected ascii_tables long_update eq_refl))) in H.
    vm_compute in H. exact H.
Defined.
