(* ===== verification/PgDriver.v ===== *)
(** * The PostgreSQL driver as the proxy uses it

    pgx is not part of the sources.  [PgDriver C] is the class of the calls the
    proxy makes on a connection whose state is [C]; a command takes a connection
    to an answer and a new state.  Errors keep what the code looks at: whether
    they are a [*pgconn.PgError] (with its SQLSTATE and message), a
    [*mysql.MyError], or any other error, and the text [Error()] returns.

    [io S A] is code that reads and changes [S] and returns a value, returns an
    error, panics, or does not return. *)

From Stdlib Require Import ZArith Lia.
From stdpp Require Import base numbers list strings gmap.
From S2P Require Import Prelude GoStd GoStrings.
Open Scope Z_scope.

(** ** Errors and outcomes *)

Inductive goerror :=
| PgError (code message text : bytes)
| MyError (code : Z) (message text : bytes)
| OtherError (text : bytes).

(** [err.Error()]. *)
Definition error_text (e : goerror) : bytes :=
  match e with PgError _ _ t | MyError _ _ t | OtherError t => t end.

Inductive out (A : Type) :=
| Val (a : A)
| Fail (e : goerror)
| Died
| Hangs.
Arguments Val {A}.
Arguments Fail {A}.
Arguments Died {A}.
Arguments Hangs {A}.

Definition io (S A : Type) : Type := S -> out A * S.

Section monad.
Context {S : Type}.

Definition iret {A} (a : A) : io S A := fun s => (Val a, s).
Definition ifail {A} (e : goerror) : io S A := fun s => (Fail e, s).
Definition ibind {A B} (c : io S A) (k : A -> io S B) : io S B :=
  fun s => match c s with
           | (Val a, s') => k a s'
           | (Fail e, s') => (Fail e, s')
           | (Died, s') => (Died, s')
           | (Hangs, s') => (Hangs, s')
           end.
Definition iget {A} (f : S -> A) : io S A := fun s => (Val (f s), s).
Definition imod (f : S -> S) : io S unit := fun s => (Val tt, f s).
(** [x, err := c]: the error is a value of the code that follows. *)
Definition itry {A} (c : io S A) : io S (A + goerror) :=
  fun s => match c s with
           | (Val a, s') => (Val (inl a), s')
           | (Fail e, s') => (Val (inr e), s')
           | (Died, s') => (Died, s')
           | (Hangs, s') => (Hangs, s')
           end.
(** Code that only computes. *)
Definition ilift {A} (o : out A) : io S A := fun s => (o, s).
End monad.

(** [fmt.Errorf("...%w", err)]: the type of the error is hidden. *)
Definition wrapped (msg : bytes) {S A} (c : io S A) : io S A :=
  fun s => match c s with
           | (Fail e, s') => (Fail (OtherError (msg ++ error_text e)), s')
           | r => r
           end.

Declare Scope io_scope.
Delimit Scope io_scope with io.
Notation "'let!' x ':=' c 'in' k" := (ibind c (fun x => k))
  (at level 10, x name, c at level 200, k at level 200) : io_scope.
Notation "'do!' c 'in' k" := (ibind c (fun _ => k))
  (at level 10, c at level 200, k at level 200) : io_scope.

(** Code on a part of the state. *)
Definition zoom {S T A} (get : S -> T) (put : T -> S -> S) (c : io T A) : io S A :=
  fun s => let (r, t) := c (get s) in (r, put t s).

(** ** Result sets

    A value of a row is a Go value or one of the structs of pgtype the code
    switches on.  Rows come one by one; a row whose values cannot be read is
    [inr].  [rows_Err] is [rows.Err()] after the last row. *)
Record Numeric := mkNumeric {
  n_Int : option Z; n_Exp : Z; n_NaN : bool; n_Infinity : Z; n_Valid : bool }.

Inductive pgvalue :=
| Plain (v : GoValue)
| PgNumeric (n : Numeric)
| PgTime (microseconds : Z) (valid : bool)
| PgTimestamp (t : GoTime) (valid : bool).

Definition row := (list pgvalue + goerror)%type.

Record FieldDescription := mkFD { fd_Name : bytes; DataTypeOID : Z; TypeModifier : Z }.
Record Rows := mkRows {
  FieldDescriptions : list FieldDescription;
  row_values : list row;
  rows_Err : option goerror
}.

(** ** The driver

    [conn.Exec] gives the number of rows affected.  [QueryRow(...).Scan(&x)] is
    one call for each type it scans into; the [scan] methods read a row the way
    [rows.Scan] does. *)
Class PgDriver (C : Type) := {
  pg_exec : bytes -> list GoValue -> io C Z;
  pg_query : bytes -> list GoValue -> io C Rows;
  pg_close : io C unit;
  query_string : bytes -> io C bytes;
  query_bool : bytes -> io C bool;
  scan_int64 : row -> Z + goerror;
  scan_column : row -> (bytes * bytes * option Z) + goerror
}.

(** The methods of [pgtype.Numeric] the code calls: [MarshalJSON],
    [Float64Value] (its bits, when it is valid) and [Int.String]. *)
Class NumericText := {
  numeric_json : Numeric -> bytes + goerror;
  numeric_float : Numeric -> option Z;
  numeric_int : Numeric -> bytes
}.

(** [_, err := conn.Exec(ctx, sql)]. *)
Definition exec_ {C} `{!PgDriver C} (sql : bytes) : io C unit :=
  (let! n := pg_exec sql [] in iret tt)%io.
