(* ===== verification/Mapper.v ===== *)
(** * Error codes and column types

    [pkg/mapper/errors.go] and [pkg/mapper/types.go]: SQLSTATEs to MySQL error
    codes, type OIDs to MySQL column types, and the conversion of values for a
    column type.

    [int64(f)] of a float that does not fit is the argument [overflow], which
    Go leaves to the implementation; the printing of floats and times by [%v]
    is the argument [fmt_v] of [sprint_v]. *)

From Stdlib Require Import ZArith Lia.
From stdpp Require Import base numbers list strings gmap.
From S2P Require Import Prelude GoStd GoFloat GoStrings BinlogValue PgDriver.
Open Scope Z_scope.

(** ** Errors *)

Definition ER_UNKNOWN_ERROR : Z := 1105.

(** [initSQLStateMapping]. *)
Definition sqlStateToMySQL : list (string * Z) :=
  [("23505", 1062); ("23503", 1452); ("42501", 1142); ("42P01", 1146); ("42703", 1054); ("42601", 1064);
   ("40P01", 1213); ("57014", 1317); ("28000", 1045); ("3D000", 1049); ("42000", 1044); ("42P02", 1146);
   ("42P10", 1064); ("42704", 1054); ("42846", 1064); ("42883", 1064); ("55P03", 1205); ("53300", 1203);
   ("53400", 1040); ("22001", 1406); ("23502", 1048); ("42710", 1061); ("42712", 1061); ("23514", 3819);
   ("53100", 1021); ("53200", 1041); ("42939", 1142); ("40001", 1213); ("23000", 1062); ("22003", 1264);
   ("22012", 1365); ("22007", 1292); ("22008", 1292); ("23001", 1364)]%string.

Definition lookup_state (code : bytes) : option Z :=
  snd <$> List.find (fun e => bytes_eqb (str e.1) code) sqlStateToMySQL.

Definition GetMySQLErrorCode (sqlState : bytes) : Z := default ER_UNKNOWN_ERROR (lookup_state sqlState).

Definition MapError (pgErr : option goerror) : Z * bytes :=
  match pgErr with
  | None => (0, [])
  | Some (PgError code message _) =>
      match lookup_state code with
      | Some mysqlCode => (mysqlCode, message)
      | None => (ER_UNKNOWN_ERROR, message)
      end
  | Some e => (ER_UNKNOWN_ERROR, error_text e)
  end.

(** ** Column types *)

Definition PostgreSQLToMySQL (pgType : Z) : Z :=
  if pgType =? 16 then MYSQL_TYPE_TINY
  else if pgType =? 20 then MYSQL_TYPE_LONGLONG
  else if pgType =? 21 then MYSQL_TYPE_SHORT
  else if pgType =? 23 then MYSQL_TYPE_LONG
  else if pgType =? 700 then MYSQL_TYPE_FLOAT
  else if pgType =? 701 then MYSQL_TYPE_DOUBLE
  else if pgType =? 1700 then MYSQL_TYPE_NEWDECIMAL
  else if (pgType =? 1043) || (pgType =? 25) then MYSQL_TYPE_VAR_STRING
  else if pgType =? 1042 then MYSQL_TYPE_STRING
  else if pgType =? 1082 then MYSQL_TYPE_DATE
  else if pgType =? 1083 then MYSQL_TYPE_TIME
  else if (pgType =? 1114) || (pgType =? 1184) then MYSQL_TYPE_DATETIME
  else if pgType =? 17 then MYSQL_TYPE_BLOB
  else if (pgType =? 114) || (pgType =? 3802) then MYSQL_TYPE_JSON
  else MYSQL_TYPE_VAR_STRING.

Definition MySQLTypeToString (mysqlType : Z) : bytes :=
  let ty t := mysqlType =? t in
  str (if ty MYSQL_TYPE_DECIMAL || ty MYSQL_TYPE_NEWDECIMAL then "DECIMAL"
  else if ty MYSQL_TYPE_TINY then "TINYINT"
  else if ty MYSQL_TYPE_SHORT then "SMALLINT"
  else if ty MYSQL_TYPE_LONG then "INT"
  else if ty MYSQL_TYPE_FLOAT then "FLOAT"
  else if ty MYSQL_TYPE_DOUBLE then "DOUBLE"
  else if ty MYSQL_TYPE_NULL then "NULL"
  else if ty MYSQL_TYPE_TIMESTAMP then "TIMESTAMP"
  else if ty MYSQL_TYPE_LONGLONG then "BIGINT"
  else if ty MYSQL_TYPE_INT24 then "MEDIUMINT"
  else if ty MYSQL_TYPE_DATE then "DATE"
  else if ty MYSQL_TYPE_TIME then "TIME"
  else if ty MYSQL_TYPE_DATETIME then "DATETIME"
  else if ty MYSQL_TYPE_YEAR then "YEAR"
  else if ty MYSQL_TYPE_VARCHAR || ty MYSQL_TYPE_VAR_STRING then "VARCHAR"
  else if ty MYSQL_TYPE_BIT then "BIT"
  else if ty MYSQL_TYPE_JSON then "JSON"
  else if ty MYSQL_TYPE_ENUM then "ENUM"
  else if ty MYSQL_TYPE_SET then "SET"
  else if ty MYSQL_TYPE_TINY_BLOB then "TINYBLOB"
  else if ty MYSQL_TYPE_MEDIUM_BLOB then "MEDIUMBLOB"
  else if ty MYSQL_TYPE_LONG_BLOB then "LONGBLOB"
  else if ty MYSQL_TYPE_BLOB then "BLOB"
  else if ty MYSQL_TYPE_STRING then "CHAR"
  else if ty MYSQL_TYPE_GEOMETRY then "GEOMETRY"
  else "UNKNOWN")%string.

Definition GetDefaultLength (mysqlType : Z) : Z :=
  let ty t := mysqlType =? t in
  if ty MYSQL_TYPE_TINY then 4
  else if ty MYSQL_TYPE_SHORT then 6
  else if ty MYSQL_TYPE_LONG || ty MYSQL_TYPE_INT24 then 11
  else if ty MYSQL_TYPE_LONGLONG then 20
  else if ty MYSQL_TYPE_FLOAT then 12
  else if ty MYSQL_TYPE_DOUBLE then 22
  else if ty MYSQL_TYPE_DECIMAL || ty MYSQL_TYPE_NEWDECIMAL then 10
  else if ty MYSQL_TYPE_DATE then 10
  else if ty MYSQL_TYPE_TIME then 8
  else if ty MYSQL_TYPE_DATETIME || ty MYSQL_TYPE_TIMESTAMP then 19
  else if ty MYSQL_TYPE_YEAR then 4
  else if ty MYSQL_TYPE_VARCHAR || ty MYSQL_TYPE_VAR_STRING then 255
  else if ty MYSQL_TYPE_STRING then 255
  else if ty MYSQL_TYPE_TINY_BLOB then 255
  else if ty MYSQL_TYPE_BLOB then 65535
  else if ty MYSQL_TYPE_MEDIUM_BLOB then 16777215
  else if ty MYSQL_TYPE_LONG_BLOB then 4294967295
  else if ty MYSQL_TYPE_JSON then 4294967295
  else 255.

(** The fields of go-mysql's [mysql.Field] the code sets. *)
Record Field := mkField {
  f_Name : bytes; f_Type : Z; f_Charset : Z; ColumnLength : Z; f_Flag : Z; f_Decimal : Z }.

Definition BuildMySQLFieldPacket (name : bytes) (pgType length : Z) : Field :=
  let mysqlType := PostgreSQLToMySQL pgType in
  mkField name mysqlType 33 (if 0 <? length then length else GetDefaultLength mysqlType) 0 0.

(** ** [time.Parse] with the other layouts of the sources *)

(** [time.Parse("2006-01-02", s)]. *)
Definition parse_ymd (s : bytes) : option (Z * Z * Z * bytes) :=
  '(y, s) ← take_num 4 s; s ← take_lit 45 s;
  '(mo, s) ← getnum true s; s ← take_lit 45 s;
  '(d, s) ← getnum true s; Some (y, mo, d, s).
Definition good_day (y mo d : Z) : bool :=
  (1 <=? mo) && (mo <=? 12) && (1 <=? d) && (d <=? days_in mo y).
Definition parse_date (s : bytes) : option GoTime :=
  '(y, mo, d, s) ← parse_ymd s;
  if bytes_eqb s [] && good_day y mo d then Some (mk_date y mo d 0 0 0 0) else None.

(** The clock ["15:04:05"] with an optional fraction: hour, minute, second,
    nanoseconds and the rest of the text. *)
Definition parse_hms (s : bytes) : option (Z * Z * Z * Z * bytes) :=
  '(hh, s) ← getnum false s; s ← take_lit 58 s;
  '(mi, s) ← getnum true s; s ← take_lit 58 s;
  '(ss, s) ← getnum true s;
  let (ns, s) := parse_frac s in
  if (hh <? 24) && (mi <? 60) && (ss <? 60) then Some (hh, mi, ss, ns, s) else None.

(** [time.Parse("15:04:05", s)]: a time of January 1 of the year 0. *)
Definition parse_clock (s : bytes) : option GoTime :=
  '(hh, mi, ss, ns, s) ← parse_hms s;
  if bytes_eqb s [] then Some (mk_date 0 1 1 hh mi ss ns) else None.

(** [time.Parse("2006-01-02T15:04:05", s)]. *)
Definition parse_iso (s : bytes) : option GoTime :=
  '(y, mo, d, s) ← parse_ymd s; s ← take_lit 84 s;
  '(hh, mi, ss, ns, s) ← parse_hms s;
  if bytes_eqb s [] && good_day y mo d then Some (mk_date y mo d hh mi ss ns) else None.

(** The zone [Z07:00]: its offset in seconds. *)
Definition parse_zone (s : bytes) : option (Z * bytes) :=
  match s with
  | 90 :: r => Some (0, r)
  | sign :: r =>
      '(hh, r) ← getnum true r; r ← take_lit 58 r; '(mi, r) ← getnum true r;
      if negb ((hh <=? 24) && (mi <=? 60)) then None
      else if sign =? 43 then Some ((hh * 60 + mi) * 60, r)
      else if sign =? 45 then Some (- ((hh * 60 + mi) * 60), r)
      else None
  | [] => None
  end.

(** [time.Parse(time.RFC3339, s)]. *)
Definition parse_rfc3339 (s : bytes) : option GoTime :=
  '(y, mo, d, s) ← parse_ymd s; s ← take_lit 84 s;
  '(hh, mi, ss, ns, s) ← parse_hms s;
  '(off, s) ← parse_zone s;
  if bytes_eqb s [] && good_day y mo d
  then Some (mkTime (unix_sec (mk_date y mo d hh mi ss ns) - off) ns off) else None.

(** ** Conversion of values

    A conversion returns a value and an error; the flag says that the error is
    not nil. *)

(** [fmt.Sscanf(v, "%f", &f)] into a float64: [None] when it fails. *)
Definition scan_float64 (s : bytes) : option Z :=
  let s := skip_space s in
  if is_nan s then Some (f_encode 52 11 (FNaN false 1))
  else
    let '(neg, s) := match s with
                     | c :: t => if c =? 45 then (true, t) else if c =? 43 then (false, t) else (false, s)
                     | [] => (false, s)
                     end in
    if is_inf s then Some (f_encode 52 11 (FInf neg))
    else '(ip, fp, e) ← parse_decimal s;
         let e := e - Z.of_nat (length fp) in
         let n := digits_val 0 (ip ++ fp) in
         if 0 <=? e then f_round 52 11 neg (n * 10 ^ e) 1 else f_round 52 11 neg n (10 ^ (- e)).

(** [float64(z)]. *)
Definition float64_of_int (z : Z) : Z := f_encode 52 11 (FFin (z <? 0) (Z.abs z) 0).

Section convert.
Context (fmt_v : GoValue -> bytes) (overflow : Z -> Z) `{!NumericText}.

(** [int64(f)]: towards zero. *)
Definition int64_of_float (bits : Z) : Z :=
  match f_decode 52 11 bits with
  | FFin neg m e =>
      let a := if 0 <=? e then m * 2 ^ e else m / 2 ^ (- e) in
      let z := if neg : bool then - a else a in
      if (- 2 ^ 63 <=? z) && (z <? 2 ^ 63) then z else overflow bits
  | _ => overflow bits
  end.

Definition convertToInt (value : pgvalue) : pgvalue * bool :=
  let int64 z := (Plain (VInt64 z), false) in
  match value with
  | Plain (VInt v) | Plain (VInt8 v) | Plain (VInt16 v) | Plain (VInt32 v) | Plain (VInt64 v) => int64 v
  | Plain (VUint v) | Plain (VUint8 v) | Plain (VUint16 v) | Plain (VUint32 v) | Plain (VUint64 v) =>
      int64 (swrap 64 v)
  | Plain (VFloat32 b) => int64 (int64_of_float (float64_of_32 b))
  | Plain (VFloat64 b) => int64 (int64_of_float b)
  | Plain (VString s) =>
      match scan_int 64 s with
      | Some (i, _) => int64 i
      | None => (Plain (VInt64 0), true)
      end
  | _ => (value, false)
  end.

Definition convertToFloat (value : pgvalue) : pgvalue * bool :=
  let float64 b := (Plain (VFloat64 b), false) in
  match value with
  | Plain (VInt v) | Plain (VInt8 v) | Plain (VInt16 v) | Plain (VInt32 v) | Plain (VInt64 v)
  | Plain (VUint v) | Plain (VUint8 v) | Plain (VUint16 v) | Plain (VUint32 v) | Plain (VUint64 v) =>
      float64 (float64_of_int v)
  | Plain (VFloat32 b) => float64 (float64_of_32 b)
  | Plain (VFloat64 b) => float64 b
  | Plain (VString s) =>
      match scan_float64 s with
      | Some b => float64 b
      | None => (Plain (VFloat64 0), true)
      end
  | _ => (value, false)
  end.

Definition convertToDecimal (value : pgvalue) : pgvalue * bool := convertToFloat value.

(** [%v] of a value; pgtype's structs print as their fields. *)
Definition sprint (fmt_struct : pgvalue -> bytes) (value : pgvalue) : bytes :=
  match value with
  | Plain v => sprint_v fmt_v v
  | v => fmt_struct v
  end.

Context (fmt_struct : pgvalue -> bytes).

Definition convertToString (value : pgvalue) : pgvalue * bool :=
  match value with
  | Plain (VString v) => (Plain (VString v), false)
  | Plain (VBytes v) => (Plain (VString v), false)
  | _ => (Plain (VString (sprint fmt_struct value)), false)
  end.

(** The layouts are tried in turn; with [.999999] the second one accepts what
    the first one does. *)
Definition parse_any (s : bytes) : option GoTime :=
  match parse_datetime s with
  | Some t => Some t
  | None => match parse_date s with
            | Some t => Some t
            | None => parse_rfc3339 s
            end
  end.

Definition convertToTime (value : pgvalue) : pgvalue * bool :=
  match value with
  | Plain (VTime t) => (Plain (VTime t), false)
  | Plain (VBytes s) | Plain (VString s) =>
      match parse_any s with
      | Some t => (Plain (VTime t), false)
      | None => (Plain (VTime zero_time), true)
      end
  | _ => (value, false)
  end.

Definition convertToBytes (value : pgvalue) : pgvalue * bool :=
  match value with
  | Plain (VBytes v) => (Plain (VBytes v), false)
  | Plain (VString v) => (Plain (VBytes v), false)
  | _ => (Plain (VBytes (sprint fmt_struct value)), false)
  end.

(** The switch of [ConvertValue] on the target type. *)
Definition convert_to (targetType : Z) (value : pgvalue) : pgvalue * bool :=
  let ty t := targetType =? t in
  if ty MYSQL_TYPE_TINY || ty MYSQL_TYPE_SHORT || ty MYSQL_TYPE_LONG || ty MYSQL_TYPE_LONGLONG
     || ty MYSQL_TYPE_INT24 then convertToInt value
  else if ty MYSQL_TYPE_FLOAT || ty MYSQL_TYPE_DOUBLE then convertToFloat value
  else if ty MYSQL_TYPE_DECIMAL || ty MYSQL_TYPE_NEWDECIMAL then convertToDecimal value
  else if ty MYSQL_TYPE_VARCHAR || ty MYSQL_TYPE_VAR_STRING || ty MYSQL_TYPE_STRING then convertToString value
  else if ty MYSQL_TYPE_DATE || ty MYSQL_TYPE_DATETIME || ty MYSQL_TYPE_TIMESTAMP then convertToTime value
  else if ty MYSQL_TYPE_TIME then convertToTime value
  else if ty MYSQL_TYPE_BLOB || ty MYSQL_TYPE_TINY_BLOB || ty MYSQL_TYPE_MEDIUM_BLOB || ty MYSQL_TYPE_LONG_BLOB
       then convertToBytes value
  else if ty MYSQL_TYPE_JSON then convertToString value
  else (value, false).

Definition ConvertValue (value : pgvalue) (targetType : Z) : pgvalue * bool :=
  match value with
  | Plain VNil => (Plain VNil, false)
  | PgNumeric n =>
      if negb (n_Valid n) then (Plain VNil, false)
      else convert_to targetType
             (match numeric_float n with
              | Some b => Plain (VFloat64 b)
              | None => Plain (VString (numeric_int n))
              end)
  | PgTimestamp t valid =>
      if negb valid then (Plain VNil, false) else convert_to targetType (Plain (VTime t))
  | _ => convert_to targetType value
  end.

(** ** Values of temporal columns as text *)

Definition char_at (s : bytes) (i : nat) (c : Z) : bool := holds_at (Z.eqb c) s i.

Definition FormatValueForMySQL (value : pgvalue) (fieldType : Z) : pgvalue :=
  let text s := Plain (VString s) in
  match value with
  | Plain VNil => Plain VNil
  | Plain (VTime t) =>
      if fieldType =? MYSQL_TYPE_DATE then text (fmt_date t)
      else if (fieldType =? MYSQL_TYPE_DATETIME) || (fieldType =? MYSQL_TYPE_TIMESTAMP) then text (fmt_datetime t)
      else if fieldType =? MYSQL_TYPE_TIME then text (fmt_clock t)
      else if fieldType =? MYSQL_TYPE_YEAR then Plain (VInt (t_Year t))
      else value
  | Plain (VBytes b) =>
      if fieldType =? MYSQL_TYPE_DATE then
        if (length b =? 10)%nat && char_at b 4 45 && char_at b 7 45 then text b
        else match parse_date b with Some t => text (fmt_date t) | None => value end
      else if (fieldType =? MYSQL_TYPE_DATETIME) || (fieldType =? MYSQL_TYPE_TIMESTAMP) then
        match parse_datetime b with
        | Some t => text (fmt_datetime t)
        | None => match parse_rfc3339 b with
                  | Some t => text (fmt_datetime t)
                  | None => text b
                  end
        end
      else if fieldType =? MYSQL_TYPE_TIME then
        if (length b =? 8)%nat && char_at b 2 58 && char_at b 5 58 then text b
        else match parse_clock b with Some t => text (fmt_clock t) | None => value end
      else value
  | _ => value
  end.
End convert.

Lemma scan_float64_agrees s : default 0 (scan_float64 s) = Sscanf_float64 s.
Proof.
  unfold scan_float64, Sscanf_float64, Sscanf_f. destruct (is_nan _); [done |].
  set (p := match skip_space s with [] => _ | _ => _ end). destruct p as [neg r].
  destruct (is_inf r); [done |]. destruct (parse_decimal r) as [[[ip fp] e]|]; [|done]. cbn.
  by destruct (0 <=? _).
Qed.

(** ** Properties *)

Section facts.
Context (fmt_v : GoValue -> bytes) (overflow : Z -> Z) `{!NumericText} (fmt_struct : pgvalue -> bytes).

(** A value the switch on the type is reached with, and a conversion that leaves
    its own results alone. *)
Definition reaches (v : pgvalue) : Prop := match v with PgNumeric _ | PgTimestamp _ _ => False | _ => True end.
Definition settles (f : pgvalue -> pgvalue * bool) : Prop :=
  forall v, reaches v -> reaches (fst (f v)) /\ f (fst (f v)) = (fst (f v), false).

Lemma int_settles : settles (convertToInt overflow).
Proof. intros [[]| | |] Hv; try done; cbn; by destruct (scan_int 64 s) as [[]|]. Qed.
Lemma float_settles : settles convertToFloat.
Proof. intros [[]| | |] Hv; try done; cbn; by destruct (scan_float64 s). Qed.
Lemma string_settles : settles (convertToString fmt_v fmt_struct).
Proof. by intros [[]| | |] Hv. Qed.
Lemma time_settles : settles convertToTime.
Proof. by intros [[]| | |] Hv; cbn; try destruct (parse_any _). Qed.
Lemma bytes_settles : settles (convertToBytes fmt_v fmt_struct).
Proof. by intros [[]| | |] Hv. Qed.
Lemma same_settles : settles (fun v => (v, false)).
Proof. by intros v Hv. Qed.

Lemma convert_to_settles t : settles (convert_to fmt_v overflow fmt_struct t).
Proof.
  unfold convert_to. repeat match goal with |- settles (fun v => if ?b then _ else _) => destruct b end;
    auto using int_settles, float_settles, string_settles, time_settles, bytes_settles, same_settles.
Qed.

Lemma ConvertValue_reaches v t : reaches v ->
  ConvertValue fmt_v overflow fmt_struct v t = convert_to fmt_v overflow fmt_struct t v \/ v = Plain VNil.
Proof. destruct v as [[]| | |]; auto; done. Qed.

(** Converting a converted value again changes nothing and is not an error,
    for every MySQL type and every value PostgreSQL sends, also when the first
    conversion failed. *)
Theorem ConvertValue_idempotent v t :
  let w := fst (ConvertValue fmt_v overflow fmt_struct v t) in
  ConvertValue fmt_v overflow fmt_struct w t = (w, false).
Proof.
  assert (Hs : forall u, reaches u -> let w := fst (convert_to fmt_v overflow fmt_struct t u) in
            ConvertValue fmt_v overflow fmt_struct w t = (w, false)).
  { intros u Hu w. destruct (convert_to_settles t u Hu) as [Hw Hi].
    destruct (ConvertValue_reaches w t Hw) as [->|E]; [exact Hi | by rewrite E]. }
  destruct v as [[]|n|m b|x b]; try (apply Hs; exact I); [done | |]; cbn.
  - destruct (n_Valid n); [|done]. destruct (numeric_float n); by apply Hs.
  - destruct b; [by apply Hs | done].
Qed.

(** The integers a value of the driver holds. *)
Definition sized (v : pgvalue) : Prop :=
  match v with
  | Plain (VInt z) | Plain (VInt8 z) | Plain (VInt16 z) | Plain (VInt32 z) | Plain (VInt64 z) => in_swidth 64 z
  | _ => True
  end.

Lemma scan_int_range w s z r : scan_int w s = Some (z, r) -> in_swidth w z.
Proof.
  unfold scan_int. destruct (match skip_space s with [] => _ | _ => _ end) as [neg t].
  destruct (span_digits t) as [d r']. destruct d; [done |]. destruct (_ && _) eqn:E; [|done].
  intros [= <- _]. apply andb_true_iff in E as [E1%Z.leb_le E2%Z.ltb_lt]. by split.
Qed.
Lemma int64_of_float_range b : in_swidth 64 (overflow b) -> in_swidth 64 (int64_of_float overflow b).
Proof.
  intros Ho. unfold int64_of_float. destruct (f_decode 52 11 b); try done.
  destruct (_ && _) eqn:E; [|done]. unfold in_swidth. lia.
Qed.

(** A value for an integer column is a 64-bit integer, unless it is no number
    at all: NULL, a boolean, bytes and times are passed on as they are.  A
    text is an error exactly when it does not start with an integer that
    fits. *)
Theorem int_columns_in_range v t : (forall b, in_swidth 64 (overflow b)) -> sized v ->
  t = MYSQL_TYPE_TINY \/ t = MYSQL_TYPE_SHORT \/ t = MYSQL_TYPE_LONG \/ t = MYSQL_TYPE_LONGLONG \/ t = MYSQL_TYPE_INT24 ->
  match ConvertValue fmt_v overflow fmt_struct v t with
  | (Plain (VInt64 z), err) => in_swidth 64 z
      /\ (err = true <-> exists s, scan_int 64 s = None /\ (v = Plain (VString s)
            \/ exists n, v = PgNumeric n /\ n_Valid n = true /\ numeric_float n = None /\ s = numeric_int n))
  | (w, err) => err = false /\ match w with
                               | Plain (VNil | VBool _ | VBytes _ | VTime _ | VOther _) | PgTime _ _ => True
                               | _ => False
                               end
  end.
Proof.
  intros Ho Hv Ht.
  assert (Ec : forall u, convert_to fmt_v overflow fmt_struct t u = convertToInt overflow u)
    by (intros u; destruct Ht as [->|[->|[->|[->| ->]]]]; done).
  assert (Hnum : forall z, in_swidth 64 z -> (forall s, v <> Plain (VString s)) ->
            (forall n, v = PgNumeric n -> numeric_float n <> None) ->
            in_swidth 64 z /\ (false = true <-> exists s, scan_int 64 s = None /\ (v = Plain (VString s)
            \/ exists n, v = PgNumeric n /\ n_Valid n = true /\ numeric_float n = None /\ s = numeric_int n))).
  { intros z Hz Hs Hn. split; [done |]. split; [done |].
    intros (s & _ & [E|(n & E & _ & Ef & _)]); [by destruct (Hs s) | by destruct (Hn n E)]. }
  destruct v as [[]|n|m b|x b]; cbn in Hv; try done; cbn [ConvertValue]; rewrite ?Ec; cbn [convertToInt];
    try (apply Hnum; [|done | done]; (done || by apply swrap_range || by apply int64_of_float_range)); try done.
  - destruct (scan_int 64 s) as [[i r]|] eqn:E.
    + split; [by eapply scan_int_range |]. split; [done |].
      intros (s' & E' & [[= ->]|(n & ? & _)]); congruence.
    + split; [done |]. split; [|done]. intros _. exists s. auto.
  - destruct (n_Valid n) eqn:En; cbn [negb]; [|done]. destruct (numeric_float n) as [b|] eqn:Ef; rewrite ?Ec; cbn.
    + apply Hnum; [by apply int64_of_float_range | done |]. by intros ? [= <-]; congruence.
    + destruct (scan_int 64 (numeric_int n)) as [[i r]|] eqn:E.
      * split; [by eapply scan_int_range |]. split; [done |].
        intros (s' & E' & [?|(n' & [= <-] & _ & _ & ->)]); congruence.
      * split; [done |]. split; [|done]. intros _. exists (numeric_int n). eauto 8.
  - destruct b; cbn [negb]; rewrite ?Ec; done.
Qed.
End facts.

Lemma int_columns_in_range_witness :
  let num := {| numeric_json := fun _ => inl []; numeric_float := fun _ => None; numeric_int := fun _ => [] |} in
  in_swidth 64 7 /\ @ConvertValue (fun _ => []) (fun _ => 0) num (fun _ => []) (Plain (VString (str "7 days"))) MYSQL_TYPE_LONG
    = (Plain (VInt64 7), false).
Proof.
  intros num.
  pose proof (@int_columns_in_range (fun _ => []) (fun _ => 0) num (fun _ => []) (Plain (VString (str "7 days")))
                MYSQL_TYPE_LONG) as Hw.
  assert (E : @ConvertValue (fun _ => []) (fun _ => 0) num (fun _ => []) (Plain (VString (str "7 days"))) MYSQL_TYPE_LONG
    = (Plain (VInt64 7), false)) by reflexivity.
  rewrite E in Hw. split; [|done]. apply Hw; [unfold in_swidth; lia | done | auto].
Defined.
