(* ===== verification/Variables.v ===== *)
(** * MySQL variables on PostgreSQL settings

    [pkg/mapper/variables.go]: the table of variables, SET GLOBAL, SET SESSION
    and the reading of variables.  The overrides are shared by all connections;
    the state of the operations is the connection and the overrides. *)

From Stdlib Require Import ZArith Lia.
From stdpp Require Import base numbers list strings gmap.
From S2P Require Import Prelude GoStd GoStrings PgDriver.
Open Scope Z_scope.
Open Scope io_scope.

(** ** The tables *)

Inductive VarScope := ScopeSession | ScopeGlobal | ScopeInternal.

(** The optional value transforms of the table, by name. *)
Inductive transform :=
| OnOff            (** 1, ON, TRUE: on; anything else: off *)
| OnLocal          (** 1, ON: on; anything else: local *)
| Millis           (** seconds to milliseconds *)
| ReplicaRole      (** 0, OFF: replica; anything else: origin *)
| LogStatement.    (** 0, OFF: none; anything else: all *)

Inductive reverse :=
| OnIsOne | SyncIsOne | ReplicaIsZero | NoneIsZero | AddProxy.

Record VarMapping := mkVar {
  PGVar : string; v_Scope : VarScope; NeedRestart : bool; NoOp : bool;
  Transform : option transform; Reverse : option reverse; StaticValue : string }.

Section vars.
Context `{!Unicode}.

Definition is_upper_word (v : bytes) (w : string) : bool := bytes_eqb (toUpper v) (str w).

Definition apply_transform (t : transform) (v : bytes) : bytes :=
  let one := bytes_eqb v (str "1") in
  let zero := bytes_eqb v (str "0") in
  match t with
  | OnOff => if one || is_upper_word v "ON" || is_upper_word v "TRUE" then str "on" else str "off"
  | OnLocal => if one || is_upper_word v "ON" then str "on" else str "local"
  | Millis => v ++ str "000"
  | ReplicaRole => if zero || is_upper_word v "OFF" then str "replica" else str "origin"
  | LogStatement => if zero || is_upper_word v "OFF" then str "none" else str "all"
  end.

Definition apply_reverse (r : reverse) (v : bytes) : bytes :=
  let eq w := bytes_eqb v (str w) in
  match r with
  | OnIsOne => if eq "on"%string then str "1" else str "0"
  | SyncIsOne =>
      if eq "on"%string || eq "remote_write"%string || eq "remote_apply"%string then str "1" else str "0"
  | ReplicaIsZero => if eq "replica"%string then str "0" else str "1"
  | NoneIsZero => if eq "none"%string then str "0" else str "1"
  | AddProxy => v ++ str "-MyProxy"
  end.

Definition static (v : string) : VarMapping := mkVar "" ScopeInternal false false None None v.
Definition stored (v : string) : VarMapping := mkVar "" ScopeInternal false true None None v.

(** [mysqlToPostgresVars]. *)
Definition mysqlToPostgresVars : list (string * VarMapping) :=
  [("read_only", mkVar "default_transaction_read_only" ScopeGlobal false false (Some OnOff) (Some OnIsOne) "");
   ("super_read_only", mkVar "default_transaction_read_only" ScopeGlobal false false (Some OnOff) (Some OnIsOne) "");
   ("rpl_semi_sync_master_enabled",
      mkVar "synchronous_commit" ScopeGlobal false false (Some OnLocal) (Some SyncIsOne) "");
   ("rpl_semi_sync_slave_enabled", mkVar "" ScopeGlobal false true None None "");
   ("rpl_semi_sync_master_timeout", mkVar "synchronous_commit" ScopeGlobal false true None None "");
   ("max_connections", mkVar "max_connections" ScopeGlobal true false None None "");
   ("wait_timeout", mkVar "idle_in_transaction_session_timeout" ScopeGlobal false false (Some Millis) None "");
   ("foreign_key_checks",
      mkVar "session_replication_role" ScopeSession false false (Some ReplicaRole) (Some ReplicaIsZero) "");
   ("sql_log_bin", mkVar "log_statement" ScopeSession false false (Some LogStatement) (Some NoneIsZero) "");
   ("version", mkVar "server_version" ScopeGlobal false false None (Some AddProxy) "");
   ("version_comment", static "MyProxy (MySQL to PostgreSQL Proxy)");
   ("server_id", stored "1");
   ("server_uuid", static "38db14f0-9bcc-487a-8001-9bcc38db18d8");
   ("report_host", stored "");
   ("binlog_format", static "ROW"); ("binlog_row_image", static "FULL");
   ("log_bin", static "ON"); ("binlog_checksum", static "CRC32");
   ("gtid_mode", static "OFF"); ("gtid_purged", stored ""); ("gtid_executed", static "");
   ("character_set_client", stored "utf8mb4"); ("character_set_connection", stored "utf8mb4");
   ("character_set_results", stored "utf8mb4"); ("character_set_server", stored "utf8mb4");
   ("character_set_database", stored "utf8mb4");
   ("collation_connection", stored "utf8mb4_general_ci"); ("collation_server", stored "utf8mb4_general_ci");
   ("collation_database", stored "utf8mb4_general_ci");
   ("sql_mode", stored "TRADITIONAL");
   ("max_allowed_packet", stored "67108864");
   ("net_write_timeout", stored ""); ("net_read_timeout", stored ""); ("interactive_timeout", stored "")]%string.

Record StatusVarMapping := mkStatus { PGQuery : string; sv_Transform : bool; sv_StaticValue : string }.

(** [mysqlStatusVars]; the only transform is the one of the first entry. *)
Definition mysqlStatusVars : list (string * StatusVarMapping) :=
  [("rpl_semi_sync_master_status", mkStatus "SHOW synchronous_commit" true "");
   ("rpl_semi_sync_master_clients",
      mkStatus "SELECT count(*)::text FROM pg_stat_replication WHERE sync_state = 'sync'" false "");
   ("rpl_semi_sync_slave_enabled", mkStatus "" false "OFF")]%string.
Definition sync_status (v : bytes) : bytes :=
  let eq w := bytes_eqb v (str w) in
  if eq "on"%string || eq "remote_write"%string || eq "remote_apply"%string then str "ON" else str "OFF".

Definition lookup_var {A} (name : bytes) (table : list (string * A)) : option A :=
  snd <$> List.find (fun e => bytes_eqb (str e.1) (toLower name)) table.

Definition GetVarMapping (mysqlVar : bytes) : option VarMapping := lookup_var mysqlVar mysqlToPostgresVars.
Definition GetStatusVarMapping (mysqlVar : bytes) : option StatusVarMapping := lookup_var mysqlVar mysqlStatusVars.

(** ** The overrides *)

Abbreviation overrides := (gmap bytes bytes).

Definition SetInternalVar (name value : bytes) (m : overrides) : overrides := <[toLower name := value]> m.
Definition GetInternalVar (name : bytes) (m : overrides) : option bytes := m !! toLower name.

(** ** Operations *)

Context {C : Type} `{!PgDriver C}.

Definition env : Type := C * overrides.
Definition on_conn {A} (c : io C A) : io env A := zoom fst (fun c' (e : env) => (c', e.2)) c.
Definition on_vars (f : overrides -> overrides) : io env unit := imod (fun e : env => (e.1, f e.2)).

Definition pg_value (m : VarMapping) (v : bytes) : bytes :=
  match Transform m with Some t => apply_transform t v | None => v end.

Definition alter_system (m : VarMapping) (v : bytes) : bytes :=
  str "ALTER SYSTEM SET " ++ str (PGVar m) ++ str " = '" ++ v ++ str "'".
Definition reload : bytes := str "SELECT pg_reload_conf()".

(** The branch for [NeedRestart] sends the same two statements. *)
Definition HandleSetGlobal (varName varValue : bytes) : io env bool :=
  match GetVarMapping varName with
  | None => iret false
  | Some m =>
      match v_Scope m, NoOp m with
      | ScopeInternal, _ | _, true => do! on_vars (SetInternalVar varName varValue) in iret true
      | _, _ =>
          do! on_vars (SetInternalVar varName varValue) in
          do! wrapped (str "ALTER SYSTEM SET " ++ str (PGVar m) ++ str " failed: ")
                (on_conn (exec_ (alter_system m (pg_value m varValue)))) in
          do! on_conn (exec_ reload) in
          iret true
      end
  end.

(** The result [(true, err)] is a handled variable with an error; callers look
    at both. *)
Definition HandleSetSession (varName varValue : bytes) : io env (bool * option goerror) :=
  match GetVarMapping varName with
  | None => iret (false, None)
  | Some m =>
      match v_Scope m, NoOp m with
      | ScopeInternal, _ | _, true => iret (true, None)
      | _, _ =>
          let! r := itry (on_conn (exec_
            (str "SET " ++ str (PGVar m) ++ str " = '" ++ pg_value m varValue ++ str "'"))) in
          iret (true, match r with inr e => Some e | inl _ => None end)
      end
  end.

Definition is_empty (s : string) : bool := match s with EmptyString => true | _ => false end.

(** [None] is a variable that is not found. *)
Definition GetMySQLVarValue (varName : bytes) : io env (option bytes) :=
  match GetVarMapping varName with
  | None => iret None
  | Some m =>
      let! e := iget id in
      match GetInternalVar varName e.2 with
      | Some override => iret (Some override)
      | None =>
          if negb (is_empty (StaticValue m)) then iret (Some (str (StaticValue m)))
          else if NoOp m || is_empty (PGVar m) then iret (Some [])
          else
            let! pgValue := on_conn (query_string (str "SHOW " ++ str (PGVar m))) in
            iret (Some (match Reverse m with Some r => apply_reverse r pgValue | None => pgValue end))
      end
  end.

Definition GetMySQLStatusValue (varName : bytes) : io env (option bytes) :=
  match GetStatusVarMapping varName with
  | None => iret None
  | Some m =>
      if negb (is_empty (sv_StaticValue m)) then iret (Some (str (sv_StaticValue m)))
      else
        let! pgValue := on_conn (query_string (str (PGQuery m))) in
        iret (Some (if sv_Transform m then sync_status pgValue else pgValue))
  end.
End vars.

(** * Properties *)

Section facts.
Context `{!Unicode} {C : Type} `{!PgDriver C}.

Lemma HandleSetGlobal_stores m name v c o :
  GetVarMapping name = Some m ->
  exists r c', HandleSetGlobal name v (c, o) = (r, (c', SetInternalVar name v o)).
Proof.
  intros Hm. unfold HandleSetGlobal. rewrite Hm.
  assert (Hw : forall msg sql, exists r c',
    wrapped msg (on_conn (exec_ sql)) (c, SetInternalVar name v o) = (r, (c', SetInternalVar name v o))).
  { intros msg sql. unfold wrapped, on_conn, zoom. cbn [fst].
    destruct (exec_ sql c) as [[] c']; eauto. }
  assert (Hsend : exists r c',
    (do! on_vars (SetInternalVar name v) in
     do! wrapped (str "ALTER SYSTEM SET " ++ str (PGVar m) ++ str " failed: ")
           (on_conn (exec_ (alter_system m (pg_value m v)))) in
     do! on_conn (exec_ reload) in iret true) (c, o) = (r, (c', SetInternalVar name v o))).
  { unfold ibind at 1, on_vars, imod. cbn [fst snd].
    destruct (Hw (str "ALTER SYSTEM SET " ++ str (PGVar m) ++ str " failed: ")
                (alter_system m (pg_value m v))) as (r & c' & E).
    unfold ibind at 1. rewrite E. destruct r; eauto. unfold ibind, on_conn, zoom. cbn [fst snd].
    destruct (exec_ reload c') as [[] c'']; unfold iret; eauto. }
  destruct (v_Scope m), (NoOp m); try exact Hsend; unfold ibind, on_vars, imod, iret; eauto.
Qed.

(** After SET GLOBAL of a mapped variable, reading it in any letter case
    gives the value that was set, without asking PostgreSQL, and the other
    variables keep theirs.  This holds whatever PostgreSQL answered: a value it
    refused is read back as if it were in force. *)
Theorem set_global_read_back m name name' v c o :
  GetVarMapping name = Some m -> toLower name' = toLower name ->
  exists r c' o', HandleSetGlobal name v (c, o) = (r, (c', o'))
    /\ GetMySQLVarValue name' (c', o') = (Val (Some v), (c', o'))
    /\ forall other, toLower other <> toLower name -> GetInternalVar other o' = GetInternalVar other o.
Proof.
  intros Hm Hn. destruct (HandleSetGlobal_stores m name v c o Hm) as (r & c' & E).
  exists r, c', (SetInternalVar name v o). split; [done |]. split.
  - unfold GetMySQLVarValue. assert (GetVarMapping name' = Some m) as ->.
    { unfold GetVarMapping, lookup_var in *. by rewrite Hn. }
    unfold ibind, iget, id. cbn [snd]. unfold GetInternalVar, SetInternalVar.
    by rewrite Hn, lookup_insert_eq.
  - intros other Ho. unfold GetInternalVar, SetInternalVar. by rewrite lookup_insert_ne.
Qed.

(** What a client means by a value of a switch. *)
Definition switched_on (t : transform) (v : bytes) : bool :=
  match t with
  | OnOff => bytes_eqb v (str "1") || is_upper_word v "ON" || is_upper_word v "TRUE"
  | OnLocal => bytes_eqb v (str "1") || is_upper_word v "ON"
  | ReplicaRole | LogStatement => negb (bytes_eqb v (str "0") || is_upper_word v "OFF")
  | Millis => false
  end.

(** A switch read back from the PostgreSQL setting it was mapped to is 1
    exactly when it was switched on, for every variable of the table that has
    both transforms, and the only variable that is transformed one way only is
    the timeout. *)
Theorem switches_round_trip name m t :
  In (name, m) mysqlToPostgresVars -> Transform m = Some t ->
  match Reverse m with
  | Some r => forall v, apply_reverse r (apply_transform t v) = if switched_on t v then str "1" else str "0"
  | None => name = "wait_timeout"%string
  end.
Proof.
  intros Hin Ht. cbn in Hin.
  repeat (destruct Hin as [Hin|Hin]; [injection Hin as <- <-; cbn in Ht |- *; try discriminate Ht;
    injection Ht as <-; try reflexivity; intros v; cbn [apply_transform switched_on];
    repeat match goal with |- context [bytes_eqb v ?x] => destruct (bytes_eqb v x) end;
    repeat match goal with |- context [is_upper_word v ?x] => destruct (is_upper_word v x) end;
    reflexivity|]).
  destruct Hin.
Qed.
End facts.
