(* ===== verification/ShowEmul.v ===== *)
(** * SHOW, DESCRIBE and the textual SET

    [pkg/mapper/show.go] and [pkg/mapper/show_admin.go]: MySQL's SHOW statements
    as queries on PostgreSQL's catalogue.  The texts of the queries are those of
    the sources, with [~] for the double quote ([sqlq]). *)

From Stdlib Require Import ZArith Lia.
From stdpp Require Import base numbers list strings gmap.
From S2P Require Import Prelude GoStd GoStrings PgDriver Variables.
Open Scope Z_scope.
Open Scope io_scope.

Definition sqlq (s : string) : bytes := map (fun c => if c =? 126 then cDquote else c) (str s).

(** ** The texts *)

Definition databases_sql : bytes :=
  sqlq "
		SELECT schema_name AS ~Database~
		FROM information_schema.schemata
		WHERE schema_name NOT IN ('pg_catalog', 'information_schema', 'pg_toast')
		ORDER BY schema_name
	".

Definition tables_in_sql (schemaName : bytes) : bytes :=
  sqlq "
			SELECT table_name AS ~Tables_in_" ++ schemaName ++ sqlq "~
			FROM information_schema.tables
			WHERE table_schema = '" ++ schemaName ++ sqlq "' AND table_type = 'BASE TABLE'
			ORDER BY table_name
		".

Definition tables_sql : bytes :=
  sqlq "
			SELECT table_name AS ~Tables~
			FROM information_schema.tables
			WHERE table_schema = current_schema() AND table_type = 'BASE TABLE'
			ORDER BY table_name
		".

Definition full_columns_sql (schemaName tableName : bytes) : bytes :=
  sqlq "
			SELECT
				column_name AS ~Field~,
				CASE
					WHEN data_type = 'integer' THEN 'int(11)'
					WHEN data_type = 'smallint' THEN 'smallint(6)'
					WHEN data_type = 'bigint' THEN 'bigint(20)'
					WHEN data_type = 'serial' THEN 'int(11)'
					WHEN data_type = 'bigserial' THEN 'bigint(20)'
					WHEN data_type = 'character varying' THEN 'varchar(' || COALESCE(character_maximum_length::text, '255') || ')'
					WHEN data_type = 'character' THEN 'char(' || COALESCE(character_maximum_length::text, '1') || ')'
					WHEN data_type = 'text' THEN 'text'
					WHEN data_type = 'boolean' THEN 'tinyint(1)'
					WHEN data_type = 'numeric' THEN 'decimal(' || COALESCE(numeric_precision::text, '10') || ',' || COALESCE(numeric_scale::text, '0') || ')'
					WHEN data_type = 'real' THEN 'float'
					WHEN data_type = 'double precision' THEN 'double'
					WHEN data_type = 'date' THEN 'date'
					WHEN data_type = 'time without time zone' THEN 'time'
					WHEN data_type = 'time with time zone' THEN 'time'
					WHEN data_type = 'timestamp without time zone' THEN 'datetime'
					WHEN data_type = 'timestamp with time zone' THEN 'timestamp'
					WHEN data_type = 'bytea' THEN 'blob'
					WHEN data_type = 'json' THEN 'json'
					WHEN data_type = 'jsonb' THEN 'json'
					WHEN data_type = 'uuid' THEN 'char(36)'
					ELSE data_type
				END AS ~Type~,
				COALESCE(collation_name, '') AS ~Collation~,
				CASE WHEN is_nullable = 'YES' THEN 'YES' ELSE 'NO' END AS ~Null~,
				CASE
					WHEN EXISTS (
						SELECT 1 FROM information_schema.table_constraints tc
						JOIN information_schema.key_column_usage kcu
						ON tc.constraint_name = kcu.constraint_name
						AND tc.table_schema = kcu.table_schema
						WHERE tc.constraint_type = 'PRIMARY KEY'
						AND kcu.table_schema = " ++ schemaName ++ sqlq "
						AND kcu.table_name = '" ++ tableName ++ sqlq "'
						AND kcu.column_name = c.column_name
					) THEN 'PRI'
					ELSE ''
				END AS ~Key~,
				COALESCE(column_default, '') AS ~Default~,
				CASE
					WHEN column_default LIKE 'nextval%' THEN 'auto_increment'
					ELSE ''
				END AS ~Extra~,
				'select,insert,update,references' AS ~Privileges~,
				'' AS ~Comment~
			FROM information_schema.columns c
			WHERE table_schema = " ++ schemaName ++ sqlq "
			  AND table_name = '" ++ tableName ++ sqlq "'
			ORDER BY ordinal_position
		".

Definition columns_sql (schemaName tableName : bytes) : bytes :=
  sqlq "
			SELECT
				column_name AS ~Field~,
				CASE
					WHEN data_type = 'integer' THEN 'int(11)'
					WHEN data_type = 'smallint' THEN 'smallint(6)'
					WHEN data_type = 'bigint' THEN 'bigint(20)'
					WHEN data_type = 'character varying' THEN 'varchar(' || COALESCE(character_maximum_length::text, '255') || ')'
					WHEN data_type = 'character' THEN 'char(' || COALESCE(character_maximum_length::text, '1') || ')'
					WHEN data_type = 'text' THEN 'text'
					WHEN data_type = 'boolean' THEN 'tinyint(1)'
					WHEN data_type = 'numeric' THEN 'decimal(' || COALESCE(numeric_precision::text, '10') || ',' || COALESCE(numeric_scale::text, '0') || ')'
					ELSE data_type
				END AS ~Type~,
				CASE WHEN is_nullable = 'YES' THEN 'YES' ELSE 'NO' END AS ~Null~,
				COALESCE(column_default, '') AS ~Default~,
				'' AS ~Key~,
				'' AS ~Extra~
			FROM information_schema.columns
			WHERE table_schema = " ++ schemaName ++ sqlq "
			  AND table_name = '" ++ tableName ++ sqlq "'
			ORDER BY ordinal_position
		".

Definition describe_sql (tableName : bytes) : bytes :=
  sqlq "
		SELECT
			column_name AS ~Field~,
			data_type AS ~Type~,
			is_nullable AS ~Null~,
			column_default AS ~Default~,
			CASE
				WHEN EXISTS (
					SELECT 1 FROM information_schema.key_column_usage kcu
					WHERE kcu.table_schema = current_schema()
					  AND kcu.table_name = c.table_name
					  AND kcu.column_name = c.column_name
				) THEN 'PRI'
				ELSE ''
			END AS ~Key~,
			CASE
				WHEN column_default LIKE 'nextval%' THEN 'auto_increment'
				ELSE ''
			END AS ~Extra~
		FROM information_schema.columns c
		WHERE c.table_schema = current_schema()
		  AND c.table_name = '" ++ tableName ++ sqlq "'
		ORDER BY c.ordinal_position
	".

Definition create_table_sql (tableName : bytes) : bytes :=
  sqlq "
		SELECT
			'" ++ tableName ++ sqlq "' AS ~Table~,
			'CREATE TABLE " ++ tableName ++ sqlq " (...) ' AS ~Create Table~
	".

Definition index_sql (schemaName tableName : bytes) : bytes :=
  sqlq "
		SELECT
			'" ++ tableName ++ sqlq "' AS ~Table~,
			CASE WHEN i.indisunique THEN 0 ELSE 1 END AS ~Non_unique~,
			CASE WHEN i.indisprimary THEN 'PRIMARY' ELSE ic.relname END AS ~Key_name~,
			a.attnum AS ~Seq_in_index~,
			a.attname AS ~Column_name~,
			'A' AS ~Collation~,
			0::bigint AS ~Cardinality~,
			NULL AS ~Sub_part~,
			NULL AS ~Packed~,
			CASE WHEN a.attnotnull THEN '' ELSE 'YES' END AS ~Null~,
			'BTREE' AS ~Index_type~,
			'' AS ~Comment~,
			'' AS ~Index_comment~,
			'YES' AS ~Visible~
		FROM pg_index i
		JOIN pg_class t ON t.oid = i.indrelid
		JOIN pg_class ic ON ic.oid = i.indexrelid
		JOIN pg_namespace n ON n.oid = t.relnamespace
		JOIN pg_attribute a ON a.attrelid = t.oid AND a.attnum = ANY(i.indkey)
		WHERE n.nspname = " ++ schemaName ++ sqlq "
		  AND t.relname = '" ++ tableName ++ sqlq "'
		ORDER BY
			CASE WHEN i.indisprimary THEN 0 ELSE 1 END,
			ic.relname, a.attnum
	".

Definition status_sql : bytes :=
  sqlq "
		SELECT 'Uptime' AS ~Variable_name~, '0' AS ~Value~
		UNION ALL
		SELECT 'Threads_connected', '1'
		UNION ALL
		SELECT 'Questions', '0'
		UNION ALL
		SELECT 'Slow_queries', '0'
	".

Definition variable_sql (name value : bytes) : bytes :=
  sqlq "SELECT '" ++ name ++ sqlq "' AS ~Variable_name~, '" ++ value ++ sqlq "' AS ~Value~".

Definition settings_sql (pgPattern : bytes) : bytes :=
  sqlq "
				SELECT name AS ~Variable_name~, setting AS ~Value~
				FROM pg_settings
				WHERE name LIKE '" ++ pgPattern ++ sqlq "'
				ORDER BY name
			".

Definition variables_sql : bytes :=
  sqlq "
		SELECT
			'version' AS ~Variable_name~,
			version() AS ~Value~
		UNION ALL
		SELECT 'character_set_client', 'utf8mb4'
		UNION ALL
		SELECT 'character_set_connection', 'utf8mb4'
		UNION ALL
		SELECT 'character_set_results', 'utf8mb4'
		UNION ALL
		SELECT 'character_set_server', 'utf8mb4'
		UNION ALL
		SELECT 'collation_connection', 'utf8mb4_general_ci'
		UNION ALL
		SELECT 'collation_server', 'utf8mb4_general_ci'
		UNION ALL
		SELECT 'autocommit', 'ON'
		UNION ALL
		SELECT 'max_allowed_packet', '67108864'
		UNION ALL
		SELECT 'sql_mode', 'TRADITIONAL'
	".

Definition warnings_sql : bytes :=
  sqlq "
		SELECT
			'Warning' AS ~Level~,
			0 AS ~Code~,
			'' AS ~Message~
		LIMIT 0
	".

Definition global_variables_sql : bytes :=
  sqlq "
		SELECT 'binlog_format' AS ~Variable_name~, 'ROW' AS ~Value~
		UNION ALL SELECT 'binlog_row_image', 'FULL'
		UNION ALL SELECT 'server_id', '1'
		UNION ALL SELECT 'log_bin', 'ON'
		UNION ALL SELECT 'gtid_mode', 'OFF'
		UNION ALL SELECT 'binlog_checksum', 'CRC32'
		UNION ALL SELECT 'max_allowed_packet', '67108864'
		UNION ALL SELECT 'character_set_server', 'utf8mb4'
		UNION ALL SELECT 'collation_server', 'utf8mb4_general_ci'
	".

(** The variables [showGlobalVariables] answers by itself. *)
Definition fallback_variables : list (string * bytes) :=
  [("binlog_format"%string, sqlq "SELECT 'binlog_format' AS ~Variable_name~, 'ROW' AS ~Value~");
   ("binlog_row_image"%string, sqlq "SELECT 'binlog_row_image' AS ~Variable_name~, 'FULL' AS ~Value~");
   ("server_id"%string, sqlq "SELECT 'server_id' AS ~Variable_name~, '1' AS ~Value~");
   ("server_uuid"%string, sqlq "SELECT 'server_uuid' AS ~Variable_name~, '38db14f0-9bcc-487a-8001-9bcc38db18d8' AS ~Value~");
   ("gtid_mode"%string, sqlq "SELECT 'gtid_mode' AS ~Variable_name~, 'OFF' AS ~Value~");
   ("log_bin"%string, sqlq "SELECT 'log_bin' AS ~Variable_name~, 'ON' AS ~Value~");
   ("binlog_checksum"%string, sqlq "SELECT 'binlog_checksum' AS ~Variable_name~, 'CRC32' AS ~Value~")].

Definition global_status_sql : bytes :=
  sqlq "
		SELECT 'Uptime' AS ~Variable_name~, EXTRACT(EPOCH FROM (now() - pg_postmaster_start_time()))::int::text AS ~Value~
		UNION ALL SELECT 'Threads_connected', (SELECT count(*)::text FROM pg_stat_activity WHERE state IS NOT NULL)
		UNION ALL SELECT 'Questions', '0'
		UNION ALL SELECT 'Slow_queries', '0'
		UNION ALL SELECT 'rpl_semi_sync_master_status', CASE WHEN (SELECT setting FROM pg_settings WHERE name = 'synchronous_commit') IN ('on', 'remote_write', 'remote_apply') THEN 'ON' ELSE 'OFF' END
		UNION ALL SELECT 'rpl_semi_sync_master_clients', (SELECT count(*)::text FROM pg_stat_replication WHERE sync_state = 'sync')
	".

Definition no_slave_sql : bytes :=
  sqlq "
			SELECT
				'' AS ~Slave_IO_State~,
				'' AS ~Master_Host~,
				0 AS ~Master_Port~,
				'' AS ~Master_User~,
				0 AS ~Connect_Retry~,
				'' AS ~Master_Log_File~,
				0 AS ~Read_Master_Log_Pos~,
				'' AS ~Relay_Log_File~,
				0 AS ~Relay_Log_Pos~,
				'' AS ~Relay_Master_Log_File~,
				'No' AS ~Slave_IO_Running~,
				'No' AS ~Slave_SQL_Running~,
				'' AS ~Last_Errno~,
				'' AS ~Last_Error~,
				0 AS ~Seconds_Behind_Master~,
				'' AS ~Channel_Name~,
				'' AS ~Retrieved_Gtid_Set~,
				'' AS ~Executed_Gtid_Set~
			WHERE false
		".

Definition slave_status_sql : bytes :=
  sqlq "
		SELECT
			COALESCE(wr.status, 'stopped') AS ~Slave_IO_State~,
			COALESCE(
				(SELECT split_part(conninfo, 'host=', 2) FROM pg_stat_wal_receiver LIMIT 1),
				''
			) AS ~Master_Host~,
			COALESCE(
				(SELECT split_part(split_part(conninfo, 'port=', 2), ' ', 1)::int FROM pg_stat_wal_receiver LIMIT 1),
				5432
			) AS ~Master_Port~,
			COALESCE(
				(SELECT split_part(split_part(conninfo, 'user=', 2), ' ', 1) FROM pg_stat_wal_receiver LIMIT 1),
				''
			) AS ~Master_User~,
			60 AS ~Connect_Retry~,
			COALESCE(pg_walfile_name(COALESCE(wr.flushed_lsn, '0/0')), '') AS ~Master_Log_File~,
			COALESCE(wr.flushed_lsn::text, '0/0')::text AS ~Read_Master_Log_Pos~,
			COALESCE(pg_walfile_name(pg_last_wal_receive_lsn()), '') AS ~Relay_Log_File~,
			COALESCE(pg_last_wal_receive_lsn()::text, '0/0') AS ~Relay_Log_Pos~,
			COALESCE(pg_walfile_name(pg_last_wal_replay_lsn()), '') AS ~Relay_Master_Log_File~,
			CASE WHEN wr.status = 'streaming' THEN 'Yes' ELSE 'No' END AS ~Slave_IO_Running~,
			CASE WHEN NOT pg_is_wal_replay_paused() THEN 'Yes' ELSE 'No' END AS ~Slave_SQL_Running~,
			'0' AS ~Last_Errno~,
			'' AS ~Last_Error~,
			COALESCE(
				EXTRACT(EPOCH FROM (now() - pg_last_xact_replay_timestamp()))::int,
				0
			) AS ~Seconds_Behind_Master~,
			COALESCE(wr.slot_name, '') AS ~Channel_Name~,
			COALESCE(pg_last_wal_receive_lsn()::text, '') AS ~Retrieved_Gtid_Set~,
			COALESCE(pg_last_wal_replay_lsn()::text, '') AS ~Executed_Gtid_Set~
		FROM (SELECT status, flushed_lsn, slot_name, conninfo FROM pg_stat_wal_receiver LIMIT 1) wr
	".

Definition slave_channel_sql (query channelName : bytes) : bytes :=
  sqlq "
			SELECT * FROM (" ++ query ++ sqlq ") sub WHERE ~Channel_Name~ = '" ++ channelName ++ sqlq "'
		".

Definition slave_hosts_sql : bytes :=
  sqlq "
		SELECT
			pid AS ~Server_id~,
			COALESCE(client_addr::text, '') AS ~Host~,
			0 AS ~Port~,
			0 AS ~Master_id~,
			COALESCE(application_name, '') AS ~Slave_UUID~
		FROM pg_stat_replication
		ORDER BY pid
	".

Definition master_status_sql : bytes :=
  sqlq "
		SELECT
			pg_walfile_name(pg_current_wal_lsn()) AS ~File~,
			pg_current_wal_lsn()::text AS ~Position~,
			''::text AS ~Binlog_Do_DB~,
			''::text AS ~Binlog_Ignore_DB~,
			pg_current_wal_lsn()::text AS ~Executed_Gtid_Set~
	".

Definition binary_logs_sql : bytes :=
  sqlq "
		SELECT
			name AS ~Log_name~,
			size AS ~File_size~,
			'' AS ~Encrypted~
		FROM pg_ls_waldir()
		ORDER BY name DESC
		LIMIT 20
	".

Definition process_list_sql : bytes :=
  sqlq "
		SELECT
			pid AS ~Id~,
			COALESCE(usename, 'system') AS ~User~,
			COALESCE(client_addr::text || ':' || client_port::text, 'local') AS ~Host~,
			COALESCE(datname, '') AS ~db~,
			CASE
				WHEN state = 'active' THEN 'Query'
				WHEN state = 'idle' THEN 'Sleep'
				WHEN state = 'idle in transaction' THEN 'Sleep'
				WHEN state = 'idle in transaction (aborted)' THEN 'Sleep'
				ELSE 'Connect'
			END AS ~Command~,
			COALESCE(EXTRACT(EPOCH FROM (now() - query_start))::int, 0) AS ~Time~,
			COALESCE(
				CASE
					WHEN state = 'active' THEN 'executing'
					WHEN wait_event IS NOT NULL THEN wait_event_type || ': ' || wait_event
					ELSE ''
				END,
				''
			) AS ~State~,
			COALESCE(query, '') AS ~Info~
		FROM pg_stat_activity
		WHERE pid != pg_backend_pid()
		ORDER BY pid
	".

(** ** Splitting *)

(** [strings.Split] with a separator of several bytes; [cur] is the part being
    read, reversed. *)
Fixpoint split_str (sep : bytes) (skip : nat) (cur s : bytes) : list bytes :=
  match s with
  | [] => [rev cur]
  | c :: t =>
      match skip with
      | S k => split_str sep k cur t
      | O => if has_prefix sep s then rev cur :: split_str sep (length sep - 1) [] t
             else split_str sep 0 (c :: cur) t
      end
  end.
Definition Split (s sep : bytes) : list bytes := split_str sep 0 [] s.

(** [strings.SplitN(s, sep, 2)] of one byte: what is before the first
    separator and what is after it. *)
Definition split_first (sep : Z) (s : bytes) : option (bytes * bytes) :=
  (fun i => (take i s, drop (S i) s)) <$> index_byte sep s.

Definition of_run {S A} (r : run A) : io S A :=
  ilift match r with Ret a => Val a | Crash => Died | NoFuel => Hangs end.

(** The cutsets of the trims. *)
Definition name_quotes : bytes := [cBacktick; cDquote; cQuote; cSemi].
Definition value_quotes : bytes := [cQuote; cDquote].

Section show.
(** [fold_runes a b]: [a] and [b] are equal under Unicode case folding. *)
Context `{!Unicode} (fold_runes : bytes -> bytes -> bool) {C : Type} `{!PgDriver C}.

Abbreviation query := (fun sql => on_conn (pg_query sql [])).

Definition EqualFold (a b : bytes) : bool :=
  if ascii a && ascii b then bytes_eqb (ToLower a) (ToLower b) else fold_runes a b.

(** ** Names in statements *)

(** The loop of [showTables] over the words: the word after FROM or IN. *)
Fixpoint schema_in (parts : list bytes) : bytes :=
  match parts with
  | part :: ((next :: _) as rest) =>
      if bytes_eqb (toUpper part) (str "FROM") || bytes_eqb (toUpper part) (str "IN")
      then Trim next name_quotes else schema_in rest
  | _ => []
  end.

(** The first keyword that is followed by a word. *)
Fixpoint name_after (keywords : list bytes) (sql : bytes) : run (option bytes) :=
  match keywords with
  | [] => Ret None
  | keyword :: rest =>
      match index keyword (toUpper sql) with
      | None => name_after rest sql
      | Some idx =>
          (remaining <~~ slice_from sql (idx + length keyword);
           match Fields remaining with
           | p :: _ => Ret (Some (Trim p name_quotes))
           | [] => name_after rest sql
           end)%go
      end
  end.

Definition extractTableName (sql : bytes) : run bytes :=
  (found <~~ name_after (map str ["FROM"; "IN"; "COLUMNS"; "FIELDS"; "INDEX"]%string) sql;
   match found with
   | Some name => Ret name
   | None =>
       let parts := Fields sql in
       Ret (if (2 <=? length parts)%nat then Trim (List.last parts []) name_quotes else [])
   end)%go.

(** [schema.table]: the schema as an expression of the query, and the table. *)
Definition schema_and_table (tableName : bytes) : bytes * bytes :=
  let tableName := ReplaceAll tableName [cBacktick] [] in
  match split_first 46 tableName with
  | Some (a, b) => ([cQuote] ++ a ++ [cQuote], b)
  | None => (str "current_schema()", tableName)
  end.

(** ** The statements *)

Definition showDatabases : io env Rows := query databases_sql.

Definition showTables (sql : bytes) : io env Rows :=
  let upperSQL := toUpper sql in
  let schemaName :=
    if Contains upperSQL (str "FROM") || Contains upperSQL (str "IN") then schema_in (Fields sql) else [] in
  match schemaName with
  | [] => query tables_sql
  | _ => query (tables_in_sql schemaName)
  end.

Definition no_table (sql : bytes) : goerror := OtherError (str "table name not found in: " ++ sql).

Definition showColumns (sql : bytes) : io env Rows :=
  let! tableName := of_run (extractTableName sql) in
  match tableName with
  | [] => ifail (no_table sql)
  | _ =>
      let (schemaName, tableName) := schema_and_table tableName in
      if Contains (toUpper sql) (str "FULL")
      then query (full_columns_sql schemaName tableName)
      else query (columns_sql schemaName tableName)
  end.

Definition describe (sql : bytes) : io env Rows :=
  match Fields sql with
  | _ :: p :: _ => query (describe_sql (Trim p name_quotes))
  | _ => ifail (OtherError (str "invalid DESCRIBE command: " ++ sql))
  end.

Definition showCreateTable (sql : bytes) : io env Rows :=
  match Fields sql with
  | _ :: _ :: _ :: p :: _ => query (create_table_sql (Trim p name_quotes))
  | _ => ifail (OtherError (str "invalid SHOW CREATE TABLE command: " ++ sql))
  end.

Definition showIndex (sql : bytes) : io env Rows :=
  let! tableName := of_run (extractTableName sql) in
  match tableName with
  | [] => ifail (no_table sql)
  | _ => let (schemaName, tableName) := schema_and_table tableName in query (index_sql schemaName tableName)
  end.

Definition showStatus : io env Rows := query status_sql.
Definition showWarnings : io env Rows := query warnings_sql.

Definition showVariables (sql : bytes) : io env Rows :=
  let list_all := query variables_sql in
  if Contains (toUpper sql) (str "LIKE") then
    match Split sql (str "LIKE") with
    | _ :: part :: _ =>
        let pattern := Trim (TrimSpace part) value_quotes in
        let cleanPattern := ReplaceAll pattern [37] [] in
        let settings := query (settings_sql (ReplaceAll pattern [37] [37; 37])) in
        match cleanPattern with
        | [] => settings
        | _ =>
            let! value := GetMySQLVarValue cleanPattern in
            match value with
            | Some value => query (variable_sql cleanPattern value)
            | None => settings
            end
        end
    | _ => list_all
    end
  else list_all.

Definition showGlobalVariables (sql : bytes) : io env Rows :=
  let upperSQL := toUpper sql in
  let list_all := query global_variables_sql in
  if Contains upperSQL (str "LIKE") then
    match Split upperSQL (str "LIKE") with
    | _ :: part :: _ =>
        let pattern := ReplaceAll (toLower (Trim (TrimSpace part) value_quotes)) [37] [] in
        let! value := GetMySQLVarValue pattern in
        match value with
        | Some value => query (variable_sql pattern value)
        | None =>
            match List.find (fun e => bytes_eqb (str e.1) pattern) fallback_variables with
            | Some (_, sql) => query sql
            | None => list_all
            end
        end
    | _ => list_all
    end
  else list_all.

(** The quoted value after [variable_name =] of each part. *)
Definition quoted_value (part : bytes) : option bytes :=
  let part := TrimSpace part in
  let part := TrimSpace (if has_prefix [cEqual] part then drop 1 part else part) in
  match part with
  | q :: rest =>
      if (q =? cQuote) || (q =? cDquote) then (fun e => take e rest) <$> index_byte q rest else None
  | [] => None
  end.
Definition extractVariableNames (where_ : bytes) : list bytes :=
  omap quoted_value (tail (Split (toLower where_) (str "variable_name"))).

(** An unknown status variable, or one that cannot be read, is empty. *)
Fixpoint status_rows (names : list bytes) : io env (list bytes) :=
  match names with
  | [] => iret []
  | name :: rest =>
      let! value := itry (GetMySQLStatusValue name) in
      let value := match value with inl (Some v) => v | _ => [] end in
      let! l := status_rows rest in
      iret (variable_sql name value :: l)
  end.

Definition showGlobalStatusWhere (sql : bytes) : io env Rows :=
  match index (str "WHERE") (toUpper sql) with
  | None => query global_status_sql
  | Some whereIdx =>
      let! wherePart := of_run (slice_from sql (whereIdx + 5)) in
      match extractVariableNames wherePart with
      | [] => query global_status_sql
      | names => let! parts := status_rows names in query (join (str " UNION ALL ") parts)
      end
  end.

Definition showGlobalStatus (sql : bytes) : io env Rows :=
  if Contains (toUpper sql) (str "WHERE") then showGlobalStatusWhere sql else query global_status_sql.

Definition showSlaveStatus (sql : bytes) : io env Rows :=
  let! channelName :=
    match index (str "FOR CHANNEL") (toUpper sql) with
    | Some idx =>
        let! rest := of_run (slice_from sql (idx + 11)) in
        iret (Trim (TrimSpace rest) [cQuote; cDquote; cBacktick; cSpace; cSemi])
    | None => iret []
    end in
  let! isInRecovery := wrapped (str "failed to check recovery status: ")
                         (on_conn (query_bool (str "SELECT pg_is_in_recovery()"))) in
  if negb isInRecovery then query no_slave_sql
  else match channelName with
       | [] => query slave_status_sql
       | _ => query (slave_channel_sql slave_status_sql channelName)
       end.

Definition showSlaveHosts : io env Rows := query slave_hosts_sql.
Definition showMasterStatus : io env Rows := query master_status_sql.
Definition showBinaryLogs : io env Rows := query binary_logs_sql.
Definition showProcessList : io env Rows := query process_list_sql.

Definition HandleShowCommand (sql : bytes) : io env Rows :=
  let upperSQL := toUpper (TrimSpace sql) in
  let starts p := has_prefix (str p) upperSQL in
  if starts "SHOW DATABASES"%string then showDatabases
  else if starts "SHOW TABLES"%string then showTables sql
  else if starts "SHOW COLUMNS"%string || starts "SHOW FIELDS"%string
          || starts "SHOW FULL COLUMNS"%string || starts "SHOW FULL FIELDS"%string then showColumns sql
  else if starts "DESCRIBE "%string || starts "DESC "%string then describe sql
  else if starts "SHOW CREATE TABLE"%string then showCreateTable sql
  else if starts "SHOW INDEX"%string then showIndex sql
  else if starts "SHOW STATUS"%string then showStatus
  else if starts "SHOW VARIABLES"%string then showVariables sql
  else if starts "SHOW GLOBAL VARIABLES"%string then showGlobalVariables sql
  else if starts "SHOW GLOBAL STATUS"%string then showGlobalStatus sql
  else if starts "SHOW WARNINGS"%string then showWarnings
  else if starts "SHOW SLAVE STATUS"%string then showSlaveStatus sql
  else if starts "SHOW SLAVE HOSTS"%string || starts "SHOW REPLICAS"%string then showSlaveHosts
  else if starts "SHOW MASTER STATUS"%string then showMasterStatus
  else if starts "SHOW BINARY LOGS"%string || starts "SHOW MASTER LOGS"%string then showBinaryLogs
  else if starts "SHOW PROCESSLIST"%string || starts "SHOW FULL PROCESSLIST"%string then showProcessList
  else ifail (OtherError (str "unsupported SHOW command: " ++ sql)).

(** ** SET and USE without the parser *)

(** The variables [HandleSetCommand] stores, in order. *)
Definition names_vars (charset : bytes) (collation : option bytes) : list (bytes * bytes) :=
  [(str "names", charset); (str "character_set_client", charset);
   (str "character_set_connection", charset); (str "character_set_results", charset)]
  ++ match collation with Some c => [(str "collation_connection", c)] | None => [] end.

(** The first scope prefix the assignment starts with is cut off. *)
Fixpoint strip_scope (prefixes : list bytes) (assignment : bytes) : run bytes :=
  match prefixes with
  | [] => Ret assignment
  | p :: rest =>
      if has_prefix p (toUpper assignment) then slice_from assignment (length p)
      else strip_scope rest assignment
  end.
Definition scopes : list bytes := map str ["GLOBAL "; "SESSION "; "@@GLOBAL."; "@@SESSION."; "@@"]%string.

Definition HandleSetCommand {S} (sql : bytes) : io S (list (bytes * bytes)) :=
  let normalizedSQL := TrimSpace sql in
  if negb (has_prefix (str "SET ") (toUpper normalizedSQL))
  then ifail (OtherError (str "not a SET command: " ++ sql))
  else
    let! raw := of_run (slice_from normalizedSQL 4) in
    let assignment := TrimSpace raw in
    let assign :=
      let! assignment := of_run (strip_scope scopes assignment) in
      match split_first cEqual assignment with
      | None => ifail (OtherError (str "invalid SET syntax: " ++ sql))
      | Some (n, v) => iret [(TrimSpace n, Trim (TrimSpace v) value_quotes)]
      end in
    match Fields assignment with
    | f0 :: f1 :: rest =>
        if EqualFold f0 (str "NAMES") then
          iret (names_vars (Trim f1 value_quotes)
                  (match rest with
                   | f2 :: f3 :: _ => if EqualFold f2 (str "COLLATE") then Some (Trim f3 value_quotes) else None
                   | _ => None
                   end))
        else assign
    | _ => assign
    end.

Definition HandleUseCommand (sql : bytes) : io C unit :=
  match Fields sql with
  | _ :: p :: _ => exec_ (str "SET search_path TO " ++ Trim p name_quotes)
  | _ => ifail (OtherError (str "invalid USE command: " ++ sql))
  end.
End show.

(** * Properties *)

Create HintDb calm.

Section facts.
Context `{!Unicode} {C : Type} `{!PgDriver C}.

(** Code that does not panic or hang and leaves the overrides alone. *)
Definition calm {A} (c : io (@env C) A) : Prop :=
  forall e, match c e with
            | (Val _, e') | (Fail _, e') => e'.2 = e.2
            | _ => False
            end.

(** The driver answers every command. *)
Definition driver_calm : Prop :=
  forall c, (forall sql args, match pg_query sql args c with (Val _, _) | (Fail _, _) => True | _ => False end)
         /\ (forall sql, match query_string sql c with (Val _, _) | (Fail _, _) => True | _ => False end)
         /\ (forall sql, match query_bool sql c with (Val _, _) | (Fail _, _) => True | _ => False end).

Lemma calm_ret {A} (a : A) : calm (iret a).
Proof. by intros e. Qed.
Lemma calm_fail {A} err : calm (A := A) (ifail err).
Proof. by intros e. Qed.
Lemma calm_bind {A B} (c : io env A) (k : A -> io env B) : calm c -> (forall a, calm (k a)) -> calm (ibind c k).
Proof.
  intros Hc Hk e. specialize (Hc e). unfold ibind. destruct (c e) as [[a| | |] e']; try done.
  specialize (Hk a e'). destruct (k a e') as [[] e'']; congruence.
Qed.
Lemma calm_try {A} (c : io env A) : calm c -> calm (itry c).
Proof. intros Hc e. specialize (Hc e). unfold itry. by destruct (c e) as [[] e']. Qed.
Lemma calm_wrapped {A} m (c : io env A) : calm c -> calm (wrapped m c).
Proof. intros Hc e. specialize (Hc e). unfold wrapped. by destruct (c e) as [[] e']. Qed.
Lemma calm_run {A} (r : run A) : (exists a, r = Ret a) -> calm (of_run r).
Proof. by intros [a ->] e. Qed.
Lemma calm_iget {A} (f : env -> A) : calm (iget f).
Proof. by intros e. Qed.
Lemma calm_conn {A} (c : io C A) :
  (forall x, match c x with (Val _, _) | (Fail _, _) => True | _ => False end) -> calm (on_conn c).
Proof. intros Hc [x o]. specialize (Hc x). unfold on_conn, zoom. cbn. by destruct (c x) as [[] x']. Qed.

Context (Hd : driver_calm).

Lemma calm_query sql : calm (on_conn (pg_query sql [])).
Proof. apply calm_conn. intros x. apply (Hd x). Qed.
Lemma calm_query_string sql : calm (on_conn (query_string sql)).
Proof. apply calm_conn. intros x. apply (Hd x). Qed.
Lemma calm_query_bool sql : calm (on_conn (query_bool sql)).
Proof. apply calm_conn. intros x. apply (Hd x). Qed.

Lemma calm_var name : calm (GetMySQLVarValue name).
Proof.
  unfold GetMySQLVarValue. destruct (GetVarMapping name) as [m|]; [|apply calm_ret].
  apply calm_bind; [apply calm_iget |]. intros e. destruct (GetInternalVar name e.2); [apply calm_ret |].
  destruct (negb _); [apply calm_ret |]. destruct (_ || _); [apply calm_ret |].
  apply calm_bind; [apply calm_query_string |]. intros. apply calm_ret.
Qed.

Lemma calm_status_value name : calm (GetMySQLStatusValue name).
Proof.
  unfold GetMySQLStatusValue. destruct (GetStatusVarMapping name) as [m|]; [|apply calm_ret].
  destruct (negb _); [apply calm_ret |]. apply calm_bind; [apply calm_query_string |]. intros. apply calm_ret.
Qed.

Lemma calm_status_rows names : calm (status_rows names).
Proof.
  induction names as [|n names IH]; cbn [status_rows]; [apply calm_ret |].
  apply calm_bind; [apply calm_try, calm_status_value |]. intros v.
  apply calm_bind; [done |]. intros. apply calm_ret.
Qed.

(** A position found in the upper-cased text is one of the text. *)
Lemma slice_after kw sql i :
  ascii sql = true -> index kw (toUpper sql) = Some i -> exists r, slice_from sql (i + length kw) = Ret r.
Proof.
  intros Ha Hi. apply index_bound in Hi. rewrite toUpper_length in Hi by done.
  rewrite slice_from_ok by lia. eauto.
Qed.

Lemma name_after_returns kws sql : ascii sql = true -> exists r, name_after kws sql = Ret r.
Proof.
  intros Ha. induction kws as [|kw kws IH]; cbn [name_after]; [eauto |].
  destruct (index kw (toUpper sql)) as [i|] eqn:Ei; [|done].
  destruct (slice_after kw sql i Ha Ei) as [r ->]. cbn [run_bind]. destruct (Fields r); eauto.
Qed.

Lemma extractTableName_returns sql : ascii sql = true -> exists r, extractTableName sql = Ret r.
Proof.
  intros Ha. unfold extractTableName. destruct (name_after_returns
    (map str ["FROM"; "IN"; "COLUMNS"; "FIELDS"; "INDEX"]%string) sql Ha) as [[n|] ->]; cbn [run_bind]; eauto.
Qed.

Lemma calm_if {A} (b : bool) (c1 c2 : io env A) : calm c1 -> calm c2 -> calm (if b then c1 else c2).
Proof. by destruct b. Qed.

Lemma calm_match {A B} (l : list B) (c1 : io env A) (c2 : B -> list B -> io env A) :
  calm c1 -> (forall x r, calm (c2 x r)) -> calm (match l with [] => c1 | x :: r => c2 x r end).
Proof. by destruct l. Qed.

Hint Resolve calm_ret calm_fail calm_query calm_query_bool calm_var calm_status_rows calm_if : calm.

Lemma showColumns_calm sql : ascii sql = true -> calm (showColumns sql).
Proof.
  intros Ha. apply calm_bind; [by apply calm_run, extractTableName_returns |]. intros n.
  apply calm_match; [auto with calm |]. intros. destruct (schema_and_table _). auto with calm.
Qed.

Lemma showIndex_calm sql : ascii sql = true -> calm (showIndex sql).
Proof.
  intros Ha. apply calm_bind; [by apply calm_run, extractTableName_returns |]. intros n.
  apply calm_match; [auto with calm |]. intros. destruct (schema_and_table _). auto with calm.
Qed.

Lemma showVariables_calm sql : calm (showVariables sql).
Proof.
  apply calm_if; [|auto with calm]. destruct (Split sql _) as [|? [|p l]]; auto with calm.
  apply calm_match; [auto with calm |]. intros. apply calm_bind; [auto with calm |].
  intros [v|]; auto with calm.
Qed.

Lemma showGlobalVariables_calm sql : calm (showGlobalVariables sql).
Proof.
  apply calm_if; [|auto with calm]. destruct (Split _ _) as [|? [|p l]]; auto with calm.
  apply calm_bind; [auto with calm |]. intros [v|]; [auto with calm |].
  destruct (List.find _ _) as [[? ?]|]; auto with calm.
Qed.

Lemma showGlobalStatus_calm sql : ascii sql = true -> calm (showGlobalStatus sql).
Proof.
  intros Ha. apply calm_if; [|auto with calm]. unfold showGlobalStatusWhere.
  destruct (index _ _) as [i|] eqn:Ei; [|auto with calm].
  apply calm_bind; [apply calm_run; by apply (slice_after (str "WHERE")) |]. intros w.
  apply calm_match; [auto with calm |]. intros. apply calm_bind; auto with calm.
Qed.

Lemma showSlaveStatus_calm sql : ascii sql = true -> calm (showSlaveStatus sql).
Proof.
  intros Ha. apply calm_bind.
  - destruct (index _ _) as [i|] eqn:Ei; [|auto with calm].
    apply calm_bind; [apply calm_run; by apply (slice_after (str "FOR CHANNEL")) |]. auto with calm.
  - intros n. apply calm_bind; [apply calm_wrapped; auto with calm |]. intros b.
    apply calm_if; [auto with calm |]. apply calm_match; auto with calm.
Qed.

Hint Resolve showColumns_calm showIndex_calm showVariables_calm showGlobalVariables_calm
  showGlobalStatus_calm showSlaveStatus_calm : calm.

(** Answering a SHOW or DESCRIBE never panics on ASCII text and never
    changes a variable, whatever the statement and whatever PostgreSQL answers;
    what is not supported is an error. *)
Theorem HandleShowCommand_calm sql : ascii sql = true -> calm (HandleShowCommand sql).
Proof.
  intros Ha. unfold HandleShowCommand. repeat (apply calm_if; [try (first [exact (calm_query _) | by auto with calm])|]); auto with calm.
  - unfold showTables. apply calm_match; auto with calm.
  - unfold describe. destruct (Fields sql) as [|? [|]]; auto with calm.
  - unfold showCreateTable. destruct (Fields sql) as [|? [|? [|? [|]]]]; auto with calm.
Qed.
End facts.
