(* ===== verification/ReplAdmin.v ===== *)
(** * Replication commands

    [pkg/admin/replication.go]: START, STOP and RESET SLAVE, CHANGE MASTER TO
    and RESET MASTER as PostgreSQL administration functions. *)

From Stdlib Require Import ZArith Lia.
From stdpp Require Import base numbers list strings gmap.
From S2P Require Import Prelude GoStd GoStrings PgDriver Variables ShowEmul.
Open Scope Z_scope.
Open Scope io_scope.

Section admin.
Context `{!Unicode} {C : Type} `{!PgDriver C}.

Definition IsReplicationCommand (sql : bytes) : bool :=
  let upper := toUpper (TrimSpace sql) in
  existsb (fun p => has_prefix (str p) upper)
    ["START SLAVE"; "START REPLICA"; "STOP SLAVE"; "STOP REPLICA"; "CHANGE MASTER TO";
     "CHANGE REPLICATION SOURCE TO"; "RESET SLAVE"; "RESET REPLICA"; "RESET MASTER"]%string.

Definition in_recovery : io C bool :=
  wrapped (str "failed to check recovery status: ") (query_bool (str "SELECT pg_is_in_recovery()")).
Definition not_standby : goerror := OtherError (str "this server is not a standby/replica").

Definition startSlave : io C unit :=
  let! isInRecovery := in_recovery in
  if negb isInRecovery then ifail not_standby
  else wrapped (str "pg_wal_replay_resume() failed: ") (exec_ (str "SELECT pg_wal_replay_resume()")).

Definition stopSlave : io C unit :=
  let! isInRecovery := in_recovery in
  if negb isInRecovery then ifail not_standby
  else wrapped (str "pg_wal_replay_pause() failed: ") (exec_ (str "SELECT pg_wal_replay_pause()")).

(** One [key=value] of the statement; what has no [=] is skipped. *)
Definition parse_assignment (assign : bytes) : option (bytes * bytes) :=
  (fun p => (TrimSpace (toUpper p.1), Trim (TrimSpace p.2) value_quotes)) <$> split_first cEqual assign.

(** The position is found in the trimmed text and used in the text itself. *)
Definition parseChangeMasterParams (sql : bytes) : run (gmap bytes bytes) :=
  match index (str " TO ") (toUpper (TrimSpace sql)) with
  | None => Ret ∅
  | Some idx =>
      (body <~~ slice_from sql (idx + 4);
       Ret (fold_left (fun m a => match parse_assignment a with Some (k, v) => <[k := v]> m | None => m end)
              (split_on cComma (TrimSpace body)) ∅))%go
  end.

(** The parts of [primary_conninfo]. *)
Definition conn_part (params : gmap bytes bytes) (key name : string) : list bytes :=
  match params !! str key with Some v => [str name ++ [cEqual] ++ v] | None => [] end.
Definition conn_parts (params : gmap bytes bytes) : list bytes :=
  conn_part params "MASTER_HOST" "host" ++ conn_part params "MASTER_PORT" "port"
  ++ conn_part params "MASTER_USER" "user" ++ conn_part params "MASTER_PASSWORD" "password".

Definition reload_conf : io C unit :=
  wrapped (str "pg_reload_conf() failed: ") (exec_ (str "SELECT pg_reload_conf()")).

Definition changeMaster (sql : bytes) : io C unit :=
  let! params := of_run (parseChangeMasterParams sql) in
  if bool_decide (params = ∅) then ifail (OtherError (str "no valid parameters in CHANGE MASTER TO"))
  else match conn_parts params with
       | [] => iret tt
       | parts =>
           do! wrapped (str "ALTER SYSTEM SET primary_conninfo failed: ")
                 (exec_ (str "ALTER SYSTEM SET primary_conninfo = '" ++ join (str " ") parts ++ str "'")) in
           reload_conf
       end.

Definition resetSlave : io C unit :=
  do! wrapped (str "ALTER SYSTEM RESET primary_conninfo failed: ")
        (exec_ (str "ALTER SYSTEM RESET primary_conninfo")) in
  reload_conf.

Definition resetMaster : io C unit :=
  wrapped (str "pg_switch_wal() failed: ") (exec_ (str "SELECT pg_switch_wal()")).

(** [false] is a statement that is not a replication command; an error of a
    command that was handled is the failure. *)
Definition HandleReplicationCommand (sql : bytes) : io C bool :=
  let upper := toUpper (TrimSpace sql) in
  let starts p := has_prefix (str p) upper in
  if starts "START SLAVE"%string || starts "START REPLICA"%string then do! startSlave in iret true
  else if starts "STOP SLAVE"%string || starts "STOP REPLICA"%string then do! stopSlave in iret true
  else if starts "CHANGE MASTER TO"%string || starts "CHANGE REPLICATION SOURCE TO"%string
  then do! changeMaster sql in iret true
  else if starts "RESET SLAVE"%string || starts "RESET REPLICA"%string then do! resetSlave in iret true
  else if starts "RESET MASTER"%string then do! resetMaster in iret true
  else iret false.

(** * Properties *)

(** The commands the dispatcher handles are those [IsReplicationCommand]
    recognises: any other statement is passed on without touching the
    connection. *)
Lemma not_replication sql c :
  IsReplicationCommand sql = false -> HandleReplicationCommand sql c = (Val false, c).
Proof.
  unfold IsReplicationCommand, HandleReplicationCommand. cbn [existsb]. intros Hf.
  repeat (apply orb_false_iff in Hf as [-> Hf]). done.
Qed.

(** On a server that is not a standby START and STOP SLAVE send nothing but the
    question, and fail. *)
Lemma standby_only c c' :
  query_bool (str "SELECT pg_is_in_recovery()") c = (Val false, c') ->
  startSlave c = (Fail not_standby, c') /\ stopSlave c = (Fail not_standby, c').
Proof. intros E. unfold startSlave, stopSlave, ibind, in_recovery, wrapped. by rewrite E. Qed.

End admin.

(** A parameter list, and the same behind white space: the statement is then
    cut in the wrong place and its first parameter is lost. *)
Example change_master_params :
  @parseChangeMasterParams ascii_tables (str "CHANGE MASTER TO MASTER_HOST='db1', master_port=5433")
  = Ret {[str "MASTER_HOST" := str "db1"; str "MASTER_PORT" := str "5433"]}.
Proof. vm_compute. reflexivity. Qed.
Example change_master_shifted :
  @parseChangeMasterParams ascii_tables (str "  CHANGE MASTER TO MASTER_HOST='db1', master_port=5433")
  = Ret {[str "O MASTER_HOST" := str "db1"; str "MASTER_PORT" := str "5433"]}.
Proof. vm_compute. reflexivity. Qed.
(** A comma in a password ends it. *)
Example change_master_comma :
  @parseChangeMasterParams ascii_tables (str "CHANGE MASTER TO MASTER_PASSWORD='a,b'")
  = Ret {[str "MASTER_PASSWORD" := str "a"]}.
Proof. vm_compute. reflexivity. Qed.
