(* ===== verification/Backup.v ===== *)
(** * Backup and restore

    [pkg/admin/backup.go]: the command lines of pg_basebackup, pg_dump,
    pg_restore, psql and rsync, what is checked before they run, and what is
    reported after them.

    The operating system and the tools are the class [Host] over a file system
    [F]: running a command, creating a directory, writing a file, what [os.Stat]
    and [filepath.Walk] see.  The commands that ran are kept in order.  The
    readings of the clock are arguments.  [filepath.Join], [Clean] and [Ext] are
    written out for slash-separated paths. *)

From Stdlib Require Import ZArith Lia.
From stdpp Require Import base numbers list strings.
From S2P Require Import Prelude GoStd GoStrings.
Open Scope Z_scope.

(** ** Paths *)

Abbreviation cSlash := 47.
Definition dot : bytes := [46].
Definition dotdot : bytes := [46; 46].

(** One element of a path; [acc] are the elements so far, the last one first. *)
Definition clean_step (rooted : bool) (acc : list bytes) (c : bytes) : list bytes :=
  if bytes_eqb c [] || bytes_eqb c dot then acc
  else if bytes_eqb c dotdot then
    match acc with
    | x :: up => if bytes_eqb x dotdot then dotdot :: acc else up
    | [] => if rooted then [] else [dotdot]
    end
  else c :: acc.

Definition Clean (path : bytes) : bytes :=
  match path with
  | [] => dot
  | x :: _ =>
      let rooted := x =? cSlash in
      let elems := rev (fold_left (clean_step rooted) (split_on cSlash path) []) in
      if rooted then cSlash :: join [cSlash] elems
      else match elems with [] => dot | _ => join [cSlash] elems end
  end.

Fixpoint Join (elem : list bytes) : bytes :=
  match elem with
  | [] => []
  | [] :: rest => Join rest
  | _ => Clean (join [cSlash] elem)
  end.

Fixpoint ext_from (acc rest : bytes) : bytes :=
  match rest with
  | [] => []
  | c :: t => if c =? cSlash then [] else if c =? 46 then c :: acc else ext_from (c :: acc) t
  end.
(** From the last dot of the last element. *)
Definition Ext (path : bytes) : bytes := ext_from [] (rev path).

(** ** The host *)

(** What [filepath.Walk] meets: a file with its size, a directory with its
    entries in order (or whose names cannot be read), an entry that cannot be
    examined. *)
Inductive node :=
| FileNode (size : Z)
| DirNode (entries : list node)
| NoNames
| NoInfo.

Class Host (F : Type) := {
  TempDir : bytes;
  (** The combined output, and the error if there is one. *)
  tool : bytes -> list bytes -> F -> bytes * option bytes * F;
  MkdirAll : bytes -> F -> option bytes * F;
  WriteFile : bytes -> bytes -> F -> option bytes * F;
  (** [os.Stat]: the size, or whether the error is that nothing is there. *)
  Stat : bytes -> F -> Z + bool;
  tree : bytes -> F -> node
}.

Record Machine {F : Type} := mkMachine { files : F; ran : list (bytes * list bytes) }.
Arguments Machine : clear implicits.

(** ** Data *)

Record BackupManager := mkManager {
  PGBaseBackupBin : bytes; PGDumpBin : bytes; PGRestoreBin : bytes; DefaultConnStr : bytes }.

Definition NewBackupManager (connStr : bytes) : BackupManager :=
  mkManager (str "pg_basebackup") (str "pg_dump") (str "pg_restore") connStr.

Record BackupConfig := mkBackup {
  ConnStr : bytes; TargetDir : bytes; Label : bytes; Format : bytes; Checkpoint : bytes; WALMethod : bytes;
  Compress : bool; bk_Database : bytes }.

Record BackupResult := mkBackupResult {
  rs_StartTime : GoTime; rs_EndTime : GoTime; rs_TargetDir : bytes; rs_Size : Z; rs_Label : bytes;
  rs_Err : option bytes }.

(** The readings of the clock, in order. *)
Record Clock := mkClock { at_start : GoTime; at_dir : GoTime; at_label : GoTime; at_end : GoTime }.

(** [t.Format("20060102_150405")]. *)
Definition stamp (t : GoTime) : bytes :=
  dec_pad 4 (t_Year t) ++ dec_pad 2 (t_Month t) ++ dec_pad 2 (t_Day t) ++ [95]
  ++ dec_pad 2 (t_Hour t) ++ dec_pad 2 (t_Minute t) ++ dec_pad 2 (t_Second t).

(** [if s == "" { s = d }]. *)
Definition or_else (s d : bytes) : bytes := match s with [] => d | _ => s end.

(** ** Sizes *)

(** The walk adds the sizes of files and ends at the first error; the flag says
    whether it goes on. *)
Fixpoint walk (n : node) (size : Z) : Z * bool :=
  match n with
  | FileNode sz => (swrap 64 (size + sz), true)
  | NoNames | NoInfo => (size, false)
  | DirNode entries =>
      (fix go (l : list node) (size : Z) : Z * bool :=
         match l with
         | [] => (size, true)
         | x :: l => let (size, goes_on) := walk x size in if goes_on then go l size else (size, false)
         end) entries size
  end.

Section backup.
Context {F : Type} `{!Host F}.
Abbreviation M := (Machine F).

Definition dirSize (path : bytes) (m : M) : Z := fst (walk (tree path (files m)) 0).
Definition fileSize (path : bytes) (m : M) : Z := match Stat path (files m) with inl size => size | inr _ => 0 end.

(** [exec.CommandContext(...).CombinedOutput()]. *)
Definition run_tool (name : bytes) (args : list bytes) (m : M) : bytes * option bytes * M :=
  let '(output, err, fs) := tool name args (files m) in (output, err, mkMachine F fs (ran m ++ [(name, args)])).

Definition tool_failed (what : string) (err output : bytes) : bytes :=
  str what ++ str " failed: " ++ err ++ str ", output: " ++ output.

(** ** Backups *)

Definition base_args (bm : BackupManager) (cfg : BackupConfig) (targetDir label : bytes) : list bytes :=
  let connStr := or_else (ConnStr cfg) (DefaultConnStr bm) in
  [str "-D"; targetDir; str "-l"; label; str "-Fp"; str "-Xs"; str "-P"]
  ++ (if bytes_eqb connStr [] then [] else [str "-d"; connStr])
  ++ (if bytes_eqb (Checkpoint cfg) (str "fast") then [str "--checkpoint=fast"] else [])
  ++ (if Compress cfg then [str "--gzip"] else []).

Definition PhysicalBackup (bm : BackupManager) (t : Clock) (cfg : BackupConfig) (m : M) : BackupResult * M :=
  let targetDir := or_else (TargetDir cfg) (Join [TempDir; str "myproxy_backup_" ++ stamp (at_dir t)]) in
  let label := or_else (Label cfg) (str "myproxy_backup_" ++ stamp (at_label t)) in
  let result := mkBackupResult (at_start t) (at_end t) targetDir in
  let '(output, err, m) := run_tool (PGBaseBackupBin bm) (base_args bm cfg targetDir label) m in
  match err with
  | Some err => (result 0 (Label cfg) (Some (tool_failed "pg_basebackup" err output)), m)
  | None => (result (dirSize targetDir m) (Label cfg) None, m)
  end.

Definition dump_file (targetDir format : bytes) : bytes :=
  if bytes_eqb format (str "custom") then Join [targetDir; str "dump.custom"] else Join [targetDir; str "dump.sql"].

Definition dump_args (bm : BackupManager) (cfg : BackupConfig) (dumpFile : bytes) : list bytes :=
  let connStr := or_else (ConnStr cfg) (DefaultConnStr bm) in
  [str "-f"; dumpFile]
  ++ (if bytes_eqb (Format cfg) (str "custom") then [str "-Fc"] else [])
  ++ (if bytes_eqb connStr [] then [] else [connStr])
  ++ (if bytes_eqb (bk_Database cfg) [] then [] else [str "-d"; bk_Database cfg]).

Definition LogicalBackup (bm : BackupManager) (t : Clock) (cfg : BackupConfig) (m : M) : BackupResult * M :=
  let targetDir := or_else (TargetDir cfg) (Join [TempDir; str "myproxy_dump_" ++ stamp (at_dir t)]) in
  let result := mkBackupResult (at_start t) (at_end t) targetDir in
  let (err, fs) := MkdirAll targetDir (files m) in
  let m := mkMachine F fs (ran m) in
  match err with
  | Some err => (result 0 (Label cfg) (Some (str "failed to create target dir: " ++ err)), m)
  | None =>
      let dumpFile := dump_file targetDir (Format cfg) in
      let '(output, err, m) := run_tool (PGDumpBin bm) (dump_args bm cfg dumpFile) m in
      match err with
      | Some err => (result 0 (Label cfg) (Some (tool_failed "pg_dump" err output)), m)
      | None => (result (fileSize dumpFile m) (Label cfg) None, m)
      end
  end.

(** ** Restores *)

Definition copy_args (backupDir pgDataDir : bytes) : list bytes :=
  [str "-a"; str "--delete"; backupDir ++ [cSlash]; pgDataDir ++ [cSlash]].

(** The copy, and the signal file after it.  [None] is a nil error. *)
Definition copy_back (backupDir pgDataDir : bytes) (m : M) : option bytes * M :=
  let '(output, err, m) := run_tool (str "rsync") (copy_args backupDir pgDataDir) m in
  match err with
  | Some err => (Some (tool_failed "restore (rsync)" err output), m)
  | None =>
      let (err, fs) := WriteFile (Join [pgDataDir; str "standby.signal"]) [] (files m) in
      let m := mkMachine F fs (ran m) in
      match err with
      | Some err => (Some (str "failed to create standby.signal: " ++ err), m)
      | None => (None, m)
      end
  end.

Definition bm_Restore (backupDir pgDataDir : bytes) (m : M) : option bytes * M :=
  if bytes_eqb backupDir [] then (Some (str "backup directory is required"), m)
  else if bytes_eqb pgDataDir [] then (Some (str "PGDATA directory is required"), m)
  else
    match Stat backupDir (files m) with
    | inr true => (Some (str "backup directory does not exist: " ++ backupDir), m)
    | _ => copy_back backupDir pgDataDir m
    end.

Definition LogicalRestore (bm : BackupManager) (dumpFile connStr : bytes) (m : M) : option bytes * M :=
  let connStr := or_else connStr (DefaultConnStr bm) in
  let args := [str "-f"; dumpFile] ++ (if bytes_eqb connStr [] then [] else [str "-d"; connStr]) in
  if bytes_eqb (Ext dumpFile) (str ".custom") then
    let '(output, err, m) := run_tool (PGRestoreBin bm) args m in
    match err with
    | Some err => (Some (tool_failed "pg_restore" err output), m)
    | None => (None, m)
    end
  else
    let psqlArgs := [str "-f"; dumpFile] ++ (if bytes_eqb connStr [] then [] else [connStr]) in
    let '(output, err, m) := run_tool (str "psql") psqlArgs m in
    match err with
    | Some err => (Some (tool_failed "psql restore" err output), m)
    | None => (None, m)
    end.
End backup.

(** * Properties *)

(** ** Paths *)

Lemma split_on_app sep a b : split_on sep (a ++ sep :: b) = split_on sep a ++ split_on sep b.
Proof.
  induction a as [|c a IH]; cbn [app split_on].
  - by rewrite Z.eqb_refl.
  - rewrite IH. destruct (c =? sep) eqn:E; [done |]. destruct (split_on sep a) eqn:Ea; [|done].
    exfalso. clear -Ea. destruct a as [|x a]; cbn in Ea; [done |]. destruct (x =? sep); [done |].
    by destruct (split_on sep a).
Qed.
Lemma split_on_single sep b : ~ In sep b -> split_on sep b = [b].
Proof.
  induction b as [|c b IH]; intros Hn; [done |]. cbn [split_on].
  destruct (Z.eqb_spec c sep) as [->|_]; [destruct Hn; by left |]. rewrite IH; [done |]. intros Hi. apply Hn. by right.
Qed.

Lemma join_last sep l x : exists p, join sep (l ++ [x]) = p ++ x.
Proof.
  induction l as [|y l [p IH]]; [by exists [] |]. destruct l as [|z l].
  - exists (y ++ sep). cbn. by rewrite <- app_assoc.
  - exists (y ++ sep ++ p). change (join sep ((y :: z :: l) ++ [x])) with (y ++ sep ++ join sep ((z :: l) ++ [x])).
    rewrite IH. by rewrite !app_assoc.
Qed.

(** A file in a directory keeps its name. *)
Lemma Join_file dir name :
  ~ In cSlash name -> name <> [] -> name <> dot -> name <> dotdot -> exists p, Join [dir; name] = p ++ name.
Proof.
  intros Hs Hne Hd Hdd.
  assert (Hstep : forall rooted acc, clean_step rooted acc name = name :: acc).
  { intros. unfold clean_step, bytes_eqb. by rewrite !bool_decide_eq_false_2. }
  assert (Hc : forall p, split_on cSlash p = split_on cSlash dir ++ [name] \/ split_on cSlash p = [name] -> p <> [] ->
                exists q, Clean p = q ++ name).
  { intros [|x p] Hsp Hp; [done |]. unfold Clean. set (rooted := x =? cSlash).
    assert (exists l, rev (fold_left (clean_step rooted) (split_on cSlash (x :: p)) []) = l ++ [name]) as [l ->].
    { destruct Hsp as [->| ->]; [rewrite fold_left_app |]; cbn [fold_left]; rewrite Hstep; cbn [rev]; by eexists. }
    destruct (join_last [cSlash] l name) as [q Hq]. destruct rooted; [exists (cSlash :: q); by rewrite Hq |].
    destruct (l ++ [name]) eqn:El; [by destruct l |]. by exists q. }
  destruct dir as [|x dir]; cbn [Join].
  - destruct name as [|y name]; [done |]. apply (Hc _); [right; by apply split_on_single | done].
  - apply Hc; [left | done].
    change (join [cSlash] [x :: dir; name]) with ((x :: dir) ++ cSlash :: name).
    by rewrite split_on_app, (split_on_single _ name).
Qed.

Lemma Ext_file p name : Ext (p ++ name) = ext_from [] (rev name ++ rev p).
Proof. unfold Ext. by rewrite rev_app_distr. Qed.

Lemma dump_file_ext dir format : Ext (dump_file dir format) = if bytes_eqb format (str "custom") then str ".custom" else str ".sql".
Proof.
  unfold dump_file. destruct (bytes_eqb format (str "custom")).
  - destruct (Join_file dir (str "dump.custom")) as [p ->]; [by vm_compute; intuition | done.. |]. by rewrite Ext_file.
  - destruct (Join_file dir (str "dump.sql")) as [p ->]; [by vm_compute; intuition | done.. |]. by rewrite Ext_file.
Qed.

(** ** Dumps *)

(** How pg_restore reads a command line of the options with a value [-f] (the
    output) and [-d] (the database): the arguments that are not an option or its
    value, the first of which is the archive it restores. *)
Fixpoint archives (args : list bytes) : list bytes :=
  match args with
  | [] => []
  | [x] => if bytes_eqb x (str "-f") || bytes_eqb x (str "-d") then [] else [x]
  | x :: ((_ :: rest) as t) => if bytes_eqb x (str "-f") || bytes_eqb x (str "-d") then archives rest else x :: archives t
  end.

Section dumps.
Context {F : Type} `{!Host F}.

(** C27: A dump is restored with the tool of its format.  Whatever directory
    and format [LogicalBackup] is given, the file it writes is restored by
    [LogicalRestore] with pg_restore when the dump is in the custom format and
    with psql otherwise; but pg_restore gets the file as the value of -f, its
    output, and no archive to read. *)
Theorem restore_tool_matches bm dir format connStr (m : Machine F) :
  let f := dump_file dir format in
  exists args, ran (snd (LogicalRestore bm f connStr m))
      = ran m ++ [(if bytes_eqb format (str "custom") then PGRestoreBin bm else str "psql", args)]
    /\ take 2 args = [str "-f"; f]
    /\ (bytes_eqb format (str "custom") = true -> archives args = []).
Proof.
  intros f. unfold LogicalRestore, run_tool. unfold f at 1. rewrite dump_file_ext.
  destruct (bytes_eqb format (str "custom")); cbn [bytes_eqb].
  - change (bytes_eqb (str ".custom") (str ".custom")) with true. cbv iota.
    destruct (tool _ _ _) as [[output [err|]] fs]; (eexists; split; [reflexivity |]; split; [done | intros _];
      by destruct (bytes_eqb (or_else _ _) [])).
  - change (bytes_eqb (str ".sql") (str ".custom")) with false. cbv iota.
    destruct (tool _ _ _) as [[output [err|]] fs]; (eexists; split; [reflexivity |]; by split).
Qed.

Lemma one_more {A} (l : list A) x : l ++ [x] <> l.
Proof. intros E. apply (f_equal length) in E. rewrite length_app in E. cbn in E. lia. Qed.

(** What a backup reports.  The dump tool runs only when the directory is there;
    a failed dump has size 0; and the label a base backup reports is the one it was
    given, which is not the label of the backup when that was empty. *)
Theorem backup_reports bm t cfg (m : Machine F) :
  (forall r m', LogicalBackup bm t cfg m = (r, m') ->
     (ran m' = ran m <-> is_Some (fst (MkdirAll (rs_TargetDir r) (files m))))
     /\ (rs_Err r <> None -> rs_Size r = 0))
  /\ (forall r m', PhysicalBackup bm t cfg m = (r, m') ->
     exists args label, ran m' = ran m ++ [(PGBaseBackupBin bm, args)]
       /\ take 4 args = [str "-D"; rs_TargetDir r; str "-l"; label]
       /\ (rs_Label r = label <-> Label cfg <> [])
       /\ (rs_Err r = None -> rs_Size r = dirSize (rs_TargetDir r) m')).
Proof.
  split; intros r m'.
  - unfold LogicalBackup, run_tool. set (dir := or_else _ _). destruct (MkdirAll dir (files m)) as [[err|] fs] eqn:Em.
    + intros [= <- <-]. cbn. rewrite Em. split; [|done]. split; [by eexists | done].
    + destruct (tool _ _ _) as [[output [err|]] fs']; intros [= <- <-]; cbn [ran rs_TargetDir rs_Err rs_Size]; rewrite Em;
        (split; [|done]); (split; [by intros ?%one_more | by intros [? ?]]).
  - unfold PhysicalBackup, run_tool. set (label := or_else (Label cfg) _).
    assert (Hl : Label cfg = label <-> Label cfg <> []) by (unfold label; destruct (Label cfg); split; done).
    destruct (tool _ _ _) as [[output [err|]] fs']; intros [= <- <-]; (eexists _, label; split; [reflexivity |]; by split).
Qed.

(** A restore touches nothing without its two directories or when the backup is
    not there; after a failed copy it writes nothing; and whenever it succeeds
    the cluster was told to start as a standby. *)
Theorem restore_effects backupDir pgDataDir (m : Machine F) err m' :
  bm_Restore backupDir pgDataDir m = (err, m') ->
  (ran m' = ran m -> files m' = files m /\ is_Some err)
  /\ (err = None -> exists fs, ran m' = ran m ++ [(str "rsync", copy_args backupDir pgDataDir)]
        /\ WriteFile (Join [pgDataDir; str "standby.signal"]) [] fs = (None, files m')).
Proof.
  unfold bm_Restore. repeat (case_match; try (intros [= <- <-]; by eauto)); clear;
    unfold copy_back, run_tool;
    (destruct (tool _ _ _) as [[output [e|]] fs]; [intros [= <- <-]; split; [by intros ?%one_more | done] |]);
    cbn [files ran];
    destruct (WriteFile _ _ fs) as [[e|] fs'] eqn:Ew; intros [= <- <-]; (split; [by intros ?%one_more |]); try done;
    intros _; by exists fs.
Qed.
End dumps.

(** ** Sizes *)

Section node_induction.
Context (P : node -> Prop).
Hypothesis on_file : forall size, P (FileNode size).
Hypothesis on_dir : forall l, Forall P l -> P (DirNode l).
Hypothesis on_names : P NoNames.
Hypothesis on_info : P NoInfo.
Fixpoint node_tree_ind (n : node) : P n :=
  match n with
  | FileNode size => on_file size
  | DirNode l =>
      on_dir l ((fix go (l : list node) : Forall P l :=
                   match l with
                   | [] => @List.Forall_nil node P
                   | x :: l => @List.Forall_cons node P x l (node_tree_ind x) (go l)
                   end) l)
  | NoNames => on_names
  | NoInfo => on_info
  end.
End node_induction.

(** The sizes of all files of a tree, and whether all of it can be read. *)
Fixpoint total (n : node) : Z :=
  match n with
  | FileNode size => size
  | DirNode l => foldr (fun x acc => total x + acc) 0 l
  | _ => 0
  end.
Fixpoint readable (n : node) : bool :=
  match n with
  | FileNode _ => true
  | DirNode l => forallb readable l
  | _ => false
  end.
Fixpoint sized (n : node) : bool :=
  match n with
  | FileNode size => 0 <=? size
  | DirNode l => forallb sized l
  | _ => true
  end.

Lemma total_nonneg n : sized n = true -> 0 <= total n.
Proof.
  induction n as [size|l IH| |] using node_tree_ind; cbn; try lia. rewrite forallb_forall.
  induction IH as [|x l Hx _ IHl]; cbn; [lia |]. intros Hs. assert (0 <= total x) by (apply Hx, Hs; by left).
  assert (0 <= foldr (fun x acc => total x + acc) 0 l) by (apply IHl; intros y Hy; apply Hs; by right). lia.
Qed.

Lemma walk_total n : forall size, sized n = true -> 0 <= size -> size + total n < 2 ^ 63 ->
  (walk n size).2 = readable n /\ size <= (walk n size).1 <= size + total n
  /\ (readable n = true -> (walk n size).1 = size + total n).
Proof.
  induction n as [sz|l IH| |] using node_tree_ind; intros size Hs Hz Ht; cbn in *; [| |repeat split; try done; lia..].
  - rewrite swrap_id by (unfold in_swidth; lia). repeat split; lia.
  - revert size Hz Ht. induction IH as [|x l Hx _ IHl]; intros size Hz Ht; cbn in *; [repeat split; lia |].
    apply andb_prop in Hs as [Hsx Hsl]. pose proof (total_nonneg x Hsx).
    assert (0 <= foldr (fun x acc => total x + acc) 0 l) by (apply (total_nonneg (DirNode l)); done).
    destruct (Hx size Hsx Hz) as (H1 & H2 & H3); [lia |]. destruct (walk x size) as [s1 b]. cbn in *. subst b.
    destruct (readable x); cbn; [|repeat split; try done; lia].
    specialize (H3 eq_refl). destruct (IHl Hsl s1) as (H4 & H5 & H6); [lia.. |].
    repeat split; [done | lia | lia |]. intros Hr. rewrite H6 by done. lia.
Qed.

(** The size of a base backup.  When every entry of its directory can be
    read it is the sum of the sizes of all its files; in any case it is
    not more than that, and never negative, as long as the sum fits 64 bits. *)
Theorem dirSize_spec {F} `{!Host F} path (m : Machine F) :
  let n := tree path (files m) in
  sized n = true -> total n < 2 ^ 63 ->
  0 <= dirSize path m <= total n /\ (readable n = true -> dirSize path m = total n).
Proof. intros n Hs Ht. destruct (walk_total n 0 Hs) as (_ & H2 & H3); [lia.. |]. done. Qed.

(** A host whose commands succeed and whose files are listed. *)
Definition toy_host : Host node := {|
  TempDir := str "/tmp";
  tool _ _ fs := ([], None, fs);
  MkdirAll _ fs := (None, fs);
  WriteFile _ _ fs := (None, fs);
  Stat _ _ := inl 0;
  tree _ fs := fs
|}.

Lemma dirSize_spec_witness :
  let m := mkMachine node (DirNode [FileNode 10; DirNode [FileNode 5; NoNames; FileNode 7]; FileNode 8]) [] in
  0 <= @dirSize node toy_host (str "/b") m <= 30 /\ @dirSize node toy_host (str "/b") m = 15.
Proof.
  intros m. split; [|reflexivity]. apply (@dirSize_spec node toy_host (str "/b") m); vm_compute; reflexivity.
Defined.

Example joined : Join [str "/srv/../backup//"; str "dump.custom"] = str "/backup/dump.custom"
  /\ Join [[]; str "dump.sql"] = str "dump.sql" /\ Join [str "a/../.."; str "x"] = str "../x" /\ Ext (str "a.b/c") = [].
Proof. by vm_compute. Qed.

(** pg_basebackup takes compression only with the tar format, which the fixed -Fp
    excludes, and the method for the WAL is fixed whatever the settings say. *)
Lemma base_args_fixed bm cfg dir label : exists rest,
  base_args bm cfg dir label = [str "-D"; dir; str "-l"; label; str "-Fp"; str "-Xs"; str "-P"] ++ rest
  /\ (Compress cfg = true -> last rest = Some (str "--gzip")).
Proof.
  eexists. split; [reflexivity |]. intros ->. rewrite app_assoc. apply last_snoc.
Qed.
