(* ===== verification/Pool.v ===== *)
(** * The connection pool

    [internal/pool/pool.go].  Connections are shared by pointer: a pointer is a
    number.  What the network and pgxpool answer are arguments: [dial] for a
    dedicated connection, [acquired] for one of pgxpool. *)

From Stdlib Require Import ZArith Lia.
From stdpp Require Import base numbers list strings gmap.
From S2P Require Import Prelude GoStd GoStrings PgDriver.
Open Scope Z_scope.
Open Scope io_scope.

Inductive ConnectionMode := ModeSessionAffinity | ModePooled | ModeHybrid | ModeOther.

Record PoolConfig := mkPoolConfig {
  p_Host : bytes; p_Port : Z; p_Database : bytes; p_User : bytes; p_Password : bytes; SSLMode : bytes;
  MaxPoolSize : Z; p_Mode : ConnectionMode }.

(** The connection string of [NewPool] and [AcquireForSession]. *)
Definition connString (cfg : PoolConfig) : bytes :=
  str "postgres://" ++ p_User cfg ++ str ":" ++ p_Password cfg ++ str "@" ++ p_Host cfg ++ str ":"
  ++ dec_Z (p_Port cfg) ++ str "/" ++ p_Database cfg ++ str "?sslmode=" ++ SSLMode cfg.

(** [fmt.Sprintf("%+03d", offset / 3600)] and the command that sets it. *)
Definition tz_text (offset : Z) : bytes :=
  let hours := Z.quot offset 3600 in
  (if hours <? 0 then 45 else 43) :: dec_pad 2 (Z.abs hours).
Definition set_timezone (offset : Z) : bytes := str "SET timezone = '" ++ tz_text offset ++ str "'".

(** [sessionConns] is the pool's map; [open_conns] are the dedicated connections
    that are open and [taken] the connections of pgxpool that were handed out. *)
Record Pool := mkPool {
  mode : ConnectionMode;
  sessionConns : gmap bytes nat;
  open_conns : gset nat;
  taken : list nat;
  pool_closed : bool
}.

(** The pool of [NewPool]. *)
Definition fresh_pool (cfg : PoolConfig) : Pool := mkPool (p_Mode cfg) ∅ ∅ [] false.

(** The settings for pgxpool; durations are seconds, [AfterConnect] is the command
    every new connection runs, where [offset] is the local zone's. *)
Record PgxSettings := mkPgx {
  MaxConns : Z; MinConns : Z; MaxConnLifetime : Z; MaxConnIdleTime : Z; HealthCheckPeriod : Z;
  SimpleProtocol : bool; AfterConnect : bytes }.
Definition pgx_settings (offset : Z) (cfg : PoolConfig) : PgxSettings :=
  mkPgx (swrap 32 (MaxPoolSize cfg)) 1 3600 1800 60 true (set_timezone offset).

(** What pgxpool answers to [ParseConfig], [NewWithConfig] and [Ping]. *)
Record PoolAnswers := mkPoolAnswers {
  parsed : option bytes; created : PgxSettings -> option bytes; pinged : option bytes }.

Definition NewPool (x : PoolAnswers) (offset : Z) (cfg : PoolConfig) : res Pool :=
  match parsed x with
  | Some m => Err (str "failed to parse connection string: " ++ m)
  | None =>
      match created x (pgx_settings offset cfg) with
      | Some m => Err (str "failed to create connection pool: " ++ m)
      | None =>
          match pinged x with
          | Some m => Err (str "failed to ping PostgreSQL: " ++ m)
          | None => Ok (fresh_pool cfg)
          end
      end
  end.

Inductive dial :=
| BadString (e : goerror)
| Refused (e : goerror)
| NoTimezone (conn : nat) (e : goerror)
| Connected (conn : nat).

Definition dedicated (m : ConnectionMode) : bool :=
  match m with ModeSessionAffinity | ModeHybrid => true | _ => false end.

Definition fail_with (msg : string) (e : goerror) : goerror := OtherError (str msg ++ error_text e).

Definition AcquireForSession (d : dial) (acquired : nat + goerror) (sessionID : bytes) : io Pool nat :=
  let! p := iget id in
  if dedicated (mode p) then
    match sessionConns p !! sessionID with
    | Some conn => iret conn
    | None =>
        match d with
        | BadString e => ifail (fail_with "failed to parse connection string: " e)
        | Refused e => ifail (fail_with "failed to create dedicated connection: " e)
        | NoTimezone conn e => ifail (fail_with "failed to set timezone: " e)
        | Connected conn =>
            do! imod (fun p => mkPool (mode p) (<[sessionID := conn]> (sessionConns p))
                                 ({[conn]} ∪ open_conns p) (taken p) (pool_closed p)) in
            iret conn
        end
    end
  else
    match acquired with
    | inr e => ifail (fail_with "failed to acquire connection from pool: " e)
    | inl conn =>
        do! imod (fun p => mkPool (mode p) (sessionConns p) (open_conns p) (conn :: taken p) (pool_closed p)) in
        iret conn
    end.

(** [closing] is the error of [conn.Close], if any; the connection is gone in
    any case. *)
Definition ReleaseForSession (closing : option goerror) (sessionID : bytes) : io Pool unit :=
  let! p := iget id in
  if dedicated (mode p) then
    match sessionConns p !! sessionID with
    | Some conn =>
        do! imod (fun p => mkPool (mode p) (delete sessionID (sessionConns p))
                             (open_conns p ∖ {[conn]}) (taken p) (pool_closed p)) in
        match closing with Some e => ifail e | None => iret tt end
    | None => iret tt
    end
  else iret tt.

Definition pool_Close (p : Pool) : Pool :=
  mkPool (mode p) ∅ (open_conns p ∖ list_to_set (snd <$> map_to_list (sessionConns p))) (taken p) true.

Definition GetSessionConnectionCount (p : Pool) : nat := size (sessionConns p).

(** * Properties *)

(** Every open dedicated connection belongs to exactly one session. *)
Definition pool_ok (p : Pool) : Prop :=
  (forall conn, conn ∈ open_conns p <-> exists sid, sessionConns p !! sid = Some conn)
  /\ (forall s1 s2 conn, sessionConns p !! s1 = Some conn -> sessionConns p !! s2 = Some conn -> s1 = s2).

Lemma fresh_pool_ok cfg : pool_ok (fresh_pool cfg).
Proof.
  unfold pool_ok, fresh_pool. cbn [sessionConns open_conns].
  split; [|intros ? ? ? E; by rewrite lookup_empty in E]. intros conn. split; [set_solver |].
  intros [sid E]. by rewrite lookup_empty in E.
Qed.

Lemma pool_insert_ok p sid conn :
  pool_ok p -> conn ∉ open_conns p -> sessionConns p !! sid = None ->
  pool_ok (mkPool (mode p) (<[sid := conn]> (sessionConns p)) ({[conn]} ∪ open_conns p) (taken p) (pool_closed p)).
Proof.
  intros [Ho Hi] Hn Hs. split; cbn [sessionConns open_conns].
  - intros c. rewrite elem_of_union, elem_of_singleton, Ho. split.
    + intros [->|[s E]]; [exists sid; by rewrite lookup_insert_eq |]. exists s.
      rewrite lookup_insert_ne; [done |]. intros ->. congruence.
    + intros [s E]. apply lookup_insert_Some in E as [[_ ->]|[_ E]]; [by left | right; eauto].
  - intros s1 s2 c E1 E2. apply lookup_insert_Some in E1 as [[<- <-]|[H1 E1]];
      apply lookup_insert_Some in E2 as [[<- E2]|[H2 E2]]; try done; try (by eapply Hi);
      exfalso; apply Hn, Ho; subst; eauto.
Qed.

Lemma pool_delete_ok p sid conn :
  pool_ok p -> sessionConns p !! sid = Some conn ->
  pool_ok (mkPool (mode p) (delete sid (sessionConns p)) (open_conns p ∖ {[conn]}) (taken p) (pool_closed p)).
Proof.
  intros [Ho Hi] Hs. split; cbn [sessionConns open_conns].
  - intros c. rewrite elem_of_difference, elem_of_singleton, Ho. split.
    + intros [[s E] Hc]. exists s. rewrite lookup_delete_ne; [done |]. intros <-. congruence.
    + intros [s E]. apply lookup_delete_Some in E as [Hd E]. split; [eauto |]. intros ->. by apply Hd, (Hi _ _ conn).
  - intros s1 s2 c E1 E2. apply lookup_delete_Some in E1 as [_ E1]. apply lookup_delete_Some in E2 as [_ E2].
    by eapply Hi.
Qed.

(** A history of calls; a connection that is dialled is a new pointer. *)
Inductive pool_op :=
| PAcquire (d : dial) (acquired : nat + goerror) (sid : bytes)
| PRelease (closing : option goerror) (sid : bytes)
| PClose.
Definition pool_step (o : pool_op) (p : Pool) : Pool :=
  match o with
  | PAcquire d a sid => snd (AcquireForSession d a sid p)
  | PRelease e sid => snd (ReleaseForSession e sid p)
  | PClose => pool_Close p
  end.
Definition fresh_dial (o : pool_op) (p : Pool) : Prop :=
  match o with PAcquire (Connected c) _ _ => c ∉ open_conns p | _ => True end.

Inductive pool_reachable (cfg : PoolConfig) : Pool -> Prop :=
| reach_new : pool_reachable cfg (fresh_pool cfg)
| reach_step o p : pool_reachable cfg p -> fresh_dial o p -> pool_reachable cfg (pool_step o p).

Lemma pool_step_ok o p : pool_ok p -> fresh_dial o p -> pool_ok (pool_step o p).
Proof.
  intros Hp Hf. destruct o as [d a sid|e sid|]; cbn [pool_step].
  - unfold AcquireForSession, ibind, iget, id, imod, iret, ifail. destruct (dedicated (mode p)).
    + destruct (sessionConns p !! sid) eqn:Es; [done |]. destruct d; try done. by apply pool_insert_ok.
    + by destruct a.
  - unfold ReleaseForSession, ibind, iget, id, imod, iret, ifail. destruct (dedicated (mode p)); [|done].
    destruct (sessionConns p !! sid) as [conn|] eqn:Es; [|done].
    pose proof (pool_delete_ok p sid conn Hp Es). by destruct e.
  - destruct Hp as [Ho Hi]. split; cbn [pool_Close sessionConns open_conns].
    + intros c. rewrite elem_of_difference, elem_of_list_to_set, Ho. split.
      * intros [[s E] Hn]. exfalso. apply Hn. apply list_elem_of_fmap. exists (s, c). split; [done |].
        by apply elem_of_map_to_list.
      * intros [s E]. by rewrite lookup_empty in E.
    + intros s1 s2 c E. by rewrite lookup_empty in E.
Qed.

Lemma pool_reachable_ok cfg p : pool_reachable cfg p -> pool_ok p.
Proof. induction 1; [apply fresh_pool_ok | by apply pool_step_ok]. Qed.

(** With dedicated connections no connection leaks and none is shared: in
    every reachable pool the open connections are exactly those of the
    sessions, one each; a session that asks again gets the connection it has;
    and releasing a session closes its connection and nothing else. *)
Theorem dedicated_connections cfg p :
  pool_reachable cfg p -> dedicated (mode p) = true ->
  pool_ok p
  /\ (forall sid conn, sessionConns p !! sid = Some conn ->
        forall d a, AcquireForSession d a sid p = (Val conn, p))
  /\ (forall sid e conn, let p' := snd (ReleaseForSession e sid p) in
        conn ∈ open_conns p' <-> conn ∈ open_conns p /\ sessionConns p !! sid <> Some conn).
Proof.
  intros Hr Hm. pose proof (pool_reachable_ok cfg p Hr) as Hp. split; [done |]. split.
  - intros sid conn E d a. unfold AcquireForSession, ibind, iget, id. by rewrite Hm, E.
  - intros sid e conn. unfold ReleaseForSession, ibind, iget, id, imod, iret, ifail. rewrite Hm.
    destruct (sessionConns p !! sid) as [c|] eqn:Es; [|by split; [|intros []]].
    assert (conn ∈ open_conns p ∖ {[c]} <-> conn ∈ open_conns p /\ Some c <> Some conn).
    { rewrite elem_of_difference, elem_of_singleton. split; intros [? Hc]; (split; [done |]); congruence. }
    by destruct e.
Qed.

(** In pooled mode a connection taken from pgxpool is never given back:
    releasing a session does nothing, and the connections handed out only grow,
    one for each session that acquires, until pgxpool has none left. *)
Theorem pooled_never_released p :
  dedicated (mode p) = false ->
  (forall sid e, ReleaseForSession e sid p = (Val tt, p))
  /\ (forall sids : list (bytes * nat), let p' := fold_left (fun q x =>
        snd (AcquireForSession (Connected 0) (inl x.2) x.1 q)) sids p in
      taken p' = rev (snd <$> sids) ++ taken p /\ dedicated (mode p') = false).
Proof.
  intros Hm. split.
  - intros. unfold ReleaseForSession, ibind, iget, id. by rewrite Hm.
  - intros sids. revert p Hm. induction sids as [|[sid c] sids IH]; intros p Hm; [done |].
    cbn [fold_left fst snd]. set (q := snd _).
    assert (Eq : taken q = c :: taken p /\ dedicated (mode q) = false).
    { unfold q, AcquireForSession, ibind, iget, id. rewrite Hm. done. }
    destruct Eq as [Et Hq]. destruct (IH q Hq) as [-> ?]. split; [|done]. rewrite Et. cbn. by rewrite <- app_assoc.
Qed.

(** The session time zone has no minutes: PostgreSQL is told the zone of a
    server exactly when the zone is a whole number of hours. *)
Theorem tz_text_spec offset :
  -86400 < offset < 86400 ->
  exists sgn h, tz_text offset = sgn :: dec_pad 2 h /\ 0 <= h < 24
    /\ (sgn = 43 \/ sgn = 45)
    /\ ((if sgn =? 45 then - h else h) * 3600 = offset <-> offset mod 3600 = 0).
Proof.
  intros Ho. unfold tz_text. set (q := Z.quot offset 3600).
  assert (Hb : -24 < q < 24) by (unfold q; zlia).
  assert (Hq : offset = 3600 * q + Z.rem offset 3600) by apply Z.quot_rem'.
  assert (Hr : Z.abs (Z.rem offset 3600) < 3600) by (pose proof (Z.rem_bound_abs offset 3600); lia).
  exists (if q <? 0 then 45 else 43), (Z.abs q). split; [done |]. split; [lia |]. split; [destruct (q <? 0); auto |].
  assert (Hm : offset mod 3600 = 0 <-> Z.rem offset 3600 = 0).
  { rewrite Z.rem_divide, Z.mod_divide by lia. done. }
  rewrite Hm. clear Hm. clearbody q. generalize dependent (Z.rem offset 3600). intros r Hq Hr.
  destruct (q <? 0) eqn:E; cbn; [apply Z.ltb_lt in E | apply Z.ltb_ge in E]; lia.
Qed.

Lemma dedicated_connections_witness :
  let p := pool_step (PAcquire (Connected 7) (inr (OtherError [])) (str "s1"))
             (fresh_pool (mkPoolConfig [] 0 [] [] [] [] 9 ModeSessionAffinity)) in
  AcquireForSession (Refused (OtherError [])) (inr (OtherError [])) (str "s1") p = (Val 7%nat, p).
Proof.
  intros p. refine (proj1 (proj2 (dedicated_connections (mkPoolConfig [] 0 [] [] [] [] 9 ModeSessionAffinity) p _ _))
                      (str "s1") 7%nat _ _ _).
  - apply reach_step; [apply reach_new |]. cbn. intros H. by apply elem_of_empty in H.
  - reflexivity.
  - reflexivity.
Defined.

Lemma pooled_never_released_witness :
  let p := fresh_pool (mkPoolConfig [] 0 [] [] [] [] 9 ModePooled) in
  ReleaseForSession None (str "s1") p = (Val tt, p).
Proof. intros p. exact (proj1 (pooled_never_released p eq_refl) (str "s1") None). Defined.

Lemma tz_text_spec_witness :
  exists sgn h, tz_text 19800 = sgn :: dec_pad 2 h /\ 0 <= h < 24 /\ (sgn = 43 \/ sgn = 45)
    /\ ((if sgn =? 45 then - h else h) * 3600 = 19800 <-> 19800 mod 3600 = 0).
Proof. apply tz_text_spec. lia. Defined.
