(* ===== verification/ReqTrack.v ===== *)
(** * The request tracker

    [pkg/reqtrack/tracker.go]: the requests in flight, their listing and the
    statistics.  Times and durations are nanoseconds; the text of a duration is
    kept as the duration.  Go's map has no order: the lists are built in the
    order of [map_to_list] and then sorted by start time. *)

From Stdlib Require Import ZArith Lia Sorted.
From stdpp Require Import base numbers list strings gmap sorting.
From S2P Require Import Prelude GoStd GoStrings.
Open Scope Z_scope.

Record Request := mkRequest {
  rq_ID : Z; rq_SessionID : bytes; rq_SQL : bytes; StartTime : Z; Duration : Z }.

Record Tracker := mkTracker { requests : gmap Z Request; nextID : Z }.
(** [GetTracker] on its first call. *)
Definition NewTracker : Tracker := mkTracker ∅ 0.

Definition truncateSQL (sql : bytes) (maxLen : nat) : bytes :=
  if (length sql <=? maxLen)%nat then sql else take maxLen sql ++ str "...".

(** The tracker after the call and the id it returns. *)
Definition StartRequest (now : Z) (sessionID sql : bytes) (t : Tracker) : Z * Tracker :=
  let id := wrap 64 (nextID t + 1) in
  (id, mkTracker (<[id := mkRequest id sessionID (truncateSQL sql 500) now 0]> (requests t)) id).

Definition EndRequest (id : Z) (t : Tracker) : Tracker := mkTracker (delete id (requests t)) (nextID t).

(** A copy with the duration. *)
Definition with_duration (now : Z) (r : Request) : Request :=
  mkRequest (rq_ID r) (rq_SessionID r) (rq_SQL r) (StartTime r) (now - StartTime r).
Definition older (a b : Request) : Prop := StartTime a <= StartTime b.
#[global] Instance older_dec : RelDecision older.
Proof. intros a b. unfold older. apply _. Defined.
#[global] Instance older_total : Total older.
Proof. intros a b. unfold older. lia. Qed.
#[global] Instance older_trans : Transitive older.
Proof. intros a b c. unfold older. lia. Qed.

Definition in_flight (t : Tracker) : list Request := snd <$> map_to_list (requests t).

Definition GetSlowRequests (now threshold : Z) (t : Tracker) : list Request :=
  merge_sort older (with_duration now <$> List.filter (fun r => threshold <=? now - StartTime r) (in_flight t)).

Definition GetAllRequests (now : Z) (t : Tracker) : list Request :=
  merge_sort older (with_duration now <$> in_flight t).

Record Stats := mkStats {
  total_in_flight : nat; slow_1s : nat; slow_5s : nat; slow_30s : nat; oldest_duration : Z }.
Definition second : Z := 1000000000.
Definition slower (now limit : Z) (l : list Request) : nat :=
  length (List.filter (fun r => limit <=? now - StartTime r) l).
(** The oldest duration starts at 0, so a clock that went back does not show. *)
Definition GetStats (now : Z) (t : Tracker) : Stats :=
  let l := in_flight t in
  mkStats (size (requests t)) (slower now second l) (slower now (5 * second) l) (slower now (30 * second) l)
    (fold_left (fun oldest r => if oldest <? now - StartTime r then now - StartTime r else oldest) l 0).

(** * Properties *)

Lemma in_flight_elem t r : r ∈ in_flight t <-> exists id, requests t !! id = Some r.
Proof.
  unfold in_flight. rewrite list_elem_of_fmap. split.
  - intros ([id r'] & -> & H). exists id. by apply elem_of_map_to_list.
  - intros [id H]. exists (id, r). split; [done |]. by apply elem_of_map_to_list.
Qed.

(** A run of the proxy: requests start and end. *)
Inductive track_op := OStart (now : Z) (sessionID sql : bytes) | OEnd (id : Z).
#[global] Instance track_op_eq_dec : EqDecision track_op.
Proof. solve_decision. Defined.
Definition track_step (t : Tracker) (o : track_op) : Tracker :=
  match o with
  | OStart now sid sql => snd (StartRequest now sid sql t)
  | OEnd id => EndRequest id t
  end.
Definition track (ops : list track_op) : Tracker := fold_left track_step ops NewTracker.

(** The ids started by a history and not ended after that. *)
Fixpoint started (n : Z) (ops : list track_op) : list (Z * Request) :=
  match ops with
  | [] => []
  | OStart now sid sql :: ops =>
      let rest := started (n + 1) ops in
      if bool_decide (OEnd (n + 1) ∈ ops) then rest
      else (n + 1, mkRequest (n + 1) sid (truncateSQL sql 500) now 0) :: rest
  | OEnd _ :: ops => started n ops
  end.

Lemma track_from ops : forall t id r,
  0 <= nextID t -> nextID t + Z.of_nat (length ops) < 2 ^ 64 ->
  (forall k x, requests t !! k = Some x -> k <= nextID t) ->
  requests (fold_left track_step ops t) !! id = Some r <->
  (requests t !! id = Some r /\ OEnd id ∉ ops) \/ (id, r) ∈ started (nextID t) ops.
Proof.
  induction ops as [|o ops IH]; intros t id r Hn Hb Hk.
  - cbn. split; [intros; left; split; [done | apply not_elem_of_nil] |].
    intros [[? _]|He]; [done | by apply not_elem_of_nil in He].
  - cbn [length] in Hb. cbn [fold_left]. destruct o as [now sid sql|k].
    + set (t' := track_step t _).
      assert (En : nextID t' = nextID t + 1)
        by (unfold t'; cbn; apply wrap_id; unfold in_width; lia).
      set (nr := mkRequest (nextID t + 1) sid (truncateSQL sql 500) now 0).
      assert (Er : requests t' = <[nextID t + 1 := nr]> (requests t))
        by (unfold t', nr; cbn in En |- *; by rewrite En).
      rewrite IH; [|lia | lia |].
      2: { rewrite Er, En. intros k x [[<- _]|[_ E]]%lookup_insert_Some; [lia |]. specialize (Hk _ _ E). lia. }
      rewrite Er, En, lookup_insert_Some. cbn [started]. rewrite not_elem_of_cons.
      assert (Hne : forall x, OEnd x <> OStart now sid sql) by done.
      case_bool_decide as Hin.
      * split.
        -- intros [[[[<- _]|[_ E]] He]|He]; [done | by left | by right].
        -- intros [[E [_ He]]|He]; [left; split; [right; split; [|done] |done] | by right].
           intros <-. specialize (Hk _ _ E). lia.
      * rewrite elem_of_cons. split.
        -- intros [[[[<- <-]|[_ E]] He]|He]; [by right; left | by left | by right; right].
        -- intros [[E [_ He]]|[[= -> ->]|He]]; [|by left; split; [left |] | by right].
           left. split; [right; split; [|done] | done]. intros <-. specialize (Hk _ _ E). lia.
    + rewrite IH; cbn [track_step EndRequest requests nextID]; [|done | lia |].
      2: { intros x y [_ E]%lookup_delete_Some. by eapply Hk. }
      cbn [started]. rewrite lookup_delete_Some, not_elem_of_cons. split.
      * intros [[[Hd E] He]|He]; [left; split; [done |]; split; [congruence | done] | by right].
      * intros [[E [Hd He]]|He]; [left; split; [split; [congruence | done] | done] | by right].
Qed.

(** C20: The tracker holds exactly the requests that started and have not ended
    since, each under an id of its own; the listing of slow requests has exactly
    those that run at least as long as the threshold, oldest first. *)
Theorem tracked_in_flight ops now threshold :
  Z.of_nat (length ops) < 2 ^ 64 ->
  (forall id r, requests (track ops) !! id = Some r <-> (id, r) ∈ started 0 ops)
  /\ Sorted older (GetSlowRequests now threshold (track ops))
  /\ (forall r', r' ∈ GetSlowRequests now threshold (track ops) <->
        exists id r, (id, r) ∈ started 0 ops /\ threshold <= now - StartTime r /\ r' = with_duration now r).
Proof.
  intros Hb. assert (Hall : forall id r, requests (track ops) !! id = Some r <-> (id, r) ∈ started 0 ops).
  { intros id r. unfold track. rewrite track_from; [|done | done |]; cbn [NewTracker requests nextID].
    - rewrite lookup_empty. split; [intros [[? _]|?]; done | by right].
    - intros k x E. by rewrite lookup_empty in E. }
  split; [done |]. split; [apply Sorted_merge_sort, _ |]. intros r'.
  unfold GetSlowRequests. rewrite merge_sort_Permutation, list_elem_of_fmap. split.
  - intros (r & -> & Hr). apply list_elem_of_In, List.filter_In in Hr as [Hr Ht].
    apply list_elem_of_In, in_flight_elem in Hr as [id Hr]. exists id, r.
    split; [by apply Hall |]. split; [lia | done].
  - intros (id & r & Hr & Ht & ->). exists r. split; [done |]. apply list_elem_of_In, List.filter_In.
    split; [apply list_elem_of_In, in_flight_elem; exists id; by apply Hall | lia].
Qed.

Lemma tracked_in_flight_witness :
  let ops := [OStart 5 (str "a") (str "SELECT 1"); OStart 9 (str "b") (str "SELECT 2"); OEnd 1] in
  requests (track ops) !! 2 = Some (mkRequest 2 (str "b") (str "SELECT 2") 9 0) <->
  (2, mkRequest 2 (str "b") (str "SELECT 2") 9 0) ∈ started 0 ops.
Proof. intros ops. apply (tracked_in_flight ops 0 0). vm_compute. reflexivity. Defined.
