(* ===== verification/Metrics.v ===== *)
(** * Metrics

    [pkg/observability/metrics.go].  Prometheus is not part of the sources: a
    metric is a number (a float64 in Prometheus, exact for counts below 2^53),
    and registering a name twice panics, as [promauto] documents. *)

From Stdlib Require Import ZArith Lia.
From stdpp Require Import base numbers list strings gmap.
From S2P Require Import Prelude GoStd.
Open Scope Z_scope.

Record Metrics := mkMetrics {
  ActiveConnections : Z;
  TotalQueries : Z;
  QueryDuration : list Z;
  ErrorsTotal : gmap bytes Z;
  PGPoolSize : Z;
  BytesIn : Z;
  BytesOut : Z;
  PreparedStmts : Z;
  TransactionsTotal : gmap bytes Z;
  CDCEventsTotal : gmap bytes Z;
  CDCReplicationLag : Z;
  CDCBackpressureTotal : Z;
  CDCConnectedClients : Z;
  CDCLastLSN : Z;
  CDCReconnectsTotal : Z;
  CDCEventsDropped : Z
}.

Definition metric_names : list bytes := map str
  ["mysql_pg_proxy_active_connections"; "mysql_pg_proxy_total_queries"; "mysql_pg_proxy_query_duration_seconds";
   "mysql_pg_proxy_errors_total"; "mysql_pg_proxy_pg_pool_size"; "mysql_pg_proxy_bytes_in_total";
   "mysql_pg_proxy_bytes_out_total"; "mysql_pg_proxy_prepared_statements"; "mysql_pg_proxy_transactions_total";
   "mysql_pg_proxy_cdc_events_total"; "mysql_pg_proxy_cdc_replication_lag_ms"; "mysql_pg_proxy_cdc_backpressure_total";
   "mysql_pg_proxy_cdc_connected_clients"; "mysql_pg_proxy_cdc_last_lsn"; "mysql_pg_proxy_cdc_reconnects_total";
   "mysql_pg_proxy_cdc_events_dropped_total"].

(** Each metric is registered when it is created. *)
Fixpoint register_all (names : list bytes) (registry : gset bytes) : res (gset bytes) :=
  match names with
  | [] => Ok registry
  | n :: names => if bool_decide (n ∈ registry) then Panic else register_all names ({[n]} ∪ registry)
  end.
(** Every metric starts at zero. *)
Definition zero_metrics : Metrics := mkMetrics 0 0 [] ∅ 0 0 0 0 ∅ ∅ 0 0 0 0 0 0.
Definition NewMetrics (registry : gset bytes) : res (Metrics * gset bytes) :=
  match register_all metric_names registry with
  | Ok registry => Ok (zero_metrics, registry)
  | Err m => Err m
  | Panic => Panic
  end.

Section operations.
Context (m : Metrics).
Definition with_active v := mkMetrics v (TotalQueries m) (QueryDuration m) (ErrorsTotal m) (PGPoolSize m) (BytesIn m)
  (BytesOut m) (PreparedStmts m) (TransactionsTotal m) (CDCEventsTotal m) (CDCReplicationLag m) (CDCBackpressureTotal m)
  (CDCConnectedClients m) (CDCLastLSN m) (CDCReconnectsTotal m) (CDCEventsDropped m).
Definition with_counts q d e := mkMetrics (ActiveConnections m) q d e (PGPoolSize m) (BytesIn m)
  (BytesOut m) (PreparedStmts m) (TransactionsTotal m) (CDCEventsTotal m) (CDCReplicationLag m) (CDCBackpressureTotal m)
  (CDCConnectedClients m) (CDCLastLSN m) (CDCReconnectsTotal m) (CDCEventsDropped m).
Definition with_proxy p i o s t := mkMetrics (ActiveConnections m) (TotalQueries m) (QueryDuration m) (ErrorsTotal m) p i
  o s t (CDCEventsTotal m) (CDCReplicationLag m) (CDCBackpressureTotal m)
  (CDCConnectedClients m) (CDCLastLSN m) (CDCReconnectsTotal m) (CDCEventsDropped m).
Definition with_cdc e lag bp cl lsn rc dr := mkMetrics (ActiveConnections m) (TotalQueries m) (QueryDuration m) (ErrorsTotal m)
  (PGPoolSize m) (BytesIn m) (BytesOut m) (PreparedStmts m) (TransactionsTotal m) e lag bp cl lsn rc dr.

Definition bump_label (label : bytes) (v : gmap bytes Z) : gmap bytes Z := <[label := default 0 (v !! label) + 1]> v.

Definition IncActiveConnections : Metrics := with_active (ActiveConnections m + 1).
Definition DecActiveConnections : Metrics := with_active (ActiveConnections m - 1).
Definition IncTotalQueries : Metrics := with_counts (TotalQueries m + 1) (QueryDuration m) (ErrorsTotal m).
Definition ObserveQueryDuration (seconds : Z) : Metrics :=
  with_counts (TotalQueries m) (QueryDuration m ++ [seconds]) (ErrorsTotal m).
Definition IncErrors (errorType : bytes) : Metrics :=
  with_counts (TotalQueries m) (QueryDuration m) (bump_label errorType (ErrorsTotal m)).
Definition SetPGPoolSize (size : Z) : Metrics :=
  with_proxy size (BytesIn m) (BytesOut m) (PreparedStmts m) (TransactionsTotal m).
Definition AddBytesIn (n : Z) : Metrics :=
  with_proxy (PGPoolSize m) (BytesIn m + n) (BytesOut m) (PreparedStmts m) (TransactionsTotal m).
Definition AddBytesOut (n : Z) : Metrics :=
  with_proxy (PGPoolSize m) (BytesIn m) (BytesOut m + n) (PreparedStmts m) (TransactionsTotal m).
Definition SetPreparedStmts (count : Z) : Metrics :=
  with_proxy (PGPoolSize m) (BytesIn m) (BytesOut m) count (TransactionsTotal m).
Definition IncTransactions (result : bytes) : Metrics :=
  with_proxy (PGPoolSize m) (BytesIn m) (BytesOut m) (PreparedStmts m) (bump_label result (TransactionsTotal m)).
Definition cdc e lag bp cl lsn rc dr := with_cdc (e (CDCEventsTotal m)) (lag (CDCReplicationLag m))
  (bp (CDCBackpressureTotal m)) (cl (CDCConnectedClients m)) (lsn (CDCLastLSN m)) (rc (CDCReconnectsTotal m))
  (dr (CDCEventsDropped m)).
Definition IncCDCEvents (eventType : bytes) : Metrics := cdc (bump_label eventType) id id id id id id.
Definition SetCDCReplicationLag (lagMs : Z) : Metrics := cdc id (fun _ => lagMs) id id id id id.
Definition IncCDCBackpressure : Metrics := cdc id id Z.succ id id id id.
Definition SetCDCConnectedClients (count : Z) : Metrics := cdc id id id (fun _ => count) id id id.
Definition IncCDCConnectedClients : Metrics := cdc id id id Z.succ id id id.
Definition DecCDCConnectedClients : Metrics := cdc id id id Z.pred id id id.
Definition SetCDCLastLSN (lsn : Z) : Metrics := cdc id id id id (fun _ => lsn) id id.
Definition IncCDCReconnects : Metrics := cdc id id id id id Z.succ id.
Definition IncCDCEventsDropped : Metrics := cdc id id id id id id Z.succ.
End operations.

(** Registering the metrics works once. *)
Lemma NewMetrics_once : exists m registry, NewMetrics ∅ = Ok (m, registry) /\ NewMetrics registry = Panic.
Proof. by eexists _, _. Qed.
