(* ===== verification/HandlerText.v ===== *)
(** * Statements and results of the protocol handler

    The parts of [pkg/protocol/mysql/handler.go] that only look at texts and
    values: the statement tests, the extraction of table and column names, and
    the conversion of a PostgreSQL result set ([buildMySQLResult]). *)

From Stdlib Require Import ZArith Lia.
From stdpp Require Import base numbers list strings gmap.
From S2P Require Import Prelude GoStd GoStrings BinlogValue PgDriver Mapper ShowEmul.
Open Scope Z_scope.

Section text.
Context `{!Unicode}.

(** ** Statement tests *)

Definition stmt_upper (query : bytes) : bytes := toUpper (TrimSpace query).

Definition isKillStatement (query : bytes) : bool := has_prefix (str "KILL ") (stmt_upper query).
Definition isFlushStatement (query : bytes) : bool := has_prefix (str "FLUSH ") (stmt_upper query).
Definition isTablespaceStatement (query : bytes) : bool :=
  Contains (stmt_upper query) (str "DISCARD TABLESPACE") || Contains (stmt_upper query) (str "IMPORT TABLESPACE").
Definition isDatabaseStatement (query : bytes) : bool :=
  has_prefix (str "CREATE DATABASE") (stmt_upper query) || has_prefix (str "DROP DATABASE") (stmt_upper query).

(** [isDDL] of [HandleQuery], [isDML] of [HandleStmtExecute] and the test of
    [HandleStmtPrepare] for statements with a result. *)
Definition starts_with_one (words : list string) (upper : bytes) : bool :=
  existsb (fun w => has_prefix (str w) upper) words.
Definition isDDL : bytes -> bool :=
  starts_with_one ["CREATE"; "DROP"; "ALTER"; "TRUNCATE"; "DELETE"; "UPDATE"; "INSERT"]%string.
Definition isDML : bytes -> bool := starts_with_one ["INSERT"; "UPDATE"; "DELETE"]%string.
Definition returnsRows : bytes -> bool :=
  starts_with_one ["SELECT"; "WITH"; "SHOW"; "EXPLAIN"; "DESCRIBE"; "DESC"]%string.

(** ** Names *)

Definition quotes : bytes := [cBacktick; cDquote].

(** The first word of a text, without the quotes around text and word. *)
Definition first_word (sql : bytes) : bytes :=
  match Fields (Trim sql quotes) with
  | p :: _ => Trim p quotes
  | [] => []
  end.

(** [sql[start:]] without white space around it. *)
Definition rest_from (sql : bytes) (start : nat) : run bytes :=
  (r <~~ slice_from sql start; Ret (TrimSpace r))%go.

Definition extractInsertTableName (sql : bytes) : run bytes :=
  match index (str "INSERT INTO") (toUpper sql) with
  | None => Ret []
  | Some idx => (sql <~~ rest_from sql (idx + 12); Ret (first_word sql))%go
  end.

Definition extractCreateTableName (sql : bytes) : run bytes :=
  match index (str "CREATE TABLE") (toUpper sql) with
  | None => Ret []
  | Some idx =>
      (sql <~~ rest_from sql (idx + 12);
       sql <~~ (if has_prefix (str "IF NOT EXISTS") (toUpper sql) then rest_from sql 13 else Ret sql);
       Ret (first_word sql))%go
  end.

Definition extractAlterTableName (sql : bytes) : run bytes :=
  match index (str "ALTER TABLE") (toUpper sql) with
  | None => Ret []
  | Some idx => (sql <~~ rest_from sql (idx + 11); Ret (first_word sql))%go
  end.

Definition extractDropTableName (sql : bytes) : run bytes :=
  match index (str "DROP TABLE") (toUpper sql) with
  | None => Ret []
  | Some idx =>
      (sql <~~ rest_from sql (idx + 10);
       sql <~~ (if has_prefix (str "IF EXISTS") (toUpper sql) then rest_from sql 9 else Ret sql);
       Ret (first_word sql))%go
  end.

(** The first definition that mentions AUTO_INCREMENT and has a first word. *)
Fixpoint auto_column (columnDefs : list bytes) : bytes :=
  match columnDefs with
  | [] => []
  | colDef :: rest =>
      let colDef := TrimSpace colDef in
      if Contains (toUpper colDef) (str "AUTO_INCREMENT") then
        match Fields (TrimLeft colDef [cSpace; cTab; cBacktick; cDquote]) with
        | p :: _ => Trim p [cBacktick; cDquote; cComma]
        | [] => auto_column rest
        end
      else auto_column rest
  end.

Definition extractAutoIncrementColumn (sql : bytes) : run bytes :=
  if negb (Contains (toUpper sql) (str "AUTO_INCREMENT")) then Ret []
  else match index (str "(") sql with
       | None => Ret []
       | Some openParen =>
           (remaining <~~ slice_from sql (openParen + 1);
            Ret (auto_column (FieldsFunc (fun c => (c =? cComma) || (c =? cNl)) remaining)))%go
       end.

End text.

(** ** Result sets *)

(** go-mysql's result set: its fields, the map of names and the encoded rows.
    Building it from names and values is go-mysql's. *)
Record Resultset := mkResultset { rs_Fields : list Field; FieldNames : gmap bytes nat; RowDatas : list bytes }.
Class ResultsetBuilder := {
  BuildSimpleResultset : list bytes -> list (list GoValue) -> bool -> Resultset + goerror
}.

Record Result := mkResult { Status : Z; InsertId : Z; AffectedRows : Z; r_Resultset : option Resultset }.
Definition ok_result : Result := mkResult 0 0 0 None.

Section result.
(** The offset of the local time zone at an instant, and the printing of [%v]. *)
Context (local_offset : Z -> Z) (fmt_v : GoValue -> bytes) (fmt_struct : pgvalue -> bytes).
Context `{!NumericText, !ResultsetBuilder}.

(** [t.In(time.Local)]. *)
Definition in_local (t : GoTime) : GoTime := mkTime (unix_sec t) (nsec t) (local_offset (unix_sec t)).
Definition local_datetime (t : GoTime) : bytes := fmt_datetime (in_local t).

(** [%02d]. *)
Definition pad02 (z : Z) : bytes := if z <? 0 then dec_Z z else dec_pad 2 z.
Definition clock_of_micros (microseconds : Z) : bytes :=
  let totalSeconds := Z.quot microseconds 1000000 in
  pad02 (Z.quot totalSeconds 3600) ++ [58] ++ pad02 (Z.quot (Z.rem totalSeconds 3600) 60)
  ++ [58] ++ pad02 (Z.rem totalSeconds 60).

(** The switch over the values of a row. *)
Definition result_value (v : pgvalue) : GoValue :=
  match v with
  | Plain VNil => VNil
  | Plain (VString s) =>
      match parse_rfc3339 s with
      | Some t => VString (local_datetime t)
      | None => match parse_iso s with
                | Some t => VString (local_datetime t)
                | None => VString s
                end
      end
  | Plain (VTime t) => VString (local_datetime t)
  | Plain (VBool b) => VInt64 (if b then 1 else 0)
  | Plain (VOther text) => VString text
  | Plain v => v
  | PgNumeric n =>
      if negb (n_Valid n) then VNil
      else match numeric_json n with
           | inl text => VString text
           | inr _ => VString (numeric_int n)
           end
  | PgTime micros valid => if negb valid then VNil else VString (clock_of_micros micros)
  | PgTimestamp t valid => VString (fmt_struct v)
  end.

(** The rows up to the first one that cannot be read. *)
Fixpoint result_rows (rows : list row) : list (list GoValue) + goerror :=
  match rows with
  | [] => inl []
  | inr e :: _ => inr e
  | inl vs :: rest =>
      match result_rows rest with
      | inl l => inl (map result_value vs :: l)
      | inr e => inr e
      end
  end.

(** [mysql.BINARY_FLAG | mysql.NOT_NULL_FLAG]. *)
Definition decimal_flags : Z := Z.lor 128 1.

(** The type, length and decimals of a field by the OID of its column. *)
Definition decimal_size (typeModifier : Z) : Z * Z :=
  if 0 <? typeModifier then
    let typemod := typeModifier - 4 in
    let precision := Z.shiftr typemod 16 in
    let scale := Z.land typemod 65535 in
    (wrap 32 (if 0 <? scale then precision + 1 else precision), wrap 8 scale)
  else (66, 0).
Definition override_field (fd : FieldDescription) (f : Field) : Field :=
  let oid := DataTypeOID fd in
  if oid =? 1700 then
    let (len, dec) := decimal_size (TypeModifier fd) in
    mkField (f_Name f) MYSQL_TYPE_NEWDECIMAL 63 len decimal_flags dec
  else if (oid =? 1114) || (oid =? 1184) then
    mkField (f_Name f) MYSQL_TYPE_DATETIME (f_Charset f) 19 (f_Flag f) (f_Decimal f)
  else if oid =? 1082 then mkField (f_Name f) MYSQL_TYPE_DATE (f_Charset f) 10 (f_Flag f) (f_Decimal f)
  else if (oid =? 1083) || (oid =? 1266) then
    mkField (f_Name f) MYSQL_TYPE_TIME (f_Charset f) 8 (f_Flag f) (f_Decimal f)
  else f.
(** An OID the loop changes the field for. *)
Definition overridden (oid : Z) : bool :=
  (oid =? 1700) || (oid =? 1114) || (oid =? 1184) || (oid =? 1082) || (oid =? 1083) || (oid =? 1266).

(** The loop over the field descriptions; a field that is not there panics. *)
Fixpoint fix_fields (i : nat) (fds : list FieldDescription) (rs : Resultset) : out Resultset :=
  match fds with
  | [] => Val rs
  | fd :: rest =>
      let names := <[fd_Name fd := i]> (FieldNames rs) in
      if overridden (DataTypeOID fd) then
        match rs_Fields rs !! i with
        | Some f => fix_fields (S i) rest
                      (mkResultset (<[i := override_field fd f]> (rs_Fields rs)) names (RowDatas rs))
        | None => Died
        end
      else fix_fields (S i) rest (mkResultset (rs_Fields rs) names (RowDatas rs))
  end.

Definition buildMySQLResult (rows : Rows) (binary : bool) : out Result :=
  match result_rows (row_values rows) with
  | inr e => Fail e
  | inl values =>
      match rows_Err rows with
      | Some e => Fail e
      | None =>
          match BuildSimpleResultset (map fd_Name (FieldDescriptions rows)) values binary with
          | inr e => Fail e
          | inl rs =>
              match fix_fields 0 (FieldDescriptions rows) rs with
              | Val rs => Val (mkResult 0 0 0 (Some rs))
              | Fail e => Fail e
              | Died => Died
              | Hangs => Hangs
              end
          end
      end
  end.
End result.
