(* ===== verification/TextFacts.v ===== *)
(** * Facts about statements and results of the protocol handler

    The extraction of table names (when it panics, what it returns), and
    [buildMySQLResult]: the values it hands to the encoder, the fields it
    corrects and the size of DECIMAL columns. *)

From Stdlib Require Import ZArith Lia.
From stdpp Require Import base numbers list strings gmap.
From S2P Require Import Prelude GoStd GoStrings SQLLoops BinlogValue PgDriver Mapper ShowEmul HandlerText.
Open Scope Z_scope.

(** ** Names *)

(** A character of a plain name. *)
Definition name_byte (c : Z) : bool := is_letter c || digit c || (c =? cUnderscore).
Definition plain_name (n : bytes) : Prop := n <> [] /\ Forall (fun c => name_byte c = true) n.

Lemma name_byte_space c : name_byte c = true ->
  space_byte c = false /\ existsb (Z.eqb c) quotes = false /\ c < 128 /\ 0 <= c.
Proof.
  unfold name_byte, is_letter, is_lower, is_upper, digit, space_byte, quotes.
  cbn [existsb]. intros H. repeat split; lia.
Qed.

Lemma space_in_ascii wide c t : (forall w, w ∈ wide -> exists b u, w = b :: u /\ 128 <= b) ->
  c < 128 -> space_byte c = false -> space_in wide (c :: t) = O.
Proof.
  intros Hw Hc Hs. unfold space_in. rewrite Hs.
  destruct (List.find _ wide) as [w|] eqn:E; [|done].
  apply List.find_some in E as [Hin Hp]. apply list_elem_of_In in Hin.
  destruct (Hw w Hin) as (b & u & -> & Hb). apply has_prefix_spec in Hp as [v Hv].
  injection Hv. lia.
Qed.

Definition high (wide : list bytes) : Prop := forall w, w ∈ wide -> exists b u, w = b :: u /\ 128 <= b.
Lemma wide_high : high wide_spaces /\ high (map (@rev Z) wide_spaces).
Proof.
  split; intros w Hw; apply list_elem_of_In in Hw; cbn in Hw;
    repeat (destruct Hw as [<-|Hw]; [eexists _, _; split; [reflexivity | lia] |]); done.
Qed.

(** A trimming stops at a byte it does not trim. *)
Lemma trim_front_stops wide s c t : high wide -> ascii s = true -> c < 128 -> space_byte c = false ->
  exists u v, s = u ++ v /\ trim_front (space_in wide) 0 (s ++ c :: t) = v ++ c :: t.
Proof.
  intros Hw Ha Hc Hs. induction s as [|d s IH].
  - exists [], []. cbn [app trim_front]. by rewrite space_in_ascii.
  - cbn in Ha. apply andb_true_iff in Ha as [Hd Ha]. unfold ascii_byte in Hd.
    cbn [app trim_front]. destruct (space_byte d) eqn:Ed.
    + unfold space_in at 1. rewrite Ed. destruct (IH Ha) as (u & v & -> & E). by exists (d :: u), v.
    + rewrite space_in_ascii by (done || lia). by exists [], (d :: s).
Qed.

Lemma TrimLeft_stops cut s c t : existsb (Z.eqb c) cut = false ->
  exists u v, s = u ++ v /\ TrimLeft (s ++ c :: t) cut = v ++ c :: t.
Proof.
  intros Hc. induction s as [|d s IH]; cbn [app TrimLeft].
  - exists [], []. by rewrite Hc.
  - destruct (existsb (Z.eqb d) cut); [|by exists [], (d :: s)].
    destruct IH as (u & v & -> & E). by exists (d :: u), v.
Qed.

Lemma TrimLeft_all cut s t : Forall (fun c => existsb (Z.eqb c) cut = true) s ->
  TrimLeft (s ++ t) cut = TrimLeft t cut.
Proof. intros H. induction H as [|c s Hc Hs IH]; [done |]. cbn [app TrimLeft]. by rewrite Hc. Qed.

(** [x] starts and ends with bytes that [p] holds of. *)
Definition edges (p : Z -> Prop) (x : bytes) : Prop :=
  (exists c t, x = c :: t /\ p c) /\ (exists c t, x = t ++ [c] /\ p c).
Definition solid (c : Z) : Prop := c < 128 /\ space_byte c = false.

Lemma TrimSpace_keeps x v : edges solid x -> ascii v = true ->
  exists v' z, v = v' ++ z /\ TrimSpace (x ++ v) = x ++ v'.
Proof.
  intros [(c & t & Ex & Hc) (d & y & Ey & Hd)] Ha. unfold TrimSpace.
  assert (trim_front space_len 0 (x ++ v) = x ++ v) as ->.
  { rewrite Ex. cbn [app trim_front]. unfold space_len. by rewrite space_in_ascii by apply wide_high || apply Hc. }
  assert (rev (x ++ v) = rev v ++ d :: rev y) as -> by (by rewrite rev_app_distr, Ey, rev_app_distr).
  unfold space_len_rev. destruct (trim_front_stops (map (@rev Z) wide_spaces) (rev v) d (rev y)) as (a & b & E & ->);
    [apply wide_high | by apply ascii_rev | apply Hd | apply Hd |].
  exists (rev b), (rev a). split; [by rewrite <- (rev_involutive v), E, rev_app_distr |].
  rewrite rev_app_distr. cbn [rev]. by rewrite rev_involutive, Ey.
Qed.

Lemma Trim_keeps cut q x v : edges (fun c => existsb (Z.eqb c) cut = false) x ->
  Forall (fun c => existsb (Z.eqb c) cut = true) q ->
  exists v' z, v = v' ++ z /\ Trim (q ++ x ++ v) cut = x ++ v'.
Proof.
  intros [(c & t & Ex & Hc) (d & y & Ey & Hd)] Hq. unfold Trim. rewrite TrimLeft_all by done.
  assert (TrimLeft (x ++ v) cut = x ++ v) as -> by (rewrite Ex; cbn; by rewrite Hc).
  assert (rev (x ++ v) = rev v ++ d :: rev y) as -> by (by rewrite rev_app_distr, Ey, rev_app_distr).
  destruct (TrimLeft_stops cut (rev v) d (rev y)) as (a & b & E & ->); [done |].
  exists (rev b), (rev a). split; [by rewrite <- (rev_involutive v), E, rev_app_distr |].
  rewrite rev_app_distr. cbn [rev]. by rewrite rev_involutive, Ey.
Qed.

(** The first field of a text that starts with a word. *)
Lemma fields_word w : forall cur v, Forall solid w -> (cur ++ w <> []) ->
  (v = [] \/ exists c u, v = c :: u /\ space_byte c = true) ->
  exists l, fields_from space_len 0 cur (w ++ v) = (rev cur ++ w) :: l.
Proof.
  induction w as [|c w IH]; intros cur v Hw Hne Hv.
  - rewrite app_nil_r in *. destruct Hv as [->|(c & u & -> & Hc)]; cbn [app fields_from].
    + exists []. by destruct cur.
    + unfold space_len at 1, space_in. rewrite Hc. eexists. by destruct cur.
  - apply Forall_cons in Hw as [[Hc1 Hc2] Hw]. cbn [app fields_from]. unfold space_len at 1.
    rewrite space_in_ascii by (done || apply wide_high).
    destruct (IH (c :: cur) v Hw) as [l ->]; [done | done |]. exists l. cbn [rev]. by rewrite <- app_assoc.
Qed.

Lemma prefix_parts (q v r z : bytes) s : q ++ s :: r = v ++ z ->
  (exists q2, q = v ++ q2) \/ exists r1 r2, v = q ++ s :: r1 /\ r = r1 ++ r2.
Proof.
  revert v; induction q as [|c q IH]; intros [|d v] E; cbn in E.
  - left. by exists [].
  - injection E as -> ->. right. by exists v, z.
  - left. by exists (c :: q).
  - injection E as -> E. destruct (IH v E) as [[q2 ->]|(r1 & r2 & -> & ->)]; [left; by exists q2 | right; by exists r1, r2].
Qed.

Lemma plain_edges n p : plain_name n -> (forall c, name_byte c = true -> p c) -> edges p n.
Proof.
  intros [Hne Hn] Hp. split.
  - destruct n as [|c n]; [done |]. exists c, n. apply Forall_cons in Hn as [Hc _]. auto.
  - destruct n as [|c n _] using rev_ind; [done |]. exists c, n. apply Forall_app in Hn as [_ Hc].
    apply Forall_cons in Hc as [Hc _]. auto.
Qed.
Lemma name_solid c : name_byte c = true -> solid c.
Proof. intros H%name_byte_space. split; [lia | apply H]. Qed.

(** A name in quotes, or without. *)
Definition quoting (q : bytes) : Prop := q = [] \/ q = [cBacktick] \/ q = [cDquote].

Lemma first_word_name q n v r z : plain_name n -> quoting q -> q ++ cSpace :: r = v ++ z ->
  first_word (q ++ n ++ v) = n.
Proof.
  intros Hn Hq Hv. unfold first_word.
  assert (HqF : Forall (fun c => existsb (Z.eqb c) quotes = true) q)
    by (destruct Hq as [->|[->| ->]]; repeat constructor).
  assert (HqS : Forall solid q) by (destruct Hq as [->|[->| ->]]; repeat constructor; unfold solid; lia || done).
  assert (He : edges (fun c => existsb (Z.eqb c) quotes = false) n)
    by (apply plain_edges; [done | intros c Hc; by apply name_byte_space]).
  destruct (Trim_keeps quotes q n v He HqF) as (v' & z' & -> & ->). rewrite <- app_assoc in Hv.
  assert (Hword : forall w, (exists q2, q = w ++ q2) -> Trim (n ++ w) quotes = n).
  { intros w [q2 ->]. apply Forall_app in HqF as [HqF _]. unfold Trim.
    destruct He as [(c & t & Ex & Hc) (d & y & Ey & Hd)].
    assert (TrimLeft (n ++ w) quotes = n ++ w) as -> by (rewrite Ex; cbn -[quotes]; by rewrite Hc).
    rewrite rev_app_distr, TrimLeft_all by (by apply Forall_rev).
    rewrite Ey, rev_app_distr. cbn -[quotes]. rewrite Hd. cbn. by rewrite rev_involutive. }
  assert (Hne : forall w, [] ++ n ++ w <> []) by (intros w E; apply app_eq_nil in E as [_ [E _]%app_eq_nil]; by apply Hn).
  assert (HnS : Forall solid n) by (destruct Hn as [_ Hn]; rewrite Forall_forall in Hn |- *; intros c Hc; by apply name_solid, Hn).
  unfold Fields. destruct (prefix_parts _ _ _ _ _ Hv) as [[q2 Eq]|(r1 & r2 & -> & Er)].
  - destruct (fields_word (n ++ v') [] []) as [l Hl]; [|apply Hne | by left |].
    { apply Forall_app; split; [done |]. rewrite Eq in HqS. by apply Forall_app in HqS as [? _]. }
    rewrite app_nil_r in Hl. rewrite Hl. cbn [rev app]. apply Hword. by exists q2.
  - destruct (fields_word (n ++ q) [] (cSpace :: r1)) as [l Hl];
      [by apply Forall_app | apply Hne | right; by eexists _, _ |].
    rewrite <- app_assoc in Hl. rewrite Hl. cbn [rev app]. apply Hword. exists []. by rewrite app_nil_r.
Qed.

Section names.
Context `{!Unicode}.

Lemma rest_from_ok s i : (i <= length s)%nat -> rest_from s i = Ret (TrimSpace (drop i s)).
Proof. intros Hi. unfold rest_from. by rewrite slice_from_ok. Qed.
Lemma rest_from_crash s i : rest_from s i = Crash <-> (length s < i)%nat.
Proof.
  split; intros Hr.
  - destruct (decide (i <= length s)%nat) as [Hl|]; [|lia]. by rewrite rest_from_ok in Hr.
  - unfold rest_from, slice_from, GoStrings.slice.
    destruct (Nat.leb_spec i (length s)); [lia | reflexivity].
Qed.

(** The first place of a keyword leaves the text after it in range. *)
Lemma upper_index_bound sql kw k : ascii sql = true -> index kw (toUpper sql) = Some k ->
  (k + length kw <= length sql)%nat.
Proof. intros Ha E. apply index_bound in E. by rewrite toUpper_length in E. Qed.

Lemma upper_prefix_bound sql kw : ascii sql = true -> has_prefix kw (toUpper sql) = true ->
  (length kw <= length sql)%nat.
Proof.
  intros Ha [b E]%has_prefix_spec. rewrite <- (toUpper_length sql) by done. rewrite E, length_app. lia.
Qed.

Lemma optional_clause sql kw n : ascii sql = true -> length kw = n ->
  exists t, (if has_prefix kw (toUpper sql) then rest_from sql n else Ret sql) = Ret t.
Proof.
  intros Ha <-. destruct (has_prefix kw (toUpper sql)) eqn:E; [|by eexists].
  rewrite rest_from_ok by (by apply upper_prefix_bound). by eexists.
Qed.

(** On an ASCII statement the extraction of the table name of an INSERT
    panics exactly when the first INSERT INTO ends the text; the extractions for
    CREATE, ALTER and DROP TABLE and for the AUTO_INCREMENT column always
    return. *)
Theorem extraction_panics sql (Ha : ascii sql = true) :
  (extractInsertTableName sql = Crash <->
     (11 <= length sql)%nat /\ index (str "INSERT INTO") (toUpper sql) = Some (length sql - 11)%nat)
  /\ (exists t, extractCreateTableName sql = Ret t) /\ (exists t, extractAlterTableName sql = Ret t)
  /\ (exists t, extractDropTableName sql = Ret t) /\ (exists t, extractAutoIncrementColumn sql = Ret t).
Proof.
  split; [split | split; [|split; [|split]]].
  - unfold extractInsertTableName. destruct (index _ _) as [k|] eqn:E; [|done].
    pose proof (upper_index_bound _ _ _ Ha E) as Hk. cbn in Hk. intros Hc.
    destruct (decide (length sql < k + 12)%nat); [split; [lia | f_equal; lia] |].
    by rewrite rest_from_ok in Hc by lia.
  - intros [Hl E]. unfold extractInsertTableName. rewrite E.
    by rewrite (proj2 (rest_from_crash sql (length sql - 11 + 12))) by lia.
  - unfold extractCreateTableName. destruct (index _ _) as [k|] eqn:E; [|by eexists].
    pose proof (upper_index_bound _ _ _ Ha E) as Hk. cbn in Hk. rewrite rest_from_ok by lia. cbn [run_bind].
    destruct (optional_clause (TrimSpace (drop (k + 12) sql)) (str "IF NOT EXISTS") 13) as [t ->];
      [auto with ascii | done |]. by eexists.
  - unfold extractAlterTableName. destruct (index _ _) as [k|] eqn:E; [|by eexists].
    pose proof (upper_index_bound _ _ _ Ha E) as Hk. cbn in Hk. rewrite rest_from_ok by lia. by eexists.
  - unfold extractDropTableName. destruct (index _ _) as [k|] eqn:E; [|by eexists].
    pose proof (upper_index_bound _ _ _ Ha E) as Hk. cbn in Hk. rewrite rest_from_ok by lia. cbn [run_bind].
    destruct (optional_clause (TrimSpace (drop (k + 10) sql)) (str "IF EXISTS") 9) as [t ->];
      [auto with ascii | done |]. by eexists.
  - unfold extractAutoIncrementColumn. destruct (negb _); [by eexists |].
    destruct (index _ sql) as [k|] eqn:E; [|by eexists]. apply index_bound in E. cbn in E.
    rewrite slice_from_ok by lia. by eexists.
Qed.

Lemma index_head kw s : ascii kw = true -> ascii s = true -> ToUpper kw = kw ->
  index kw (toUpper (kw ++ s)) = Some O.
Proof.
  intros Hk Hs Hu. rewrite toUpper_app, (toUpper_ascii kw) by auto with ascii. rewrite Hu.
  pose proof (has_prefix_app kw (toUpper s)) as Hp.
  destruct (kw ++ toUpper s) as [|c t]; cbn [index]; by rewrite Hp.
Qed.

Lemma TrimSpace_space s : TrimSpace (cSpace :: s) = TrimSpace s.
Proof. done. Qed.

Lemma after_keyword kw i s : i = length (str kw) \/ i = S (length (str kw)) ->
  rest_from (str kw ++ cSpace :: s) (0 + i) = Ret (TrimSpace s).
Proof.
  intros Hi. rewrite rest_from_ok by (rewrite length_app; cbn; lia). f_equal. destruct Hi as [-> | ->].
  - cbn [Nat.add]. by rewrite drop_app_length.
  - replace (0 + S (length (str kw)))%nat with (length (str kw) + 1)%nat by lia. by rewrite drop_app_add.
Qed.

(** The text after the keyword, trimmed: the name in its quotes and a part of
    what follows. *)
Lemma trimmed_name q n rest : plain_name n -> quoting q -> ascii rest = true ->
  exists v z, q ++ cSpace :: rest = v ++ z /\ TrimSpace (q ++ n ++ q ++ cSpace :: rest) = q ++ n ++ v.
Proof.
  intros Hn Hq Hr. destruct (plain_edges n solid Hn) as [(c & t & En & Hc) (d & y & Ey & Hd)]; [exact name_solid |].
  destruct (TrimSpace_keeps (q ++ n) (q ++ cSpace :: rest)) as (v & z & E & Et).
  - split.
    + destruct Hq as [->|[->| ->]]; [by exists c, t | |]; eexists _, _; (split; [reflexivity | done]).
    + exists d, (q ++ y). split; [by rewrite Ey, app_assoc | done].
  - destruct Hq as [->|[->| ->]]; by cbn.
  - exists v, z. split; [done |]. by rewrite <- !app_assoc in Et.
Qed.

(** The table name of an INSERT, an ALTER TABLE or a DROP TABLE is the name
    that follows, with or without quotes around it, when a space follows the
    name. *)
Theorem extracted_name q n rest : plain_name n -> quoting q -> ascii rest = true ->
  let text kw := str kw ++ cSpace :: q ++ n ++ q ++ cSpace :: rest in
  extractInsertTableName (text "INSERT INTO") = Ret n
  /\ extractAlterTableName (text "ALTER TABLE") = Ret n
  /\ (has_prefix (str "IF EXISTS") (toUpper (q ++ n ++ q ++ cSpace :: rest)) = false ->
      extractDropTableName (text "DROP TABLE") = Ret n).
Proof.
  intros Hn Hq Hr text. destruct (trimmed_name q n rest Hn Hq Hr) as (v & z & Ev & Et).
  assert (Hname : ascii (q ++ n ++ q ++ cSpace :: rest) = true).
  { assert (ascii q = true) by (destruct Hq as [->|[->| ->]]; done).
    assert (ascii n = true).
    { destruct Hn as [_ Hn]. unfold ascii. apply forallb_forall. intros c Hc%list_elem_of_In.
      rewrite Forall_forall in Hn. specialize (Hn c Hc). apply name_byte_space in Hn.
      unfold ascii_byte. lia. }
    by auto 6 with ascii. }
  pose proof (first_word_name q n v rest z Hn Hq Ev) as Hw.
  unfold text, extractInsertTableName, extractAlterTableName, extractDropTableName.
  rewrite !index_head by done. rewrite (after_keyword "INSERT INTO" 12), (after_keyword "ALTER TABLE" 11),
    (after_keyword "DROP TABLE" 10) by auto.
  rewrite Et. cbn [run_bind]. rewrite Hw. split; [done |]. split; [done |]. intros Hp.
  destruct (has_prefix _ (toUpper (q ++ n ++ v))) eqn:E; [|cbn [run_bind]; by rewrite Hw].
  apply has_prefix_spec in E as [b E].
  assert (Eq : q ++ n ++ q ++ cSpace :: rest = (q ++ n ++ v) ++ z) by (rewrite Ev; by rewrite <- !app_assoc).
  rewrite Eq in Hp, Hname. by rewrite toUpper_app, E, <- app_assoc, has_prefix_app in Hp.
Qed.
End names.

Lemma extraction_panics_witness :
  let sql := str "insert into" in
  ascii sql = true /\ @extractInsertTableName ascii_tables sql = Crash.
Proof.
  intros sql. split; [reflexivity |].
  apply (proj1 (@extraction_panics ascii_tables sql eq_refl)). split; [cbn; lia | reflexivity].
Defined.

Lemma extracted_name_witness :
  @extractInsertTableName ascii_tables (str "INSERT INTO `orders` (a) VALUES (1)") = Ret (str "orders").
Proof.
  refine (proj1 (@extracted_name ascii_tables [cBacktick] (str "orders") (str "(a) VALUES (1)") _ _ eq_refl)).
  - split; [done | repeat constructor].
  - right; left; reflexivity.
Defined.

(** Without a space the columns are taken for a part of the name. *)
Example name_with_columns :
  @extractInsertTableName ascii_tables (str "INSERT INTO orders(a) VALUES (1)") = Ret (str "orders(a)").
Proof. reflexivity. Qed.

(** ** Results *)

(** What go-mysql's [FormatTextValue] accepts. *)
Definition formattable (v : GoValue) : bool :=
  match v with
  | VBool _ | VTime _ | VOther _ => false
  | _ => true
  end.

(** The field of a name: the last column that has it. *)
Fixpoint last_index (i : nat) (name : bytes) (fds : list FieldDescription) (d : option nat) : option nat :=
  match fds with
  | [] => d
  | fd :: rest => last_index (S i) name rest (if bool_decide (fd_Name fd = name) then Some i else d)
  end.

Section results.
Context (local_offset : Z -> Z) (fmt_struct : pgvalue -> bytes).
Context `{!NumericText, !ResultsetBuilder}.

Lemma result_value_formattable v : formattable (result_value local_offset fmt_struct v) = true.
Proof.
  destruct v as [[]|n|m b|t b]; try done; cbn.
  - by destruct (parse_rfc3339 s), (parse_iso s).
  - by destruct (n_Valid n), (numeric_json n).
  - by destruct b.
Qed.

(** C14: Every value that [buildMySQLResult] hands to go-mysql has one of the
    types it can encode, in as many rows and columns as PostgreSQL sent. *)
Theorem result_rows_formattable rows values :
  result_rows local_offset fmt_struct rows = inl values ->
  Forall2 (fun r vs => exists pg, r = inl pg /\ length vs = length pg /\ Forall (fun v => formattable v = true) vs)
    rows values.
Proof.
  revert values; induction rows as [|[vs|e] rows IH]; intros values E; cbn in E; simplify_eq.
  - constructor.
  - destruct (result_rows _ _ rows) as [l|] eqn:El; simplify_eq. constructor; [|by apply IH].
    exists vs. split; [done |]. split; [apply length_map |]. apply Forall_forall.
    intros v Hv%list_elem_of_In%in_map_iff. destruct Hv as (x & <- & _). apply result_value_formattable.
Qed.

Lemma override_same fd f : overridden (DataTypeOID fd) = false -> override_field fd f = f.
Proof.
  unfold overridden, override_field. intros Ho. rewrite !orb_false_iff in Ho.
  destruct Ho as (((((-> & ->) & ->) & ->) & ->) & ->). done.
Qed.

Lemma fix_fields_spec fds : forall i rs fs1 fs2,
  rs_Fields rs = fs1 ++ fs2 -> length fs1 = i -> length fs2 = length fds ->
  exists names, fix_fields i fds rs
    = Val (mkResultset (fs1 ++ zip_with override_field fds fs2) names (RowDatas rs))
  /\ forall n, names !! n = last_index i n fds (FieldNames rs !! n).
Proof.
  induction fds as [|fd fds IH]; intros i rs fs1 [|f fs2] Ef Hi Hl; try done; cbn [fix_fields zip_with last_index].
  - exists (FieldNames rs). split; [|done]. rewrite <- Ef. by destruct rs.
  - set (names := <[fd_Name fd := i]> (FieldNames rs)).
    assert (Hn : forall n, names !! n = if bool_decide (fd_Name fd = n) then Some i else FieldNames rs !! n).
    { intros n. unfold names. case_bool_decide as En; [subst; by rewrite lookup_insert_eq | by rewrite lookup_insert_ne]. }
    assert (Hstep : exists names', fix_fields (S i) fds
        (mkResultset (fs1 ++ override_field fd f :: fs2) names (RowDatas rs))
        = Val (mkResultset (fs1 ++ override_field fd f :: zip_with override_field fds fs2) names' (RowDatas rs))
        /\ forall n, names' !! n = last_index (S i) n fds (names !! n)).
    { destruct (IH (S i) (mkResultset (fs1 ++ override_field fd f :: fs2) names (RowDatas rs))
                 (fs1 ++ [override_field fd f]) fs2) as (names' & E & H');
        [by rewrite <- app_assoc | rewrite length_app; cbn; lia | by injection Hl |].
      exists names'. split; [|done]. rewrite E. by rewrite <- app_assoc. }
    destruct Hstep as (names' & E & H'). exists names'. split.
    + destruct (overridden (DataTypeOID fd)) eqn:Eo.
      * rewrite Ef, lookup_app_r, Hi, Nat.sub_diag by lia. cbn [lookup list_lookup].
        rewrite insert_app_r_alt, Hi, Nat.sub_diag by lia. exact E.
      * rewrite override_same in E by done. rewrite Ef, override_same by done. exact E.
    + intros n. by rewrite H', Hn.
Qed.

(** What a MySQL client is to be told about a PostgreSQL column: MySQL's type
    number, the display length and the decimals.  A NUMERIC(p, s) has the type
    modifier ((p << 16) | s) + 4, and -1 when it was declared without a
    precision. *)
Record client_field (fd : FieldDescription) (f f' : Field) : Prop := {
  field_name : f_Name f' = f_Name f;
  field_numeric p s : DataTypeOID fd = 1700 -> 1 <= p <= 1000 -> 0 <= s < 256 ->
    TypeModifier fd = Z.lor (Z.shiftl p 16) s + 4 -> f' = mkField (f_Name f) 246 63 (if s =? 0 then p else p + 1) 129 s;
  field_numeric_any : DataTypeOID fd = 1700 -> TypeModifier fd = -1 -> f' = mkField (f_Name f) 246 63 66 129 0;
  field_timestamp : DataTypeOID fd = 1114 \/ DataTypeOID fd = 1184 ->
    f' = mkField (f_Name f) 12 (f_Charset f) 19 (f_Flag f) (f_Decimal f);
  field_date : DataTypeOID fd = 1082 -> f' = mkField (f_Name f) 10 (f_Charset f) 10 (f_Flag f) (f_Decimal f);
  field_time : DataTypeOID fd = 1083 \/ DataTypeOID fd = 1266 ->
    f' = mkField (f_Name f) 11 (f_Charset f) 8 (f_Flag f) (f_Decimal f);
  field_other : DataTypeOID fd ∉ [1700; 1114; 1184; 1082; 1083; 1266] -> f' = f
}.

(** The column length and the decimals of a DECIMAL(p, s) column are those
    of the declaration, with one more position for the decimal point. *)
Lemma decimal_size_declared p s : 1 <= p <= 1000 -> 0 <= s < 256 ->
  decimal_size (Z.lor (Z.shiftl p 16) s + 4) = (if 0 <? s then p + 1 else p, s).
Proof.
  intros Hp Hs. rewrite lor_shiftl_add by lia. unfold decimal_size.
  replace (p * 2 ^ 16 + s + 4 - 4) with (p * 2 ^ 16 + s) by lia.
  assert ((0 <? p * 2 ^ 16 + s + 4) = true) as -> by lia.
  rewrite Z.shiftr_div_pow2 by lia. change 65535 with (Z.ones 16). rewrite Z.land_ones by lia.
  rewrite Z.div_add_l, (Z.div_small s), Z.add_0_r by lia.
  rewrite (Z.add_comm (p * 2 ^ 16)), Z.mod_add, (Z.mod_small s) by lia.
  rewrite !wrap_id; [done | |]; unfold in_width; [lia |]. destruct (0 <? s); lia.
Qed.

Lemma override_client fd f : client_field fd f (override_field fd f).
Proof.
  split; unfold override_field.
  - repeat case_match; done.
  - intros p s -> Hp Hs ->. cbn [Z.eqb Pos.eqb]. rewrite decimal_size_declared by done.
    destruct (Z.eqb_spec s 0), (Z.ltb_spec 0 s); done || lia.
  - by intros -> ->.
  - by intros [-> | ->].
  - by intros ->.
  - by intros [-> | ->].
  - intros Hn. change (override_field fd f = f). apply override_same. unfold overridden.
    rewrite !orb_false_iff, !Z.eqb_neq. set_solver.
Qed.

(** C15: When go-mysql builds a field for each column, [buildMySQLResult] does not
    panic: the encoded rows are go-mysql's, the field of each column is the
    one go-mysql inferred, with MySQL's type, length and decimals for NUMERIC
    (from its declared precision and scale), timestamp, date and time columns,
    and a name refers to the last column that has it. *)
Theorem buildMySQLResult_spec rows binary values rs :
  result_rows local_offset fmt_struct (row_values rows) = inl values -> rows_Err rows = None ->
  BuildSimpleResultset (map fd_Name (FieldDescriptions rows)) values binary = inl rs ->
  length (rs_Fields rs) = length (FieldDescriptions rows) ->
  exists fields names, buildMySQLResult local_offset fmt_struct rows binary
    = Val (mkResult 0 0 0 (Some (mkResultset fields names (RowDatas rs))))
  /\ length fields = length (FieldDescriptions rows)
  /\ (forall i fd f f', FieldDescriptions rows !! i = Some fd -> rs_Fields rs !! i = Some f -> fields !! i = Some f' ->
        client_field fd f f')
  /\ forall n, names !! n = last_index 0 n (FieldDescriptions rows) (FieldNames rs !! n).
Proof.
  intros Hv He Hb Hl.
  destruct (fix_fields_spec (FieldDescriptions rows) 0 rs [] (rs_Fields rs)) as (names & E & Hn); [done | done | done |].
  eexists _, names. split; [unfold buildMySQLResult; by rewrite Hv, He, Hb, E |]. split; [|split; [|done]].
  - cbn. by rewrite length_zip_with_l_eq.
  - intros i fd f f' Hfd Hf Hf'. cbn in Hf'. rewrite lookup_zip_with, Hfd, Hf in Hf'. injection Hf' as <-. apply override_client.
Qed.
End results.

(** ** Witnesses: a builder that makes a text field for each name *)
Definition text_builder : ResultsetBuilder :=
  {| BuildSimpleResultset := fun names values _ =>
       inl (mkResultset (map (fun n => mkField n 253 33 255 0 0) names) ∅ (map (fun _ => []) values)) |}.
Definition no_numerics : NumericText :=
  {| numeric_json := fun _ => inl (str "1.50"); numeric_float := fun _ => None; numeric_int := fun _ => str "150" |}.

Lemma result_rows_formattable_witness :
  let vs := [Plain (VBool true); PgTime 3661000000 true; PgNumeric (mkNumeric (Some 150) (-2) false 0 true)] in
  Forall2 (fun r vs => exists pg, r = inl pg /\ length vs = length pg /\ Forall (fun v => formattable v = true) vs)
    [inl vs : row] [[VInt64 1; VString (str "01:01:01"); VString (str "1.50")]].
Proof.
  intros vs. apply (@result_rows_formattable (fun _ => 0) (fun _ => []) no_numerics). vm_compute. reflexivity.
Defined.

Lemma buildMySQLResult_spec_witness :
  let fds := [mkFD (str "price") 1700 (Z.lor (Z.shiftl 10 16) 2 + 4); mkFD (str "day") 1082 (-1)] in
  exists fields names, @buildMySQLResult (fun _ => 0) (fun _ => []) no_numerics text_builder (mkRows fds [] None) false
    = Val (mkResult 0 0 0 (Some (mkResultset fields names [])))
  /\ (forall f, fields !! 0%nat = Some f -> f = mkField (str "price") 246 63 11 129 2)
  /\ (forall f, fields !! 1%nat = Some f -> f = mkField (str "day") 10 33 10 0 0).
Proof.
  intros fds.
  destruct (@buildMySQLResult_spec (fun _ => 0) (fun _ => []) no_numerics text_builder (mkRows fds [] None) false []
              (mkResultset [mkField (str "price") 253 33 255 0 0; mkField (str "day") 253 33 255 0 0] ∅ []))
    as (fields & names & E & _ & Hf & _); [reflexivity | reflexivity | reflexivity | reflexivity |].
  exists fields, names. split; [exact E |]. split.
  - intros f H0. exact (field_numeric _ _ _ (Hf 0%nat _ _ f eq_refl eq_refl H0) 10 2 eq_refl ltac:(lia) ltac:(lia) eq_refl).
  - intros f H1. exact (field_date _ _ _ (Hf 1%nat _ _ f eq_refl eq_refl H1) eq_refl).
Defined.
