(* ===== verification/Handler.v ===== *)
(** * The MySQL protocol handler

    [pkg/protocol/mysql/handler.go]: a [ConnectionHandler] between a MySQL
    client and PostgreSQL, with the parts it shares with other connections.

    Connections are pointers (numbers): [conns] holds their states, and the
    handler, its session and the pool refer to them by pointer.  The session
    code runs on the connection's state and writes it back ([on_session]).
    Of the metrics, the gauge of active connections and the count of queries
    are kept; the error counters, durations and log lines are left out (the
    log lines are in [Observability]). *)

From Stdlib Require Import ZArith Lia.
From stdpp Require Import base numbers list strings gmap.
From S2P Require Import Prelude GoStd GoStrings SQLText SQLPasses Rewriter ACL Detector BinlogValue BinlogEvent.
From S2P Require Import PgDriver Mapper Variables ShowEmul ReplAdmin Pool ReqTrack Metrics SchemaCache Session ReplServer HandlerText.
Open Scope Z_scope.
Open Scope io_scope.

(** The driver as the session uses it.  The session's code ends where a call
    panics or does not return; [stuck] tells the two apart. *)
Record Line {C : Type} := mkLine { line : C; stuck : bool }.
Arguments Line : clear implicits.
Arguments mkLine {C}.

Definition answer {C} (r : out unit * C) : res unit * Line C :=
  match r with
  | (Val _, c) => (Ok tt, mkLine c false)
  | (Fail e, c) => (Err (error_text e), mkLine c false)
  | (Died, c) => (Panic, mkLine c false)
  | (Hangs, c) => (Panic, mkLine c true)
  end.

#[global] Instance session_conn {C} `{!PgDriver C} : PgConn (Line C) := {
  Exec c cmd := answer (exec_ cmd (line c));
  ConnClose c := answer (pg_close (line c))
}.

(** The same session with another connection. *)
Definition retarget {A B} (conn : option B) (s : @Session A) : @Session B :=
  mkSession (ID s) (sUser s) (sDatabase s) (Charset s) (Autocommit s) (InTransaction s) (LastInsertID s)
    (CreatedAt s) (LastActiveAt s) (ClientAddr s) (sessionVars s) (userVars s) (preparedStmts s)
    (autoIncrementTables s) conn.
Definition set_Database {A} (db : bytes) (s : @Session A) : @Session A :=
  mkSession (ID s) (sUser s) db (Charset s) (Autocommit s) (InTransaction s) (LastInsertID s)
    (CreatedAt s) (LastActiveAt s) (ClientAddr s) (sessionVars s) (userVars s) (preparedStmts s)
    (autoIncrementTables s) (pgConn s).

(** ** State *)

Record Proxy {C : Type} := mkProxy {
  session : @Session nat;            (** [ch.session] *)
  ch_pgConn : option nat;            (** [ch.pgConn] *)
  searchPathSet : bool;
  conns : gmap nat C;
  pgPool : Pool;
  cache : Cache;                     (** the global schema cache *)
  vars : gmap bytes bytes;           (** [internalVarOverrides] *)
  tracker : Tracker;
  metrics : Metrics;
  registered : gset bytes;           (** the ids the session manager holds *)
  replServer : option Server
}.
Arguments Proxy : clear implicits.

(** What the environment answers during a call: the clock, the dialling of a new
    connection, pgxpool, and the state of a connection that was dialled. *)
Record Answers {C : Type} := mkAnswers {
  clock : Z; dialled : dial; acquired : nat + goerror; new_conn : C; closing : option goerror }.
Arguments Answers : clear implicits.

Definition ER_SYNTAX_ERROR : Z := 1149.
Definition ER_NOT_SUPPORTED_YET : Z := 1235.
Definition ER_UNKNOWN_STMT_HANDLER : Z := 1243.
Definition ER_UNKNOWN_COM_ERROR : Z := 1047.
Definition ER_MASTER_FATAL_ERROR_READING_BINLOG : Z := 1236.
Definition ER_MALFORMED_PACKET : Z := 1835.

(** What the handler is built with: its rewriter (and the fuel of its loops),
    the comparison of words with non-ASCII letters, the parser of account
    statements, the catalogue a connection answers from, the local time zone,
    the printing of [%v], the text of a [mysql.MyError], and the writes to
    replicas that fail. *)
Class Setup (C : Type) := {
  rewriter : Rewriter;
  rewrite_fuel : nat;
  fold_runes : bytes -> bytes -> bool;
  ParseACL : bytes -> res (list acl_stmt);
  catalog_of : C -> Catalog;
  local_offset : Z -> Z;
  fmt_struct : pgvalue -> bytes;
  my_text : Z -> bytes -> bytes;
  write_fails : Z -> nat -> bool
}.

Section handler.
Context `{!Unicode} {Stmt : Type} `{!SQLParser Stmt}.
Context {C : Type} `{!PgDriver C, !NumericText, !ResultsetBuilder, !Setup C}.

Abbreviation M := (io (Proxy C)).
Abbreviation CH := (Proxy C).

(** Assignments to the fields. *)
Definition set_session (v : @Session nat) (s : CH) : CH :=
  mkProxy C v (ch_pgConn s) (searchPathSet s) (conns s) (pgPool s) (cache s) (vars s) (tracker s) (metrics s) (registered s) (replServer s).
Definition set_ch_pgConn (v : option nat) (s : CH) : CH :=
  mkProxy C (session s) v (searchPathSet s) (conns s) (pgPool s) (cache s) (vars s) (tracker s) (metrics s) (registered s) (replServer s).
Definition set_searchPathSet (v : bool) (s : CH) : CH :=
  mkProxy C (session s) (ch_pgConn s) v (conns s) (pgPool s) (cache s) (vars s) (tracker s) (metrics s) (registered s) (replServer s).
Definition set_conns (v : gmap nat C) (s : CH) : CH :=
  mkProxy C (session s) (ch_pgConn s) (searchPathSet s) v (pgPool s) (cache s) (vars s) (tracker s) (metrics s) (registered s) (replServer s).
Definition set_pgPool (v : Pool) (s : CH) : CH :=
  mkProxy C (session s) (ch_pgConn s) (searchPathSet s) (conns s) v (cache s) (vars s) (tracker s) (metrics s) (registered s) (replServer s).
Definition set_cache (v : Cache) (s : CH) : CH :=
  mkProxy C (session s) (ch_pgConn s) (searchPathSet s) (conns s) (pgPool s) v (vars s) (tracker s) (metrics s) (registered s) (replServer s).
Definition set_overrides (v : gmap bytes bytes) (s : CH) : CH :=
  mkProxy C (session s) (ch_pgConn s) (searchPathSet s) (conns s) (pgPool s) (cache s) v (tracker s) (metrics s) (registered s) (replServer s).
Definition set_tracker (v : Tracker) (s : CH) : CH :=
  mkProxy C (session s) (ch_pgConn s) (searchPathSet s) (conns s) (pgPool s) (cache s) (vars s) v (metrics s) (registered s) (replServer s).
Definition set_metrics (v : Metrics) (s : CH) : CH :=
  mkProxy C (session s) (ch_pgConn s) (searchPathSet s) (conns s) (pgPool s) (cache s) (vars s) (tracker s) v (registered s) (replServer s).
Definition set_registered (v : gset bytes) (s : CH) : CH :=
  mkProxy C (session s) (ch_pgConn s) (searchPathSet s) (conns s) (pgPool s) (cache s) (vars s) (tracker s) (metrics s) v (replServer s).
Definition set_replServer (v : option Server) (s : CH) : CH :=
  mkProxy C (session s) (ch_pgConn s) (searchPathSet s) (conns s) (pgPool s) (cache s) (vars s) (tracker s) (metrics s) (registered s) v.

(** ** Code on parts of the state *)

(** A call on [ch.pgConn]; a nil pointer panics. *)
Definition on_env {A} (c : io (@env C) A) : M A := fun s =>
  match ch_pgConn s with
  | Some h =>
      match conns s !! h with
      | Some x => let (r, e) := c (x, vars s) in (r, set_overrides e.2 (set_conns (<[h := e.1]> (conns s)) s))
      | None => (Died, s)
      end
  | None => (Died, s)
  end.
Definition on_pg {A} (c : io C A) : M A := on_env (on_conn c).

(** Session code on the session with its connection's state. *)
Definition on_session (op : st (@Session (Line C)) unit) : M unit := fun s =>
  let h := pgConn (session s) in
  let (r, v) := op (retarget (h ≫= fun h => (fun x => mkLine x false) <$> conns s !! h) (session s)) in
  let s := match h, pgConn v with
           | Some h, Some x => set_conns (<[h := line x]> (conns s)) s
           | _, _ => s
           end in
  let s := set_session (retarget (match pgConn v with Some _ => h | None => None end) v) s in
  (match r with
   | Ok _ => Val tt
   | Err m => Fail (OtherError m)
   | Panic => if from_option stuck false (pgConn v) then Hangs else Died
   end, s).

Definition my_error (code : Z) (message : bytes) : goerror := MyError code message (my_text code message).
(** [mysql.NewError(code, err.Error())] for the error of [c]. *)
Definition as_unknown {A} (c : M A) : M A := fun s =>
  match c s with
  | (Fail e, s') => (Fail (my_error ER_UNKNOWN_ERROR (error_text e)), s')
  | r => r
  end.
(** [mysql.NewError(errorMapper.MapError(err))]. *)
Definition mapped {A} (c : M A) : M A := fun s =>
  match c s with
  | (Fail e, s') => let (code, message) := MapError (Some e) in (Fail (my_error code message), s')
  | r => r
  end.

Definition of_res {S A} (r : res A) : io S A :=
  ilift match r with Ok a => Val a | Err m => Fail (OtherError m) | Panic => Died end.

(** ** The connection *)

Definition NewConnection (host : bytes) (uuid : bytes) (now : Z) (s : CH) : CH :=
  let sess := NewSession uuid now now [] [] host in
  set_searchPathSet false (set_ch_pgConn None (set_metrics (IncActiveConnections (metrics s))
    (set_registered ({[uuid]} ∪ registered s) (set_session sess s)))).

Definition set_search_path (dbName : bytes) : bytes := str "SET search_path TO " ++ dbName.

(** The two halves of [ensurePGConn]: a connection, and its search path. *)
Definition acquire_conn (a : Answers C) : M unit :=
  let! s := iget id in
  match ch_pgConn s with
  | Some _ => iret tt
  | None =>
      let! conn := zoom pgPool set_pgPool (AcquireForSession (dialled a) (acquired a) (ID (session s))) in
      imod (fun s =>
        let s := match conns s !! conn with
                 | Some _ => s
                 | None => set_conns (<[conn := new_conn a]> (conns s)) s
                 end in
        set_searchPathSet false
          (set_session (SetPGConn (Some conn) (session s)) (set_ch_pgConn (Some conn) s)))
  end.

Definition database_of (s : CH) : bytes :=
  match sDatabase (session s) with [] => str "public" | db => db end.

Definition apply_search_path : M unit :=
  let! s := iget id in
  if searchPathSet s then iret tt
  else
    let dbName := database_of s in
    do! wrapped (str "failed to set search_path to " ++ dbName ++ str ": ")
          (on_pg (exec_ (set_search_path dbName))) in
    imod (set_searchPathSet true).

Definition ensurePGConn (a : Answers C) : M unit := do! acquire_conn a in apply_search_path.

Definition UseDB (dbName : bytes) : M unit :=
  let! s := iget id in
  if InTransaction (session s)
  then ifail (my_error ER_UNKNOWN_ERROR (str "cannot change database while transaction is active"))
  else
    do! imod (fun s => set_searchPathSet false (set_session (set_Database dbName (session s)) s)) in
    match ch_pgConn s with
    | None => iret tt
    | Some _ => do! on_pg (exec_ (set_search_path dbName)) in imod (set_searchPathSet true)
    end.

(** ** Commands that need no rewriting *)

Definition handleUseCommand (query : bytes) : M Result :=
  match Fields query with
  | _ :: p :: _ => do! UseDB (Trim p name_quotes) in iret ok_result
  | _ => ifail (OtherError (str "invalid USE command: " ++ query))
  end.

Definition build (rows : Rows) (binary : bool) : M Result :=
  ilift (buildMySQLResult local_offset fmt_struct rows binary).

Definition handleShowCommand (query : bytes) : M Result :=
  let! rows := on_env (HandleShowCommand query) in
  build rows false.

Definition SetVar (name : bytes) (value : GoValue) : M unit :=
  imod (fun s => set_session (SetSessionVar name value (session s)) s).

Definition truthy (v : bytes) : bool :=
  let val := toUpper v in
  bytes_eqb val (str "ON") || bytes_eqb val (str "1") || bytes_eqb val (str "TRUE").

(** One assignment of a parsed SET. *)
Definition set_one (v : SetVarInfo) : M unit :=
  if sv_IsGlobal v then
    do! as_unknown (on_env (HandleSetGlobal (sv_Name v) (sv_Value v))) in iret tt
  else if bytes_eqb (toLower (sv_Name v)) (str "autocommit") then
    do! as_unknown (on_session (SetAutocommit (truthy (sv_Value v)))) in
    SetVar (sv_Name v) (VString (sv_Value v))
  else
    do! (if sv_IsSystem v
         then do! on_env (HandleSetSession (sv_Name v) (sv_Value v)) in iret tt
         else iret tt) in
    SetVar (sv_Name v) (VString (sv_Value v)).

Fixpoint for_each {A} (f : A -> M unit) (l : list A) : M unit :=
  match l with
  | [] => iret tt
  | x :: l => do! f x in for_each f l
  end.

(** One variable of a SET that did not parse. *)
Definition set_text (p : bytes * bytes) : M unit :=
  do! (if bytes_eqb (toLower p.1) (str "autocommit")
       then as_unknown (on_session (SetAutocommit (truthy p.2))) else iret tt) in
  SetVar p.1 (VString p.2).

Definition handleSetCommand (query : bytes) : M Result :=
  let! vars := of_res (ParseSet query) in
  match vars with
  | Some l => do! for_each set_one l in iret ok_result
  | None =>
      let! l := HandleSetCommand fold_runes query in
      do! for_each set_text l in iret ok_result
  end.

(** [None] is a query the normal path handles. *)
Definition handleSelectVariable (query : bytes) : M (option Result) :=
  let! varInfo := of_res (ParseSelectVariable query) in
  match varInfo with
  | None => iret None
  | Some v =>
      let! value := itry (on_env (GetMySQLVarValue (VarName v))) in
      match value with
      | inl (Some value) =>
          let columnName := (if selIsGlobal v then str "@@global." else str "@@") ++ VarName v in
          match BuildSimpleResultset [columnName] [[VString value]] false with
          | inl rs => iret (Some (mkResult 0 0 0 (Some rs)))
          | inr _ => iret None
          end
      | _ => iret None
      end
  end.

Definition upper_at (fields : list bytes) (i : nat) (w : string) : bool :=
  match fields !! i with Some f => bytes_eqb (toUpper f) (str w) | None => false end.

Definition handleDatabaseCommand (query : bytes) : M Result :=
  let upper := stmt_upper query in
  let fields := Fields query in
  if has_prefix (str "CREATE DATABASE") upper then
    let exists_ := upper_at fields 2 "IF" && upper_at fields 3 "NOT" && upper_at fields 4 "EXISTS" in
    match fields !! (if exists_ then 5 else 2)%nat with
    | None => ifail (my_error ER_SYNTAX_ERROR (str "missing database name in CREATE DATABASE"))
    | Some f =>
        do! mapped (on_pg (exec_ (str "CREATE SCHEMA " ++ (if exists_ then str "IF NOT EXISTS " else [])
                                  ++ Trim f name_quotes))) in
        iret ok_result
    end
  else if has_prefix (str "DROP DATABASE") upper then
    let exists_ := upper_at fields 2 "IF" && upper_at fields 3 "EXISTS" in
    match fields !! (if exists_ then 4 else 2)%nat with
    | None => ifail (my_error ER_SYNTAX_ERROR (str "missing database name in DROP DATABASE"))
    | Some f =>
        do! mapped (on_pg (exec_ (str "DROP SCHEMA " ++ (if exists_ then str "IF EXISTS " else [])
                                  ++ Trim f name_quotes ++ str " CASCADE"))) in
        iret ok_result
    end
  else ifail (my_error ER_SYNTAX_ERROR (str "unsupported DATABASE command")).

(** A failing KILL is answered with success. *)
Definition handleKillCommand (query : bytes) : M Result :=
  let! killInfo := of_res (ParseKill query) in
  match killInfo with
  | None => iret ok_result
  | Some k =>
      let pgFunc := if QueryOnly k then str "pg_cancel_backend" else str "pg_terminate_backend" in
      let! r := itry (on_pg (exec_ (str "SELECT " ++ pgFunc ++ str "(" ++ dec_Z (ConnectionID k) ++ str ")"))) in
      iret ok_result
  end.

(** ** Statements with an effect *)

(** [ch.session.GetAutoIncrementColumn]. *)
Definition auto_increment_column (now : Z) (tableName : bytes) : M bytes := fun s =>
  let sess := retarget (pgConn (session s) ≫= fun h => conns s !! h) (session s) in
  let (r, c) := sess_GetAutoIncrementColumn catalog_of now sess tableName (cache s) in
  (match r with Ok v => Val v | Err m => Fail (OtherError m) | Panic => Died end, set_cache c s).

(** [uint64(id)] of the first row, 0 when there is none or it cannot be read. *)
Definition returned_id (rows : Rows) : Z :=
  match row_values rows with
  | r :: _ => match scan_int64 r with inl id => wrap 64 id | inr _ => 0 end
  | [] => 0
  end.

(** INSERT: the id and the rows affected.  [original] is the client's text. *)
Definition run_insert (now : Z) (original sql : bytes) (args : list GoValue) : M Result :=
  let! tableName := of_run (extractInsertTableName original) in
  let! autoIncrColumn := auto_increment_column now tableName in
  if negb (bytes_eqb autoIncrColumn []) && negb (Contains (toUpper sql) (str "RETURNING")) then
    let! rows := mapped (on_pg (pg_query (sql ++ str " RETURNING " ++ autoIncrColumn) args)) in
    iret (mkResult 0 (returned_id rows) 1 None)
  else
    let! n := mapped (on_pg (pg_exec sql args)) in
    iret (mkResult 0 0 (wrap 64 n) None).

Definition invalidate (tableName : bytes) : M unit :=
  imod (fun s => set_cache (InvalidateTable (sDatabase (session s)) tableName (cache s)) s).

(** What [HandleQuery] does to the schema cache after CREATE, ALTER and DROP
    TABLE. *)
Definition after_ddl (upperQuery query : bytes) : M unit :=
  if has_prefix (str "CREATE TABLE") upperQuery then
    let! tableName := of_run (extractCreateTableName query) in
    do! invalidate tableName in
    let! columnName := of_run (extractAutoIncrementColumn query) in
    if negb (bytes_eqb tableName []) && negb (bytes_eqb columnName [])
    then imod (fun s => set_session (MarkTableHasAutoIncrement tableName columnName (session s)) s)
    else iret tt
  else if has_prefix (str "ALTER TABLE") upperQuery then
    let! tableName := of_run (extractAlterTableName query) in
    if negb (bytes_eqb tableName []) then invalidate tableName else iret tt
  else if has_prefix (str "DROP TABLE") upperQuery then
    let! tableName := of_run (extractDropTableName query) in
    if negb (bytes_eqb tableName []) then invalidate tableName else iret tt
  else iret tt.

Definition run_statement (now : Z) (query rewrittenSQL : bytes) : M Result :=
  let upperQuery := stmt_upper query in
  if isDDL upperQuery then
    if has_prefix (str "INSERT") upperQuery then run_insert now query rewrittenSQL []
    else
      let! n := mapped (on_pg (pg_exec rewrittenSQL [])) in
      do! after_ddl upperQuery query in
      iret (mkResult 0 0 (wrap 64 n) None)
  else
    let! rows := mapped (on_pg (pg_query rewrittenSQL [])) in
    build rows false.

Definition of_run_res {S A} (r : run (res A)) : io S A :=
  let! x := of_run r in of_res x.

(** [HandleQuery] after the transaction statements. *)
Definition handle_rest (now : Z) (query : bytes) : M Result :=
  if isKillStatement query then handleKillCommand query
  else
    let! replicated := (if IsReplicationCommand query
                        then as_unknown (on_pg (HandleReplicationCommand query)) else iret false) in
    if replicated then iret ok_result
    else
      let! acl := (if IsACLCommand query then of_res (RewriteACL ParseACL query) else iret (query, false)) in
      if acl.2 then
        match acl.1 with
        | [] => iret ok_result
        | rewritten => do! mapped (on_pg (exec_ rewritten)) in iret ok_result
        end
      else if isFlushStatement query then iret ok_result
      else if isTablespaceStatement query
      then ifail (my_error ER_NOT_SUPPORTED_YET (str "ALTER TABLE ... DISCARD/IMPORT TABLESPACE is not supported (PostgreSQL does not have per-table tablespace import/export)"))
      else
        let! rewrittenSQL := of_run_res (Rewrite rewrite_fuel rewriter query) in
        run_statement now query rewrittenSQL.

(** The body of [HandleQuery]. *)
Definition handle_query (a : Answers C) (query : bytes) : M Result :=
  do! ensurePGConn a in
  if IsShowStatement query then handleShowCommand query
  else if IsSetStatement query then handleSetCommand query
  else if IsUseStatement query then handleUseCommand query
  else if isDatabaseStatement query then handleDatabaseCommand query
  else
    let! selected := handleSelectVariable query in
    match selected with
    | Some result => iret result
    | None =>
        if IsBeginStatement query then do! as_unknown (on_session BeginTransaction) in iret ok_result
        else if IsCommitStatement query then do! as_unknown (on_session CommitTransaction) in iret ok_result
        else if IsRollbackStatement query then do! as_unknown (on_session RollbackTransaction) in iret ok_result
        else handle_rest (clock a) query
    end.

(** The request is tracked while the body runs; the deferred [EndRequest] also
    runs when it panics. *)
Definition HandleQuery (a : Answers C) (query : bytes) : M Result := fun s =>
  let s := set_metrics (IncTotalQueries (metrics s)) s in
  let (reqID, t) := StartRequest (clock a) (ID (session s)) query (tracker s) in
  match handle_query a query (set_tracker t s) with
  | (Hangs, s') => (Hangs, s')
  | (r, s') => (r, set_tracker (EndRequest reqID (tracker s')) s')
  end.

(** ** Prepared statements *)

Definition HandleStmtPrepare (a : Answers C) (query : bytes) : M (Z * Z * Z) :=
  do! ensurePGConn a in
  let! p := of_run_res (RewritePrepared rewrite_fuel rewriter query) in
  let! s := iget id in
  let stmtID := wrap 32 (Z.of_nat (GetPreparedStatementCount (session s)) + 1) in
  let columnCount := if returnsRows (TrimSpace (toUpper p.1)) then 1 else 0 in
  let stmt := mkStmt stmtID p.1 query [] p.2 [] 0 [] [] in
  do! imod (fun s => set_session (AddPreparedStatement stmt (session s)) s) in
  iret (p.2, columnCount, stmtID).

(** The conversion of a parameter. *)
Definition convert_arg (arg : GoValue) : GoValue :=
  match arg with
  | VTime t => VString (fmt_datetime t)
  | VBytes b => VString b
  | v => v
  end.

(** [data] is [None] when it is not a [uint32]. *)
Definition HandleStmtExecute (a : Answers C) (data : option Z) (args : list GoValue) : M Result :=
  match data with
  | None => ifail (my_error ER_UNKNOWN_ERROR (str "invalid statement ID type"))
  | Some stmtID =>
      let! s := iget id in
      match GetPreparedStatement stmtID (session s) with
      | None => ifail (my_error ER_UNKNOWN_STMT_HANDLER (str "Unknown prepared statement"))
      | Some stmt =>
          do! ensurePGConn a in
          let upperQuery := stmt_upper (OriginalSQL stmt) in
          let convertedArgs := map convert_arg args in
          if isDML upperQuery then
            if has_prefix (str "INSERT") upperQuery
            then run_insert (clock a) (OriginalSQL stmt) (SQL stmt) convertedArgs
            else
              let! n := mapped (on_pg (pg_exec (SQL stmt) convertedArgs)) in
              iret (mkResult 0 0 (wrap 64 n) None)
          else
            let! rows := mapped (on_pg (pg_query (SQL stmt) convertedArgs)) in
            build rows true
      end
  end.

Definition HandleStmtClose (data : option Z) : M unit :=
  match data with
  | None => ifail (my_error ER_UNKNOWN_ERROR (str "invalid statement ID type"))
  | Some stmtID =>
      let! s := iget id in
      match GetPreparedStatement stmtID (session s) with
      | None => iret tt
      | Some _ => imod (fun s => set_session (RemovePreparedStatement stmtID (session s)) s)
      end
  end.

(** ** The other commands *)

Definition field_list_sql (table : bytes) : bytes := 
  sqlq "
		SELECT column_name, data_type, character_maximum_length
		FROM information_schema.columns
		WHERE table_schema = current_schema()
		  AND table_name = '" ++ table ++ sqlq "'
		ORDER BY ordinal_position
	".

(** The fields up to a row that cannot be read. *)
Fixpoint scan_fields (rows : list row) : list Field + goerror :=
  match rows with
  | [] => inl []
  | r :: rest =>
      match scan_column r with
      | inr e => inr e
      | inl (colName, dataType, maxLength) =>
          let len := match maxLength with Some n => wrap 32 n | None => 255 end in
          match scan_fields rest with
          | inl l => inl (BuildMySQLFieldPacket colName 0 len :: l)
          | inr e => inr e
          end
      end
  end.

Definition HandleFieldList (a : Answers C) (table : bytes) : M (list Field) :=
  do! ensurePGConn a in
  let! rows := on_pg (pg_query (field_list_sql table) []) in
  match scan_fields (row_values rows) with
  | inl l => iret l
  | inr e => ifail e
  end.

(** The session leaves the manager, which closes it; then the pool releases the
    connection. *)
Definition ch_Close (a : Answers C) : M unit :=
  do! imod (fun s => set_metrics (DecActiveConnections (metrics s)) s) in
  let! s := iget id in
  do! (if bool_decide (ID (session s) ∈ registered s)
       then do! itry (on_session sess_Close) in
            imod (fun s => set_registered (registered s ∖ {[ID (session s)]}) s)
       else iret tt) in
  match ch_pgConn s with
  | None => iret tt
  | Some _ =>
      do! itry (zoom pgPool set_pgPool (ReleaseForSession (closing a) (ID (session s)))) in iret tt
  end.

Definition no_replication : goerror :=
  my_error ER_MASTER_FATAL_ERROR_READING_BINLOG (str "binlog replication not enabled").

(** The position, the server id and the file name of COM_BINLOG_DUMP. *)
Definition parse_binlog_dump (data : bytes) : option (Z * Z * bytes) :=
  if (length data <? 10)%nat then None
  else Some (le_val (take 4 data), le_val (take 4 (drop 6 data)), drop 10 data).

(** The call blocks while the replica's stream lasts. *)
Definition handleBinlogDump (now : Z) (data : bytes) : M unit :=
  let! s := iget id in
  match replServer s with
  | None => ifail no_replication
  | Some srv =>
      match parse_binlog_dump data with
      | None => ifail (my_error ER_MALFORMED_PACKET (str "invalid COM_BINLOG_DUMP packet"))
      | Some (pos, serverID, filename) =>
          let (r, srv') := HandleBinlogDump write_fails now serverID (filename, pos) (Some srv) in
          do! imod (set_replServer srv') in
          match r with
          | DumpReturned r => of_res r
          | DumpBlocked client => ilift Hangs
          end
      end
  end.

(** When the stream of the replica has ended, the call returns nil. *)
Definition dump_returns (client : Z) : M unit :=
  let! s := iget id in
  match replServer s with
  | Some srv =>
      let (r, srv') := stream_ends client srv in
      do! imod (set_replServer (Some srv')) in
      match r with
      | DumpReturned r => of_res r
      | DumpBlocked _ => ilift Hangs
      end
  | None => iret tt
  end.

Definition handleBinlogDumpGTID : M unit :=
  let! s := iget id in
  match replServer s with
  | None => ifail no_replication
  | Some _ => ifail (my_error ER_MASTER_FATAL_ERROR_READING_BINLOG
                       (str "GTID-based replication not supported, please use file-based replication"))
  end.

Definition handleRegisterSlave (data : bytes) : M unit :=
  let! s := iget id in
  match replServer s with
  | None => ifail no_replication
  | Some _ =>
      if (length data <? 4)%nat
      then ifail (my_error ER_MALFORMED_PACKET (str "invalid COM_REGISTER_SLAVE packet"))
      else iret tt
  end.

Inductive command := COM_PING | COM_INIT_DB | COM_QUIT | COM_BINLOG_DUMP | COM_BINLOG_DUMP_GTID
| COM_REGISTER_SLAVE | COM_OTHER (cmd : Z).

Definition HandleOtherCommand (a : Answers C) (cmd : command) (data : bytes) : M unit :=
  match cmd with
  | COM_PING => iret tt
  | COM_INIT_DB => UseDB data
  | COM_QUIT => ch_Close a
  | COM_BINLOG_DUMP => handleBinlogDump (clock a) data
  | COM_BINLOG_DUMP_GTID => handleBinlogDumpGTID
  | COM_REGISTER_SLAVE => handleRegisterSlave data
  | COM_OTHER cmd => ifail (my_error ER_UNKNOWN_COM_ERROR (str "command " ++ dec_Z cmd ++ str " not supported"))
  end.
End handler.
