(* ===== verification/HandlerFacts.v ===== *)
(** * Facts about the protocol handler

    What a query leaves alone (its request is forgotten, other connections are
    untouched), the selected database, prepared statements, transactions driven
    by the texts of a client, and the binlog dump command. *)

From Stdlib Require Import ZArith Lia.
From stdpp Require Import base numbers list strings gmap.
From S2P Require Import Prelude GoStd GoStrings SQLText SQLPasses Rewriter ACL Detector BinlogValue BinlogEvent.
From S2P Require Import PgDriver Mapper Variables ShowEmul ReplAdmin Pool ReqTrack Metrics SchemaCache Session ReplServer HandlerText Handler.
Open Scope Z_scope.
Open Scope io_scope.

(** ** Code that stays within a relation on the state *)

Definition within {S A} (R : relation S) (c : io S A) : Prop := forall s, R s (snd (c s)).

Create HintDb within.

Section within.
Context {S : Type} (R : relation S) `{!PreOrder R}.

Lemma within_ret {A} (a : A) : within R (iret a).
Proof. intros s. reflexivity. Qed.
Lemma within_fail {A} e : within R (@ifail S A e).
Proof. intros s. reflexivity. Qed.
Lemma within_get {A} (f : S -> A) : within R (iget f).
Proof. intros s. reflexivity. Qed.
Lemma within_lift {A} (o : out A) : within R (ilift o).
Proof. intros s. reflexivity. Qed.
Lemma within_mod f : (forall s, R s (f s)) -> within R (imod f).
Proof. intros H s. apply H. Qed.
Lemma within_bind {A B} (c : io S A) (k : A -> io S B) :
  within R c -> (forall a, within R (k a)) -> within R (ibind c k).
Proof.
  intros Hc Hk s. unfold ibind. specialize (Hc s). destruct (c s) as [[a|e| |] s']; cbn in *; try done.
  etrans; [exact Hc | apply Hk].
Qed.
(** The code after [iget id] may use that its argument is the current state. *)
Lemma within_get_bind {B} (k : S -> io S B) : (forall s, R s (snd (k s s))) -> within R (ibind (iget id) k).
Proof. intros Hk s. apply Hk. Qed.
Lemma within_try {A} (c : io S A) : within R c -> within R (itry c).
Proof. intros Hc s. specialize (Hc s). unfold itry. by destruct (c s) as [[] ?]. Qed.
Lemma within_wrapped {A} msg (c : io S A) : within R c -> within R (wrapped msg c).
Proof. intros Hc s. specialize (Hc s). unfold wrapped. by destruct (c s) as [[] ?]. Qed.
Lemma within_if {A} (b : bool) (c d : io S A) : within R c -> within R d -> within R (if b then c else d).
Proof. by destruct b. Qed.
End within.
#[export] Hint Resolve within_ret within_fail within_get within_lift within_mod within_bind within_try within_wrapped
  within_if : within.

Section handler.
Context `{!Unicode} {Stmt : Type} `{!SQLParser Stmt}.
Context {C : Type} `{!PgDriver C, !NumericText, !ResultsetBuilder, !Setup C}.
Abbreviation CH := (Proxy C).

(** Session code that keeps the connection, the id and the statements. *)
Definition kept (v v' : @Session (Line C)) : Prop :=
  ID v' = ID v /\ preparedStmts v' = preparedStmts v /\ (is_Some (pgConn v) -> is_Some (pgConn v')).
Definition tame (op : st (@Session (Line C)) unit) : Prop := forall v, kept v (snd (op v)).

Lemma tame_step cmd msg flag v c :
  kept v (snd ((sbind (wrap_err msg (exec cmd c)) (fun _ => smod (set_InTransaction flag))) v)).
Proof. rewrite exec_step. destruct (Exec c cmd) as [[[]| |] c']; by repeat split; cbn. Qed.

Lemma tame_tx o : tame (tx o).
Proof.
  intros v. destruct o as [| | |b]; cbn [tx];
    unfold BeginTransaction, CommitTransaction, RollbackTransaction, SetAutocommit, sbind at 1, sget, id.
  1-3: destruct (InTransaction v); cbn [negb]; try done; destruct (pgConn v) as [c|]; [apply tame_step | done].
  destruct (eqb (Autocommit v) b); [done |]. unfold sbind at 1, smod at 1.
  destruct (pgConn v) as [c|] eqn:Ec; [|done].
  destruct (b && InTransaction v); [|destruct (negb b && _); [|done]];
    apply (tame_step _ _ _ (set_Autocommit b v) c).
Qed.

(** ** Frames

    What the commands of a client do to the state goes through five kinds of
    primitive steps.  A relation that holds for these holds for the queries,
    whatever their text; it is proved once for every such relation. *)

(** Steps that touch neither the connections nor the shared parts other than
    the schema cache and the variables. *)
Record quiet (s s' : CH) : Prop := mkQuiet {
  quiet_conns : conns s' = conns s;
  quiet_pool : pgPool s' = pgPool s;
  quiet_tracker : tracker s' = tracker s;
  quiet_gauge : ActiveConnections (metrics s') = ActiveConnections (metrics s);
  quiet_registered : registered s' = registered s;
  quiet_replication : replServer s' = replServer s;
  quiet_conn : ch_pgConn s' = ch_pgConn s;
  quiet_id : ID (session s') = ID (session s);
  quiet_statements : preparedStmts (session s') = preparedStmts (session s);
  quiet_session : pgConn (session s') = pgConn (session s)
}.

Class Frame (a : Answers C) (R : relation CH) : Prop := {
  frame_preorder :: PreOrder R;
  frame_env A (c : io (@env C) A) : within R (on_env c);
  frame_op op : tame op -> within R (on_session op);
  frame_acquire : within R (acquire_conn a);
  frame_quiet s s' : quiet s s' -> R s s'
}.

Section frames.
Context (R : relation CH) (a : Answers C) `{!Frame a R}.
Abbreviation stays := (within R).

Lemma stays_env {A} (c : io (@env C) A) : stays (on_env c).
Proof. apply frame_env. Qed.
Lemma stays_pg {A} (c : io C A) : stays (on_pg c).
Proof. apply frame_env. Qed.
Lemma stays_session op : tame op -> stays (on_session op).
Proof. apply frame_op. Qed.
Lemma stays_unknown {A} (c : io CH A) : stays c -> stays (as_unknown c).
Proof. intros Hc s. specialize (Hc s). unfold as_unknown. by destruct (c s) as [[] ?]. Qed.
Lemma stays_mapped {A} (c : io CH A) : stays c -> stays (mapped c).
Proof.
  intros Hc s. specialize (Hc s). unfold mapped. destruct (c s) as [[x|e| |] s']; try done.
  by destruct (MapError (Some e)).
Qed.
Lemma stays_res {A} (r : res A) : stays (of_res r).
Proof. apply within_lift, _. Qed.

(** Assignments to the fields that a query may set. *)
Lemma stays_assign f : (forall s, quiet s (f s)) -> stays (imod f).
Proof. intros Hf. apply within_mod. intros s. apply frame_quiet, Hf. Qed.

Ltac stays_step :=
  first
  [ assumption
  | progress intros
  | match goal with
    | |- within _ (ibind _ _) => apply within_bind; [apply _ | |]
    | |- within _ (match ?x with _ => _ end) => destruct x
    | |- within _ (on_session BeginTransaction) => apply stays_session, (tame_tx TxBegin)
    | |- within _ (on_session CommitTransaction) => apply stays_session, (tame_tx TxCommit)
    | |- within _ (on_session RollbackTransaction) => apply stays_session, (tame_tx TxRollback)
    | |- within _ (on_session (SetAutocommit ?b)) => apply stays_session, (tame_tx (TxAutocommit b))
    | |- within _ (imod _) => apply stays_assign; intros ?; split; cbn; solve [done | auto]
    end
  | apply within_ret, _ | apply within_fail, _ | apply within_get, _ | apply within_lift, _
  | apply within_try | apply within_wrapped | apply stays_unknown | apply stays_mapped
  | apply stays_pg | apply stays_env | apply stays_res ].
Ltac stays := repeat stays_step.

Lemma stays_ensure : stays (ensurePGConn a).
Proof. apply within_bind; [apply _ | apply frame_acquire | intros _]. unfold apply_search_path. stays. Qed.

Lemma stays_use db : stays (UseDB db).
Proof. unfold UseDB. stays. Qed.

Lemma stays_for_each {A} (f : A -> io CH unit) l : (forall x, stays (f x)) -> stays (for_each f l).
Proof. intros Hf. induction l; cbn [for_each]; stays. apply Hf. Qed.

Lemma stays_set query : stays (handleSetCommand query).
Proof.
  unfold handleSetCommand, HandleSetCommand. stays.
  - apply stays_for_each. intros v. unfold set_one, SetVar. stays.
  - apply stays_for_each. intros v. unfold set_text, SetVar. stays.
Qed.

Lemma stays_show query : stays (handleShowCommand query).
Proof. unfold handleShowCommand, build. stays. Qed.
Lemma stays_use_command query : stays (handleUseCommand query).
Proof. unfold handleUseCommand. destruct (Fields query) as [|? [|]]; stays. apply stays_use. Qed.
Lemma stays_database query : stays (handleDatabaseCommand query).
Proof. unfold handleDatabaseCommand. stays. Qed.
Lemma stays_variable query : stays (handleSelectVariable query).
Proof. unfold handleSelectVariable. stays. Qed.
Lemma stays_kill query : stays (handleKillCommand query).
Proof. unfold handleKillCommand. stays. Qed.

Lemma stays_auto_column now t : stays (auto_increment_column now t).
Proof.
  intros s. unfold auto_increment_column. destruct (sess_GetAutoIncrementColumn _ _ _ _ _) as [r c].
  apply frame_quiet. by split.
Qed.

Lemma stays_insert now o sql args : stays (run_insert now o sql args).
Proof. unfold run_insert, of_run. stays. apply stays_auto_column. Qed.

Lemma stays_after_ddl u q : stays (after_ddl u q).
Proof. unfold after_ddl, invalidate, of_run. stays. Qed.

Lemma stays_statement now q sql : stays (run_statement now q sql).
Proof. unfold run_statement, build. stays; [apply stays_insert | apply stays_after_ddl]. Qed.

Lemma stays_rest now q : stays (handle_rest now q).
Proof. unfold handle_rest, of_run_res, of_run. stays; [apply stays_kill | apply stays_statement]. Qed.

Lemma stays_query q : stays (handle_query a q).
Proof.
  unfold handle_query. stays; [apply stays_ensure | apply stays_show | apply stays_set | apply stays_use_command
    | apply stays_database | apply stays_variable | apply stays_rest].
Qed.

Lemma stays_execute id args : stays (HandleStmtExecute a id args).
Proof. unfold HandleStmtExecute, build. stays; [apply stays_ensure | apply stays_insert]. Qed.

Lemma stays_field_list t : stays (HandleFieldList a t).
Proof. unfold HandleFieldList. stays. apply stays_ensure. Qed.
End frames.

(** ** What a query leaves alone *)

(** The handler has its connection [h], which is also its session's. *)
Definition ready (h : nat) (s : CH) : Prop :=
  ch_pgConn s = Some h /\ pgConn (session s) = Some h /\ is_Some (conns s !! h).

(** What a query may not change. *)
Record contained (h : nat) (s s' : CH) : Prop := mkContained {
  same_tracker : tracker s' = tracker s;
  same_registered : registered s' = registered s;
  same_replication : replServer s' = replServer s;
  same_id : ID (session s') = ID (session s);
  same_statements : preparedStmts (session s') = preparedStmts (session s);
  more_sessions : sessionConns (pgPool s) ⊆ sessionConns (pgPool s');
  same_others : ready h s -> ready h s' /\ pgPool s' = pgPool s /\ forall k, k <> h -> conns s' !! k = conns s !! k
}.
#[export] Instance contained_preorder h : PreOrder (contained h).
Proof.
  split.
  - intros s. split; auto.
  - intros s1 s2 s3 [? ? ? ? ? ? Ha] [? ? ? ? ? ? Hb]. split; [congruence.. | by etrans |].
    intros [Hr [Hp Hk]]%Ha. apply Hb in Hr as (Hr & Hp' & Hk'). split; [done |]. split; [congruence |].
    intros k Hne. by rewrite Hk', Hk.
Qed.

Lemma contained_env h {A} (c : io (@env C) A) : within (contained h) (on_env c).
Proof.
  intros s. unfold on_env. destruct (ch_pgConn s) as [k|] eqn:Ek; [|reflexivity].
  destruct (conns s !! k) as [x|] eqn:Ex; [|reflexivity]. destruct (c (x, vars s)) as [r [y v]]. cbn.
  split; [done.. |]. intros (Hc & Hp & Hx). assert (h = k) as -> by congruence.
  split; [split; [done | split; [done |]] | split; [done |]]; cbn.
  - by rewrite lookup_insert_eq.
  - intros j Hj. by rewrite lookup_insert_ne.
Qed.

Lemma contained_op h op : tame op -> within (contained h) (on_session op).
Proof.
  intros Ht s. unfold on_session.
  set (v := retarget (pgConn (session s) ≫= fun h => (fun x => mkLine x false) <$> conns s !! h) (session s)).
  destruct (Ht v) as (Hid & Hps & Hc). destruct (op v) as [r v'] eqn:Eop. cbn [snd] in *.
  destruct (pgConn (session s)) as [k|] eqn:Ek; cbn in v.
  - destruct (pgConn v') as [x|] eqn:Ev; cbn.
    + split; [done | done | done | done | done | done |]. intros (E1 & E2 & E3). assert (h = k) as -> by congruence.
      split; [split; [done | split; [done |]] | split; [done |]]; cbn.
      * by rewrite lookup_insert_eq.
      * intros j Hj. by rewrite lookup_insert_ne.
    + split; [done | done | done | done | done | done |]. intros (E1 & E2 & [x Hx]). assert (h = k) as -> by congruence.
      destruct Hc as [y Hy]; [|done]. unfold v. cbn. rewrite Hx. by eexists.
  - split; [by destruct (pgConn v').. |]. intros (E1 & E2 & E3). congruence.
Qed.

Lemma acquire_grows d acq sid p : sessionConns p ⊆ sessionConns (snd (AcquireForSession d acq sid p)).
Proof.
  unfold AcquireForSession, ibind, iget, id, imod, iret, ifail. destruct (dedicated (mode p)); [|by destruct acq].
  destruct (sessionConns p !! sid) eqn:E; [done |]. destruct d; cbn; try done. by apply insert_subseteq.
Qed.
Lemma contained_acquire h a : within (contained h) (acquire_conn a).
Proof.
  apply within_get_bind. intros s. destruct (ch_pgConn s) as [k|] eqn:Ek; [reflexivity |].
  unfold ibind, zoom. pose proof (acquire_grows (dialled a) (acquired a) (ID (session s)) (pgPool s)) as Hg.
  destruct (AcquireForSession _ _ _ _) as [[conn|e| |] p]; cbn;
    try (split; [done.. | intros (E & _); congruence]).
  destruct (conns s !! conn); (split; [done.. | intros (E & _); congruence]).
Qed.

#[export] Instance contained_frame h a : Frame a (contained h).
Proof.
  split; [apply _ | intros; apply contained_env | apply contained_op | apply contained_acquire |].
  intros s s' [Hc Hp ? ? ? ? Hh ? ? Hs]. split; [done.. | by rewrite Hp |].
  intros (E1 & E2 & E3). unfold ready. rewrite Hc, Hh, Hs. split; [done |]. split; [done |]. intros. done.
Qed.

(** The state in which the body of [HandleQuery] runs. *)
Definition tracked (a : Answers C) (q : bytes) (s : CH) : CH :=
  set_tracker (snd (StartRequest (clock a) (ID (session s)) q (tracker s))) (set_metrics (IncTotalQueries (metrics s)) s).
Lemma HandleQuery_eq a q s :
  HandleQuery a q s =
  match handle_query a q (tracked a q s) with
  | (Hangs, s') => (Hangs, s')
  | (r, s') => (r, set_tracker (EndRequest (wrap 64 (nextID (tracker s) + 1)) (tracker s')) s')
  end.
Proof. done. Qed.

(** C17: A query is tracked exactly while it runs.  Whether it succeeds, fails
    or panics, its request is forgotten and the others are kept; a query that
    hangs stays listed under its own id, with its text. *)
Theorem query_tracked a q s :
  let id := wrap 64 (nextID (tracker s) + 1) in
  requests (tracker s) !! id = None ->
  let out := HandleQuery a q s in
  requests (tracker (snd out)) =
    match fst out with
    | Hangs => <[id := mkRequest id (ID (session s)) (truncateSQL q 500) (clock a) 0]> (requests (tracker s))
    | _ => requests (tracker s)
    end.
Proof.
  intros id Hid out. unfold out. rewrite HandleQuery_eq.
  destruct (stays_query (contained 0) a q (tracked a q s)) as [Ht _ _ _ _ _ _].
  destruct (handle_query a q (tracked a q s)) as [r s'] eqn:E. cbn [snd] in Ht.
  destruct r; cbn; rewrite Ht; cbn; try done; by rewrite delete_insert_id.
Qed.

(** A client only touches its own connection.  When its handler has one, a
    query of any kind leaves it in place, and leaves the pool, every
    other connection, the replication server, the registered sessions and the
    prepared statements as they were, however it ends. *)
Theorem query_isolated h a q s :
  ready h s ->
  let s' := snd (HandleQuery a q s) in
  ready h s' /\ pgPool s' = pgPool s /\ (forall k, k <> h -> conns s' !! k = conns s !! k)
  /\ replServer s' = replServer s /\ registered s' = registered s
  /\ preparedStmts (session s') = preparedStmts (session s).
Proof.
  intros Hr s'. unfold s'. rewrite HandleQuery_eq.
  destruct (stays_query (contained h) a q (tracked a q s)) as [_ Hreg Hrep _ Hps _ Ho].
  destruct (handle_query a q (tracked a q s)) as [r x] eqn:E. cbn [snd] in *.
  destruct (Ho Hr) as (Hr' & Hp & Hk). by destruct r; cbn.
Qed.

(** ** The selected database *)

Section database.
(** A name that PostgreSQL reads as itself when it is not quoted: lower-case
    letters, digits and underscores, not starting with a digit, at most 63
    bytes, and not the word DEFAULT. *)
Definition plain_start (c : Z) : bool := (97 <=? c) && (c <=? 122) || (c =? cUnderscore).
Definition plain_name (db : bytes) : bool :=
  match db with
  | [] => false
  | c :: rest =>
      plain_start c && forallb (fun c => plain_start c || (48 <=? c) && (c <=? 57)) rest
      && (length db <=? 63)%nat && negb (bytes_eqb db (str "default"))
  end.

(** What PostgreSQL documents about SET search_path: with such a name, when it
    succeeds, the name is the search path; without any it is a syntax error. *)
Context (search_path : C -> bytes).
Hypothesis set_path : forall db c n c', plain_name db = true ->
  pg_exec (set_search_path db) [] c = (Val n, c') -> search_path c' = db.
Hypothesis no_path : forall c n c', pg_exec (set_search_path []) [] c <> (Val n, c').

(** [searchPathSet] promises that the connection is in the session's database,
    if that has a plain name. *)
Definition selected (s : CH) : Prop := searchPathSet s = true ->
  exists h c, ch_pgConn s = Some h /\ conns s !! h = Some c
    /\ (plain_name (database_of s) = true -> search_path c = database_of s).

Lemma exec_path db s u s' : on_pg (exec_ (set_search_path db)) s = (Val u, s') ->
  exists h c c', ch_pgConn s = Some h /\ conns s !! h = Some c /\ s' = set_overrides (vars s) (set_conns (<[h := c']> (conns s)) s)
  /\ db <> [] /\ (plain_name db = true -> search_path c' = db).
Proof.
  unfold on_pg, on_env. destruct (ch_pgConn s) as [h|]; [|done]. destruct (conns s !! h) as [c|] eqn:Ec; [|done].
  unfold on_conn, zoom, exec_, ibind. cbn. destruct (pg_exec _ [] c) as [[n|e| |] c'] eqn:Ex; cbn; intros [= _ <-].
  exists h, c, c'. split_and!; try done; [intros ->; by apply (no_path c n c') |]. intros Hdb. by apply (set_path db c n c').
Qed.

Lemma on_pg_flag {A} (c : io C A) s : searchPathSet (snd (on_pg c s)) = searchPathSet s.
Proof.
  unfold on_pg, on_env. destruct (ch_pgConn s); [|done]. destruct (conns s !! _); [|done].
  by destruct (on_conn _ _) as [r x].
Qed.

(** Setting the path and then the flag. *)
Lemma path_then_flag msg db s : searchPathSet s = false -> db = database_of s ->
  let out := (do! wrapped msg (on_pg (exec_ (set_search_path db))) in imod (set_searchPathSet true)) s in
  selected (snd out)
  /\ (fst out = Val tt -> searchPathSet (snd out) = true /\ session (snd out) = session s).
Proof.
  intros Hf Hdb out. unfold out, ibind, wrapped. pose proof (on_pg_flag (exec_ (set_search_path db)) s) as Hfl.
  destruct (on_pg (exec_ (set_search_path db)) s) as [[[]|e| |] s'] eqn:E; cbn in *;
    try (split; [intros Ht; congruence | done]).
  apply exec_path in E as (h & c & c' & Hc & Hh & -> & _ & Hp). split; [|done].
  intros _. exists h, c'. cbn. split; [done |]. split; [by rewrite lookup_insert_eq |].
  subst db. exact Hp.
Qed.

Lemma acquire_flag a s x : selected s -> acquire_conn a s = x -> selected (snd x)
  /\ sDatabase (session (snd x)) = sDatabase (session s).
Proof.
  intros Hs E. unfold acquire_conn, ibind at 1, iget, id in E. destruct (ch_pgConn s) as [h|] eqn:Ec; [by subst |].
  assert (Hf : searchPathSet s = false).
  { destruct (searchPathSet s) eqn:Ef; [|done]. destruct (Hs Ef) as (h & c & Hc & _). congruence. }
  unfold ibind, zoom in E. destruct (AcquireForSession _ _ _ _) as [[conn|e| |] p]; cbn in E; subst x;
    try (split; [intros Ht; cbn in Ht; congruence | done]).
  cbn. destruct (conns _ !! conn); (split; [intros Ht; cbn in Ht; done | done]).
Qed.

Lemma apply_path s x : selected s -> apply_search_path s = x -> selected (snd x)
  /\ (fst x = Val tt -> searchPathSet (snd x) = true /\ session (snd x) = session s).
Proof.
  intros Hs E. unfold apply_search_path, ibind at 1, iget, id in E.
  destruct (searchPathSet s) eqn:Ef; subst x; [done | by apply path_then_flag].
Qed.

Lemma use_path db s x : selected s -> UseDB db s = x -> selected (snd x)
  /\ forall h, ch_pgConn s = Some h -> fst x = Val tt -> sDatabase (session (snd x)) = db
     /\ exists c, ch_pgConn (snd x) = Some h /\ conns (snd x) !! h = Some c /\ (plain_name db = true -> search_path c = db).
Proof.
  intros Hs E. unfold UseDB, ibind at 1, iget, id in E. destruct (InTransaction (session s)); [by subst |].
  unfold ibind at 1, imod at 1 in E. set (s1 := set_searchPathSet false _) in *.
  destruct (ch_pgConn s) as [h|] eqn:Eh; [|by subst]. unfold ibind in E.
  pose proof (on_pg_flag (exec_ (set_search_path db)) s1) as Hfl.
  destruct (on_pg (exec_ (set_search_path db)) s1) as [[[]|e| |] s2] eqn:Ex; subst x; cbn [snd fst] in *;
    try (split; [intros Ht; cbn in Hfl; congruence | done]).
  apply exec_path in Ex as (h' & c & c' & Hc & Hh & -> & Hne & Hp). cbn in Hc.
  assert (h' = h) as -> by congruence.
  assert (Hl : <[h:=c']> (conns s1) !! h = Some (A:=C) c') by (by rewrite lookup_insert_eq).
  split.
  - intros _. exists h, c'. cbn. split; [congruence |]. split; [done |]. unfold database_of. cbn. by destruct db.
  - intros k [= <-] _. split; [done |]. exists c'. cbn. split; [congruence | done].
Qed.

(** C11: The connection works in the client's database.  [ensurePGConn] and
    [UseDB], however they end, keep the promise of [searchPathSet]; after an
    [ensurePGConn] that returns, the search path of the connection is the
    session's database (public when it has none), and after a [UseDB] that
    returns it is the database asked for, if there is a connection.  This is
    for names PostgreSQL reads as they are: both put the name into the
    statement without quotes. *)
Theorem database_selected a db s : selected s ->
  selected (snd (ensurePGConn a s)) /\ selected (snd (UseDB db s))
  /\ (forall s', ensurePGConn a s = (Val tt, s') -> sDatabase (session s') = sDatabase (session s)
       /\ exists h c, ch_pgConn s' = Some h /\ conns s' !! h = Some c
          /\ (plain_name (database_of s) = true -> search_path c = database_of s))
  /\ (forall s' h, UseDB db s = (Val tt, s') -> ch_pgConn s = Some h -> sDatabase (session s') = db
       /\ exists c, ch_pgConn s' = Some h /\ conns s' !! h = Some c /\ (plain_name db = true -> search_path c = db)).
Proof.
  intros Hs. destruct (acquire_flag a s _ Hs eq_refl) as [Ha Hd].
  assert (He : forall x, ensurePGConn a s = x -> selected (snd x)
            /\ (fst x = Val tt -> searchPathSet (snd x) = true /\ sDatabase (session (snd x)) = sDatabase (session s))).
  { intros x <-. unfold ensurePGConn, ibind. destruct (acquire_conn a s) as [[[]|e| |] s1]; cbn [snd fst] in *; try done.
    destruct (apply_path s1 _ Ha eq_refl) as [Hp Hq]. split; [done |]. intros [? ->]%Hq. done. }
  pose proof (use_path db s _ Hs eq_refl) as [Hu1 Hu2].
  destruct (He _ eq_refl) as [Hp Hq]. split; [done |]. split; [done |].
  split; [|intros s' h E Hh; specialize (Hu2 h Hh); rewrite E in Hu2; by apply Hu2].
  intros s' E. rewrite E in *. destruct (Hq eq_refl) as [Hf Hdb]. split; [done |].
  destruct (Hp Hf) as (h & c & Hc & Hh & Hsp). exists h, c. split; [done |]. split; [done |].
  intros Hpl. unfold database_of in *. rewrite Hdb in Hsp. by apply Hsp.
Qed.
End database.
End handler.
