(* ===== verification/HandlerRuns.v ===== *)
(** * Runs of the protocol handler

    Prepared statements (their ids and what happens to them when statements are
    closed), transactions driven by the texts of a client, and COM_BINLOG_DUMP
    from the packet to the replication server. *)

From Stdlib Require Import ZArith Lia.
From stdpp Require Import base numbers list strings gmap.
From S2P Require Import Prelude GoStd GoStrings SQLText SQLPasses Rewriter ACL Detector BinlogValue BinlogEvent.
From S2P Require Import PgDriver Mapper Variables ShowEmul ReplAdmin Pool ReqTrack Metrics SchemaCache Session ReplServer HandlerText Handler.
From S2P Require Import ServerFacts ServerOrder TextFacts HandlerFacts.
Open Scope Z_scope.
Open Scope io_scope.

Section runs.
Context `{!Unicode} {Stmt : Type} `{!SQLParser Stmt}.
Context {C : Type} `{!PgDriver C, !NumericText, !ResultsetBuilder, !Setup C}.
Abbreviation CH := (Proxy C).

(** ** Prepared statements *)

Abbreviation stmts s := (preparedStmts (session s)).

(** What a successful prepare does. *)
Lemma prepare_inv a q s params cols id s' :
  HandleStmtPrepare a q s = (Val (params, cols, id), s') ->
  id = wrap 32 (Z.of_nat (size (stmts s)) + 1)
  /\ exists sql, RewritePrepared rewrite_fuel rewriter q = Ret (Ok (sql, params))
     /\ stmts s' = <[id := mkStmt id sql q [] params [] 0 [] []]> (stmts s).
Proof.
  unfold HandleStmtPrepare. unfold ibind at 1. destruct (stays_ensure (contained 0) a s) as [_ _ _ _ Hps _ _].
  destruct (ensurePGConn a s) as [[[]|e| |] s1] eqn:E1; try done. cbn [snd] in Hps.
  unfold of_run_res, of_run, of_res, ibind, ilift, iget, imod, iret.
  destruct (RewritePrepared _ _ _) as [[[sql n]|m|]| |] eqn:Er; try done. cbn.
  intros [= <- _ <- <-]. unfold GetPreparedStatementCount. rewrite Hps. split; [done |]. exists sql.
  split; [done |]. cbn. by rewrite Hps.
Qed.

(** The ids in use are 1 to [n]. *)
Definition dense (n : nat) (s : CH) : Prop := forall id, is_Some (stmts s !! id) <-> 1 <= id <= Z.of_nat n.

Lemma dense_size n s : dense n s -> size (stmts s) = n.
Proof.
  intros Hd. rewrite <- size_dom.
  assert (dom (stmts s) = list_to_set (seqZ 1 (Z.of_nat n))) as ->.
  { apply set_eq. intros id. rewrite elem_of_dom, elem_of_list_to_set, elem_of_seqZ, (Hd id). lia. }
  rewrite size_list_to_set by apply NoDup_seqZ. rewrite length_seqZ. lia.
Qed.

(** While no statement has been closed, a prepare gives a new id: the
    statements that were there keep their ids and their texts, the new one is
    found under the id the client gets, with the client's text and its
    rewriting, and the ids are again 1 to n. *)
Theorem prepare_fresh n a q s params cols id s' :
  dense n s -> Z.of_nat n + 1 < 2 ^ 32 ->
  HandleStmtPrepare a q s = (Val (params, cols, id), s') ->
  dense (S n) s' /\ GetPreparedStatement id (session s) = None
  /\ (forall k, k <> id -> GetPreparedStatement k (session s') = GetPreparedStatement k (session s))
  /\ exists sql, RewritePrepared rewrite_fuel rewriter q = Ret (Ok (sql, params))
     /\ GetPreparedStatement id (session s') = Some (mkStmt id sql q [] params [] 0 [] []).
Proof.
  intros Hd Hn Hp. apply prepare_inv in Hp as (Hid & sql & Hr & Hs). rewrite (dense_size n) in Hid by done.
  rewrite wrap_id in Hid by (unfold in_width; lia). unfold GetPreparedStatement. rewrite Hs. split; [|split; [|split]].
  - intros k. rewrite Hs. destruct (decide (k = id)) as [->|Hne].
    + rewrite lookup_insert_eq. split; [lia | eauto].
    + rewrite lookup_insert_ne by done. rewrite (Hd k). lia.
  - apply eq_None_not_Some. rewrite (Hd id). lia.
  - intros k Hk. by rewrite lookup_insert_ne.
  - exists sql. by rewrite lookup_insert_eq.
Qed.

(** C16: After a close, a prepare takes the id of a statement that is still
    open.  With statements 1 to n, closing any but the last and preparing
    another one gives the id n, and the statement the client had under
    that id is replaced by the new one. *)
Theorem closed_id_collides n i old a q s s1 params cols id s2 :
  dense n s -> Z.of_nat n < 2 ^ 32 -> 1 <= i < Z.of_nat n ->
  GetPreparedStatement (Z.of_nat n) (session s) = Some old ->
  HandleStmtClose (Some i) s = (Val tt, s1) ->
  HandleStmtPrepare a q s1 = (Val (params, cols, id), s2) ->
  id = Z.of_nat n /\ GetPreparedStatement id (session s1) = Some old
  /\ exists stmt, GetPreparedStatement id (session s2) = Some stmt /\ OriginalSQL stmt = q.
Proof.
  intros Hd Hn Hi Hold Hc Hp. apply prepare_inv in Hp as (Hid & sql & _ & Hs2).
  assert (Hs1 : stmts s1 = delete i (stmts s)).
  { revert Hc. unfold HandleStmtClose, ibind, iget, imod. cbn. unfold GetPreparedStatement.
    destruct (stmts s !! i) eqn:Ei; [by intros [= <-] |].
    assert (is_Some (stmts s !! i)) as [x Hx] by (apply Hd; lia). congruence. }
  assert (Hsize : size (stmts s1) = (n - 1)%nat).
  { rewrite Hs1, map_size_delete_Some by (apply Hd; lia). rewrite (dense_size n) by done. lia. }
  rewrite Hsize in Hid. rewrite wrap_id in Hid by (unfold in_width; lia).
  assert (id = Z.of_nat n) as -> by lia. split; [done |]. unfold GetPreparedStatement in *.
  rewrite Hs1, Hs2, lookup_delete_ne, lookup_insert_eq by lia. eauto.
Qed.

(** With a connection in the right database there is nothing to do. *)
Lemma ensure_connected a s : is_Some (ch_pgConn s) -> searchPathSet s = true -> ensurePGConn a s = (Val tt, s).
Proof.
  intros [h Hc] Hf. unfold ensurePGConn, acquire_conn, apply_search_path, ibind, iget, id, iret. by rewrite Hc, Hf.
Qed.

(** ** INSERT *)

(** An INSERT into a table with an AUTO_INCREMENT column reports one row,
    however many rows PostgreSQL inserted, and the id of the first. *)
Theorem insert_reports_one now original sql args s table column s1 r s' :
  extractInsertTableName original = Ret table ->
  auto_increment_column now table s = (Val column, s1) -> column <> [] ->
  Contains (toUpper sql) (str "RETURNING") = false ->
  run_insert now original sql args s = (Val r, s') ->
  AffectedRows r = 1 /\ exists rows, on_pg (pg_query (sql ++ str " RETURNING " ++ column) args) s1 = (Val rows, s')
    /\ InsertId r = returned_id rows.
Proof.
  intros Et Ec Hne Hc. unfold run_insert, ibind, of_run. rewrite Et. cbn -[auto_increment_column str]. rewrite Ec, Hc.
  assert (bytes_eqb column [] = false) as -> by (by destruct column). cbn -[str]. unfold mapped.
  destruct (on_pg _ s1) as [[rows|e| |] s2]; [|by destruct (MapError (Some e)) |done..].
  intros [= <- <-]. split; [done |]. by exists rows.
Qed.

(** ** Transactions *)

(** The texts a client sends. *)
Definition tx_text (o : txop) : bytes :=
  match o with
  | TxBegin => str "BEGIN"
  | TxCommit => str "COMMIT"
  | TxRollback => str "ROLLBACK"
  | TxAutocommit b => if b then str "SET autocommit = 1" else str "SET autocommit = 0"
  end.

Section transactions.
Context (in_tx : C -> bool) `{!PgConnLaws (Line C) (fun c => in_tx (line c))}.
(** What the parser has to say about the text of [o]. *)
Definition reads_tx (o : txop) : Prop :=
  first_stmt (tx_text o) =
  match o with
  | TxAutocommit b =>
      Ok (Some (SetStmt [mkAssign (str "autocommit") false true (Some (OtherExpr (Ok (if b then str "1" else str "0"))))]))
  | _ => Ok (Some OtherStmt)
  end.

(** The handler has a connection, in the right database, and its session has
    the same one. *)
Definition connected (s : CH) : Prop := searchPathSet s = true /\
  exists h, ch_pgConn s = Some h /\ pgConn (session s) = Some h /\ is_Some (conns s !! h).

(** Its session agrees with PostgreSQL about the transaction. *)
Definition in_step (s : CH) : Prop := searchPathSet s = true /\
  exists h c, ch_pgConn s = Some h /\ pgConn (session s) = Some h /\ conns s !! h = Some c
  /\ in_tx c = InTransaction (session s).
Lemma in_step_connected s : in_step s -> connected s.
Proof. intros (Hf & h & c & Hc & Hp & Hh & _). split; [done |]. exists h. split_and!; [done | done | by eexists]. Qed.

Lemma session_tx_view o s s' : connected s -> on_session (tx o) s = (Val tt, s') ->
  connected s' /\ Session.view (session s') = tx_spec o (Session.view (session s)).
Proof.
  intros (Hf & h & Hc & Hp & c & Hh). unfold on_session. rewrite Hp. cbn [mbind option_bind]. rewrite Hh.
  cbn [fmap option_fmap option_map]. set (v := retarget (Some (mkLine c false)) (session s)). destruct (tx o v) as [r v'] eqn:E.
  destruct r as [[]|m|]; [|done | by destruct (from_option _ _ _)]. intros [= <-].
  destruct (tx_view o v v') as [[c' Hc'] Hv]; [by eexists | done |].
  rewrite Hc'. split; [|exact Hv]. split; [done |]. exists h. cbn. rewrite lookup_insert_eq. split_and!; [done | done | by eexists].
Qed.

Lemma session_tx o s s' : in_step s -> on_session (tx o) s = (Val tt, s') -> in_step s'.
Proof.
  intros (Hf & h & c & Hc & Hp & Hh & Ht). unfold on_session. rewrite Hp. cbn [mbind option_bind]. rewrite Hh.
  cbn [fmap option_fmap option_map]. set (v := retarget (Some (mkLine c false)) (session s)). destruct (tx o v) as [r v'] eqn:E.
  destruct r as [[]|m|]; [|done | by destruct (from_option _ _ _)]. intros [= <-].
  destruct (tx_refines (fun c => in_tx (line c)) o v v') as [(c' & Hc' & Ht') Hv]; [by exists (mkLine c false) | done |].
  rewrite Hc'. split; [done |]. exists h, (line c'). cbn. by rewrite lookup_insert_eq.
Qed.

Lemma tx_kind o :
  IsShowStatement (tx_text o) = false
  /\ IsSetStatement (tx_text o) = match o with TxAutocommit _ => true | _ => false end
  /\ IsUseStatement (tx_text o) = false /\ isDatabaseStatement (tx_text o) = false
  /\ IsBeginStatement (tx_text o) = match o with TxBegin => true | _ => false end
  /\ IsCommitStatement (tx_text o) = match o with TxCommit => true | _ => false end
  /\ IsRollbackStatement (tx_text o) = match o with TxRollback => true | _ => false end.
Proof. destruct o as [| | |[]]; repeat split; vm_compute; reflexivity. Qed.

Definition on_off (b : bool) : bytes := if b then str "1" else str "0".
Lemma parsed_set b : reads_tx (TxAutocommit b) -> ParseSet (tx_text (TxAutocommit b))
  = Ok (Some [mkSetVar (str "autocommit") (on_off b) false true]).
Proof. intros Hp. unfold ParseSet. unfold reads_tx in Hp. rewrite Hp. by destruct b. Qed.

Lemma set_autocommit b s : set_one (mkSetVar (str "autocommit") (on_off b) false true) s
  = (do! as_unknown (on_session (SetAutocommit b)) in SetVar (str "autocommit") (VString (on_off b))) s.
Proof.
  unfold set_one. cbn [sv_IsGlobal sv_Name sv_Value].
  replace (bytes_eqb (toLower (str "autocommit")) (str "autocommit")) with true by (vm_compute; reflexivity).
  by replace (truthy (on_off b)) with b by (destruct b; vm_compute; reflexivity).
Qed.

(** A statement of the client reaches the session. *)
Lemma dispatch o a s r s' : reads_tx o -> connected s -> handle_query a (tx_text o) s = (Val r, s') ->
  exists s1, on_session (tx o) s = (Val tt, s1)
  /\ (s' = s1 \/ exists n v, s' = set_session (SetSessionVar n v (session s1)) s1).
Proof.
  intros Hr Hs. unfold handle_query. unfold ibind at 1. rewrite (ensure_connected a s) by (destruct Hs as (? & h & ? & _); eauto).
  assert (Hsel : (forall b, o <> TxAutocommit b) -> handleSelectVariable (tx_text o) s = (Val None, s)).
  { intros Hb. unfold handleSelectVariable, ParseSelectVariable. rewrite Hr. by destruct o as [| | |b]; [.. | destruct (Hb b)]. }
  assert (Hfin : forall s2, (do! as_unknown (on_session (tx o)) in iret ok_result) s = (Val r, s2) ->
            on_session (tx o) s = (Val tt, s2)).
  { intros s2. unfold ibind, as_unknown. by destruct (on_session (tx o) s) as [[[]|e| |] s3]; intros [= _ <-]. }
  destruct (tx_kind o) as (-> & -> & -> & -> & Eb & Ec & Er). destruct o as [| | |b].
  1-3: unfold ibind at 1; rewrite Hsel by done; rewrite ?Eb, ?Ec, ?Er;
       intros E; exists s'; split; [by apply Hfin | by left].
  unfold handleSetCommand, ibind at 1, of_res, ilift. rewrite parsed_set by done. cbn [for_each].
  unfold ibind at 1 2. rewrite set_autocommit. unfold ibind, as_unknown.
  change (SetAutocommit b) with (tx (TxAutocommit b)).
  destruct (on_session (tx (TxAutocommit b)) s) as [[[]|e| |] s1]; try done.
  cbn. intros [= _ <-]. exists s1. split; [done |]. right. by eexists _, _.
Qed.

Lemma query_tx o a s r s' : reads_tx o -> in_step s -> HandleQuery a (tx_text o) s = (Val r, s') ->
  in_step s' /\ Session.view (session s') = tx_spec o (Session.view (session s)).
Proof.
  intros Hr Hs. rewrite HandleQuery_eq.
  destruct (handle_query a (tx_text o) (tracked a (tx_text o) s)) as [[v|e| |] s1] eqn:E; try done.
  intros [= -> <-]. assert (Ht : in_step (tracked a (tx_text o) s)) by exact Hs.
  destruct (dispatch o a (tracked a (tx_text o) s) r s1 Hr (in_step_connected _ Ht) E) as (s2 & E2 & Hs').
  pose proof (session_tx o _ _ Ht E2) as Hin. destruct (session_tx_view o _ _ (in_step_connected _ Ht) E2) as [_ Hv].
  by destruct Hs' as [->|(n & w & ->)].
Qed.

(** The statements of a client, one after the other, while they succeed. *)
Fixpoint serve (queries : list (Answers C * bytes)) : io CH unit :=
  match queries with
  | [] => iret tt
  | (a, q) :: rest => do! HandleQuery a q in serve rest
  end.

(** The transactions of a client are PostgreSQL's.  Whatever sequence of
    BEGIN, COMMIT, ROLLBACK and SET autocommit statements a client sends, if
    none is answered with an error, the session ends in the state that the
    proxy's rules give, and its PostgreSQL connection is in a transaction exactly
    when the session says so. *)
Theorem client_transactions (script : list (Answers C * txop)) s s' : (forall o, reads_tx o) -> in_step s ->
  serve (prod_map id tx_text <$> script) s = (Val tt, s') ->
  in_step s' /\ Session.view (session s')
                = fold_left (fun v o => tx_spec o v) (snd <$> script) (Session.view (session s)).
Proof.
  intros Hr. revert s; induction script as [|[a o] script IH]; intros s Hs; cbn [fmap list_fmap serve].
  - by intros [= <-].
  - cbn [prod_map fst snd]. unfold ibind. destruct (HandleQuery _ (tx_text o) s) as [[r|e| |] s1] eqn:E; try done.
    destruct (query_tx _ _ _ _ _ (Hr o) Hs E) as [Hin Hv]. intros Hrun. cbn [fold_left]. rewrite <- Hv. by apply IH.
Qed.
End transactions.

(** ** A parser that panics *)

(** C18: A panic of the SQL parser ends the process.  The rewriter recovers from
    it, but [HandleQuery] first asks for the variables of a SELECT: on a
    handler with a connection, every statement the parser panics on, other than
    SHOW, SET, USE and CREATE or DROP DATABASE, is a panic of the handler. *)
Theorem parser_panic_kills a q s h :
  ch_pgConn s = Some h -> searchPathSet s = true -> Parse q = Panic ->
  IsShowStatement q = false -> IsSetStatement q = false -> IsUseStatement q = false ->
  isDatabaseStatement q = false ->
  fst (HandleQuery a q s) = Died
  /\ (Contains q [cUnderscore] = false -> forall fuel, ast_Rewrite fuel NewASTRewriter q = Ret recovered).
Proof.
  intros Hc Hf Hp Hsh Hst Hus Hdb. split.
  - rewrite HandleQuery_eq. unfold handle_query, ibind at 1. rewrite ensure_connected by (cbn; eauto).
    rewrite Hsh, Hst, Hus, Hdb. unfold ibind at 1.
    unfold handleSelectVariable, ParseSelectVariable, first_stmt. by rewrite Hp.
  - intros Hu fuel. unfold ast_Rewrite, ast_pipeline, preProcessCharsetPrefixes. cbn [ast_enabled NewASTRewriter negb].
    rewrite Hu. cbn [negb]. by rewrite Hp.
Qed.

(** ** COM_BINLOG_DUMP *)

(** The packet of a replica: position, flags, server id and file name. *)
Definition dump_packet (pos flags serverID : Z) (filename : bytes) : bytes :=
  le_bytes 4 pos ++ le_bytes 2 flags ++ le_bytes 4 serverID ++ filename.

Lemma parse_dump_packet pos flags serverID filename : 0 <= pos < 2 ^ 32 -> 0 <= serverID < 2 ^ 32 ->
  parse_binlog_dump (dump_packet pos flags serverID filename) = Some (pos, serverID, filename).
Proof.
  intros Hp Hs. unfold parse_binlog_dump, dump_packet.
  destruct (Nat.ltb_spec (length (le_bytes 4 pos ++ le_bytes 2 flags ++ le_bytes 4 serverID ++ filename)) 10)
    as [Hl|_]; [rewrite !length_app, !le_bytes_length in Hl; lia |].
  rewrite (take_app_length' (le_bytes 4 pos)) by (by rewrite le_bytes_length). rewrite le_val_bytes, wrap_id by done.
  assert (drop 6 (le_bytes 4 pos ++ le_bytes 2 flags ++ le_bytes 4 serverID ++ filename)
          = le_bytes 4 serverID ++ filename) as -> by done.
  rewrite (take_app_length' (le_bytes 4 serverID)) by (by rewrite le_bytes_length). by rewrite le_val_bytes, wrap_id.
Qed.

Lemma dump_outcome now pos flags slave filename s srv :
  0 <= pos < 2 ^ 32 -> 0 <= slave < 2 ^ 32 -> replServer s = Some srv ->
  let i := wrap 32 (nextClientID srv + 1) in
  exists fde, format_description_event now srv = Ok fde /\
  handleBinlogDump now (dump_packet pos flags slave filename) s =
  if write_fails i 0
  then (Fail (OtherError (str "failed to send format description: write failed")),
        set_replServer (Some (set_clients (delete i (clients srv)) (set_nextClientID i srv))) s)
  else (Hangs, set_replServer (Some (set_clients (<[i := mkClient i slave (filename, pos) 0 2 [packet_of 1 fde] 1]> (clients srv))
                                     (set_nextClientID i srv))) s).
Proof.
  intros Hp Hs Hr i. rewrite format_description_layout. eexists. split; [done |].
  unfold handleBinlogDump, ibind at 1, iget, id. rewrite Hr, parse_dump_packet by done.
  unfold HandleBinlogDump, register_client, sendFormatDescriptionEvent. fold i.
  rewrite format_description_layout. unfold sendBinlogPacketToClient, take_number, write_packet.
  cbn [cl_ID attempts cl_ServerID cl_Position EventsSent seqNum sent]. destruct (write_fails i 0).
  - unfold ibind, imod, of_res, ilift, removeDumpClient. cbn [clients set_clients set_nextClientID upd].
    rewrite delete_insert_eq. f_equal.
  - unfold ibind, imod, ilift. unfold set_clients at 1. cbn [clients set_clients set_nextClientID upd].
    by rewrite insert_insert_eq.
Qed.

End runs.
