(* ===== verification/Connection.v ===== *)
(** * A client's connection, from accept to disconnect

    The goroutine of [cmd/aproxy/main.go] that serves one client: a
    [ConnectionHandler], then one command after the other until the client is
    gone.  go-mysql reads the commands and writes the answers, so an error of
    the handler goes to the client and the loop goes on. *)

From Stdlib Require Import ZArith Lia.
From stdpp Require Import base numbers list strings gmap.
From S2P Require Import Prelude GoStd GoStrings SQLText SQLPasses Rewriter ACL Detector BinlogValue BinlogEvent.
From S2P Require Import PgDriver Mapper Variables ShowEmul ReplAdmin Pool ReqTrack Metrics SchemaCache Session ReplServer HandlerText Handler.
From S2P Require Import ServerFacts ServerOrder TextFacts HandlerFacts HandlerRuns.
Open Scope Z_scope.
Open Scope io_scope.

(** The calls go-mysql makes for the commands of a client. *)
Inductive client_call :=
| CallUseDB (dbName : bytes)
| CallQuery (query : bytes)
| CallFieldList (table : bytes)
| CallPrepare (query : bytes)
| CallExecute (id : option Z) (args : list GoValue)
| CallStmtClose (id : option Z)
| CallOther (cmd : command) (data : bytes).

Section connection.
Context `{!Unicode} {Stmt : Type} `{!SQLParser Stmt}.
Context {C : Type} `{!PgDriver C, !NumericText, !ResultsetBuilder, !Setup C}.
Abbreviation CH := (Proxy C).

Definition run_call (a : Answers C) (c : client_call) : io CH unit :=
  match c with
  | CallUseDB db => UseDB db
  | CallQuery q => do! HandleQuery a q in iret tt
  | CallFieldList t => do! HandleFieldList a t in iret tt
  | CallPrepare q => do! HandleStmtPrepare a q in iret tt
  | CallExecute id args => do! HandleStmtExecute a id args in iret tt
  | CallStmtClose id => HandleStmtClose id
  | CallOther cmd data => HandleOtherCommand a cmd data
  end.

(** The loop; a panic ends the process. *)
Fixpoint command_loop (calls : list (Answers C * client_call)) : io CH unit :=
  match calls with
  | [] => iret tt
  | (a, c) :: rest => do! itry (run_call a c) in command_loop rest
  end.

Definition serve_client (host uuid : bytes) (now : Z) (calls : list (Answers C * client_call)) : io CH unit :=
  do! imod (NewConnection host uuid now) in command_loop calls.

(** * Properties *)

(** ** Frames of calls

    The other calls also keep books: the request tracker, the prepared
    statements and the replicas.  A frame that allows this holds for every call
    but COM_QUIT. *)
Record bookkept (s s' : CH) : Prop := mkBookkept {
  kept_conns : conns s' = conns s;
  kept_pool : pgPool s' = pgPool s;
  kept_registered : registered s' = registered s;
  kept_gauge : ActiveConnections (metrics s') = ActiveConnections (metrics s);
  kept_conn : ch_pgConn s' = ch_pgConn s;
  kept_id : ID (session s') = ID (session s);
  kept_session : pgConn (session s') = pgConn (session s)
}.
Lemma quiet_bookkept s s' : quiet s s' -> bookkept s s'.
Proof. by intros []. Qed.

Class CallFrame (a : Answers C) (R : relation CH) : Prop := {
  call_preorder :: PreOrder R;
  call_env A (c : io (@env C) A) : within R (on_env c);
  call_op op : tame op -> within R (on_session op);
  call_acquire : within R (acquire_conn a);
  call_bookkept s s' : bookkept s s' -> R s s'
}.
#[export] Instance call_frame a R `{!CallFrame a R} : Frame a R.
Proof.
  split; [apply _ | intros; apply call_env | apply call_op | apply call_acquire |].
  intros s s' ?%quiet_bookkept. by apply call_bookkept.
Qed.

(** A call other than COM_QUIT. *)
Definition stays_connected (c : client_call) : Prop :=
  match c with CallOther COM_QUIT _ => False | _ => True end.

Section calls.
Context (R : relation CH) (a : Answers C) `{!CallFrame a R}.

Lemma call_mod f : (forall s, bookkept s (f s)) -> within R (imod f).
Proof. intros Hf. apply within_mod. intros s. apply call_bookkept, Hf. Qed.

Lemma call_query q : within R (HandleQuery a q).
Proof.
  intros s. rewrite HandleQuery_eq. pose proof (stays_query R a q (tracked a q s)) as Hq.
  destruct (handle_query a q (tracked a q s)) as [r s1]. cbn in Hq.
  assert (R s s1) as Hs1 by (etrans; [|exact Hq]; by apply call_bookkept).
  by destruct r; cbn; try done; (etrans; [exact Hs1 | by apply call_bookkept]).
Qed.

Lemma call_prepare q : within R (HandleStmtPrepare a q).
Proof.
  apply within_bind; [apply _ | apply (stays_ensure R a) | intros _].
  apply within_bind; [apply _ | apply within_bind; [apply _ | apply within_lift, _ | intros; apply within_lift, _] | intros p].
  apply within_bind; [apply _ | apply within_get, _ | intros s].
  apply within_bind; [apply _ | by apply call_mod | intros; apply within_ret, _].
Qed.

Lemma call_dump now data : within R (handleBinlogDump now data).
Proof.
  apply within_bind; [apply _ | apply within_get, _ | intros s]. destruct (replServer s) as [srv|]; [|apply within_fail, _].
  destruct (parse_binlog_dump data) as [[[pos sid] file]|]; [|apply within_fail, _].
  destruct (HandleBinlogDump _ _ _ _ _) as [r srv'].
  apply within_bind; [apply _ | by apply call_mod | intros _]. destruct r; apply within_lift, _.
Qed.

Lemma call_other cmd data : cmd <> COM_QUIT -> within R (HandleOtherCommand a cmd data).
Proof.
  intros Hq. destruct cmd; cbn [HandleOtherCommand]; try done; try (apply within_fail, _).
  - apply within_ret, _.
  - apply (stays_use R a).
  - apply call_dump.
  - apply within_bind; [apply _ | apply within_get, _ | intros s]. destruct (replServer s); apply within_fail, _.
  - apply within_bind; [apply _ | apply within_get, _ | intros s]. destruct (replServer s); [|apply within_fail, _].
    apply within_if; [apply within_fail, _ | apply within_ret, _].
Qed.

Lemma call_stmt_close id : within R (HandleStmtClose id).
Proof.
  destruct id as [id|]; [|apply within_fail, _]. apply within_bind; [apply _ | apply within_get, _ | intros s].
  destruct (GetPreparedStatement id (session s)); [by apply call_mod | apply within_ret, _].
Qed.

Lemma call_within c : stays_connected c -> within R (run_call a c).
Proof.
  intros Hc. destruct c; cbn [run_call]; try (apply within_bind; [apply _ | | intros; apply within_ret, _]).
  - apply (stays_use R a).
  - apply call_query.
  - apply stays_field_list, _.
  - apply call_prepare.
  - apply stays_execute, _.
  - apply call_stmt_close.
  - apply call_other. by intros ->.
Qed.
End calls.

(** ** Sessions that outlive their clients *)

(** Sessions that are registered, and dedicated connections of the pool, stay. *)
Definition held (s s' : CH) : Prop :=
  registered s ⊆ registered s' /\ ID (session s') = ID (session s)
  /\ sessionConns (pgPool s) ⊆ sessionConns (pgPool s').
#[export] Instance held_preorder : PreOrder held.
Proof.
  split; [done |]. intros s1 s2 s3 (? & ? & ?) (? & ? & ?). split; [by etrans |]. split; [congruence | by etrans].
Qed.
Lemma contained_held h s s' : contained h s s' -> held s s'.
Proof. intros [_ Hr _ Hi _ Hp _]. split; [by rewrite Hr |]. by split. Qed.

#[export] Instance held_frame a : CallFrame a held.
Proof.
  split; [apply _ | intros A c s; eapply contained_held, (contained_env 0) |
    intros op Ht s; by eapply contained_held, (contained_op 0) | intros s; eapply contained_held, (contained_acquire 0) |].
  intros s s' [_ Hp Hr _ _ Hi _]. split; [by rewrite Hr |]. by rewrite Hp.
Qed.

Lemma holds_loop calls : Forall (fun c => stays_connected (snd c)) calls -> within held (command_loop calls).
Proof.
  induction 1 as [|[a c] calls Hc Hl IH]; cbn [command_loop]; [apply within_ret, _ |].
  apply within_bind; [apply _ | apply within_try; by apply (call_within held a) | done].
Qed.

(** Only COM_QUIT ends a session.  When the goroutine of a client returns
    after any other calls, whatever came of them, the session is still
    registered, and a dedicated connection that the pool gave it on the way
    is still in the pool. *)
Theorem session_outlives_client host uuid now calls1 calls2 s :
  Forall (fun c => stays_connected (snd c)) (calls1 ++ calls2) ->
  let mid := snd (serve_client host uuid now calls1 s) in
  let s' := snd (command_loop calls2 mid) in
  uuid ∈ registered s' /\ ID (session s') = uuid
  /\ forall conn, sessionConns (pgPool mid) !! uuid = Some conn -> sessionConns (pgPool s') !! uuid = Some conn.
Proof.
  intros [Hc1 Hc2]%Forall_app mid s'.
  assert (Hm : held (NewConnection host uuid now s) mid) by (apply holds_loop; done).
  assert (Hs : held mid s') by (apply holds_loop; done).
  destruct Hm as (Hr & Hi & _), Hs as (Hr' & Hi' & Hp'). split; [|split].
  - apply Hr', Hr. cbn. set_solver.
  - by rewrite Hi', Hi.
  - intros conn Hc. by apply (lookup_weaken _ _ _ _ Hc).
Qed.
End connection.

(** ** Witnesses

    A PostgreSQL connection that knows its search path, whether it is in a
    transaction, and the statements it ran; and a parser that knows the SET
    autocommit statements. *)
Record ToyPG := mkToyPG { tp_path : bytes; tp_tx : bool; tp_log : list bytes }.

Definition toy_exec (sql : bytes) (c : ToyPG) : out Z * ToyPG :=
  if bytes_eqb sql BEGIN then (Val 0, mkToyPG (tp_path c) true (tp_log c))
  else if bytes_eqb sql COMMIT || bytes_eqb sql ROLLBACK then (Val 0, mkToyPG (tp_path c) false (tp_log c))
  else if has_prefix (str "SET search_path TO ") sql then
    match drop 19 sql with
    | [] => (Fail (OtherError (str "syntax error")), c)
    | db => (Val 0, mkToyPG db (tp_tx c) (tp_log c))
    end
  else (Val 1, mkToyPG (tp_path c) (tp_tx c) (tp_log c ++ [sql])).

Definition toy_driver : PgDriver ToyPG := {|
  pg_exec sql args := toy_exec sql;
  pg_query sql args := fun c => (Val (mkRows [] [] None), mkToyPG (tp_path c) (tp_tx c) (tp_log c ++ [sql]));
  pg_close := fun c => (Val tt, c);
  query_string sql := fun c => (Val [], c);
  query_bool sql := fun c => (Val false, c);
  scan_int64 r := inl 1;
  scan_column r := inl ([], [], None)
|}.

Definition toy_parser : SQLParser bytes := {|
  Parse sql := Ok [sql];
  Accept v s := Some (v, s);
  Restore s := Ok s;
  Rewriter.view sql :=
    let set b := SetStmt [mkAssign (str "autocommit") false true (Some (OtherExpr (Ok b)))] in
    if bytes_eqb sql (str "SET autocommit = 1") then set (str "1")
    else if bytes_eqb sql (str "SET autocommit = 0") then set (str "0")
    else OtherStmt
|}.

Definition toy_setup : Setup ToyPG := {|
  rewriter := NewRewriter true;
  rewrite_fuel := 1000;
  fold_runes := fun _ _ => false;
  ParseACL := fun _ => Err [];
  catalog_of := fun _ => sample_db;
  local_offset := fun _ => 0;
  fmt_struct := fun _ => [];
  my_text := fun _ m => m;
  write_fails := fun _ _ => false
|}.

Section witnesses.
#[local] Existing Instances ascii_tables toy_parser toy_driver no_numerics text_builder toy_setup.

Definition new_pg : ToyPG := mkToyPG (str "public") false [].
Definition toy_answers : Answers ToyPG :=
  mkAnswers ToyPG 7 (Connected 1) (inl 1%nat) new_pg None.
(** A proxy whose client has connection 1; connection 2 is another client's. *)
Definition toy_proxy : Proxy ToyPG :=
  mkProxy ToyPG
    (SetPGConn (Some 1%nat) (NewSession (str "id") 0 0 (str "u") (str "shop") (str "h")))
    (Some 1%nat) true {[1%nat := mkToyPG (str "shop") false []; 2%nat := new_pg]}
    (mkPool ModeSessionAffinity {[str "id" := 1%nat]} {[1%nat]} [] false)
    (NewCache 5) ∅ NewTracker zero_metrics {[str "id"]} None.

Lemma toy_ready : ready 1 toy_proxy.
Proof. split; [done |]. split; [done |]. by eexists. Qed.

Lemma query_tracked_witness :
  requests (tracker (snd (HandleQuery toy_answers (str "SELECT 1") toy_proxy))) = ∅.
Proof. refine (query_tracked toy_answers (str "SELECT 1") toy_proxy _). reflexivity. Defined.

Lemma query_isolated_witness :
  conns (snd (HandleQuery toy_answers (str "DELETE FROM t") toy_proxy)) !! 2%nat = Some new_pg.
Proof.
  destruct (query_isolated 1 toy_answers (str "DELETE FROM t") toy_proxy toy_ready) as (_ & _ & Ho & _).
  rewrite Ho by done. reflexivity.
Defined.

Lemma toy_path db c n c' : plain_name db = true -> pg_exec (set_search_path db) [] c = (Val n, c') -> tp_path c' = db.
Proof.
  intros _. cbn. unfold toy_exec. cbn [bytes_eqb]. change (has_prefix _ _) with true. cbn.
  destruct db; [done |]. by intros [= <- <-].
Qed.
Lemma toy_no_path c n c' : pg_exec (set_search_path []) [] c <> (Val n, c').
Proof. discriminate. Qed.

Lemma database_selected_witness :
  exists c, conns (snd (UseDB (str "crm") toy_proxy)) !! 1%nat = Some c /\ tp_path c = str "crm".
Proof.
  destruct (database_selected tp_path toy_path toy_no_path toy_answers (str "crm") toy_proxy) as (_ & _ & _ & Hu).
  { intros _. by eexists _, _. }
  destruct (Hu (snd (UseDB (str "crm") toy_proxy)) 1%nat) as (_ & c & _ & Hc & Hp); [reflexivity | reflexivity |].
  exists c. split; [exact Hc | apply Hp; reflexivity].
Defined.

(** The state after two prepares. *)
Definition prepared2 : Proxy ToyPG :=
  snd ((do! HandleStmtPrepare toy_answers (str "SELECT a") in HandleStmtPrepare toy_answers (str "SELECT b")) toy_proxy).

Definition toy_stmt (id : Z) (sql : bytes) : PreparedStatement := mkStmt id sql sql [] 0 [] 0 [] [].

Lemma prepared2_dense : dense 2 prepared2.
Proof.
  intros id. replace (preparedStmts (session prepared2))
    with (<[2 := toy_stmt 2 (str "SELECT b")]> {[1 := toy_stmt 1 (str "SELECT a")]} : gmap Z PreparedStatement)
    by (vm_compute; reflexivity).
  split.
  - intros [x [[<- _]|[_ [<- _]%lookup_singleton_Some]]%lookup_insert_Some]; lia.
  - intros Hi. destruct (decide (id = 2)) as [->|H2]; [by eexists |]. assert (id = 1) as -> by lia. by eexists.
Qed.

Lemma prepare_fresh_witness :
  exists sql, GetPreparedStatement 3 (session (snd (HandleStmtPrepare toy_answers (str "SELECT ?") prepared2)))
    = Some (mkStmt 3 sql (str "SELECT ?") [] 1 [] 0 [] []).
Proof.
  destruct (prepare_fresh 2 toy_answers (str "SELECT ?") prepared2 1 1 3
              (snd (HandleStmtPrepare toy_answers (str "SELECT ?") prepared2)))
    as (_ & _ & _ & sql & _ & Hs); [apply prepared2_dense | lia | vm_compute; reflexivity |].
  by exists sql.
Defined.

Lemma closed_id_collides_witness :
  let s1 := snd (HandleStmtClose (Some 1) prepared2) in
  let s2 := snd (HandleStmtPrepare toy_answers (str "SELECT c") s1) in
  GetPreparedStatement 2 (session s1) = Some (toy_stmt 2 (str "SELECT b"))
  /\ exists stmt, GetPreparedStatement 2 (session s2) = Some stmt /\ OriginalSQL stmt = str "SELECT c".
Proof.
  intros s1 s2.
  destruct (closed_id_collides 2 1 (toy_stmt 2 (str "SELECT b")) toy_answers (str "SELECT c") prepared2 s1 0 1 2 s2)
    as (_ & H1 & H2); [apply prepared2_dense | lia | lia | vm_compute; reflexivity.. | done].
Defined.

#[local] Instance toy_tx_laws : PgConnLaws (Line ToyPG) (fun c => tp_tx (line c)).
Proof. split; intros c *; intros E; vm_compute in E; by simplify_eq. Qed.

Lemma toy_in_step : in_step tp_tx toy_proxy.
Proof. split; [done |]. by eexists _, _. Qed.

Lemma client_transactions_witness :
  let script := (pair toy_answers) <$> [TxAutocommit false; TxCommit; TxBegin; TxRollback; TxBegin] in
  let s' := snd (serve (prod_map id tx_text <$> script) toy_proxy) in
  Session.view (session s') = mkTx false true /\ in_step tp_tx s'.
Proof.
  intros script s'.
  destruct (client_transactions tp_tx) with (script := script) (s := toy_proxy) (s' := s') as [Hs Hv].
  - by intros [| | |[]].
  - apply toy_in_step.
  - vm_compute. reflexivity.
  - split; [exact Hv | exact Hs].
Defined.


Lemma session_outlives_client_witness :
  let calls := [(toy_answers, CallQuery (str "SELECT 1")); (toy_answers, CallUseDB (str "crm"))] in
  str "new" ∈ registered (snd (command_loop calls (snd (serve_client (str "h") (str "new") 3 calls toy_proxy)))).
Proof.
  intros calls. apply (session_outlives_client (str "h") (str "new") 3 calls calls toy_proxy).
  repeat constructor.
Defined.

Lemma insert_reports_one_witness :
  let q := str "INSERT INTO users (name) VALUES (1), (2)" in
  AffectedRows (match fst (run_insert 7 q q [] toy_proxy) with Val r => r | _ => ok_result end) = 1.
Proof.
  intros q. set (r := match fst (run_insert 7 q q [] toy_proxy) with Val r => r | _ => ok_result end).
  apply (insert_reports_one 7 q q [] toy_proxy (str "users") (str "id")
           (snd (auto_increment_column 7 (str "users") toy_proxy)) r (snd (run_insert 7 q q [] toy_proxy)));
    first [done | vm_compute; reflexivity].
Defined.

(** The witnesses of the variables and of the SHOW statements. *)
Lemma set_global_read_back_witness :
  exists r c' o', HandleSetGlobal (str "wait_timeout") (str "60") (new_pg, ∅) = (r, (c', o'))
    /\ GetMySQLVarValue (str "WAIT_TIMEOUT") (c', o') = (Val (Some (str "60")), (c', o')).
Proof.
  destruct (set_global_read_back
      (mkVar "idle_in_transaction_session_timeout" ScopeGlobal false false (Some Millis) None EmptyString) (str "wait_timeout") (str "WAIT_TIMEOUT") (str "60") new_pg ∅)
    as (r & c' & o' & H1 & H2 & _); [vm_compute; reflexivity | vm_compute; reflexivity |].
  by exists r, c', o'.
Defined.

Lemma switches_round_trip_witness :
  apply_reverse OnIsOne (apply_transform OnOff (str "on")) = str "1".
Proof.
  exact (switches_round_trip "read_only" (mkVar "default_transaction_read_only" ScopeGlobal false false (Some OnOff)
           (Some OnIsOne) EmptyString) OnOff (or_introl eq_refl) eq_refl (str "on")).
Defined.

Lemma HandleShowCommand_calm_witness : calm (HandleShowCommand (str "SHOW TABLES")).
Proof. apply HandleShowCommand_calm; [by intros c | reflexivity]. Defined.
End witnesses.

(** A parser that panics on a statement with many placeholders. *)
Definition panicking_parser : SQLParser bytes := {|
  Parse sql := if Contains sql (str "?,?,?") then Panic else Ok [sql];
  Accept v s := Some (v, s);
  Restore s := Ok s;
  Rewriter.view sql := OtherStmt
|}.

Lemma parser_panic_kills_witness :
  fst (@HandleQuery ascii_tables _ panicking_parser _ toy_driver no_numerics text_builder toy_setup
         toy_answers (str "SELECT ?,?,?") toy_proxy) = Died.
Proof.
  apply (@parser_panic_kills ascii_tables _ panicking_parser _ toy_driver no_numerics text_builder toy_setup
           toy_answers (str "SELECT ?,?,?") toy_proxy 1%nat); vm_compute; reflexivity.
Defined.
