(* ===== verification/System.v ===== *)
(** * The proxy with many clients

    [cmd/aproxy/main.go] serves every client in a goroutine of its own, with a
    [ConnectionHandler] of its own; the pool, the session manager, the schema
    cache, the variables, the request tracker, the metrics and the replication
    server are shared.  A state of the process has the handlers and these shared
    parts, and a history interleaves the commands of the clients in any order.
    A command is one step: the shared parts are guarded by mutexes, and the
    connection a command works on turns out to be the client's own
    ([connections_private]).

    The environment is part of the events.  A command comes with the answers of
    the clock and of dialling ([Answers]), and with what the SQL parser does
    during it: the clients share one TiDB parser without a lock, so each command
    may see a parser of its own.  PostgreSQL may change the state of any
    connection between two commands ([PgActs]): because of what another client
    did to shared data, or to the backend itself (KILL is sent as
    pg_terminate_backend or pg_cancel_backend), because of a timeout, or on its
    own account.  A connection that is dialled is a new pointer, and a session
    gets a new uuid. *)

From Stdlib Require Import ZArith Lia.
From stdpp Require Import base numbers list strings gmap.
From S2P Require Import Prelude GoStd GoStrings SQLText SQLPasses Rewriter ACL Detector BinlogValue BinlogEvent.
From S2P Require Import PgDriver Mapper Variables ShowEmul ReplAdmin Pool ReqTrack Metrics SchemaCache Session ReplServer HandlerText Handler.
From S2P Require Import ServerFacts TextFacts HandlerFacts HandlerRuns Connection.
Open Scope Z_scope.
Open Scope io_scope.

(** Where the goroutine of a client is: waiting for a command, in a call that
    does not return, in COM_BINLOG_DUMP until the replica's stream ends, in a
    COM_QUIT that does not return, or it has returned. *)
Inductive goroutine := Serving | Waiting | Dumping (replica : Z) | Closing | Left.
#[export] Instance goroutine_eq_dec : EqDecision goroutine.
Proof. solve_decision. Defined.

(** A [ConnectionHandler] and its goroutine.  The session manager refers to the
    same session, so a handler whose client is gone stays until its session is
    removed. *)
Record ConnHandler := mkHandler {
  h_session : @Session nat; h_pgConn : option nat; h_searchPathSet : bool; h_goroutine : goroutine }.

Record Shared {C : Type} := mkShared {
  g_conns : gmap nat C; g_pool : Pool; g_cache : Cache; g_vars : gmap bytes bytes; g_tracker : Tracker;
  g_metrics : Metrics; g_registered : gset bytes; g_replServer : option Server }.
Arguments Shared : clear implicits.

Record System {C : Type} := mkSystem { handlers : gmap bytes ConnHandler; shared : Shared C }.
Arguments System : clear implicits.

Inductive event {C Stmt : Type} :=
| Accept (host uuid : bytes) (now : Z)
| Command (p : SQLParser Stmt) (k : bytes) (a : Answers C) (c : client_call)
| Gone (k : bytes)
| PgActs (effect : nat -> C -> C).
Arguments event : clear implicits.

(** A session that was closed without a panic has no connection; one whose
    [Close] did not return has the one it had. *)
Lemma sess_Close_drops {C} `{PgConn C} (v v' : @Session C) r : sess_Close v = (r, v') -> r <> Panic ->
  pgConn v' = None /\ ID v' = ID v.
Proof.
  unfold sess_Close, sbind, stry, sget, sret, smod, slift, exec, id. destruct (pgConn v) as [c|] eqn:Ec.
  - destruct (InTransaction v); [destruct (Exec c ROLLBACK) as [[[]|m|] x1] |]; cbn; rewrite ?Ec;
      try (by intros [= <- _]); destruct (ConnClose _) as [[[]| |] x2]; by intros [= <- <-].
  - by intros [= <- <-].
Qed.
Lemma sess_Close_stuck {C} `{PgConn C} (v v' : @Session C) : sess_Close v = (Panic, v') ->
  is_Some (pgConn v') /\ ID v' = ID v /\ preparedStmts v' = preparedStmts v.
Proof.
  unfold sess_Close, sbind, stry, sget, sret, smod, slift, exec, id. destruct (pgConn v) as [c|] eqn:Ec; [|done].
  destruct (InTransaction v); [destruct (Exec c ROLLBACK) as [[[]|m|] x1] |]; cbn; rewrite ?Ec;
    try (intros [= <-]; cbn; by eauto); destruct (ConnClose _) as [[[]| |] x2]; try done; intros [= <-]; cbn; by eauto.
Qed.

Section system.
Context `{!Unicode} {Stmt : Type}.
Context {C : Type} `{!PgDriver C, !NumericText, !ResultsetBuilder, !Setup C}.
Abbreviation CH := (Proxy C).

(** What a handler sees, and the parts of it. *)
Definition load (h : ConnHandler) (g : Shared C) : CH :=
  mkProxy C (h_session h) (h_pgConn h) (h_searchPathSet h) (g_conns g) (g_pool g) (g_cache g) (g_vars g)
    (g_tracker g) (g_metrics g) (g_registered g) (g_replServer g).
Definition handler_of (g : goroutine) (s : CH) : ConnHandler :=
  mkHandler (session s) (ch_pgConn s) (searchPathSet s) g.
Definition shared_of (s : CH) : Shared C :=
  mkShared C (conns s) (pgPool s) (cache s) (vars s) (tracker s) (metrics s) (registered s) (replServer s).

(** A connection that is dialled during a command is a new pointer. *)
Definition new_pointer (a : Answers C) (s : CH) : bool :=
  match ch_pgConn s, dialled a with
  | None, Connected c => bool_decide (conns s !! c = None)
  | _, _ => true
  end.

Definition is_quit (c : client_call) : bool := match c with CallOther COM_QUIT _ => true | _ => false end.

(** [RemoveSession] holds the lock of the session manager while it closes the
    session. *)
Definition manager_locked (y : System C) : bool :=
  negb (bool_decide (map_Forall (fun _ h => h_goroutine h <> Closing) (handlers y))).

(** Where a goroutine is when the call [c] of its client does not return. *)
Definition blocked_in (c : client_call) (s : CH) : goroutine :=
  match c with
  | CallOther COM_QUIT _ => Closing
  | CallOther COM_BINLOG_DUMP _ => match replServer s with Some srv => Dumping (nextClientID srv) | None => Waiting end
  | _ => Waiting
  end.

Definition store (k : bytes) (g : goroutine) (s : CH) (y : System C) : System C :=
  mkSystem C (<[k := handler_of g s]> (handlers y)) (shared_of s).

(** [None] when the event cannot happen, or ends the process by a panic.

    COM_QUIT is the last command of a client: go-mysql closes the connection, so
    the next [HandleCommand] of the loop fails; the session is no longer with
    the manager, and the handler is dropped.  A client that leaves without
    it leaves its handler behind; when it was a replica its stream ends.  While
    the manager is locked a new client waits for [AddSession], and a COM_QUIT
    for [RemoveSession]. *)
Definition sys_step (e : event C Stmt) (y : System C) : option (System C) :=
  match e with
  | Accept host uuid now =>
      if bool_decide (uuid ∈ g_registered (shared y)) then None
      else if manager_locked y then Some y
      else
        let s := NewConnection host uuid now
                   (load (mkHandler (NewSession uuid now now [] [] host) None false Serving) (shared y)) in
        Some (store uuid Serving s y)
  | Command p k a c =>
      match handlers y !! k with
      | Some h =>
          let s := load h (shared y) in
          if bool_decide (h_goroutine h = Serving) && new_pointer a s then
            if is_quit c && manager_locked y
            then Some (store k Closing (set_metrics (DecActiveConnections (metrics s)) s) y)
            else
              match run_call (SQLParser0 := p) a c s with
              | (Died, _) => None
              | (Hangs, s') => Some (store k (blocked_in c s') s' y)
              | (_, s') =>
                  Some (if is_quit c then mkSystem C (delete k (handlers y)) (shared_of s') else store k Serving s' y)
              end
          else None
      | None => None
      end
  | Gone k =>
      match handlers y !! k with
      | Some h =>
          let s := load h (shared y) in
          match h_goroutine h with
          | Serving => Some (store k Left s y)
          | Dumping client => Some (store k Left (snd (dump_returns client s)) y)
          | Waiting | Closing | Left => Some y
          end
      | None => None
      end
  | PgActs effect =>
      let g := shared y in
      Some (mkSystem C (handlers y)
              (mkShared C (map_imap (fun c x => Some (effect c x)) (g_conns g)) (g_pool g) (g_cache g) (g_vars g)
                 (g_tracker g) (g_metrics g) (g_registered g) (g_replServer g)))
  end.

Fixpoint sys_run (es : list (event C Stmt)) (y : System C) : option (System C) :=
  match es with
  | [] => Some y
  | e :: es => sys_step e y ≫= sys_run es
  end.

(** The process before the first client. *)
Definition sys_start (cfg : PoolConfig) (ttl : Z) (repl : option Server) : System C :=
  mkSystem C ∅ (mkShared C ∅ (fresh_pool cfg) (NewCache ttl) ∅ NewTracker zero_metrics ∅ repl).

(** * Properties *)

(** ** What a call of one client may do to the others *)

Record valid (s : CH) : Prop := mkValid {
  valid_mode : dedicated (mode (pgPool s)) = true;
  valid_pool : pool_ok (pgPool s);
  valid_open : forall c, c ∈ open_conns (pgPool s) -> is_Some (conns s !! c);
  valid_conn : forall c, ch_pgConn s = Some c -> is_Some (conns s !! c);
  valid_session : pgConn (session s) = ch_pgConn s;
  valid_entry : sessionConns (pgPool s) !! ID (session s) = ch_pgConn s
}.

Definition dials_new (a : Answers C) (s : CH) : Prop :=
  ch_pgConn s = None -> forall c, dialled a = Connected c -> conns s !! c = None.

Lemma new_pointer_dials a s : new_pointer a s = true -> dials_new a s.
Proof. intros Hf Hn d Ed. unfold new_pointer in Hf. rewrite Hn, Ed in Hf. by apply bool_decide_eq_true in Hf. Qed.

Record owns (s s' : CH) : Prop := mkOwns {
  owns_registered : registered s' = registered s;
  owns_id : ID (session s') = ID (session s);
  owns_entries : forall sid, sid <> ID (session s) -> sessionConns (pgPool s') !! sid = sessionConns (pgPool s) !! sid;
  owns_heap : forall k, ch_pgConn s <> Some k -> is_Some (conns s !! k) -> conns s' !! k = conns s !! k;
  owns_conn : ch_pgConn s' = ch_pgConn s
    \/ ch_pgConn s = None /\ exists c, ch_pgConn s' = Some c /\ conns s !! c = None
}.
#[export] Instance owns_preorder : PreOrder owns.
Proof.
  split; [intros s; split; auto |].
  intros s1 s2 s3 [Hr1 Hi1 He1 Hh1 Hc1] [Hr2 Hi2 He2 Hh2 Hc2]. split; [congruence.. | | |].
  - intros sid Hs. rewrite He2, He1; congruence.
  - intros k Hk Hx. rewrite <- (Hh1 k Hk Hx) at 1. apply Hh2; [|by rewrite Hh1].
    destruct Hc1 as [->|(_ & c & -> & Hn)]; [done |]. intros [= ->]. rewrite Hn in Hx. by destruct Hx.
  - destruct Hc2 as [->|(Hn & c & Hc & Hf)]; [done |]. destruct Hc1 as [E|(_ & d & E & _)]; [|congruence].
    right. rewrite <- E. split; [done |]. exists c. split; [done |]. apply eq_None_not_Some. intros Hx.
    rewrite Hh1 in Hf; [by rewrite Hf in Hx; destruct Hx | congruence | done].
Qed.

Definition private (a : Answers C) (s s' : CH) : Prop :=
  valid s -> dials_new a s -> valid s' /\ dials_new a s' /\ owns s s'.
#[export] Instance private_preorder a : PreOrder (private a).
Proof.
  split.
  - intros s Hv Hd. split; [done |]. split; [done |]. reflexivity.
  - intros s1 s2 s3 Ha Hb Hv Hd. destruct (Ha Hv Hd) as (Hv2 & Hd2 & Ho). destruct (Hb Hv2 Hd2) as (? & ? & ?).
    split; [done |]. split; [done |]. by etrans.
Qed.

(** The state of the client's own connection changes. *)
Lemma private_update a s s' c x : valid s -> dials_new a s -> ch_pgConn s = Some c ->
  conns s' = <[c := x]> (conns s) -> pgPool s' = pgPool s -> registered s' = registered s ->
  ch_pgConn s' = ch_pgConn s -> ID (session s') = ID (session s) -> pgConn (session s') = pgConn (session s) ->
  valid s' /\ dials_new a s' /\ owns s s'.
Proof.
  intros [Hm Hp Ho Hc Hs He] Hd Ec Eh Epool Er Ech Ei Es. split; [|split].
  - split; rewrite ?Epool, ?Ei, ?Es, ?Ech; try done; intros d Hx; rewrite Eh, lookup_insert_is_Some'; right; auto.
  - intros Hn. congruence.
  - split; [done | done | by rewrite Epool | | by left].
    intros k Hk _. rewrite Eh, lookup_insert_ne; [done |]. congruence.
Qed.

Lemma private_env a {A} (c : io (@env C) A) : within (private a) (on_env c).
Proof.
  intros s. unfold on_env. destruct (ch_pgConn s) as [k|] eqn:Ek; [|reflexivity].
  destruct (conns s !! k) as [x|] eqn:Ex; [|reflexivity]. destruct (c (x, vars s)) as [r [y v]]. cbn.
  intros Hv Hd. by eapply (private_update a s _ k y).
Qed.

Lemma private_kept a op s :
  let v := retarget (pgConn (session s) ≫= fun h => (fun x => mkLine x false) <$> conns s !! h) (session s) in
  kept v (snd (op v)) -> private a s (snd (on_session op s)).
Proof.
  intros v Hkept Hv Hd. pose proof Hv as [Hm Hp Ho Hc Hs He]. unfold on_session. fold v.
  destruct Hkept as (Hid & Hps & Hk). destruct (op v) as [r v'] eqn:Eop. cbn [snd] in *.
  destruct (pgConn (session s)) as [k|] eqn:Ek; cbn in v.
  - destruct (Hc k) as [x Hx]; [done |]. destruct Hk as [y Hy]; [unfold v; rewrite Hx; by eexists |]. rewrite Hy.
    by apply (private_update a s _ k (line y)).
  - assert (Hcase : match pgConn v' with Some _ => None | None => None end = (None : option nat))
      by (by destruct (pgConn v')). rewrite Hcase. cbn. rewrite <- Ek in Hs.
    split; [split; cbn; try done; [congruence | by rewrite Hid] |]. split; [done |]. split; try done. by left.
Qed.
Lemma private_op a op : tame op -> within (private a) (on_session op).
Proof. intros Ht s. apply private_kept, Ht. Qed.

Lemma set_pool_same (s : CH) : set_pgPool (pgPool s) s = s.
Proof. by destruct s. Qed.

(** A handler without a connection, whose session has none in the pool. *)
Lemma acquire_new a s : valid s -> ch_pgConn s = None -> dials_new a s ->
  snd (acquire_conn a s) =
  match dialled a with
  | Connected c =>
      let p := pgPool s in
      set_searchPathSet false (set_session (SetPGConn (Some c) (session s)) (set_ch_pgConn (Some c)
        (set_conns (<[c := new_conn a]> (conns s))
          (set_pgPool (mkPool (mode p) (<[ID (session s) := c]> (sessionConns p)) ({[c]} ∪ open_conns p) (taken p)
             (pool_closed p)) s))))
  | _ => s
  end.
Proof.
  intros [Hm _ _ _ _ He] Ek Hd. unfold acquire_conn, zoom, AcquireForSession, ibind, iget, id. rewrite Ek, Hm, He, Ek.
  destruct (dialled a) as [e|e|c e|c] eqn:Ed; cbn; [apply set_pool_same.. |]. by rewrite (Hd Ek c Ed).
Qed.

Lemma private_acquire a : within (private a) (acquire_conn a).
Proof.
  intros s Hv Hd. destruct (ch_pgConn s) as [k|] eqn:Ek.
  { unfold acquire_conn, ibind, iget, id. rewrite Ek. split; [done |]. by split. }
  rewrite (acquire_new a s) by done. destruct Hv as [Hm Hp Ho Hc Hs He].
  destruct (dialled a) as [e|e|c e|c] eqn:Ed; [split; [done |]; split; [done | reflexivity].. |].
  specialize (Hd Ek c Ed). cbn. split; [|split].
  - assert (Hfresh : c ∉ open_conns (pgPool s)) by (intros Hx%Ho; rewrite Hd in Hx; by destruct Hx).
    split; cbn.
    + done.
    + apply pool_insert_ok; [done | done | congruence].
    + intros d [->%elem_of_singleton|Hx%Ho]%elem_of_union; rewrite lookup_insert_is_Some'; [by left | by right].
    + intros d [= ->]. rewrite lookup_insert_eq. by eexists.
    + done.
    + by rewrite lookup_insert_eq.
  - intros Hn. done.
  - split; cbn; [done | done | | | right].
    + intros sid Hsid. by rewrite lookup_insert_ne.
    + intros k _ Hx. rewrite lookup_insert_ne; [done |]. intros ->. rewrite Hd in Hx. by destruct Hx.
    + split; [done |]. by exists c.
Qed.

#[export] Instance private_frame a : CallFrame a (private a).
Proof.
  split; [apply _ | intros; apply private_env | apply private_op | apply private_acquire |].
  intros s s' [Ec Ep Er _ Ech Ei Es] [Hm Hp Ho Hc Hs He] Hd. split; [|split].
  - split; rewrite ?Ep, ?Ec, ?Ei, ?Es, ?Ech; done.
  - unfold dials_new. by rewrite Ech, Ec.
  - split; rewrite ?Ep, ?Ec; try done. by left.
Qed.

(** ** The invariant of the process *)

Record sys_ok (y : System C) : Prop := mkSysOk {
  ok_mode : dedicated (mode (g_pool (shared y))) = true;
  ok_pool : pool_ok (g_pool (shared y));
  ok_open : forall c, c ∈ open_conns (g_pool (shared y)) -> is_Some (g_conns (shared y) !! c);
  ok_registered : dom (handlers y) = g_registered (shared y);
  ok_entries : forall sid, is_Some (sessionConns (g_pool (shared y)) !! sid) -> is_Some (handlers y !! sid);
  ok_handler : forall k h, handlers y !! k = Some h ->
    ID (h_session h) = k /\ pgConn (h_session h) = h_pgConn h
    /\ sessionConns (g_pool (shared y)) !! k = h_pgConn h
    /\ forall c, h_pgConn h = Some c -> is_Some (g_conns (shared y) !! c)
}.

Lemma ok_valid y k h : sys_ok y -> handlers y !! k = Some h -> valid (load h (shared y)) /\ ID (h_session h) = k.
Proof. intros [Hm Hp Ho _ _ Hh] E. destruct (Hh k h E) as (Hi & Hs & He & Hc). split; [split; cbn; congruence || done | done]. Qed.

(** Connections of different clients are different pointers. *)
Lemma ok_distinct y j k hj hk c : sys_ok y -> handlers y !! j = Some hj -> handlers y !! k = Some hk ->
  h_pgConn hj = Some c -> h_pgConn hk = Some c -> j = k.
Proof.
  intros [_ [_ Hi] _ _ _ Hh] Hj Hk Ej Ek. destruct (Hh j hj Hj) as (_ & _ & E1 & _), (Hh k hk Hk) as (_ & _ & E2 & _).
  apply (Hi j k c); congruence.
Qed.

(** What PostgreSQL did to connection [c] in an event. *)
Definition pg_effect (e : event C Stmt) (c : nat) (x : C) : C :=
  match e with PgActs effect => effect c x | _ => x end.

(** What an event leaves of a client: its handler, and the state of its
    connection but for what PostgreSQL did to it. *)
Definition spared (e : event C Stmt) (j : bytes) (y y' : System C) : Prop :=
  handlers y' !! j = handlers y !! j
  /\ forall h c, handlers y !! j = Some h -> h_pgConn h = Some c ->
       g_conns (shared y') !! c = pg_effect e c <$> g_conns (shared y) !! c.
Definition untouched (j : bytes) (y y' : System C) : Prop :=
  handlers y' !! j = handlers y !! j
  /\ forall h c, handlers y !! j = Some h -> h_pgConn h = Some c ->
       g_conns (shared y') !! c = g_conns (shared y) !! c.
Lemma untouched_spared e j y y' : (forall c x, pg_effect e c x = x) -> untouched j y y' -> spared e j y y'.
Proof.
  intros He [Hh Hc]. split; [done |]. intros h c Eh Ec. rewrite (Hc h c Eh Ec).
  destruct (g_conns (shared y) !! c); [|done]. cbn. by rewrite He.
Qed.

(** After a call that stays within [owns], the process is in order again. *)
Lemma sys_store running y k h s' : sys_ok y -> handlers y !! k = Some h ->
  valid s' -> owns (load h (shared y)) s' ->
  let y' := store k running s' y in
  sys_ok y' /\ forall j, j <> k -> untouched j y y'.
Proof.
  intros Hok Ek [Hm Hp Ho Hc Hs He] [Or Oi Oe Oh Oc] y'. destruct (ok_valid y k h Hok Ek) as [_ Hid].
  assert (Hun : forall j, j <> k -> untouched j y y').
  { intros j Hj. split; [by apply lookup_insert_ne |]. intros hj c Ej Ec. apply Oh; cbn.
    - intros E. by apply Hj, (ok_distinct y j k hj h c).
    - by apply (ok_handler y Hok j hj). }
  assert (Hent : forall j, j <> k -> sessionConns (g_pool (shared y')) !! j = sessionConns (g_pool (shared y)) !! j).
  { intros j Hj. apply Oe. cbn. congruence. }
  cbn in Oi, Or. split; [|done]. split; cbn; try done.
  - rewrite dom_insert_lookup_L by eauto. by rewrite Or, (ok_registered y).
  - intros sid Hx. destruct (decide (sid = k)) as [->|Hne]; [rewrite lookup_insert_eq; by eexists |].
    rewrite lookup_insert_ne by done. apply (ok_entries y Hok). by rewrite <- Hent.
  - intros j hj Ej. destruct (decide (j = k)) as [->|Hne].
    + rewrite lookup_insert_eq in Ej. injection Ej as <-. cbn. rewrite <- Hid, <- Oi. by repeat split.
    + rewrite lookup_insert_ne in Ej by done. destruct (ok_handler y Hok j hj Ej) as (H1' & H2' & H3' & H4').
      split; [done |]. split; [done |]. split; [etrans; [apply (Hent j Hne) | done] |].
      intros c Hc'. destruct (Hun j Hne) as [_ Hun']. specialize (Hun' hj c Ej Hc'). cbn in Hun'. rewrite Hun'. by apply H4'.
Qed.

(** [s'] has the connections, the pool, the sessions and the handler [h] of
    [y]. *)
Definition bookkept_as (h : ConnHandler) (y : System C) (s' : CH) : Prop :=
  conns s' = g_conns (shared y) /\ pgPool s' = g_pool (shared y) /\ registered s' = g_registered (shared y)
  /\ ch_pgConn s' = h_pgConn h /\ ID (session s') = ID (h_session h) /\ pgConn (session s') = pgConn (h_session h).

Lemma sys_accept host uuid now y y' : sys_ok y -> sys_step (Accept host uuid now) y = Some y' ->
  sys_ok y' /\ forall j, j <> uuid -> untouched j y y'.
Proof.
  intros Hok. cbn. case_bool_decide as Hn; [done |]. destruct (manager_locked y); [by intros [= <-] |]. intros [= <-].
  destruct Hok as [Hm Hp Ho Hr He Hh].
  assert (Hnone : handlers y !! uuid = None) by (apply not_elem_of_dom; by rewrite Hr).
  split; [|intros j Hj; split; [by apply lookup_insert_ne | done]]. split; cbn; try done.
  - rewrite dom_insert_L. by rewrite Hr.
  - intros sid Hx%He. rewrite lookup_insert_is_Some'. by right.
  - intros k h [[<- <-]|[_ E]]%lookup_insert_Some; [|by apply Hh]. cbn. repeat split; [|done].
    apply eq_None_not_Some. intros Hx%He. rewrite Hnone in Hx. by destruct Hx.
Qed.

(** A step of a client's goroutine that keeps its session and its connection. *)
Lemma sys_store_same g y k h s' : sys_ok y -> handlers y !! k = Some h -> bookkept_as h y s' ->
  sys_ok (store k g s' y) /\ forall j, j <> k -> untouched j y (store k g s' y).
Proof.
  intros Hok Ek Hs. destruct (ok_valid y k h Hok Ek) as [Hv Hid]. apply (sys_store g y k h); [done | done | |].
  - destruct Hv as [Hm Hp Ho Hc Hse He], Hs as (E1 & E2 & E3 & E4 & E5 & E6). split; rewrite ?E1, ?E2, ?E4, ?E5, ?E6; done.
  - destruct Hs as (E1 & E2 & E3 & E4 & E5 & E6). split; cbn; rewrite ?E1, ?E2; try done. by left.
Qed.

Lemma sys_gone k y y' : sys_ok y -> sys_step (Gone k) y = Some y' ->
  sys_ok y' /\ forall j, j <> k -> untouched j y y'.
Proof.
  intros Hok. cbn. destruct (handlers y !! k) as [h|] eqn:Ek; [|done].
  destruct (h_goroutine h) as [| |client| |]; intros [= <-]; try done.
  - by apply (sys_store_same _ y k h).
  - apply (sys_store_same _ y k h); [done | done |]. unfold dump_returns, ibind, iget, id, bookkept_as.
    cbn [replServer load]. destruct (g_replServer (shared y)); by split_and!.
Qed.

Lemma sys_pg effect y y' : sys_ok y -> sys_step (PgActs effect) y = Some y' ->
  sys_ok y' /\ forall j, spared (PgActs effect) j y y'.
Proof.
  intros [Hm Hp Ho Hr He Hh]. intros [= <-].
  assert (Hl : forall c, map_imap (fun c x => Some (effect c x)) (g_conns (shared y)) !! c = effect c <$> g_conns (shared y) !! c).
  { intros c. rewrite map_lookup_imap. by destruct (g_conns (shared y) !! c). }
  split; [|intros j; split; [done |]; intros h c _ _; apply Hl].
  split; cbn; try done.
  - intros c Hc. rewrite Hl. by apply fmap_is_Some, Ho.
  - intros k h Ek. destruct (Hh k h Ek) as (H1' & H2' & H3' & H4'). split_and!; try done.
    intros c Hc. rewrite Hl. by apply fmap_is_Some, H4'.
Qed.

(** ** Closing *)

(** Closing a session, when it returns, changes nothing outside the session. *)
Lemma close_session (s s' : CH) r :
  (forall c, ch_pgConn s = Some c -> is_Some (conns s !! c)) -> pgConn (session s) = ch_pgConn s ->
  on_session sess_Close s = (r, s') -> r <> Died -> r <> Hangs ->
  (r = Val tt \/ exists e, r = Fail e) /\ conns s' = conns s /\ pgPool s' = pgPool s /\ registered s' = registered s
  /\ ch_pgConn s' = ch_pgConn s /\ ID (session s') = ID (session s) /\ metrics s' = metrics s.
Proof.
  intros Hc Hs. unfold on_session. rewrite Hs. destruct (ch_pgConn s) as [k|] eqn:Ek.
  - destruct (Hc k eq_refl) as [x Hx]. cbn [mbind option_bind]. rewrite Hx. cbn [fmap option_fmap option_map].
    destruct (sess_Close _) as [rc v'] eqn:Ev. intros [= <- <-] Hr Hr'.
    destruct (sess_Close_drops _ _ _ Ev) as [Hn Hi]; [intros ->; by destruct (from_option _ _ _) |]. rewrite Hn in *. cbn.
    split; [destruct rc; eauto; done |]. by rewrite Hi.
  - cbn. intros [= <- <-] _ _. cbn. by eauto 10.
Qed.

(** A [Close] of the session that does not return leaves it where it is. *)
Lemma close_stuck a (s s' : CH) : on_session sess_Close s = (Hangs, s') -> private a s s'
  /\ metrics s' = metrics s.
Proof.
  intros E. split.
  - replace s' with (snd (on_session sess_Close s)) by (by rewrite E). apply private_kept.
    set (v := retarget _ _). unfold on_session in E. fold v in E. destruct (sess_Close v) as [r v'] eqn:Ev. cbn.
    destruct r; try done. apply sess_Close_stuck in Ev as (? & ? & ?). by split_and!.
  - unfold on_session in E. destruct (sess_Close _) as [r v']. injection E as _ <-. by repeat case_match.
Qed.

(** [ReleaseForSession] with dedicated connections. *)
Definition released (sid : bytes) (p : Pool) : Pool :=
  match sessionConns p !! sid with
  | Some c => mkPool (mode p) (delete sid (sessionConns p)) (open_conns p ∖ {[c]}) (taken p) (pool_closed p)
  | None => p
  end.
Lemma release_eq e sid p : dedicated (mode p) = true ->
  snd (ReleaseForSession e sid p) = released sid p /\ (fst (ReleaseForSession e sid p) = Val tt
     \/ exists m, fst (ReleaseForSession e sid p) = Fail m).
Proof.
  intros Hm. unfold ReleaseForSession, released, ibind, iget, imod, iret, ifail, id. rewrite Hm.
  destruct (sessionConns p !! sid); [|by auto]. destruct e; cbn; eauto.
Qed.
Lemma released_ok sid p : pool_ok p -> pool_ok (released sid p).
Proof. intros Hp. unfold released. destruct (sessionConns p !! sid) eqn:E; [by apply pool_delete_ok | done]. Qed.
Lemma released_entry sid k p : sessionConns (released sid p) !! k = if decide (k = sid) then None else sessionConns p !! k.
Proof.
  unfold released. destruct (sessionConns p !! sid) as [c|] eqn:E; cbn.
  - destruct (decide (k = sid)) as [->|Hk]; [by rewrite lookup_delete_eq | by rewrite lookup_delete_ne].
  - by destruct (decide (k = sid)) as [->|].
Qed.
Lemma released_open sid p c : c ∈ open_conns (released sid p) -> c ∈ open_conns p.
Proof. unfold released. destruct (sessionConns p !! sid); [|done]. cbn. by intros [? _]%elem_of_difference. Qed.

Lemma private_metrics a m s : private a s (set_metrics m s).
Proof. intros [] Hd. split; [by split |]. split; [done |]. split; try done. by left. Qed.

Lemma close_effect a s r s' : valid s -> ID (session s) ∈ registered s -> ch_Close a s = (r, s') -> r <> Died ->
  metrics s' = DecActiveConnections (metrics s) /\
  (r = Hangs /\ private a s s' \/
   r = Val tt /\ conns s' = conns s /\ registered s' = registered s ∖ {[ID (session s)]}
   /\ pgPool s' = released (ID (session s)) (pgPool s)).
Proof.
  intros Hv Hin. unfold ch_Close, ibind at 1, imod at 1. set (t := set_metrics _ s).
  unfold ibind at 1, iget, id. rewrite bool_decide_eq_true_2 by done.
  unfold ibind at 1 2, itry at 1. destruct (on_session sess_Close t) as [r1 s1] eqn:E1. intros E Hr.
  assert (r1 = Hangs \/ r1 <> Hangs) as [->|Hnh] by (destruct r1; auto).
  { injection E as <- <-. destruct (close_stuck a t s1 E1) as [Hp Hm]. split; [done |]. left. split; [done |].
    etrans; [apply private_metrics | exact Hp]. }
  assert (r1 <> Died) as Hr1 by (intros ->; by injection E as <- _).
  destruct (close_session t s1 r1 (valid_conn s Hv) (valid_session s Hv) E1 Hr1 Hnh) as (Hcase & Ec & Ep & Er & Ech & Ei & Em).
  assert (E' : match ch_pgConn t with
               | None => iret tt
               | Some _ => do! itry (zoom pgPool set_pgPool (ReleaseForSession (closing a) (ID (session t)))) in iret tt
               end (set_registered (registered s1 ∖ {[ID (session s1)]}) s1) = (r, s'))
    by (destruct Hcase as [->|[e ->]]; exact E).
  clear E. destruct Hv as [Hm Hp Ho Hc Hs He]. destruct (ch_pgConn t) as [c|] eqn:Ek.
  - revert E'. unfold ibind, itry, zoom. cbn [pgPool set_registered]. rewrite Ep.
    destruct (release_eq (closing a) (ID (session t)) (pgPool t) Hm) as [Hrel Hout].
    destruct (ReleaseForSession _ _ _) as [o p]. cbn in Hrel, Hout. subst p.
    destruct Hout as [->|[m ->]]; intros [= <- <-]; cbn; rewrite Ec, Er, Ei, Em; (split; [done | by right]).
  - injection E' as <- <-. cbn. rewrite Ec, Er, Ei, Ep, Em. split; [done |]. right. unfold released. cbn in Ek. rewrite He, Ek.
    by split_and!.
Qed.

(** The handler of [k] is gone, with its session and its entry of the pool. *)
Lemma sys_remove y k s' : sys_ok y -> is_Some (handlers y !! k) ->
  conns s' = g_conns (shared y) -> registered s' = g_registered (shared y) ∖ {[k]} ->
  pgPool s' = released k (g_pool (shared y)) ->
  let y' := mkSystem C (delete k (handlers y)) (shared_of s') in sys_ok y' /\ forall j, j <> k -> untouched j y y'.
Proof.
  intros [Hm Hp Ho Hr He Hh] Hk Ec Er Ep y'.
  split; [|intros j Hj; split; [by apply lookup_delete_ne | by cbn; rewrite Ec]].
  split; cbn; rewrite ?Ep, ?Ec, ?Er.
  - unfold released. by destruct (sessionConns _ !! k).
  - by apply released_ok.
  - intros c Hx%released_open. by apply Ho.
  - by rewrite dom_delete_L, Hr.
  - intros sid. rewrite released_entry. destruct (decide (sid = k)) as [->|Hne]; [intros [? ?]; done |].
    rewrite lookup_delete_ne by done. apply He.
  - intros j h [Hne Ej]%lookup_delete_Some. rewrite released_entry. destruct (decide (j = k)); [congruence |].
    by apply Hh.
Qed.

Lemma sys_command p k a c y y' : sys_ok y -> sys_step (Command p k a c) y = Some y' ->
  sys_ok y' /\ forall j, j <> k -> untouched j y y'.
Proof.
  intros Hok. cbn. destruct (handlers y !! k) as [h|] eqn:Ek; [|done].
  destruct (ok_valid y k h Hok Ek) as [Hv Hid].
  destruct (bool_decide (h_goroutine h = Serving) && new_pointer a (load h (shared y))) eqn:Er; [|done].
  apply andb_prop in Er as [_ Hf]. apply new_pointer_dials in Hf as Hd.
  destruct (is_quit c) eqn:Eq; cbn [andb].
  - destruct (manager_locked y).
    { intros [= <-]. destruct (private_metrics a (DecActiveConnections (metrics (load h (shared y)))) _ Hv Hd) as (Hv' & _ & Ho').
      by apply (sys_store _ y k h). }
    destruct c as [| | | | | |cmd data]; try done. destruct cmd; try done. cbn [run_call HandleOtherCommand].
    destruct (ch_Close a (load h (shared y))) as [r s'] eqn:E.
    assert (r = Died \/ r <> Died) as [->|Hr] by (destruct r; auto); [done |].
    destruct (close_effect a _ r s' Hv) as (_ & [[-> Hp]|(-> & Hc & Hreg & Hp)]); [|done | done | |].
    { cbn. rewrite Hid, <- (ok_registered y Hok). apply elem_of_dom. by eexists. }
    + intros [= <-]. destruct (Hp Hv Hd) as (Hv' & _ & Ho'). by apply (sys_store _ y k h).
    + intros [= <-]. cbn in Hreg, Hp. rewrite Hid in Hreg, Hp. by apply sys_remove.
  - assert (Hst : stays_connected c) by (by destruct c as [| | | | | |[] ?]).
    pose proof (call_within (SQLParser0 := p) (private a) a c Hst (load h (shared y)) Hv Hd) as (Hv' & _ & Ho').
    destruct (run_call a c (load h (shared y))) as [[[]|e| |] s'] eqn:E; intros [= <-]; cbn [snd] in *;
      by apply (sys_store _ y k h).
Qed.

(** The client an event belongs to. *)
Definition actor (e : event C Stmt) : option bytes :=
  match e with Accept _ uuid _ => Some uuid | Command _ k _ _ => Some k | Gone k => Some k | PgActs _ => None end.

Lemma sys_step_ok e y y' : sys_ok y -> sys_step e y = Some y' ->
  sys_ok y' /\ forall j, actor e <> Some j -> spared e j y y'.
Proof.
  intros Hok Hs. destruct e as [host uuid now|p k a c|k|f].
  - destruct (sys_accept _ _ _ _ _ Hok Hs) as [? Hu]. split; [done |]. intros j Hj. apply untouched_spared; [done |].
    apply Hu. intros ->. by apply Hj.
  - destruct (sys_command _ _ _ _ _ _ Hok Hs) as [? Hu]. split; [done |]. intros j Hj. apply untouched_spared; [done |].
    apply Hu. intros ->. by apply Hj.
  - destruct (sys_gone _ _ _ Hok Hs) as [? Hu]. split; [done |]. intros j Hj. apply untouched_spared; [done |].
    apply Hu. intros ->. by apply Hj.
  - destruct (sys_pg _ _ _ Hok Hs) as [? Hu]. by split.
Qed.

Lemma sys_run_ok es : forall y y', sys_ok y -> sys_run es y = Some y' -> sys_ok y'.
Proof.
  induction es as [|e es IH]; intros y y' Hok; cbn; [by intros [= <-] |].
  destruct (sys_step e y) as [y1|] eqn:E; [|done]. apply IH, (sys_step_ok e y y1 Hok E).
Qed.

Lemma sys_start_ok cfg ttl repl : dedicated (p_Mode cfg) = true -> sys_ok (sys_start cfg ttl repl).
Proof.
  intros Hm. split; cbn; try done.
  - apply fresh_pool_ok.
  - intros sid [x Hx]. by rewrite lookup_empty in Hx.
Qed.

(** C5: Clients never share a PostgreSQL connection.  After any history of
    clients that connect, send commands of every kind, hang, leave or quit, in
    any order, with dedicated connections: the connection of a client
    exists and is the one the pool has for its session, and no two clients have
    the same one. *)
Theorem connections_private cfg ttl repl es y :
  dedicated (p_Mode cfg) = true -> sys_run es (sys_start cfg ttl repl) = Some y ->
  (forall k h c, handlers y !! k = Some h -> h_pgConn h = Some c ->
     pgConn (h_session h) = Some c /\ sessionConns (g_pool (shared y)) !! k = Some c
     /\ is_Some (g_conns (shared y) !! c))
  /\ (forall j k hj hk c, handlers y !! j = Some hj -> handlers y !! k = Some hk ->
        h_pgConn hj = Some c -> h_pgConn hk = Some c -> j = k)
  /\ (forall c, c ∈ open_conns (g_pool (shared y)) <->
        exists k h, handlers y !! k = Some h /\ h_pgConn h = Some c).
Proof.
  intros Hm Hrun. pose proof (sys_run_ok es _ y (sys_start_ok cfg ttl repl Hm) Hrun) as Hok.
  split; [|split].
  - intros k h c Hk Hc. destruct (ok_handler y Hok k h Hk) as (_ & Hs & He & Hx).
    split; [congruence |]. split; [congruence |]. by apply Hx.
  - intros j k hj hk c. by apply ok_distinct.
  - intros c. rewrite (proj1 (ok_pool y Hok) c). split.
    + intros [sid E]. destruct (ok_entries y Hok sid) as [h Hh]; [by eexists |]. exists sid, h. split; [done |].
      destruct (ok_handler y Hok sid h Hh) as (_ & _ & He & _). congruence.
    + intros (k & h & Hh & Hc). exists k. destruct (ok_handler y Hok k h Hh) as (_ & _ & He & _). congruence.
Qed.

(** What PostgreSQL did to connection [c] over a history. *)
Definition pg_effects (es : list (event C Stmt)) (c : nat) (x : C) : C := fold_left (fun x e => pg_effect e c x) es x.

(** C6: The commands of other clients do not run on a client's connection.
    Between two commands of a client, whatever other clients do (statements of
    every kind, KILL, connecting, quitting, blocking), its handler with its
    session, prepared statements, variables and database stay exactly as they
    were, and all that happened to its PostgreSQL connection is what PostgreSQL
    itself did to it. *)
Theorem clients_do_not_interfere cfg ttl repl es y k es' y' :
  dedicated (p_Mode cfg) = true -> sys_run es (sys_start cfg ttl repl) = Some y ->
  Forall (fun e => actor e <> Some k) es' -> sys_run es' y = Some y' ->
  handlers y' !! k = handlers y !! k
  /\ forall h c, handlers y !! k = Some h -> h_pgConn h = Some c ->
       g_conns (shared y') !! c = pg_effects es' c <$> g_conns (shared y) !! c.
Proof.
  intros Hm Hrun Hes. apply sys_run_ok in Hrun; [|by apply sys_start_ok]. rename Hrun into Hok. revert y Hok.
  induction Hes as [|e es' He _ IH]; intros y Hok; cbn [sys_run].
  { intros [= <-]. split; [done |]. intros h c _ _. cbn. by destruct (g_conns (shared y) !! c). }
  destruct (sys_step e y) as [y1|] eqn:E; [|done]. cbn. intros Hrun.
  destruct (sys_step_ok e y y1 Hok E) as [Hok1 Hun]. destruct (Hun k He) as [H1' H2'].
  destruct (IH y1 Hok1 Hrun) as [H3' H4']. split; [congruence |].
  intros h c Hh Hc. rewrite (H4' h c); [|congruence | done]. rewrite (H2' h c Hh Hc), <- option_fmap_compose. done.
Qed.

(** ** Histories of one client among others *)

Section transactions.
Context (in_tx : C -> bool) `{!PgConnLaws (Line C) (fun c => in_tx (line c))}.
(** Setting the search path opens and ends no transaction. *)
Hypothesis path_tx : forall db c n c', pg_exec (set_search_path db) [] c = (Val n, c') -> in_tx c' = in_tx c.

(** The session and its connection agree about the transaction; a client without
    a connection is in none. *)
Definition in_sync (s : CH) : Prop :=
  match ch_pgConn s with
  | Some h => exists c, conns s !! h = Some c /\ in_tx c = InTransaction (session s)
  | None => InTransaction (session s) = false
  end.

Lemma in_step_sync s : in_step in_tx s -> in_sync s.
Proof. intros (_ & h & c & Hc & _ & Hh & Ht). unfold in_sync. rewrite Hc. by exists c. Qed.
Lemma in_sync_step s : connected s -> in_sync s -> in_step in_tx s.
Proof.
  intros (Hf & h & Hc & Hp & _) Hs. split; [done |]. unfold in_sync in Hs. rewrite Hc in Hs.
  destruct Hs as (c & Hh & Ht). by exists h, c.
Qed.

(** Getting a connection. *)
Lemma acquire_sync a s s' : valid s -> dials_new a s -> acquire_conn a s = (Val tt, s') ->
  Session.view (session s') = Session.view (session s)
  /\ (exists h, ch_pgConn s' = Some h /\ pgConn (session s') = Some h /\ is_Some (conns s' !! h))
  /\ (in_tx (new_conn a) = false -> in_sync s -> in_sync s').
Proof.
  intros Hv Hd E. destruct (ch_pgConn s) as [h|] eqn:Ek.
  - unfold acquire_conn, ibind, iget, id in E. rewrite Ek in E. injection E as <-. split; [done |]. split; [|done].
    exists h. rewrite (valid_session s Hv), Ek. split_and!; [done | done |]. by apply (valid_conn s Hv).
  - pose proof (acquire_new a s Hv Ek Hd) as Hacq. rewrite E in Hacq. cbn [snd] in Hacq.
    destruct (dialled a) as [e|e|c e|c] eqn:Ed.
    1-3: exfalso; unfold acquire_conn, zoom, AcquireForSession, ibind, iget, id in E;
         by rewrite Ek, (valid_mode s Hv), (valid_entry s Hv), Ek, Ed in E.
    rewrite Hacq. split; [done |]. split.
    + exists c. cbn. rewrite lookup_insert_eq. split_and!; [done | done | by eexists].
    + intros Hn Hs. unfold in_sync in *. rewrite Ek in Hs. cbn. exists (new_conn a). rewrite lookup_insert_eq. by rewrite Hs.
Qed.

Lemma ensure_sync a s s' : valid s -> dials_new a s -> ensurePGConn a s = (Val tt, s') ->
  connected s' /\ Session.view (session s') = Session.view (session s)
  /\ (in_tx (new_conn a) = false -> in_sync s -> in_sync s').
Proof.
  intros Hv Hd. unfold ensurePGConn, ibind at 1.
  destruct (acquire_conn a s) as [[[]|e| |] s1] eqn:E; try done.
  destruct (acquire_sync a s s1 Hv Hd E) as (Hview & (h & Hc & Hp & c & Hh) & Hs).
  unfold apply_search_path, ibind at 1, iget, id. destruct (searchPathSet s1) eqn:Ef.
  - intros [= <-]. split; [|by split]. split; [done |]. exists h. by split_and!; [.. | eexists].
  - unfold ibind, wrapped, on_pg, on_env. rewrite Hc, Hh. unfold on_conn, zoom, exec_, ibind. cbn.
    destruct (pg_exec _ [] c) as [[n|e| |] c'] eqn:Ex; cbn; intros [= <-]. split; [|split; [done |]].
    + split; [done |]. exists h. cbn. rewrite lookup_insert_eq. by split_and!; [.. | eexists].
    + intros Hn Hsync. specialize (Hs Hn Hsync). unfold in_sync in *. cbn. rewrite Hc in *. destruct Hs as (x & Hx & Ht).
      assert (x = c) as -> by congruence. exists c'. rewrite lookup_insert_eq. by rewrite (path_tx _ _ _ _ Ex).
Qed.

Lemma query_sync (p : SQLParser Stmt) o a s r s' : reads_tx o -> valid s -> dials_new a s ->
  HandleQuery a (tx_text o) s = (Val r, s') ->
  Session.view (session s') = tx_spec o (Session.view (session s))
  /\ (in_tx (new_conn a) = false -> in_sync s -> in_sync s').
Proof.
  intros Hr Hv Hd. rewrite HandleQuery_eq. set (t := tracked a (tx_text o) s).
  assert (Hvt : valid t) by (by destruct Hv). destruct (handle_query a (tx_text o) t) as [[v|e| |] s1] eqn:E; try done.
  intros [= -> <-]. destruct (ensurePGConn a t) as [[[]|e| |] t1] eqn:Et;
    try (unfold handle_query, ibind at 1 in E; by rewrite Et in E).
  destruct (ensure_sync a t t1 Hvt Hd Et) as (Hcon & Hview & Hsync).
  assert (E1 : handle_query a (tx_text o) t1 = (Val r, s1)).
  { unfold handle_query, ibind at 1 in E. rewrite Et in E. unfold handle_query, ibind at 1.
    rewrite (ensure_connected a t1) by (destruct Hcon as (? & h & ? & _); eauto). exact E. }
  destruct (dispatch o a t1 r s1 Hr Hcon E1) as (s2 & E2 & Hs').
  destruct (session_tx_view o t1 s2 Hcon E2) as [_ Hv2]. rewrite Hview in Hv2. split.
  - by destruct Hs' as [->|(n & w & ->)].
  - intros Hn Hs. specialize (Hsync Hn Hs). pose proof (session_tx in_tx o t1 s2 (in_sync_step _ Hcon Hsync) E2) as Hin.
    apply in_step_sync in Hin. by destruct Hs' as [->|(n & w & ->)].
Qed.

(** PostgreSQL leaves the transaction of client [k]'s connection as it is (it
    does not end it because of a KILL, a timeout or a restart). *)
Definition leaves_tx (k : bytes) (e : event C Stmt) (y : System C) : Prop :=
  forall h c x, handlers y !! k = Some h -> h_pgConn h = Some c -> g_conns (shared y) !! c = Some x ->
    in_tx (pg_effect e c x) = in_tx x.

(** The history of a process in which client [k] sends the transaction
    statements [ops], each read as such by the parser and answered without an
    error, while the other clients and PostgreSQL do anything.  In a calm
    history PostgreSQL leaves the client's transactions alone, and a connection
    that was just opened is in no transaction. *)
Inductive tx_history (calm : Prop) (k : bytes) : list txop -> System C -> System C -> Prop :=
| history_end y : tx_history calm k [] y y
| history_other e ops y y1 y2 :
    actor e <> Some k -> (calm -> leaves_tx k e y) -> sys_step e y = Some y1 -> tx_history calm k ops y1 y2 ->
    tx_history calm k ops y y2
| history_own p a o ops h y y1 y2 :
    reads_tx (SQLParser0 := p) o -> handlers y !! k = Some h ->
    fst (run_call (SQLParser0 := p) a (CallQuery (tx_text o)) (load h (shared y))) = Val tt ->
    (calm -> in_tx (new_conn a) = false) ->
    sys_step (Command p k a (CallQuery (tx_text o))) y = Some y1 -> tx_history calm k ops y1 y2 ->
    tx_history calm k (o :: ops) y y2.

(** The client's view of its transactions, and PostgreSQL's. *)
Definition client_tx (k : bytes) (y : System C) : option tx_state :=
  (fun h => Session.view (h_session h)) <$> handlers y !! k.
Definition client_in_sync (k : bytes) (y : System C) : Prop :=
  exists h, handlers y !! k = Some h /\ in_sync (load h (shared y)).

Lemma in_sync_other e k y y' : spared e k y y' ->
  client_tx k y' = client_tx k y /\ (leaves_tx k e y -> client_in_sync k y -> client_in_sync k y').
Proof.
  intros [Hh Hc]. unfold client_tx. rewrite Hh. split; [done |]. intros Hl (h & E & Hs). exists h. rewrite Hh. split; [done |].
  unfold in_sync in *. cbn in *. destruct (h_pgConn h) as [c|] eqn:Ec; [|done]. destruct Hs as (x & Hx & Ht).
  exists (pg_effect e c x). split; [by rewrite (Hc h c), Hx |]. by rewrite (Hl h c x).
Qed.

Lemma in_sync_own (p : SQLParser Stmt) k a o h y y' : sys_ok y -> handlers y !! k = Some h -> reads_tx (SQLParser0 := p) o ->
  fst (run_call (SQLParser0 := p) a (CallQuery (tx_text o)) (load h (shared y))) = Val tt ->
  sys_step (Command p k a (CallQuery (tx_text o))) y = Some y' ->
  client_tx k y' = Some (tx_spec o (Session.view (h_session h)))
  /\ (in_tx (new_conn a) = false -> client_in_sync k y -> client_in_sync k y').
Proof.
  intros Hok Hk Hr Hval. cbn [sys_step]. rewrite Hk.
  destruct (bool_decide _ && new_pointer a (load h (shared y))) eqn:Er; [|done]. apply andb_prop in Er as [_ Hf].
  cbn [is_quit andb].
  destruct (run_call a (CallQuery (tx_text o)) (load h (shared y))) as [r s'] eqn:E. cbn in Hval. subst r.
  intros [= <-]. unfold run_call, ibind in E.
  destruct (HandleQuery a (tx_text o) (load h (shared y))) as [[res|e| |] s1] eqn:Eq; try done. injection E as <-.
  destruct (ok_valid y k h Hok Hk) as [Hv _].
  destruct (query_sync p o a _ _ _ Hr Hv (new_pointer_dials _ _ Hf) Eq) as [Hview Hs].
  unfold client_tx, client_in_sync. cbn. rewrite lookup_insert_eq. split; [cbn; f_equal; exact Hview |].
  intros Hn (h' & Hk' & Hin). assert (h' = h) as -> by congruence. eexists. split; [done |]. exact (Hs Hn Hin).
Qed.

Lemma history_sync calm k ops y y' : sys_ok y -> tx_history calm k ops y y' ->
  (forall v, client_tx k y = Some v -> client_tx k y' = Some (fold_left (fun v o => tx_spec o v) ops v))
  /\ (calm -> client_in_sync k y -> client_in_sync k y').
Proof.
  intros Hok Hh. revert Hok.
  induction Hh as [y|e ops y y1 y2 He Hl Hs Hh IH|p a o ops h y y1 y2 Hp Hk Hr Hn Hs Hh IH]; intros Hok.
  - by split; [intros v -> |].
  - destruct (sys_step_ok e y y1 Hok Hs) as [Hok1 Hun]. destruct (in_sync_other e k y y1 (Hun k He)) as [Hv1 Hc1].
    destruct (IH Hok1) as [Hv Hc]. split; [intros v E; apply Hv; congruence | eauto].
  - destruct (sys_step_ok _ y y1 Hok Hs) as [Hok1 _]. destruct (in_sync_own p k a o h y y1 Hok Hk Hp Hr Hs) as [Hv1 Hc1].
    destruct (IH Hok1) as [Hv Hc]. split; [|eauto].
    intros v E. unfold client_tx in E. rewrite Hk in E. injection E as <-. by apply Hv.
Qed.

(** C4: Transactions of a client among others.  In any history of the process, a
    client connects and sends BEGIN, COMMIT, ROLLBACK and SET autocommit
    statements, and other clients and PostgreSQL do anything in between.  As long
    as its statements are answered without an error, its session ends in the
    state the proxy's rules give for its own statements alone; this is
    MySQL's state when no COMMIT or ROLLBACK was sent with autocommit off; and
    if PostgreSQL left its transactions alone (no KILL, no timeout), its
    PostgreSQL connection is in a transaction exactly when the session says
    so. *)
Theorem interleaved_transactions calm cfg ttl repl es y host k now y1 ops y' :
  dedicated (p_Mode cfg) = true -> sys_run es (sys_start cfg ttl repl) = Some y -> manager_locked y = false ->
  sys_step (Accept host k now) y = Some y1 -> tx_history calm k ops y1 y' ->
  client_tx k y' = Some (fold_left (fun v o => tx_spec o v) ops (mkTx true false))
  /\ (ends_begun_only true ops = true ->
        client_tx k y' = Some (mysql_view (fold_left mysql_step ops (mkMySQL true false))))
  /\ (calm -> client_in_sync k y').
Proof.
  intros Hm Hrun Hlock Hacc Hh. apply sys_run_ok in Hrun; [|by apply sys_start_ok].
  destruct (sys_accept host k now y y1 Hrun Hacc) as [Hok1 _].
  assert (client_in_sync k y1 /\ client_tx k y1 = Some (mkTx true false)) as [Hc Hv].
  { revert Hacc. cbn. case_bool_decide; [done |]. rewrite Hlock. intros [= <-]. unfold client_in_sync, client_tx. cbn.
    rewrite lookup_insert_eq. split; [by eexists | done]. }
  destruct (history_sync calm k ops y1 y' Hok1 Hh) as [Hview Hs]. specialize (Hview _ Hv).
  split; [exact Hview |]. split; [|by eauto]. intros He. rewrite Hview. f_equal.
  exact (tx_spec_mysql ops (mkMySQL true false) He).
Qed.
End transactions.
End system.

(** ** Witnesses: two clients of the toy PostgreSQL of [Connection] *)
Section witnesses.
#[local] Existing Instances ascii_tables toy_driver no_numerics text_builder toy_setup toy_tx_laws.

Definition dial_answers (c : nat) : Answers ToyPG := mkAnswers ToyPG 7 (Connected c) (inl c) new_pg None.
Definition ann : bytes := str "ann".
Definition bob : bytes := str "bob".
Definition affinity : PoolConfig := mkPoolConfig [] 0 [] [] [] [] 9 ModeSessionAffinity.
Definition sends (k : bytes) (c : nat) (q : string) : event ToyPG bytes :=
  Command toy_parser k (dial_answers c) (CallQuery (str q)).
Definition sends_tx (k : bytes) (c : nat) (o : txop) : event ToyPG bytes :=
  Command toy_parser k (dial_answers c) (CallQuery (tx_text o)).
(** PostgreSQL ends the transaction of connection [c]. *)
Definition pg_ends (c : nat) : event ToyPG bytes :=
  PgActs (fun d x => if (d =? c)%nat then mkToyPG (tp_path x) false (tp_log x) else x).

Definition two_clients : list (event ToyPG bytes) :=
  [Accept (str "h1") ann 1; Accept (str "h2") bob 2; sends ann 1 "SELECT 1"; sends bob 2 "BEGIN"; Gone bob].
Definition run_from (y : System ToyPG) (es : list (event ToyPG bytes)) : System ToyPG := default y (sys_run es y).
Abbreviation toy_start := (sys_start affinity 5 None).
Definition after_two : System ToyPG := run_from toy_start two_clients.

Lemma connections_private_witness :
  sys_run two_clients toy_start = Some after_two /\ 2%nat ∈ open_conns (g_pool (shared after_two)).
Proof.
  split; [vm_compute; reflexivity |].
  apply (connections_private affinity 5 None two_clients after_two); [reflexivity | vm_compute; reflexivity |].
  assert (is_Some (handlers after_two !! bob)) as [h Hh] by (vm_compute; by eexists).
  exists bob, h. split; [exact Hh |]. assert (Hc : (handlers after_two !! bob) ≫= h_pgConn = Some 2%nat) by (vm_compute; reflexivity).
  by rewrite Hh in Hc.
Defined.

(** Bob's open transaction while Eve drops a table and kills his backend. *)
Definition with_bob : System ToyPG := run_from toy_start (take 4 two_clients).
Definition eve_kills : list (event ToyPG bytes) :=
  [Accept (str "h3") (str "eve") 9; sends (str "eve") 3 "DROP TABLE t"; sends (str "eve") 3 "KILL 2"; pg_ends 2].

Lemma clients_do_not_interfere_witness :
  exists y', sys_run eve_kills with_bob = Some y'
    /\ g_conns (shared y') !! 2%nat = Some (mkToyPG (str "public") false []).
Proof.
  destruct (sys_run eve_kills with_bob) as [y'|] eqn:E; [|vm_compute in E; discriminate E].
  exists y'. split; [reflexivity |].
  destruct (clients_do_not_interfere affinity 5 None (take 4 two_clients) with_bob bob eve_kills y') as [_ Hc].
  - reflexivity.
  - vm_compute. reflexivity.
  - repeat (constructor; [discriminate |]). constructor.
  - exact E.
  - destruct (handlers with_bob !! bob) as [h|] eqn:Eh; [|vm_compute in Eh; discriminate Eh].
    rewrite (Hc h 2%nat eq_refl); [vm_compute; reflexivity |]. vm_compute in Eh. injection Eh as <-. reflexivity.
Defined.

(** Bob's BEGIN comes between Ann's statements, and PostgreSQL ends his
    transaction. *)
Definition only_bob : System ToyPG := run_from toy_start [Accept (str "h2") bob 2].
Definition with_ann : System ToyPG := run_from only_bob [Accept (str "h1") ann 1].

Lemma toy_path_tx db c n c' : pg_exec (set_search_path db) [] c = (Val n, c') -> tp_tx c' = tp_tx c.
Proof.
  cbn. unfold toy_exec. cbn [bytes_eqb]. change (has_prefix _ _) with true. cbn.
  destruct db; [done |]. by intros [= <- <-].
Qed.

Lemma interleaved_transactions_witness :
  let y1 := run_from with_ann [sends_tx ann 1 (TxAutocommit false)] in
  let y3 := run_from y1 [sends bob 2 "BEGIN"; pg_ends 2; sends_tx ann 1 TxBegin] in
  client_tx ann y3 = Some (mkTx false true) /\ client_in_sync tp_tx ann y3.
Proof.
  intros y1 y3. set (y1' := run_from y1 [sends bob 2 "BEGIN"]). set (y2 := run_from y1' [pg_ends 2]).
  destruct (handlers with_ann !! ann) as [h|] eqn:Eh; [|vm_compute in Eh; discriminate Eh].
  destruct (handlers y2 !! ann) as [h2|] eqn:Eh2; [|vm_compute in Eh2; discriminate Eh2].
  destruct (interleaved_transactions (Stmt := bytes) tp_tx) with (calm := True) (cfg := affinity) (ttl := 5) (repl := @None Server)
    (es := [Accept (C := ToyPG) (Stmt := bytes) (str "h2") bob 2]) (y := only_bob) (host := str "h1") (k := ann) (now := 1)
    (y1 := with_ann) (ops := [TxAutocommit false; TxBegin]) (y' := y3) as (_ & Hv & Hs).
  - apply toy_path_tx.
  - reflexivity.
  - vm_compute. reflexivity.
  - vm_compute. reflexivity.
  - vm_compute. reflexivity.
  - apply (history_own tp_tx True ann toy_parser (dial_answers 1) (TxAutocommit false) [TxBegin] h with_ann y1 y3).
    + reflexivity.
    + exact Eh.
    + vm_compute in Eh. injection Eh as <-. vm_compute. reflexivity.
    + reflexivity.
    + vm_compute. reflexivity.
    + apply (history_other tp_tx True ann (sends bob 2 "BEGIN") [TxBegin] y1 y1' y3);
        [discriminate | intros _ ? ? ? _ _ _; reflexivity | vm_compute; reflexivity |].
      apply (history_other tp_tx True ann (pg_ends 2) [TxBegin] y1' y2 y3); [discriminate | | vm_compute; reflexivity |].
      * intros _ h1 c x E1 E2 _. vm_compute in E1. injection E1 as <-. injection E2 as <-. reflexivity.
      * apply (history_own tp_tx True ann toy_parser (dial_answers 1) TxBegin [] h2 y2 y3 y3);
          [reflexivity | exact Eh2 | | reflexivity | vm_compute; reflexivity | constructor].
        vm_compute in Eh2. injection Eh2 as <-. vm_compute. reflexivity.
  - split; [exact (Hv eq_refl) | exact (Hs I)].
Defined.

(** A KILL of another client leaves the session behind: Ann has begun a
    transaction, Bob's KILL makes PostgreSQL end it, and her session still says
    that she is in one. *)
Lemma killed_transaction :
  let y := run_from with_ann [sends_tx ann 1 TxBegin; sends bob 2 "KILL 1"; pg_ends 1] in
  client_tx ann y = Some (mkTx true true) /\ tp_tx <$> g_conns (shared y) !! 1%nat = Some false.
Proof. split; vm_compute; reflexivity. Qed.
End witnesses.
