(* ===== verification/Observability.v ===== *)
(** * Logging, and the gauge of active connections

    [pkg/observability/logger.go]: the settings of the logger, what it writes
    about a query and what redaction leaves of it; the lines that
    [HandleQuery] and [handleKillCommand] of [pkg/protocol/mysql/handler.go]
    write about a statement besides; and the gauge of active connections over
    the life of the process ([System]).

    zap is not part of the sources: a log entry is its level, its message and
    its fields. *)

From Stdlib Require Import ZArith Lia.
From stdpp Require Import base numbers list strings gmap.
From S2P Require Import Prelude GoStd GoStrings SQLText SQLPasses Rewriter ACL Detector BinlogValue BinlogEvent.
From S2P Require Import PgDriver Mapper Variables ShowEmul ReplAdmin Pool ReqTrack Metrics SchemaCache Session ReplServer HandlerText Handler.
From S2P Require Import TextFacts HandlerFacts HandlerRuns Connection System.
Open Scope Z_scope.

(** ** The logger *)

Inductive Level := DebugLevel | InfoLevel | WarnLevel | ErrorLevel.
Definition level_of (level : bytes) : Level :=
  if bytes_eqb level (str "debug") then DebugLevel
  else if bytes_eqb level (str "info") then InfoLevel
  else if bytes_eqb level (str "warn") then WarnLevel
  else if bytes_eqb level (str "error") then ErrorLevel
  else InfoLevel.

Inductive preset := Production | Development.
Record Logger := mkLogger { l_preset : preset; l_level : Level; redactParams : bool }.

(** [build] is the error of [config.Build], if any. *)
Definition NewLogger (level format : bytes) (redact : bool) (build : option bytes) : res Logger :=
  match build with
  | Some m => Err m
  | None => Ok (mkLogger (if bytes_eqb format (str "json") then Production else Development) (level_of level) redact)
  end.

Inductive fieldvalue := FString (s : bytes) | FSeconds (nanoseconds : Z) | FInt64 (n : Z) | FBool (b : bool) | FError (m : bytes).
Record Entry := mkEntry { e_level : Level; e_message : bytes; e_fields : list (bytes * fieldvalue) }.

Definition rank (l : Level) : Z := match l with DebugLevel => -1 | InfoLevel => 0 | WarnLevel => 1 | ErrorLevel => 2 end.
(** An entry below the logger's level is not written. *)
Definition write (l : Logger) (e : Entry) : list Entry := if rank (l_level l) <=? rank (e_level e) then [e] else [].

Definition redactQuery (query : bytes) : bytes :=
  if (100 <? length query)%nat then take 100 query ++ str "... [REDACTED]" else str "[REDACTED]".

Definition client_fields (sessionID user clientIP : bytes) : list (bytes * fieldvalue) :=
  [(str "session_id", FString sessionID); (str "user", FString user); (str "client_ip", FString clientIP)].

Definition LogQuery (l : Logger) (sessionID user clientIP query : bytes) (duration rowsAffected : Z) (err : option bytes)
  : list Entry :=
  let query := if redactParams l then redactQuery query else query in
  let fields := client_fields sessionID user clientIP
    ++ [(str "query", FString query); (str "duration_seconds", FSeconds duration); (str "rows_affected", FInt64 rowsAffected)] in
  match err with
  | Some m => write l (mkEntry ErrorLevel (str "query_error") (fields ++ [(str "error", FError m)]))
  | None => write l (mkEntry InfoLevel (str "query_executed") fields)
  end.

Definition LogConnection (l : Logger) (sessionID user clientIP : bytes) (connected : bool) : list Entry :=
  write l (mkEntry InfoLevel (if connected then str "client_connected" else str "client_disconnected")
             (client_fields sessionID user clientIP)).

Definition LogError (l : Logger) (sessionID user clientIP errorType err : bytes) : list Entry :=
  write l (mkEntry ErrorLevel (str "error")
             (client_fields sessionID user clientIP ++ [(str "error_type", FString errorType); (str "error", FError err)])).

(** ** What the handler writes about a statement

    Besides [LogQuery], some branches of [HandleQuery] have a line of their own. *)

Section lines.
Context (l : Logger) (sess user ip : bytes).
Definition logged (query : bytes) (duration : Z) : list Entry := LogQuery l sess user ip query duration 0 None.

(** A replication command, and its error if it failed. *)
Definition log_replication (query : bytes) (duration : Z) (err : option bytes) : list Entry :=
  match err with
  | Some m => write l (mkEntry ErrorLevel (str "Replication command failed")
                         [(str "query", FString query); (str "error", FError m)])
  | None =>
      write l (mkEntry InfoLevel (str "Replication command handled")
                 [(str "session_id", FString sess); (str "query", FString query)]) ++ logged query duration
  end.

(** An account statement, the statement PostgreSQL gets for it, and its error
    if it failed. *)
Definition log_acl (query rewritten : bytes) (duration : Z) (err : option bytes) : list Entry :=
  match rewritten, err with
  | [], _ => logged query duration
  | _, Some m => write l (mkEntry ErrorLevel (str "ACL command failed")
                            [(str "mysql", FString query); (str "pg", FString rewritten); (str "error", FError m)])
  | _, None =>
      write l (mkEntry InfoLevel (str "ACL command handled") [(str "mysql", FString query); (str "pg", FString rewritten)])
      ++ logged query duration
  end.

Definition log_flush (query : bytes) (duration : Z) : list Entry :=
  write l (mkEntry InfoLevel (str "FLUSH command received (acknowledged)")
             [(str "session_id", FString sess); (str "query", FString query)]) ++ logged query duration.

Definition log_tablespace (query : bytes) : list Entry :=
  write l (mkEntry WarnLevel (str "TABLESPACE operation not supported in PostgreSQL")
             [(str "session_id", FString sess); (str "query", FString query)]).

(** One line for each unsupported feature, at its level. *)
Definition log_unsupported (features : list UnsupportedFeature) : list Entry :=
  features ≫= fun f =>
    let line level := write l (mkEntry level (str "Unsupported")
      [(str "feature", FString (str (Feature f))); (str "category", FString (str (Category f)));
       (str "sql", FString (f_SQL f)); (str "suggestion", FString (str (Suggestion f)))]) in
    if bytes_eqb (str (Severity f)) (str "error") then line ErrorLevel
    else if bytes_eqb (str (Severity f)) (str "warning") then line WarnLevel
    else if bytes_eqb (str (Severity f)) (str "info") then line InfoLevel
    else [].

(** With [debug_sql]. *)
Definition log_debug (debugSQL : bool) (query rewritten : bytes) : list Entry :=
  if debugSQL
  then write l (mkEntry InfoLevel (str "SQL Debug")
                  [(str "mysql", FString query); (str "pg", FString rewritten);
                   (str "rewritten", FBool (negb (bytes_eqb query rewritten)))])
  else [].

(** KILL; [err] is the error of the statement PostgreSQL got. *)
Definition log_kill (query : bytes) (duration : Z) (err : option bytes) : list Entry :=
  match err with
  | Some m => write l (mkEntry WarnLevel (str "KILL command failed") [(str "query", FString query); (str "error", FError m)])
  | None => []
  end ++ logged query duration.
End lines.

(** * Properties *)

(** The whole statement is in a field of an entry. *)
Definition shows (query : bytes) (log : list Entry) : Prop :=
  exists e k, e ∈ log /\ (k, FString query) ∈ e_fields e.

Lemma shows_write l e query k log : rank (l_level l) <= rank (e_level e) -> (k, FString query) ∈ e_fields e ->
  shows query (write l e ++ log).
Proof.
  intros Hl Hk. exists e, k. split; [|done]. apply elem_of_app. left. unfold write.
  destruct (Z.leb_spec (rank (l_level l)) (rank (e_level e))); [|lia]. apply list_elem_of_singleton. done.
Qed.

Ltac shown :=
  eapply shows_write; [cbn; lia | cbn [e_fields]; repeat first [apply list_elem_of_here | apply list_elem_of_further]].

(** The lines of the handler that redaction does not reach. *)
Lemma handler_lines_show l sess user ip q rewritten d err m (Hl : rank (l_level l) <= rank InfoLevel) :
  shows q (log_replication l sess user ip q d err) /\ (rewritten <> [] -> shows q (log_acl l sess user ip q rewritten d err))
  /\ shows q (log_flush l sess user ip q d) /\ shows q (log_tablespace l sess q)
  /\ shows q (log_debug l true q rewritten) /\ shows q (log_kill l sess user ip q d (Some m)).
Proof.
  cbn in Hl. split_and!.
  - destruct err; [rewrite <- (app_nil_r (log_replication _ _ _ _ _ _ _))|]; shown.
  - intros Hr. destruct rewritten as [|c r]; [done |].
    destruct err; [rewrite <- (app_nil_r (log_acl _ _ _ _ _ _ _ _))|]; shown.
  - shown.
  - rewrite <- (app_nil_r (log_tablespace _ _ _)). shown.
  - rewrite <- (app_nil_r (log_debug _ _ _ _)). shown.
  - shown.
Qed.

(** A detected feature is logged with the statement. *)
Lemma unsupported_shown `{!Unicode} l patterns q f : rank (l_level l) <= rank InfoLevel -> f ∈ Detect patterns q ->
  (Severity f = "error" \/ Severity f = "warning" \/ Severity f = "info")%string -> shows q (log_unsupported l (Detect patterns q)).
Proof.
  cbn. intros Hl Hf Hs. assert (f_SQL f = q) as Hq.
  { unfold Detect in Hf. apply list_elem_of_In, in_map_iff in Hf as (p & <- & _). done. }
  assert (shows q (log_unsupported l [f])) as (e & k & He & Hk).
  { unfold log_unsupported. cbn [mbind list_bind]. rewrite <- Hq.
    destruct Hs as [Hs|[Hs|Hs]]; rewrite Hs; cbn [bytes_eqb str]; shown. }
  exists e, k. split; [|done]. unfold log_unsupported in *. apply list_elem_of_bind in He as (f' & He & Hf').
  apply list_elem_of_singleton in Hf' as ->. apply list_elem_of_bind. by exists f.
Qed.

(** What redaction leaves of two statements in the entry of [LogQuery]. *)
Lemma redactQuery_same q1 q2 : redactQuery q1 = redactQuery q2 <->
  ((length q1 <= 100)%nat /\ (length q2 <= 100)%nat
   \/ (100 < length q1)%nat /\ (100 < length q2)%nat /\ take 100 q1 = take 100 q2).
Proof.
  unfold redactQuery.
  destruct (Nat.ltb_spec 100 (length q1)) as [H1|H1], (Nat.ltb_spec 100 (length q2)) as [H2|H2]; split.
  - intros E%app_inv_tail. by right.
  - intros [[? ?]|(_ & _ & ->)]; [lia | done].
  - intros E. apply (f_equal length) in E. rewrite length_app, length_take in E. cbn in E. lia.
  - lia.
  - intros E. apply (f_equal length) in E. rewrite length_app, length_take in E. cbn in E. lia.
  - lia.
  - intros _. by left.
  - done.
Qed.

(** C26: What redaction hides, and what it does not reach.  With a logger that
    writes entries of the level info and redaction on: the entries [LogQuery]
    writes about two statements are the same exactly when both have at most
    100 bytes, or both have more and agree on the first 100 (a short statement
    is hidden completely, of a long one the first 100 bytes are written as they
    are).  But replication commands, account statements such as CREATE USER
    with their passwords, FLUSH, tablespace statements, a KILL that fails,
    statements with unsupported features, and every statement with debug_sql
    are also written in full by the handler itself. *)
Theorem redaction_reveals `{!Unicode} l sess user ip q1 q2 rewritten d n err m patterns f :
  redactParams l = true -> rank (l_level l) <= rank InfoLevel ->
  (LogQuery l sess user ip q1 d n err = LogQuery l sess user ip q2 d n err <->
    ((length q1 <= 100)%nat /\ (length q2 <= 100)%nat
     \/ (100 < length q1)%nat /\ (100 < length q2)%nat /\ take 100 q1 = take 100 q2))
  /\ shows q1 (log_replication l sess user ip q1 d err)
  /\ (rewritten <> [] -> shows q1 (log_acl l sess user ip q1 rewritten d err))
  /\ shows q1 (log_flush l sess user ip q1 d) /\ shows q1 (log_tablespace l sess q1)
  /\ shows q1 (log_debug l true q1 rewritten) /\ shows q1 (log_kill l sess user ip q1 d (Some m))
  /\ (f ∈ Detect patterns q1 -> (Severity f = "error" \/ Severity f = "warning" \/ Severity f = "info")%string ->
       shows q1 (log_unsupported l (Detect patterns q1))).
Proof.
  intros Hr Hl. split; [|].
  - rewrite <- redactQuery_same. unfold LogQuery, write. rewrite Hr. split; [|by intros ->].
    destruct l as [p [] r]; try (by cbn in Hl); cbn; destruct err; intros [=]; done.
  - destruct (handler_lines_show l sess user ip q1 rewritten d err m Hl) as (H1 & H2 & H3 & H4 & H5 & H6).
    split_and!; try done. by apply unsupported_shown.
Qed.

Lemma redaction_reveals_witness :
  let l := mkLogger Production InfoLevel true in
  let q s := str "UPDATE users SET password = '" ++ str s ++ replicate 100 32 in
  let create := str "CREATE USER 'ann' IDENTIFIED BY 'secret'" in
  LogQuery l [] [] [] (q "secret1") 0 0 None <> LogQuery l [] [] [] (q "secret2") 0 0 None
  /\ LogQuery l [] [] [] create 0 0 None = LogQuery l [] [] [] (str "SELECT 1") 0 0 None
  /\ shows create (log_acl l [] [] [] create (str "CREATE ROLE") 0 None).
Proof.
  intros l q create. set (f := mkFeature "" [] "" "" "").
  destruct (@redaction_reveals ascii_tables l [] [] [] (q "secret1") (q "secret2") [] 0 0 None [] [] f) as [H1 _]; [reflexivity | vm_compute; discriminate |].
  destruct (@redaction_reveals ascii_tables l [] [] [] create (str "SELECT 1") (str "CREATE ROLE") 0 0 None [] [] f)
    as (H2 & _ & H3 & _); [reflexivity | vm_compute; discriminate |].
  split; [|split].
  - intros E. apply H1 in E. destruct E as [[Hs _]|(_ & _ & E)]; [vm_compute in Hs; lia | by vm_compute in E].
  - apply H2. left. split; vm_compute; lia.
  - by apply H3.
Defined.

(** ** The gauge of active connections *)

Section gauge.
Context `{!Unicode} {Stmt : Type}.
Context {C : Type} `{!PgDriver C, !NumericText, !ResultsetBuilder, !Setup C}.

(** The calls of a client other than COM_QUIT leave the gauge alone. *)
Definition same_gauge (s s' : Proxy C) : Prop := ActiveConnections (metrics s') = ActiveConnections (metrics s).
#[export] Instance same_gauge_preorder : PreOrder same_gauge.
Proof. split; [done |]. intros s1 s2 s3. unfold same_gauge. congruence. Qed.
#[export] Instance gauge_frame a : CallFrame a same_gauge.
Proof.
  split; [apply _ | | | |].
  - intros A c s. unfold on_env. destruct (ch_pgConn s); [|done]. destruct (conns s !! _); [|done]. by destruct (c _) as [? [? ?]].
  - intros op _ s. unfold on_session. destruct (op _) as [r v]. by repeat case_match.
  - intros s. unfold acquire_conn, ibind, iget, id. destruct (ch_pgConn s); [done |]. unfold zoom.
    destruct (AcquireForSession _ _ _ _) as [[conn|e| |] p]; [|done..]. cbn. by destruct (conns s !! conn).
  - by intros s s' [].
Qed.

(** The clients whose COM_QUIT has not returned. *)
Definition closing_clients (y : System C) : gmap bytes ConnHandler :=
  filter (fun p => h_goroutine p.2 = Closing) (handlers y).
Definition gauge_ok (y : System C) : Prop :=
  ActiveConnections (g_metrics (shared y)) + Z.of_nat (size (closing_clients y)) = Z.of_nat (size (handlers y)).

Lemma gauge_store y k h g s' : gauge_ok y -> handlers y !! k = Some h -> h_goroutine h <> Closing ->
  ActiveConnections (metrics s') = ActiveConnections (g_metrics (shared y)) - (if decide (g = Closing) then 1 else 0) ->
  gauge_ok (store k g s' y).
Proof.
  unfold gauge_ok, closing_clients, store. intros Hok Ek Hh Hg. cbn. rewrite Hg, map_size_insert_Some by eauto.
  assert (Hnone : filter (fun p => h_goroutine p.2 = Closing) (handlers y) !! k = None)
    by (apply map_lookup_filter_None; right; intros x Hx; cbn; congruence).
  destruct (decide (g = Closing)) as [->|Hng].
  - rewrite map_filter_insert_True by done. rewrite map_size_insert_None by done. lia.
  - rewrite map_filter_insert_False by done. rewrite map_filter_delete, delete_id by done. lia.
Qed.

Lemma gauge_command p k a c y y' : sys_ok y -> gauge_ok y -> sys_step (Stmt := Stmt) (Command p k a c) y = Some y' -> gauge_ok y'.
Proof.
  intros Hok Hg. cbn [sys_step]. destruct (handlers y !! k) as [h|] eqn:Ek; [|done].
  destruct (bool_decide_reflect (h_goroutine h = Serving)) as [Hs|]; [|done]. cbn [andb].
  assert (Hh : h_goroutine h <> Closing) by congruence. destruct (new_pointer a _); [|done].
  destruct (is_quit c) eqn:Eq; cbn [andb].
  - destruct (manager_locked y); [intros [= <-]; by apply (gauge_store y k h) |].
    destruct c as [| | | | | |cmd data]; try done. destruct cmd; try done. cbn [run_call HandleOtherCommand].
    destruct (ch_Close a (load h (shared y))) as [r s'] eqn:E.
    assert (r = Died \/ r <> Died) as [->|Hr] by (destruct r; auto); [done |].
    destruct (ok_valid y k h Hok Ek) as [Hv Hid].
    destruct (close_effect a _ r s' Hv) as (Hm & [[-> _]|(-> & _ & _ & _)]); [|done | done | |].
    { cbn. rewrite Hid, <- (ok_registered y Hok). apply elem_of_dom. by eexists. }
    + intros [= <-]. apply (gauge_store y k h); try done. by rewrite Hm.
    + intros [= <-]. unfold gauge_ok, closing_clients in *. cbn. rewrite Hm. cbn.
      rewrite map_filter_delete, delete_id by (apply map_lookup_filter_None; right; intros x Hx; cbn; congruence).
      rewrite map_size_delete_Some by eauto.
      assert (size (handlers y) <> 0%nat) by (intros E0%map_size_empty_inv; rewrite E0 in Ek; done). lia.
  - assert (Hst : stays_connected c) by (by destruct c as [| | | | | |[] ?]).
    pose proof (call_within (SQLParser0 := p) same_gauge a c Hst (load h (shared y))) as Hsame. unfold same_gauge in Hsame.
    assert (Hb : forall s : Proxy C, blocked_in c s <> Closing) by (intros s; destruct c as [| | | | | |[] ?]; cbn; try done; by destruct (replServer s)).
    destruct (run_call a c (load h (shared y))) as [[[]|e| |] s'] eqn:E; intros [= <-]; cbn [snd] in Hsame;
      (apply (gauge_store y k h); [done | done | done |]; rewrite Hsame; cbn; rewrite decide_False by done; lia).
Qed.

Lemma gauge_step_ok e y y' : sys_ok y -> gauge_ok y -> sys_step (Stmt := Stmt) e y = Some y' -> gauge_ok y'.
Proof.
  intros Hok Hg. destruct e as [host uuid now|p k a c|k|f]; [| by apply gauge_command | |].
  - cbn. case_bool_decide as Hn; [done |]. destruct (manager_locked y); [by intros [= <-] |]. intros [= <-].
    assert (Hnone : handlers y !! uuid = None) by (apply not_elem_of_dom; by rewrite (ok_registered y Hok)).
    unfold gauge_ok, closing_clients in *. cbn. rewrite map_size_insert_None by done.
    rewrite map_filter_insert_False by done. rewrite map_filter_delete, delete_id
      by (apply map_lookup_filter_None; by left). lia.
  - cbn. destruct (handlers y !! k) as [h|] eqn:Ek; [|done].
    destruct (h_goroutine h) as [| |client| |] eqn:Eh; intros [= <-]; try done; apply (gauge_store y k h); try done; try congruence.
    + rewrite decide_False by done. cbn. lia.
    + rewrite decide_False by done. unfold dump_returns, ibind, iget, id. cbn [replServer load]. destruct (g_replServer (shared y)); cbn; lia.
  - intros [= <-]. exact Hg.
Qed.

(** C25: The gauge of active connections counts sessions, not clients: after any
    history of the process it is the number of sessions the manager holds, less
    those of clients whose COM_QUIT has not come back from closing the session;
    so a client that left without COM_QUIT is counted until the process ends. *)
Theorem active_gauge cfg ttl repl (es : list (event C Stmt)) (y : System C) :
  dedicated (p_Mode cfg) = true -> sys_run es (sys_start cfg ttl repl) = Some y ->
  ActiveConnections (g_metrics (shared y))
  = Z.of_nat (size (g_registered (shared y))) - Z.of_nat (size (closing_clients y)).
Proof.
  intros Hm Hrun. pose proof (sys_run_ok es _ y (sys_start_ok cfg ttl repl Hm) Hrun) as Hok.
  rewrite <- (ok_registered y Hok), size_dom. clear Hok.
  assert (Hgen : forall es y0, sys_ok y0 -> gauge_ok y0 -> sys_run (Stmt := Stmt) es y0 = Some y -> gauge_ok y).
  { clear. induction es as [|e es IH]; intros y0 Hok Hg; cbn; [by intros [= <-] |].
    destruct (sys_step e y0) as [y1|] eqn:E; [|done]. apply IH; [by apply (sys_step_ok e y0) | by apply (gauge_step_ok e y0)]. }
  assert (Hend : gauge_ok y) by (by apply (Hgen es (sys_start cfg ttl repl)); [apply sys_start_ok | |]).
  unfold gauge_ok in Hend. lia.
Qed.
End gauge.

Lemma active_gauge_witness : ActiveConnections (g_metrics (shared after_two)) = 2.
Proof.
  rewrite (@active_gauge ascii_tables _ _ toy_driver no_numerics text_builder toy_setup affinity 5 None two_clients
             after_two); [vm_compute; reflexivity | reflexivity | vm_compute; reflexivity].
Defined.
