(* ===== verification/Startup.v ===== *)
(** * Configuration and start-up

    [internal/config/config.go], and [main] of [cmd/aproxy/main.go] from the
    configuration file to the process that serves clients ([boot]); what the
    process does then is [System].  Reading the file, decoding YAML, and the
    answers of zap, pgxpool and PostgreSQL are arguments. *)

From Stdlib Require Import ZArith Lia.
From stdpp Require Import base numbers list strings gmap.
From S2P Require Import Prelude GoStd GoStrings SQLText SQLPasses Rewriter PgDriver Mapper Variables SchemaCache Session.
From S2P Require Import ReplServer PGStreamer Pool ReqTrack Metrics HandlerText TextFacts Handler Connection System Observability.
Open Scope Z_scope.

(** ** Configuration *)

Record cfg_ServerConfig := mkCfgServer {
  s_Host : bytes; s_Port : Z; MaxConnections : Z; MaxPacketSize : Z; ReadTimeout : Z; WriteTimeout : Z }.
Record PostgresConfig := mkCfgPostgres {
  g_Host : bytes; g_Port : Z; g_Database : bytes; g_User : bytes; g_Password : bytes;
  g_MaxPoolSize : Z; g_ConnectionMode : bytes; g_SSLMode : bytes }.
Record AuthConfig := mkCfgAuth { a_Mode : bytes; AllowedUsers : list bytes }.
Record SecurityConfig := mkCfgSecurity {
  RateLimitPerSecond : Z; MaxConnectionsPerIP : Z; EnableTLS : bool; TLSCert : bytes; TLSKey : bytes;
  DangerousCommandsBlacklist : list bytes }.
Record SQLRewriteConfig := mkCfgRewrite { w_Enabled : bool; CustomRules : bytes; DebugSQL : bool }.
Record ObservabilityConfig := mkCfgObs {
  MetricsPort : Z; LogLevel : bytes; LogFormat : bytes; EnableQueryLog : bool; RedactParameters : bool;
  EnableTracing : bool; TracingEndpoint : bytes }.
Record SchemaCacheConfig := mkCfgCache { c_Enabled : bool; c_TTL : Z; MaxEntries : Z; InvalidateOnDDL : bool }.
Record cfg_BinlogConfig := mkCfgBinlog {
  b_Enabled : bool; b_Dir : bytes; b_MaxFileSize : Z; b_MaxFiles : Z; b_SyncMode : bytes; b_Format : bytes;
  b_FlushInterval : Z; b_BufferSize : Z; b_LogDDL : bool; b_LogDML : bool; b_LogSelect : bool }.

Record Config := mkConfig {
  c_Server : cfg_ServerConfig; c_Postgres : PostgresConfig; c_Auth : AuthConfig; c_Security : SecurityConfig;
  c_SQLRewrite : SQLRewriteConfig; c_Observability : ObservabilityConfig; c_SchemaCache : SchemaCacheConfig;
  c_Binlog : cfg_BinlogConfig }.

Definition DefaultConfig : Config :=
  mkConfig
    (mkCfgServer (str "0.0.0.0") 3306 1000 16777216 (30 * second) (30 * second))
    (mkCfgPostgres (str "localhost") 5432 (str "postgres") (str "postgres") [] 100 (str "session_affinity") (str "prefer"))
    (mkCfgAuth (str "pass_through") [])
    (mkCfgSecurity 1000 10 false [] [] [str "COM_BINLOG_DUMP"; str "FLUSH PRIVILEGES"])
    (mkCfgRewrite true [] false)
    (mkCfgObs 9090 (str "info") (str "json") false true false (str "localhost:4318"))
    (mkCfgCache true (5 * 60 * second) 10000 true)
    (mkCfgBinlog true (str "./data/binlog") (100 * 1024 * 1024) 10 (str "async") (str "json") second (64 * 1024)
       true true false).

(** [os.ReadFile]. *)
Inductive file_read := Missing | Unreadable (m : bytes) | Contents (data : bytes).

(** [Unmarshal] decodes over a configuration. *)
Definition LoadConfig (Unmarshal : bytes -> Config -> res Config) (file : file_read) : res Config :=
  let cfg := DefaultConfig in
  match file with
  | Missing => Ok cfg
  | Unreadable m => Err (str "failed to read config file: " ++ m)
  | Contents data =>
      match Unmarshal data cfg with
      | Err m => Err (str "failed to parse config file: " ++ m)
      | r => r
      end
  end.

(** [None] is a nil error. *)
Definition Validate (c : Config) : option bytes :=
  let port p := (p <? 1) || (65535 <? p) in
  if port (s_Port (c_Server c)) then Some (str "invalid server port: " ++ dec_Z (s_Port (c_Server c)))
  else if MaxConnections (c_Server c) <? 1 then Some (str "max_connections must be at least 1")
  else if MaxPacketSize (c_Server c) <? 1024 then Some (str "max_packet_size must be at least 1024 bytes")
  else if bytes_eqb (g_Host (c_Postgres c)) [] then Some (str "postgres host is required")
  else if port (g_Port (c_Postgres c)) then Some (str "invalid postgres port: " ++ dec_Z (g_Port (c_Postgres c)))
  else if g_MaxPoolSize (c_Postgres c) <? 1 then Some (str "postgres max_pool_size must be at least 1")
  else if negb (bytes_eqb (a_Mode (c_Auth c)) (str "pass_through"))
          && negb (bytes_eqb (a_Mode (c_Auth c)) (str "proxy_auth"))
       then Some (str "invalid auth mode: " ++ a_Mode (c_Auth c) ++ str " (must be 'pass_through' or 'proxy_auth')")
  else if EnableTLS (c_Security c)
          && (bytes_eqb (TLSCert (c_Security c)) [] || bytes_eqb (TLSKey (c_Security c)) [])
       then Some (str "tls_cert and tls_key are required when enable_tls is true")
  else None.

(** ** What [main] builds *)

(** [pool.ConnectionMode(s)], by the constants it is compared with. *)
Definition mode_of (s : bytes) : ConnectionMode :=
  if bytes_eqb s (str "session_affinity") then ModeSessionAffinity
  else if bytes_eqb s (str "pooled") then ModePooled
  else if bytes_eqb s (str "hybrid") then ModeHybrid
  else ModeOther.

Definition pool_config (c : Config) : PoolConfig :=
  let g := c_Postgres c in
  mkPoolConfig (g_Host g) (g_Port g) (g_Database g) (g_User g) (g_Password g) (g_SSLMode g) (g_MaxPoolSize g)
    (mode_of (g_ConnectionMode g)).

(** The fields [main] does not give have their zero values. *)
Definition repl_config (c : Config) : ServerConfig :=
  let g := c_Postgres c in
  mkServerConfig true 1 (g_Host g) (g_Port g) (g_Database g) (g_User g) (g_Password g) (str "aproxy_cdc")
    (str "aproxy_pub") (str "mysql-bin.000001") 4 0 [] 0 false 0 0 0.

Definition repl_server (c : Config) (uuid : bytes) : option Server :=
  if b_Enabled (c_Binlog c) then NewServer (Some (repl_config c)) uuid else None.

(** ** [main] up to the two servers *)

(** What the environment answers: the file, the YAML decoder, zap, pgxpool, the
    local zone, the second ping, the debug variable, a uuid, and the streamer. *)
Record Boot := mkBoot {
  b_file : file_read; b_unmarshal : bytes -> Config -> res Config; b_logger : option bytes; b_pool : PoolAnswers;
  b_offset : Z; b_ping : option bytes; b_timing : bytes; b_uuid : bytes; b_streamer : option bytes }.

(** What serves the clients: the handler's parts, the credentials that are asked
    of clients, and the addresses. *)
Record Process := mkProcess {
  pr_logger : Logger; pr_pool : Pool; pr_cache : option Cache; pr_rewriter : Rewriter; pr_repl : option Server;
  pr_user : bytes; pr_password : bytes; pr_addr : bytes; pr_metrics : bytes }.

Inductive booted :=
| Exited (stderr : bytes)
| FatalLog (message err : bytes)
| Crashed
| Serving (p : Process).

Definition frontendAuthCredentials (c : Config) : bytes * bytes := (g_User (c_Postgres c), g_Password (c_Postgres c)).

(** A replication server that could not be started is kept. *)
Definition started_repl (b : Boot) (c : Config) : option Server :=
  match repl_server c (b_uuid b) with
  | Some srv => snd (Start (match b_streamer b with None => Ok tt | Some m => Err m end) (Some srv))
  | None => None
  end.

Definition rewriter_for (b : Boot) (c : Config) : Rewriter :=
  let r := NewRewriter (w_Enabled (c_SQLRewrite c)) in
  if bytes_eqb (b_timing b) (str "1") then EnableDebugTiming (10 * 1000000) r else r.

Definition process_of (b : Boot) (c : Config) (logger : Logger) (pool : Pool) : Process :=
  mkProcess logger pool (if c_Enabled (c_SchemaCache c) then InitGlobalCache (c_TTL (c_SchemaCache c)) None else None)
    (rewriter_for b c) (started_repl b c) (frontendAuthCredentials c).1 (frontendAuthCredentials c).2
    (s_Host (c_Server c) ++ str ":" ++ dec_Z (s_Port (c_Server c)))
    (str ":" ++ dec_Z (MetricsPort (c_Observability c))).

Definition boot (b : Boot) : booted :=
  match LoadConfig (b_unmarshal b) (b_file b) with
  | Panic => Crashed
  | Err m => Exited (str "Failed to load config: " ++ m)
  | Ok cfg =>
      match Validate cfg with
      | Some m => Exited (str "Invalid config: " ++ m)
      | None =>
          let o := c_Observability cfg in
          match NewLogger (LogLevel o) (LogFormat o) (RedactParameters o) (b_logger b) with
          | Panic => Crashed
          | Err m => Exited (str "Failed to create logger: " ++ m)
          | Ok logger =>
              match NewPool (b_pool b) (b_offset b) (pool_config cfg) with
              | Panic => Crashed
              | Err m => FatalLog (str "Failed to create PostgreSQL pool") m
              | Ok pool =>
                  match b_ping b with
                  | Some m => FatalLog (str "Failed to ping PostgreSQL") m
                  | None => Serving (process_of b cfg logger pool)
                  end
              end
          end
      end
  end.

(** The health endpoint, by the error of [pgPool.Ping]. *)
Definition health (ping : option bytes) : Z * bytes :=
  match ping with Some _ => (503, str "PostgreSQL unhealthy") | None => (200, str "OK") end.

(** The process without clients; the global cache is made by the first use when
    [main] did not. *)
Definition system_of {C} (p : Process) : System C :=
  mkSystem C ∅ (mkShared C ∅ (pr_pool p) (default (NewCache 0) (GetGlobalCache (pr_cache p))) ∅ NewTracker zero_metrics ∅ (pr_repl p)).

(** * Properties *)

(** The replication that [main] starts neither saves nor resumes from a
    checkpoint and does not reconnect, whatever the configuration file says:
    saving writes nothing and reports success, a checkpoint file on disk is not
    read, and the first error of the stream ends it. *)
Theorem deployed_replication c uuid srv s
  (Hsrv : repl_server c uuid = Some srv) (Hs : st_config s = srv_config srv) :
  (forall marshal fault now, saveCheckpoint marshal fault now s = (Ok tt, s))
  /\ (forall unmarshal read_fault, loadCheckpoint unmarshal read_fault s = (Ok tt, s))
  /\ (forall answers m l cancelled, stream_retry answers (Err m) cancelled l s = (Returned, s)).
Proof.
  unfold repl_server, NewServer in Hsrv. destruct (b_Enabled _); [|done]. cbn in Hsrv.
  injection Hsrv as <-. cbn in Hs. split; [|split].
  - intros. unfold saveCheckpoint, sbind, sget. rewrite Hs. done.
  - intros. unfold loadCheckpoint, sbind, sget. rewrite Hs. done.
  - intros. unfold stream_retry. rewrite Hs. by destruct cancelled.
Qed.

Lemma deployed_replication_witness :
  let s := new_streamer (repl_config DefaultConfig) (Some (str "{}")) in
  saveCheckpoint (fun _ => Ok (str "data")) FsOk 5 s = (Ok tt, s).
Proof.
  intros s. destruct (repl_server DefaultConfig (str "uuid")) as [srv|] eqn:E; [|done].
  apply (deployed_replication DefaultConfig (str "uuid") srv s); [done |].
  injection E as <-. reflexivity.
Defined.

(** The replication server's own defaults have both. *)
Example default_replication :
  CheckpointFile DefaultServerConfig <> [] /\ ReconnectEnabled DefaultServerConfig = true.
Proof. by split. Qed.

(** A missing file is the default configuration, which is valid. *)
Example missing_file_valid unmarshal : LoadConfig unmarshal Missing = Ok DefaultConfig /\ Validate DefaultConfig = None.
Proof. by split. Qed.

(** A valid configuration has ports in range and a pool of at least one
    connection, unless its size does not fit 32 bits; its TLS files are named
    when TLS is on. *)
Theorem validated_startup c : Validate c = None ->
  1 <= s_Port (c_Server c) <= 65535 /\ 1 <= p_Port (pool_config c) <= 65535 /\ p_Host (pool_config c) <> []
  /\ (Pool.MaxPoolSize (pool_config c) < 2 ^ 31 -> 1 <= MaxConns (pgx_settings 0 (pool_config c)))
  /\ (EnableTLS (c_Security c) = true -> TLSCert (c_Security c) <> [] /\ TLSKey (c_Security c) <> []).
Proof.
  unfold Validate. intros H.
  repeat match type of H with (if ?b then _ else _) = None => destruct b eqn:?; [discriminate H |] end.
  cbn. split; [lia |]. split; [lia |]. split; [by intros E; rewrite E in *|]. split.
  - intros Hm. cbn in *. rewrite swrap_id by (unfold in_swidth; lia). lia.
  - intros Ht. rewrite Ht in *. split; intros E; rewrite E in *; cbn in *; by rewrite ?orb_true_r in *.
Qed.

Lemma validated_startup_witness : 1 <= MaxConns (pgx_settings 0 (pool_config DefaultConfig)).
Proof. apply (validated_startup DefaultConfig); reflexivity. Defined.

(** A size the check accepts and the pool does not get, and a mode it accepts
    and the pool does not know. *)
Definition big_pool : Config :=
  let d := DefaultConfig in
  mkConfig (c_Server d) (mkCfgPostgres (str "h") 5432 [] [] [] (2 ^ 31) (str "session-affinity") [])
    (c_Auth d) (c_Security d) (c_SQLRewrite d) (c_Observability d) (c_SchemaCache d) (c_Binlog d).
Example big_pool_wraps : Validate big_pool = None /\ MaxConns (pgx_settings 0 (pool_config big_pool)) = - 2 ^ 31
  /\ dedicated (p_Mode (pool_config big_pool)) = false.
Proof. by vm_compute. Qed.

(** ** From the configuration file to the clients *)

Lemma boot_inv b p : boot b = Serving p ->
  exists cfg logger, LoadConfig (b_unmarshal b) (b_file b) = Ok cfg /\ Validate cfg = None
    /\ p = process_of b cfg logger (fresh_pool (pool_config cfg)).
Proof.
  unfold boot. destruct (LoadConfig _ _) as [cfg| |]; [|done..]. destruct (Validate cfg) eqn:Ev; [done |].
  destruct (NewLogger _ _ _ _) as [logger| |]; [|done..].
  destruct (NewPool _ _ _) as [pool| |] eqn:Ep; [|done..]. destruct (b_ping b); [done |]. intros [= <-].
  exists cfg, logger. split; [done |]. split; [done |]. f_equal. revert Ep. unfold NewPool.
  destruct (parsed _); [done |]. destruct (created _ _); [done |]. destruct (pinged _); [done |]. by intros [= <-].
Qed.

Section boot.
Context `{!Unicode}.
Context {C : Type} `{!PgDriver C, !NumericText, !ResultsetBuilder, !Setup C}.

Lemma system_of_ok p : dedicated (mode (pr_pool p)) = true -> (exists cfg, pr_pool p = fresh_pool cfg) ->
  sys_ok (C := C) (system_of p).
Proof.
  intros Hm [cfg Hp]. split; cbn; rewrite ?Hp; cbn; try done; try (by rewrite Hp in Hm).
  - apply fresh_pool_ok.
  - intros sid [x Hx]. by rewrite lookup_empty in Hx.
Qed.

(** A process that gets to serve clients, with dedicated connections, starts in
    order, so that what [System] shows holds of every history of it. *)
Lemma boot_ok b p : boot b = Serving p -> dedicated (mode (pr_pool p)) = true -> sys_ok (C := C) (system_of p).
Proof. intros (cfg & logger & Hl & Hv & ->)%boot_inv Hm. apply system_of_ok; [done | by eexists]. Qed.

(** Turning the schema cache off does not turn it off: the first look-up makes
    one that keeps entries for five minutes. *)
Theorem disabled_cache_caches b p cfg :
  boot b = Serving p -> LoadConfig (b_unmarshal b) (b_file b) = Ok cfg -> c_Enabled (c_SchemaCache cfg) = false ->
  g_cache (shared (C := C) (system_of p)) = NewCache (5 * 60 * second).
Proof.
  intros (cfg' & logger & Hl & Hv & ->)%boot_inv Hl' He. assert (cfg' = cfg) as -> by congruence.
  unfold system_of, process_of. cbn. by rewrite He.
Qed.
End boot.

Definition demo_boot : Boot :=
  mkBoot Missing (fun _ c => Ok c) None (mkPoolAnswers None (fun _ => None) None) 3600 None [] (str "uuid") None.
Example demo_boots : exists p, boot demo_boot = Serving p /\ dedicated (mode (pr_pool p)) = true.
Proof. eexists. by split. Qed.
